(** * Fractal-thinking analysis engine: change tracking, pattern analysis,
      analysis cache and summary codec

    A shallow embedding of the [FractalThinkingServer] class and of
    [AnalysisSummarizer] (the version of the server with the analysis cache),
    with the properties of its specification and further properties of the
    code stated over it.

    Modelling conventions.
    - A TypeScript [number] that is always an integer (depths, counts,
      timestamps in milliseconds, cache capacity) is a [Z].  A [number] that is
      a ratio or a score is a [number] below: an exact rational extended with
      [Infinity], [-Infinity] and [NaN], with the IEEE rules for the three
      special values.  Finite arithmetic is exact (no rounding, no overflow, no
      negative zero).
    - [Date.now()] is an explicit argument [now] of every operation that reads
      the clock: one reading per top-level call.
    - [changeTracker] is a JS [Map] used through [get]/[set] only: a [gmap].
      [analysisCache] and [aggregateCache] are plain objects that the code also
      enumerates ([Object.entries], [Object.keys]) and sorts stably, so they
      are association lists in insertion order, one binding per key.  A read
      [object[id]] also finds the members that a plain object inherits from
      [Object.prototype] ([inherited] below): [getCachedAnalysis] throws on
      such a member, and for the other reads of the two caches it behaves as
      a missing entry.  The server stores no analysis under such a name
      ([reachable_keys_plain]).  Keys are not integer-like strings (which JS
      enumerates first).
    - Strings are byte strings; white space is ASCII white space.
    - [uuidv4()] and [new Date().toISOString()] are explicit arguments of
      [addThought]; the datetime test of its schema is a parameter
      [is_datetime].  A method that throws returns an error value.
    - The class is modelled through its methods.  The tool handlers around
      it, which sort the pattern list of a returned analysis in place, are
      not part of the model.
    - The counting pass of the server without the cache
      (src/fractal-thinking-mcp.ts) is in the module [Legacy]. *)

From Stdlib Require Import ZArith QArith Qabs Qround Lqa String Ascii List Lia Bool.
From Stdlib Require Import Sorting.Sorted Sorting.Permutation.
From stdpp Require Import gmap strings pretty.
Import ListNotations.

Local Open Scope string_scope.
Local Open Scope Z_scope.

(** ** JavaScript numbers *)

Module Num.

Inductive number : Type :=
| Fin (q : Q)
| PInf
| NInf
| NaN.

(** Finite results are kept in lowest terms, so results compare with [=]. *)
Definition fin (q : Q) : number := Fin (Qred q).

Definition of_Z (z : Z) : number := Fin (inject_Z z).

Definition Qltb (a b : Q) : bool := negb (Qle_bool b a).

Definition is_finite (x : number) : bool :=
  match x with Fin _ => true | _ => false end.

Definition add (x y : number) : number :=
  match x, y with
  | NaN, _ | _, NaN => NaN
  | PInf, NInf | NInf, PInf => NaN
  | PInf, _ | _, PInf => PInf
  | NInf, _ | _, NInf => NInf
  | Fin a, Fin b => fin (a + b)
  end.

Definition neg (x : number) : number :=
  match x with
  | Fin a => fin (- a)
  | PInf => NInf
  | NInf => PInf
  | NaN => NaN
  end.

Definition sub (x y : number) : number := add x (neg y).

(** An infinity times a finite [a]: the sign of [a] decides, zero gives NaN. *)
Definition scale_inf (positive : bool) (a : Q) : number :=
  if Qeq_bool a 0 then NaN
  else if Bool.eqb positive (Qltb 0 a) then PInf else NInf.

Definition mul (x y : number) : number :=
  match x, y with
  | NaN, _ | _, NaN => NaN
  | Fin a, Fin b => fin (a * b)
  | Fin a, PInf | PInf, Fin a => scale_inf true a
  | Fin a, NInf | NInf, Fin a => scale_inf false a
  | PInf, PInf | NInf, NInf => PInf
  | PInf, NInf | NInf, PInf => NInf
  end.

Definition div (x y : number) : number :=
  match x, y with
  | NaN, _ | _, NaN => NaN
  | Fin a, Fin b =>
      if Qeq_bool b 0 then
        if Qeq_bool a 0 then NaN else if Qltb 0 a then PInf else NInf
      else fin (a / b)
  | Fin _, PInf | Fin _, NInf => Fin 0
  | PInf, Fin b => if Qltb b 0 then NInf else PInf
  | NInf, Fin b => if Qltb b 0 then PInf else NInf
  | _, _ => NaN
  end.

(** [x > y], [x >= y], [x === y]: false as soon as one side is NaN. *)
Definition gtb (x y : number) : bool :=
  match x, y with
  | NaN, _ | _, NaN => false
  | Fin a, Fin b => Qltb b a
  | PInf, PInf => false
  | PInf, _ => true
  | _, NInf => match x with NInf => false | _ => true end
  | _, _ => false
  end.

Definition eqb (x y : number) : bool :=
  match x, y with
  | Fin a, Fin b => Qeq_bool a b
  | PInf, PInf | NInf, NInf => true
  | _, _ => false
  end.

Definition geb (x y : number) : bool := gtb x y || eqb x y.

(** [Math.max(x, y)] and [Math.min(x, y)]. *)
Definition max (x y : number) : number :=
  match x, y with
  | NaN, _ | _, NaN => NaN
  | _, _ => if gtb y x then y else x
  end.

Definition min (x y : number) : number :=
  match x, y with
  | NaN, _ | _, NaN => NaN
  | _, _ => if gtb x y then y else x
  end.

(** [Math.max(...xs)] and [Math.min(...xs)]: [-Infinity] and [Infinity] on no
    argument. *)
Definition max_list (xs : list number) : number := fold_left max xs NInf.
Definition min_list (xs : list number) : number := fold_left min xs PInf.

(** [x || 0]: zero and NaN are falsy. *)
Definition or_zero (x : number) : number :=
  match x with
  | NaN => Fin 0
  | Fin a => if Qeq_bool a 0 then Fin 0 else x
  | _ => x
  end.

End Num.

Import Num.

(** ** JavaScript strings *)

Module Str.

Fixpoint take (n : nat) (s : string) : string :=
  match n, s with
  | S n', String c s' => String c (take n' s')
  | _, _ => ""
  end.

Fixpoint drop (n : nat) (s : string) : string :=
  match n, s with
  | S n', String _ s' => drop n' s'
  | _, _ => s
  end.

(** A relative index of [slice]: negative counts from the end, and the result
    is clamped to [0 .. len]. *)
Definition clamp_index (len i : Z) : Z :=
  if i <? 0 then Z.max (len + i) 0 else Z.min i len.

(** [s.slice(start, stop)] *)
Definition slice (s : string) (start stop : Z) : string :=
  let len := Z.of_nat (String.length s) in
  let from := clamp_index len start in
  let upto := clamp_index len stop in
  take (Z.to_nat (upto - from)) (drop (Z.to_nat from) s).

(** [s.slice(start)] *)
Definition slice_from (s : string) (start : Z) : string :=
  slice s start (Z.of_nat (String.length s)).

(** [s.split(sep)] for a one-character separator. *)
Fixpoint split (sep : ascii) (s : string) : list string :=
  match s with
  | "" => [""]
  | String c s' =>
      if Ascii.eqb c sep then "" :: split sep s'
      else match split sep s' with
           | h :: t => String c h :: t
           | [] => [String c ""]
           end
  end.

(** [l.join(sep)] *)
Fixpoint join (sep : string) (l : list string) : string :=
  match l with
  | [] => ""
  | [x] => x
  | x :: r => x +:+ sep +:+ join sep r
  end.

Definition is_white (c : ascii) : bool :=
  let n := nat_of_ascii c in
  (n =? 32)%nat || ((9 <=? n)%nat && (n <=? 13)%nat).

Fixpoint trim_start (s : string) : string :=
  match s with
  | String c s' => if is_white c then trim_start s' else s
  | "" => ""
  end.

(** [s.trim()] *)
Definition trim (s : string) : string :=
  String.rev (trim_start (String.rev (trim_start s))).

(** [s.includes(sub)] *)
Fixpoint includes (sub s : string) : bool :=
  String.prefix sub s ||
  match s with
  | String _ s' => includes sub s'
  | "" => false
  end.

Definition lower_char (c : ascii) : ascii :=
  let n := nat_of_ascii c in
  if (65 <=? n)%nat && (n <=? 90)%nat then ascii_of_nat (n + 32) else c.

(** [s.toLowerCase()] *)
Fixpoint toLowerCase (s : string) : string :=
  match s with
  | "" => ""
  | String c s' => String (lower_char c) (toLowerCase s')
  end.

(** [String(n)] for an integer [n] (below 10^21 in absolute value, where JS
    prints plain decimal digits). *)
Definition of_int (n : Z) : string := pretty n.

(** The value of [c] as a digit in [radix], if it is one. *)
Definition digit_value (radix : Z) (c : ascii) : option Z :=
  let n := Z.of_nat (nat_of_ascii c) in
  let v :=
    if (48 <=? n) && (n <=? 57) then Some (n - 48)
    else if (97 <=? n) && (n <=? 122) then Some (n - 87)
    else if (65 <=? n) && (n <=? 90) then Some (n - 55)
    else None in
  match v with
  | Some d => if d <? radix then Some d else None
  | None => None
  end.

(** The longest prefix of digits, read in [radix]; [acc] is [None] until a
    digit has been read. *)
Fixpoint parse_digits (radix : Z) (s : string) (acc : option Z) : option Z :=
  match s with
  | "" => acc
  | String c s' =>
      match digit_value radix c with
      | Some d =>
          parse_digits radix s'
            (Some (match acc with Some a => a * radix + d | None => d end))
      | None => acc
      end
  end.

(** [parseInt(s)] without a radix: leading white space, a sign, an optional
    [0x] prefix, then digits; NaN when there is no digit. *)
Definition parseInt (s : string) : number :=
  let s1 := trim_start s in
  let '(negative, s2) :=
    match s1 with
    | String "-" r => (true, r)
    | String "+" r => (false, r)
    | _ => (false, s1)
    end in
  let '(radix, s3) :=
    match s2 with
    | String "0" (String "x" r) | String "0" (String "X" r) => (16, r)
    | _ => (10, s2)
    end in
  match parse_digits radix s3 None with
  | Some v => of_Z (if negative then - v else v)
  | None => NaN
  end.

(** Rounding of a non-negative rational to the nearest integer, the larger
    one on a tie. *)
Definition round_half_up (q : Q) : Z := Qfloor (q + (1 # 2)).

(** [x.toFixed(0)] (for a finite [x] below 10^21 in absolute value). *)
Definition toFixed0 (x : number) : string :=
  match x with
  | NaN => "NaN"
  | PInf => "Infinity"
  | NInf => "-Infinity"
  | Fin q =>
      if Qltb q 0 then "-" +:+ of_int (round_half_up (- q))
      else of_int (round_half_up q)
  end.

End Str.

(** ** Data model *)

(** [FractalThought]: a node owns the ordered list of its sub-thoughts. *)
#[local] Unset Elimination Schemes.
Inductive FractalThought : Type := mkThought {
  thought : string;
  thoughtId : string;
  depth : Z;
  parentId : option string;
  subThoughts : list FractalThought;
  isComplete : bool;
  needsDeeperAnalysis : bool;
  createdAt : string
}.
#[local] Set Elimination Schemes.

Record EvolutionStep : Type := mkStep {
  step_depth : Z;
  variation : string;
  step_confidence : Q
}.

Record RecursivePattern : Type := mkPattern {
  type : string;
  occurrences : Z;
  scales : list Z;
  evolution : list EvolutionStep;
  crossBranchOccurrences : Z;
  confidence : Q
}.

Record EmergentProperty : Type := mkProperty {
  property : string;
  strength : number;
  relatedPatterns : list string
}.

Record FractalMetrics : Type := mkMetrics {
  branchingFactor : number;
  depthConsistency : number;
  crossBranchSimilarity : number;
  patternStrength : number;
  recursivePatterns : list RecursivePattern;
  emergentProperties : list EmergentProperty
}.

Record Summary : Type := mkSummary {
  complexSystems : string;
  patternIdentification : string;
  forecasting : string;
  innovation : string
}.

Inductive Status : Type := incomplete | partially_complete | complete.

Record FractalAnalysis : Type := mkAnalysis {
  maxDepth : Z;
  unresolvedCount : Z;
  totalCount : Z;
  completionRatio : number;
  status : Status;
  needsAttention : bool;
  fractalMetrics : FractalMetrics;
  summary : Summary
}.

(** [Partial<FractalAnalysis>] as [expandSummary] builds it: the three fields
    it sets, every number as parsed (so possibly NaN). *)
Module Partial.

Record Pattern : Type := mkPattern {
  type : string;
  occurrences : number;
  scales : list number;
  evolution : list EvolutionStep;
  crossBranchOccurrences : number;
  confidence : number
}.

Record Property : Type := mkProperty {
  property : string;
  strength : number;
  relatedPatterns : list string
}.

Record Metrics : Type := mkMetrics {
  branchingFactor : number;
  depthConsistency : number;
  crossBranchSimilarity : number;
  patternStrength : number;
  recursivePatterns : list Pattern;
  emergentProperties : list Property
}.

Record Analysis : Type := mkAnalysis {
  maxDepth : number;
  completionRatio : number;
  fractalMetrics : Metrics
}.

End Partial.

(** ** AnalysisSummarizer: the compact summary codec *)

Module AnalysisSummarizer.

Definition percent (x : number) : string :=
  Str.toFixed0 (mul (or_zero x) (of_Z 100)).

Definition pattern_item (p : RecursivePattern) : string :=
  type p +:+ "(" +:+ Str.of_int (occurrences p) +:+ ")".

Definition property_item (p : EmergentProperty) : string :=
  property p +:+ "(" +:+ Str.toFixed0 (mul (strength p) (of_Z 100)) +:+ "%)".

(** [summarizeAnalysis(analysis)]; [None] is a missing analysis. *)
Definition summarizeAnalysis (analysis : option FractalAnalysis) : string :=
  match analysis with
  | None => "D0|C0%|P[]|E[]|S0%"
  | Some a =>
      let m := fractalMetrics a in
      let patterns :=
        Str.join ", " (map pattern_item (firstn 2 (recursivePatterns m))) in
      let properties :=
        Str.join ", " (map property_item (firstn 2 (emergentProperties m))) in
      Str.join "|"
        [ "D" +:+ Str.of_int (maxDepth a);
          "C" +:+ percent (completionRatio a) +:+ "%";
          "P[" +:+ patterns +:+ "]";
          "E[" +:+ properties +:+ "]";
          "S" +:+ percent (patternStrength m) +:+ "%" ]
  end.

(** [x || d] for a string that may be undefined: undefined and the empty
    string give [d]. *)
Definition or_string (x : option string) (d : string) : string :=
  match x with
  | Some (String c r) => String c r
  | _ => d
  end.

(** [field?.slice(2, -1).split(',').filter(Boolean) || []] *)
Definition parse_list (field : option string) : list string :=
  match field with
  | None => []
  | Some f =>
      List.filter (fun x => negb (String.eqb x "")) (Str.split "," (Str.slice f 2 (-1)))
  end.

Definition parse_pattern (p : string) : Partial.Pattern :=
  let pieces := Str.split "(" p in
  let type := nth 0 pieces "" in
  let count := nth 1 pieces "0" in
  {| Partial.type := Str.trim type;
     Partial.occurrences := Str.parseInt (or_string (Some (Str.slice count 0 (-1))) "0");
     Partial.scales := [];
     Partial.evolution := [];
     Partial.crossBranchOccurrences := of_Z 0;
     Partial.confidence := of_Z 0 |}.

Definition parse_property (p : string) : Partial.Property :=
  let pieces := Str.split "(" p in
  let prop := nth 0 pieces "" in
  let strength := nth 1 pieces "0%" in
  {| Partial.property := Str.trim prop;
     Partial.strength :=
       div (Str.parseInt (or_string (Some (Str.slice strength 0 (-2))) "0")) (of_Z 100);
     Partial.relatedPatterns := [] |}.

Definition empty_expansion : Partial.Analysis :=
  {| Partial.maxDepth := of_Z 0;
     Partial.completionRatio := of_Z 0;
     Partial.fractalMetrics :=
       {| Partial.branchingFactor := of_Z 0;
          Partial.depthConsistency := of_Z 0;
          Partial.crossBranchSimilarity := of_Z 0;
          Partial.patternStrength := of_Z 0;
          Partial.recursivePatterns := [];
          Partial.emergentProperties := [] |} |}.

(** [expandSummary(summary)] *)
Definition expandSummary (summary : string) : Partial.Analysis :=
  if String.eqb summary "" then empty_expansion
  else
    let fields := Str.split "|" summary in
    let field i := nth_error fields i in
    let tail1 f := option_map (fun s => Str.slice_from s 1) f in
    {| Partial.maxDepth := Str.parseInt (or_string (tail1 (field 0%nat)) "0");
       Partial.completionRatio :=
         div (Str.parseInt (or_string (tail1 (field 1%nat)) "0")) (of_Z 100);
       Partial.fractalMetrics :=
         {| Partial.branchingFactor := of_Z 0;
            Partial.depthConsistency := of_Z 0;
            Partial.crossBranchSimilarity := of_Z 0;
            Partial.patternStrength :=
              div (Str.parseInt (or_string (tail1 (field 4%nat)) "0")) (of_Z 100);
            Partial.recursivePatterns :=
              map parse_pattern (parse_list (field 2%nat));
            Partial.emergentProperties :=
              map parse_property (parse_list (field 3%nat)) |} |}.

End AnalysisSummarizer.

(** ** Generic helpers for arrays and insertion-ordered maps *)

(** The first [Some] that [f] gives along [l]: a [for] loop that returns from
    inside. *)
Fixpoint first_some {A B : Type} (f : A -> option B) (l : list A) : option B :=
  match l with
  | [] => None
  | x :: r => match f x with Some y => Some y | None => first_some f r end
  end.

(** [Array.prototype.sort] with a comparator: a stable sort.  [before x y]
    says that the comparator puts [x] strictly before [y]. *)
Fixpoint sort_insert {A : Type} (before : A -> A -> bool) (x : A) (l : list A)
  : list A :=
  match l with
  | [] => [x]
  | y :: r => if before x y then x :: y :: r else y :: sort_insert before x r
  end.

Definition stable_sort {A : Type} (before : A -> A -> bool) (l : list A)
  : list A :=
  fold_left (fun sorted x => sort_insert before x sorted) l [].

(** A [Set] of strings or numbers, in insertion order. *)
Definition set_add {A : Type} (eqb : A -> A -> bool) (x : A) (s : list A)
  : list A :=
  if existsb (eqb x) s then s else s ++ [x].

(** An object or [Map] with string keys, in insertion order. *)
Definition Dict (V : Type) : Type := list (string * V).

Fixpoint dict_get {V : Type} (k : string) (d : Dict V) : option V :=
  match d with
  | [] => None
  | (k', v) :: r => if String.eqb k' k then Some v else dict_get k r
  end.

(** Assignment keeps the position of a key that is present and appends a new
    one. *)
Fixpoint dict_set {V : Type} (k : string) (v : V) (d : Dict V) : Dict V :=
  match d with
  | [] => [(k, v)]
  | (k', v') :: r =>
      if String.eqb k' k then (k, v) :: r else (k', v') :: dict_set k v r
  end.

(** [delete d[k]] *)
Fixpoint dict_delete {V : Type} (k : string) (d : Dict V) : Dict V :=
  match d with
  | [] => []
  | (k', v') :: r =>
      if String.eqb k' k then dict_delete k r else (k', v') :: dict_delete k r
  end.

Definition dict_keys {V : Type} (d : Dict V) : list string := map fst d.

Definition Qsum (l : list Q) : Q := fold_left Qplus l 0%Q.
Definition Zsum (l : list Z) : Z := fold_left Z.add l 0.
Definition Zlength' {A : Type} (l : list A) : Z := Z.of_nat (length l).

(** ** The thought tree *)

(** The loop of [findThought] over [nodes]: depth first, a node before its
    sub-thoughts. *)
Fixpoint findNode (id : string) (node : FractalThought)
  : option FractalThought :=
  if String.eqb (thoughtId node) id then Some node
  else first_some (findNode id) (subThoughts node).

Definition findNodes (id : string) (nodes : list FractalThought)
  : option FractalThought :=
  first_some (findNode id) nodes.

(** [findThought(id)] on the whole tree: no node for an empty id, the first
    root for ["root"]. *)
Definition findThought (id : string) (thoughtTree : list FractalThought)
  : option FractalThought :=
  if String.eqb id "" then None
  else if String.eqb id "root" then head thoughtTree
  else findNodes id thoughtTree.

Fixpoint getMaxDepth (node : FractalThought) : Z :=
  match map getMaxDepth (subThoughts node) with
  | [] => depth node
  | d :: ds => fold_left Z.max ds d
  end.

Fixpoint calculateBranchingFactor (node : FractalThought) : Q :=
  match subThoughts node with
  | [] => 0
  | subs =>
      let subBranching := map calculateBranchingFactor subs in
      (inject_Z (Zlength' subs) + Qsum subBranching)
      / (inject_Z (Zlength' subBranching) + 1)
  end.

Definition calculateDepthConsistency (node : FractalThought) : Q :=
  match subThoughts node with
  | [] => 1
  | subs =>
      let depths := map (fun sub => inject_Z (getMaxDepth sub)) subs in
      let len := inject_Z (Zlength' depths) in
      let avgDepth := (Qsum depths / len)%Q in
      let variance :=
        (Qsum (map (fun b => (b - avgDepth) * (b - avgDepth)) depths) / len)%Q in
      (1 / (1 + variance))%Q
  end.

(** ** Pattern analysis *)

Definition childCount (t : FractalThought) : Z := Zlength' (subThoughts t).

Definition some_child (p : FractalThought -> bool) (t : FractalThought) : bool :=
  existsb p (subThoughts t).

Definition every_child (p : FractalThought -> bool) (t : FractalThought) : bool :=
  forallb p (subThoughts t).

Definition count_children (p : FractalThought -> bool) (t : FractalThought) : Z :=
  Zlength' (List.filter p (subThoughts t)).

Definition incompleteChild (t : FractalThought) : bool := negb (isComplete t).
Definition hasChildren (t : FractalThought) : bool := 0 <? childCount t.
Definition isLeaf (t : FractalThought) : bool := childCount t =? 0.

Record PatternType : Type := mkPatternType {
  pt_type : string;
  pt_test : FractalThought -> bool;
  pt_variations : list (string * (FractalThought -> bool))
}.

(** The catalogue of [analyzePatternRecursively], in declaration order. *)
Definition patternTypes : list PatternType :=
  [ {| pt_type := "expansion";
       pt_test := fun t => 0 <? childCount t;
       pt_variations :=
         [ ("balanced", fun t => (2 <=? childCount t) && (childCount t <=? 4));
           ("broad", fun t => 4 <? childCount t);
           ("focused", fun t => childCount t =? 1) ] |};
    {| pt_type := "completion";
       pt_test := isComplete;
       pt_variations :=
         [ ("terminal", fun t => isComplete t && (childCount t =? 0));
           ("composite", fun t => isComplete t && (0 <? childCount t));
           ("partial", fun t => isComplete t && some_child incompleteChild t) ] |};
    {| pt_type := "deepening";
       pt_test := needsDeeperAnalysis;
       pt_variations :=
         [ ("active", fun t => needsDeeperAnalysis t && negb (isComplete t));
           ("refined", fun t => needsDeeperAnalysis t && isComplete t);
           ("cascading", fun t =>
              needsDeeperAnalysis t && every_child needsDeeperAnalysis t) ] |};
    {| pt_type := "branching";
       pt_test := fun t => 2 <? childCount t;
       pt_variations :=
         [ ("divergent", some_child hasChildren);
           ("parallel", every_child isLeaf);
           ("hybrid", fun t => some_child isLeaf t && some_child hasChildren t) ] |};
    {| pt_type := "convergence";
       pt_test := fun t =>
         (1 <? childCount t) && some_child isComplete t
         && some_child incompleteChild t;
       pt_variations :=
         [ ("early", fun t =>
              count_children incompleteChild t <? count_children isComplete t);
           ("late", fun t =>
              count_children isComplete t <? count_children incompleteChild t);
           ("balanced", fun t =>
              count_children isComplete t =? count_children incompleteChild t) ] |};
    {| pt_type := "transformation";
       pt_test := fun t =>
         (0 <? childCount t) && every_child needsDeeperAnalysis t;
       pt_variations :=
         [ ("complete", fun t =>
              isComplete t && every_child needsDeeperAnalysis t);
           ("partial", fun t =>
              negb (isComplete t) && every_child needsDeeperAnalysis t);
           ("mixed", fun t =>
              some_child isComplete t && every_child needsDeeperAnalysis t) ] |} ].

(** The value kept per key in the [patterns] map during the traversal. *)
Record PatternData : Type := mkData {
  data_occurrences : Z;
  data_scales : list Z;
  data_evolution : list EvolutionStep;
  data_crossBranchOccurrences : Z
}.

Definition empty_data : PatternData :=
  {| data_occurrences := 0; data_scales := []; data_evolution := [];
     data_crossBranchOccurrences := 0 |}.

(** [Math.min(1, q)] on finite values. *)
Definition min_one (q : Q) : Q := if Qltb q 1 then q else 1%Q.

(** The mean of the four confidence factors of an occurrence at [t]. *)
Definition occurrence_confidence (t : FractalThought) : Q :=
  let depthFactor := min_one (inject_Z (depth t) / 5) in
  let subthoughtRatio :=
    if 0 <? childCount t then min_one (inject_Z (childCount t) / 4) else 0%Q in
  let completionStatus := if isComplete t then 1%Q else (1 # 2)%Q in
  let analysisNeed := if needsDeeperAnalysis t then (7 # 10)%Q else 1%Q in
  ((0 + depthFactor + subthoughtRatio + completionStatus + analysisNeed) / 4)%Q.

(** The traversal state: the [patterns] map, shared by the whole traversal, and
    the set of keys seen among the siblings visited so far. *)
Definition PatternState : Type := (Dict PatternData * list string)%type.

(** One iteration of [patternTypes.forEach] at [t]. *)
Definition record_pattern (t : FractalThought) (parentPattern : option string)
    (st : PatternState) (p : PatternType) : PatternState :=
  let '(patterns, siblingPatterns) := st in
  if pt_test p t then
    let variation :=
      match find (fun v => snd v t) (pt_variations p) with
      | Some v => fst v
      | None => "basic"
      end in
    let key :=
      match parentPattern with
      | Some (String c r) => String c r +:+ "->" +:+ pt_type p
      | _ => pt_type p
      end in
    let existing :=
      match dict_get key patterns with Some d => d | None => empty_data end in
    let updated :=
      {| data_occurrences := data_occurrences existing + 1;
         data_scales := set_add Z.eqb (depth t) (data_scales existing);
         data_evolution :=
           data_evolution existing
           ++ [ {| step_depth := depth t; variation := variation;
                   step_confidence := occurrence_confidence t |} ];
         data_crossBranchOccurrences :=
           if existsb (String.eqb key) siblingPatterns
           then data_crossBranchOccurrences existing + 1
           else data_crossBranchOccurrences existing |} in
    (dict_set key updated patterns, set_add String.eqb key siblingPatterns)
  else st.

(** [patterns.size > 0 ? Array.from(patterns.keys())[0] : undefined] *)
Definition first_key (patterns : Dict PatternData) : option string :=
  head (dict_keys patterns).

(** [analyzePatternRecursively(thought, parentPattern, siblingPatterns)]: the
    node's own patterns, then each sub-thought with one fresh sibling set
    shared by all of them. *)
Fixpoint analyzePatternRecursively (t : FractalThought)
    (parentPattern : option string) (st : PatternState) : PatternState :=
  let '(patterns, siblingPatterns) :=
    fold_left (record_pattern t parentPattern) patternTypes st in
  let visited :=
    fold_left
      (fun inner sub =>
         analyzePatternRecursively sub (first_key (fst inner)) inner)
      (subThoughts t) (patterns, []) in
  (fst visited, siblingPatterns).

Definition pattern_of_data (entry : string * PatternData) : RecursivePattern :=
  let '(key, data) := entry in
  {| type := key;
     occurrences := data_occurrences data;
     scales := data_scales data;
     evolution := data_evolution data;
     crossBranchOccurrences := data_crossBranchOccurrences data;
     confidence :=
       (Qsum (map step_confidence (data_evolution data))
        / inject_Z (Z.max 1 (Zlength' (data_evolution data))))%Q |}.

(** [identifyRecursivePatterns(node)]: the records in insertion order, then
    sorted by decreasing confidence. *)
Definition identifyRecursivePatterns (node : FractalThought)
  : list RecursivePattern :=
  stable_sort (fun a b => Qltb (confidence b) (confidence a))
    (map pattern_of_data (fst (analyzePatternRecursively node None ([], [])))).

(** ** Emergent properties and pattern strength *)

Definition num_sum (l : list number) : number := fold_left add l (of_Z 0).

(** [new Set(p.evolution.map(e => e.variation)).size] *)
Definition distinct_variations (p : RecursivePattern) : Z :=
  Zlength'
    (fold_left (fun s v => set_add String.eqb v s) (map variation (evolution p)) []).

Definition mentions (name : string) (p : RecursivePattern) : bool :=
  Str.includes name (type p).

Definition calculateInteractionStrength (patterns : list RecursivePattern)
    (patternTypes : list string) (depthRange : number) : number :=
  let relevantPatterns :=
    List.filter (fun p => existsb (fun ty => mentions ty p) patternTypes) patterns in
  let n := of_Z (Zlength' patternTypes) in
  let occurrenceStrength :=
    div (of_Z (Zsum (map occurrences relevantPatterns))) (mul (of_Z 10) n) in
  let scaleStrength :=
    div (of_Z (Zsum (map (fun p => Zlength' (scales p)) relevantPatterns)))
        (mul depthRange n) in
  let crossBranchStrength :=
    div (of_Z (Zsum (map crossBranchOccurrences relevantPatterns)))
        (mul (of_Z 5) n) in
  let evolutionStrength :=
    div (of_Z (Zsum (map distinct_variations relevantPatterns)))
        (mul (of_Z 3) n) in
  min (of_Z 1)
    (add (add (add (mul occurrenceStrength (Fin (3 # 10)))
                   (mul scaleStrength (Fin (3 # 10))))
              (mul crossBranchStrength (Fin (1 # 5))))
         (mul evolutionStrength (Fin (1 # 5)))).

(** A property detected when both pattern names occur among the keys. *)
Definition pair_property (patterns : list RecursivePattern)
    (depthRange : number) (name first second : string)
  : list EmergentProperty :=
  if existsb (mentions first) patterns && existsb (mentions second) patterns
  then
    [ {| property := name;
         strength :=
           calculateInteractionStrength patterns [first; second] depthRange;
         relatedPatterns :=
           map type
             (List.filter (fun p => mentions first p || mentions second p) patterns) |} ]
  else [].

Definition scale_range (p : RecursivePattern) : number :=
  sub (max_list (map of_Z (scales p))) (min_list (map of_Z (scales p))).

(** [identifyEmergentProperties(node, patterns)]; the node is not read. *)
Definition identifyEmergentProperties (node : FractalThought)
    (patterns : list RecursivePattern) : list EmergentProperty :=
  let depthRange :=
    add (max_list (map of_Z (flat_map scales patterns))) (of_Z 1) in
  let count := of_Z (Zlength' patterns) in
  pair_property patterns depthRange "Systematic Exploration" "expansion" "deepening"
  ++ pair_property patterns depthRange "Iterative Refinement" "completion" "deepening"
  ++ pair_property patterns depthRange "Balanced Development" "branching" "completion"
  ++ (if existsb (fun p => 1 <? Zlength' (evolution p)) patterns then
        [ {| property := "Pattern Evolution";
             strength :=
               min (of_Z 1)
                 (div (num_sum
                         (map (fun p => div (of_Z (distinct_variations p)) (of_Z 3))
                              patterns))
                      count);
             relatedPatterns :=
               map type (List.filter (fun p => 1 <? Zlength' (evolution p)) patterns) |} ]
      else [])
  ++ (if existsb (fun p => 1 <? Zlength' (scales p)) patterns then
        [ {| property := "Cross-Scale Resonance";
             strength :=
               min (of_Z 1)
                 (div (num_sum
                         (map (fun p =>
                                 if gtb (scale_range p) (of_Z 0)
                                 then div (of_Z (crossBranchOccurrences p)) (of_Z 5)
                                 else of_Z 0)
                              patterns))
                      count);
             relatedPatterns :=
               map type (List.filter (fun p => 1 <? Zlength' (scales p)) patterns) |} ]
      else []).

(** [calculatePatternStrength(node, recursivePatterns, emergentProperties)] *)
Definition calculatePatternStrength (node : FractalThought)
    (recursivePatterns : list RecursivePattern)
    (emergentProperties : list EmergentProperty) : number :=
  let baseStrength :=
    mul (mul (fin (calculateBranchingFactor node))
             (fin (calculateDepthConsistency node)))
        (div (of_Z (childCount node - count_children incompleteChild node))
             (of_Z (Z.max 1 (childCount node)))) in
  let patternDiversity := div (of_Z (Zlength' recursivePatterns)) (of_Z 4) in
  let maxScale := max_list (map of_Z (flat_map scales recursivePatterns)) in
  let scaleScore := div maxScale (of_Z 5) in
  let emergentStrength :=
    div (num_sum (map strength emergentProperties))
        (of_Z (Z.max 1 (Zlength' emergentProperties))) in
  add (add (add (mul baseStrength (Fin (2 # 5)))
                (mul patternDiversity (Fin (1 # 5))))
           (mul scaleScore (Fin (1 # 5))))
      (mul emergentStrength (Fin (1 # 5))).

(** ** The narrative summary *)

Definition dquote : string := String (ascii_of_nat 34) "".

Definition distinct_count (l : list Z) : Z :=
  Zlength' (fold_left (fun s d => set_add Z.eqb d s) l []).

(** [generateFractalSummary(node)].  The two lists are recomputed here, and
    sorted in place before they are read again. *)
Definition generateFractalSummary (node : FractalThought) : Summary :=
  let detected := identifyRecursivePatterns node in
  let detectedProperties := identifyEmergentProperties node detected in
  let recursivePatterns :=
    stable_sort (fun a b => occurrences b <? occurrences a) detected in
  let significantPatterns := firstn 2 recursivePatterns in
  let patternEvolution :=
    map (fun pattern =>
           (type pattern,
            map variation
              (stable_sort (fun a b => step_depth a <? step_depth b)
                 (evolution pattern))))
        significantPatterns in
  let emergentProperties :=
    stable_sort (fun a b => gtb (of_Z 0) (sub (strength b) (strength a)))
      detectedProperties in
  let strongestProperties := firstn 2 emergentProperties in
  let decompositionLevels := distinct_count (flat_map scales recursivePatterns) in
  let patternConsistency := calculateDepthConsistency node in
  let systemComplexity := Zlength' recursivePatterns * decompositionLevels in
  let crossScalePatterns :=
    List.filter (fun p => 0 <? crossBranchOccurrences p) recursivePatterns in
  let scaleInteractions :=
    div (of_Z (Zlength' crossScalePatterns))
        (of_Z (Z.max 1 (Zlength' recursivePatterns))) in
  let strongest :=
    match strongestProperties with p :: _ => strength p | [] => NaN end in
  {| complexSystems :=
       dquote +:+ thought node +:+ dquote
       +:+ " demonstrates system decomposition across "
       +:+ Str.of_int decompositionLevels +:+ " levels, "
       +:+ "revealing " +:+ Str.of_int (Zlength' recursivePatterns)
       +:+ " distinct patterns with a consistency of "
       +:+ Str.toFixed0 (mul (fin patternConsistency) (of_Z 100)) +:+ "%. "
       +:+ "The system complexity score of " +:+ Str.of_int systemComplexity
       +:+ " suggests "
       +:+ (if 10 <? systemComplexity then "rich hierarchical structure"
            else if 5 <? systemComplexity then "moderate layering"
            else "basic decomposition")
       +:+ ".";
     patternIdentification :=
       "Analysis reveals "
       +:+ Str.join " and "
             (map (fun p => type p +:+ " patterns occurring "
                            +:+ Str.of_int (occurrences p) +:+ " times")
                  significantPatterns)
       +:+ ", with " +:+ Str.of_int (Zlength' crossScalePatterns)
       +:+ " cross-scale relationships. "
       +:+ "Pattern evolution shows "
       +:+ Str.join "; "
             (map (fun p => fst p +:+ " progressing through "
                            +:+ Str.join " → " (snd p))
                  patternEvolution)
       +:+ ", indicating "
       +:+ (if gtb scaleInteractions (Fin (7 # 10)) then "strong self-similarity"
            else if gtb scaleInteractions (Fin (2 # 5))
            then "moderate pattern repetition"
            else "emerging self-similarity")
       +:+ ".";
     forecasting :=
       "Based on pattern strength ("
       +:+ Str.toFixed0
             (mul (calculatePatternStrength node recursivePatterns emergentProperties)
                  (of_Z 100))
       +:+ "%) " +:+ "and emergent properties "
       +:+ Str.join " and "
             (map (fun p => Str.toLowerCase (property p) +:+ " ("
                            +:+ Str.toFixed0 (mul (strength p) (of_Z 100)) +:+ "%)")
                  strongestProperties)
       +:+ ", the system suggests "
       +:+ (if gtb strongest (Fin (7 # 10)) then "high predictability"
            else if gtb strongest (Fin (2 # 5)) then "moderate predictability"
            else "developing predictability")
       +:+ " with "
       +:+ (if 2 <? Zlength' crossScalePatterns then "multiple stable trajectories"
            else if 0 <? Zlength' crossScalePatterns then "potential stable patterns"
            else "emerging stability patterns")
       +:+ ".";
     innovation :=
       "Pattern analysis reveals scaling opportunities through "
       +:+ Str.of_int
             (Zlength' (List.filter (fun p => 1 <? Zlength' (scales p)) recursivePatterns))
       +:+ " multi-scale patterns and "
       +:+ Str.of_int
             (Zlength'
                (List.filter (fun p => gtb (strength p) (Fin (3 # 5))) emergentProperties))
       +:+ " strong emergent properties. Innovation potential exists in "
       +:+ Str.join " and "
             (map (fun p => Str.toLowerCase (property p)) strongestProperties)
       +:+ ", with "
       +:+ (if 0 <? Zlength' crossScalePatterns
            then "cross-scale applications in "
                 +:+ Str.join ", " (map type crossScalePatterns)
            else "opportunities for pattern development")
       +:+ "." |}.

(** ** Server state *)

Record CachedAnalysis : Type := mkCached {
  timestamp : Z;
  cached_summary : string;
  key : string;
  fullAnalysis : FractalAnalysis;
  accessCount : Z
}.

Record AggregateMetrics : Type := mkAggregateMetrics {
  totalBranches : Z;
  averageDepth : number;
  completionRate : number;
  aggregate_patternStrength : number
}.

Record AggregateSummary : Type := mkAggregate {
  aggregate_thoughtId : string;
  aggregate_timestamp : Z;
  aggregate_summary : string;
  childSummaries : Dict string;
  metrics : AggregateMetrics
}.

Record CacheConfig : Type := mkConfig {
  baseExpirationMs : number;
  patternStrengthMultiplier : number;
  depthMultiplier : number;
  maxCacheSize : Z;
  minExpirationMs : number;
  maxExpirationMs : number
}.

Record CacheStats : Type := mkStats {
  hits : Z;
  misses : Z;
  evictions : Z;
  totalSize : Z
}.

Record ThoughtChangeTracker : Type := mkTracker {
  lastModified : Z;
  subthoughtChanges : bool;
  lastAnalysis : Z
}.

(** The fields of [FractalThinkingServer]. *)
Record Server : Type := mkServer {
  thoughtTree : list FractalThought;
  cacheConfig : CacheConfig;
  cacheStats : CacheStats;
  analysisCache : Dict CachedAnalysis;
  aggregateCache : Dict AggregateSummary;
  changeTracker : gmap string ThoughtChangeTracker
}.

Definition with_tree (t : list FractalThought) (s : Server) : Server :=
  mkServer t (cacheConfig s) (cacheStats s) (analysisCache s)
    (aggregateCache s) (changeTracker s).
Definition with_config (c : CacheConfig) (s : Server) : Server :=
  mkServer (thoughtTree s) c (cacheStats s) (analysisCache s)
    (aggregateCache s) (changeTracker s).
Definition with_stats (st : CacheStats) (s : Server) : Server :=
  mkServer (thoughtTree s) (cacheConfig s) st (analysisCache s)
    (aggregateCache s) (changeTracker s).
Definition with_analysisCache (c : Dict CachedAnalysis) (s : Server) : Server :=
  mkServer (thoughtTree s) (cacheConfig s) (cacheStats s) c
    (aggregateCache s) (changeTracker s).
Definition with_aggregateCache (c : Dict AggregateSummary) (s : Server) : Server :=
  mkServer (thoughtTree s) (cacheConfig s) (cacheStats s) (analysisCache s)
    c (changeTracker s).
Definition with_changeTracker (c : gmap string ThoughtChangeTracker) (s : Server)
  : Server :=
  mkServer (thoughtTree s) (cacheConfig s) (cacheStats s) (analysisCache s)
    (aggregateCache s) c.

Definition rootThought (created : string) : FractalThought :=
  {| thought := "Root thought"; thoughtId := "root"; depth := 0;
     parentId := None; subThoughts := []; isComplete := false;
     needsDeeperAnalysis := false; createdAt := created |}.

Definition defaultConfig : CacheConfig :=
  {| baseExpirationMs := of_Z (5 * 60 * 1000);
     patternStrengthMultiplier := of_Z 2;
     depthMultiplier := Fin (3 # 2);
     maxCacheSize := 1000;
     minExpirationMs := of_Z (1 * 60 * 1000);
     maxExpirationMs := of_Z (30 * 60 * 1000) |}.

(** The state of a new server. *)
Definition initial (created : string) : Server :=
  {| thoughtTree := [rootThought created];
     cacheConfig := defaultConfig;
     cacheStats := {| hits := 0; misses := 0; evictions := 0; totalSize := 0 |};
     analysisCache := [];
     aggregateCache := [];
     changeTracker := ∅ |}.

(** ** Change tracking *)

Definition trackThoughtChange (thoughtId : string) (includeSubthoughts : bool)
    (now : Z) (s : Server) : Server :=
  let current :=
    default {| lastModified := now; subthoughtChanges := false; lastAnalysis := 0 |}
            (changeTracker s !! thoughtId) in
  let current' :=
    {| lastModified := now;
       subthoughtChanges :=
         if includeSubthoughts then true else subthoughtChanges current;
       lastAnalysis := lastAnalysis current |} in
  let tracker1 := <[thoughtId := current']> (changeTracker s) in
  let tracker2 :=
    match findThought thoughtId (thoughtTree s) with
    | Some t =>
        match parentId t with
        | Some (String c r) =>
            let parent := String c r in
            let parentTracker :=
              default {| lastModified := now; subthoughtChanges := true;
                         lastAnalysis := 0 |}
                      (tracker1 !! parent) in
            <[parent := {| lastModified := lastModified parentTracker;
                           subthoughtChanges := true;
                           lastAnalysis := lastAnalysis parentTracker |}]> tracker1
        | _ => tracker1
        end
    | None => tracker1
    end in
  with_changeTracker tracker2 s.

Definition hasNodeChanged (node : FractalThought) (s : Server) : bool :=
  match changeTracker s !! thoughtId node with
  | None => true
  | Some tracker =>
      (lastAnalysis tracker <? lastModified tracker) || subthoughtChanges tracker
  end.

Definition markAnalyzed (thoughtId : string) (now : Z) (s : Server) : Server :=
  match changeTracker s !! thoughtId with
  | Some tracker =>
      with_changeTracker
        (<[thoughtId := {| lastModified := lastModified tracker;
                           subthoughtChanges := false;
                           lastAnalysis := now |}]> (changeTracker s)) s
  | None => s
  end.

(** ** The analysis cache *)

Definition getCacheExpiration (config : CacheConfig) (analysis : FractalAnalysis)
  : number :=
  let patternFactor :=
    add (of_Z 1)
        (mul (patternStrength (fractalMetrics analysis))
             (patternStrengthMultiplier config)) in
  let depthFactor :=
    add (of_Z 1) (mul (of_Z (maxDepth analysis)) (depthMultiplier config)) in
  let expiration := mul (mul (baseExpirationMs config) patternFactor) depthFactor in
  min (max expiration (minExpirationMs config)) (maxExpirationMs config).

(** [Object.keys(analysisCache).length + Object.keys(aggregateCache).length] *)
Definition cache_size (s : Server) : Z :=
  Zlength' (dict_keys (analysisCache s)) + Zlength' (dict_keys (aggregateCache s)).

Definition refresh_totalSize (s : Server) : Server :=
  with_stats
    {| hits := hits (cacheStats s); misses := misses (cacheStats s);
       evictions := evictions (cacheStats s); totalSize := cache_size s |} s.

Definition count_eviction (s : Server) : Server :=
  with_stats
    {| hits := hits (cacheStats s); misses := misses (cacheStats s);
       evictions := evictions (cacheStats s) + 1;
       totalSize := totalSize (cacheStats s) |} s.

Definition count_hit (s : Server) : Server :=
  with_stats
    {| hits := hits (cacheStats s) + 1; misses := misses (cacheStats s);
       evictions := evictions (cacheStats s);
       totalSize := totalSize (cacheStats s) |} s.

Definition count_miss (s : Server) : Server :=
  with_stats
    {| hits := hits (cacheStats s); misses := misses (cacheStats s) + 1;
       evictions := evictions (cacheStats s);
       totalSize := totalSize (cacheStats s) |} s.

(** An entry of the list that [evictLeastUsedEntries] sorts. *)
Record EvictionEntry : Type := mkEntry {
  entry_key : string;
  lastAccess : Z;
  isAnalysis : bool
}.

(** The list that [evictLeastUsedEntries] builds: the entries of the analysis
    cache, then those of the aggregate cache, each in the order of
    [Object.entries], which is the insertion order for keys that are not
    integer-like. *)
Definition eviction_entries (s : Server) : list EvictionEntry :=
  map (fun kv => mkEntry (fst kv) (timestamp (snd kv)) true) (analysisCache s)
  ++ map (fun kv => mkEntry (fst kv) (aggregate_timestamp (snd kv)) false)
       (aggregateCache s).

(** [l.slice(0, count)] *)
Definition slice0 {A : Type} (l : list A) (count : Z) : list A :=
  firstn (Z.to_nat (Str.clamp_index (Zlength' l) count)) l.

Definition evict_entry (s : Server) (e : EvictionEntry) : Server :=
  count_eviction
    (if isAnalysis e
     then with_analysisCache (dict_delete (entry_key e) (analysisCache s)) s
     else with_aggregateCache (dict_delete (entry_key e) (aggregateCache s)) s).

Definition evictLeastUsedEntries (count : Z) (s : Server) : Server :=
  let entries :=
    stable_sort (fun a b => lastAccess a <? lastAccess b) (eviction_entries s) in
  refresh_totalSize (fold_left evict_entry (slice0 entries count) s).

(** [Math.ceil(n * 0.1)] for an integer [n]. *)
Definition ceil_tenth (n : Z) : Z := - ((- n) / 10).

Definition manageCacheSize (s : Server) : Server :=
  let total := cache_size s in
  if maxCacheSize (cacheConfig s) <? total then
    let excessEntries := total - maxCacheSize (cacheConfig s) in
    evictLeastUsedEntries
      (excessEntries + ceil_tenth (maxCacheSize (cacheConfig s))) s
  else s.

Definition cacheAnalysis (thoughtId : string) (analysis : FractalAnalysis)
    (now : Z) (s : Server) : Server :=
  let s1 := manageCacheSize s in
  refresh_totalSize
    (with_analysisCache
       (dict_set thoughtId
          {| timestamp := now;
             cached_summary := AnalysisSummarizer.summarizeAnalysis (Some analysis);
             key := thoughtId;
             fullAnalysis := analysis;
             accessCount := 0 |}
          (analysisCache s1))
       s1).

(** The names of the members that every plain object inherits from
    [Object.prototype]: a read [object[name]] finds the inherited member
    when the object has no entry of its own under [name]. *)
Definition inherited (name : string) : bool :=
  existsb (String.eqb name)
    [ "constructor"; "__defineGetter__"; "__defineSetter__"; "hasOwnProperty";
      "__lookupGetter__"; "__lookupSetter__"; "isPrototypeOf";
      "propertyIsEnumerable"; "toString"; "valueOf"; "__proto__";
      "toLocaleString" ].

(** What a call of a method that may throw produces. *)
Inductive Result (A : Type) : Type :=
| Ok (value : A)
| Throws.

Arguments Ok {A} value.
Arguments Throws {A}.

(** [getCachedAnalysis(thoughtId)]; [Ok None] is [null].  For an id that
    names an inherited member and has no entry, [cached] is that member: it
    is truthy and has no [fullAnalysis], and [getCacheExpiration] throws the
    [TypeError] of reading [fractalMetrics] of [undefined], before anything
    is written. *)
Definition getCachedAnalysis (thoughtId : string) (now : Z) (s : Server)
  : Result (option FractalAnalysis) * Server :=
  match dict_get thoughtId (analysisCache s) with
  | None =>
      if inherited thoughtId then (Throws, s)
      else (Ok None, count_miss s)
  | Some cached =>
      let expiration := getCacheExpiration (cacheConfig s) (fullAnalysis cached) in
      if gtb (of_Z (now - timestamp cached)) expiration then
        (Ok None,
         count_miss
           (with_analysisCache (dict_delete thoughtId (analysisCache s)) s))
      else
        (Ok (Some (fullAnalysis cached)),
         count_hit
           (with_analysisCache
              (dict_set thoughtId
                 {| timestamp := now;
                    cached_summary := cached_summary cached;
                    key := key cached;
                    fullAnalysis := fullAnalysis cached;
                    accessCount := accessCount cached + 1 |}
                 (analysisCache s))
              s))
  end.

(** ** Analysis *)

Record NodeCounts : Type := mkCounts {
  counts_maxDepth : Z;
  counts_unresolvedCount : Z;
  counts_totalCount : Z;
  hasUnresolvedWithDeeperAnalysis : bool
}.

Definition ownCounts (node : FractalThought) : NodeCounts :=
  {| counts_maxDepth := depth node;
     counts_unresolvedCount := if isComplete node then 0 else 1;
     counts_totalCount := 1;
     hasUnresolvedWithDeeperAnalysis := false |}.

(** The body of the loop over the sub-thoughts: the running totals absorb
    the result for one sub-thought. *)
Definition addCounts (acc subAnalysis : NodeCounts) : NodeCounts :=
  {| counts_maxDepth := Z.max (counts_maxDepth acc) (counts_maxDepth subAnalysis);
     counts_unresolvedCount :=
       counts_unresolvedCount acc + counts_unresolvedCount subAnalysis;
     counts_totalCount := counts_totalCount acc + counts_totalCount subAnalysis;
     hasUnresolvedWithDeeperAnalysis :=
       hasUnresolvedWithDeeperAnalysis acc
       || hasUnresolvedWithDeeperAnalysis subAnalysis |}.

Definition reuseCounts (previous : FractalAnalysis) : NodeCounts :=
  {| counts_maxDepth := maxDepth previous;
     counts_unresolvedCount := unresolvedCount previous;
     counts_totalCount := totalCount previous;
     hasUnresolvedWithDeeperAnalysis := needsAttention previous |}.

(** [analyzeNodeIncremental(node, previousAnalysis)], where the caller has
    already read [previousAnalysis] from the cache.  The loop over the
    sub-thoughts reads the cache once per sub-thought; an exception of a
    read or of the call for a sub-thought ends the loop and the call. *)
Fixpoint analyzeNodeIncremental (node : FractalThought)
    (previousAnalysis : option FractalAnalysis) (now : Z) (s : Server)
  : Result NodeCounts * Server :=
  let recompute :=
    fold_left
      (fun (acc : Result NodeCounts * Server) sub =>
         match fst acc with
         | Throws => acc
         | Ok counts =>
             match getCachedAnalysis (thoughtId sub) now (snd acc) with
             | (Throws, s1) => (Throws, s1)
             | (Ok cached, s1) =>
                 match analyzeNodeIncremental sub cached now s1 with
                 | (Ok subAnalysis, s2) => (Ok (addCounts counts subAnalysis), s2)
                 | (Throws, s2) => (Throws, s2)
                 end
             end
         end)
      (subThoughts node) (Ok (ownCounts node), s) in
  match previousAnalysis with
  | Some previous =>
      if negb (hasNodeChanged node s) then (Ok (reuseCounts previous), s)
      else recompute
  | None => recompute
  end.

Definition notFoundAnalysis : FractalAnalysis :=
  {| maxDepth := 0;
     unresolvedCount := 0;
     totalCount := 0;
     completionRatio := of_Z 0;
     status := incomplete;
     needsAttention := false;
     fractalMetrics :=
       {| branchingFactor := of_Z 0;
          depthConsistency := of_Z 0;
          crossBranchSimilarity := of_Z 0;
          patternStrength := of_Z 0;
          recursivePatterns := [];
          emergentProperties := [] |};
     summary :=
       {| complexSystems := "Thought not found";
          patternIdentification := "";
          forecasting := "";
          innovation := "" |} |}.

(** What a call of [analyzeDepth] does: it returns an analysis, returns
    [null] (the final cache read found the new entry already expired), or
    throws a [TypeError]: that of reading [thoughtId] of [null], or that of
    a cache read. *)
Inductive Outcome : Type :=
| Returned (analysis : FractalAnalysis)
| ReturnedNull
| Threw.

(** The analysis object that [analyzeDepth] builds for [thought] from the
    counts of the incremental pass. *)
Definition assembleAnalysis (thought : FractalThought) (counts : NodeCounts)
  : FractalAnalysis :=
  let completionRatio :=
    div (of_Z (counts_totalCount counts - counts_unresolvedCount counts))
        (of_Z (counts_totalCount counts)) in
  let status :=
    if eqb completionRatio (of_Z 1) then complete
    else if geb completionRatio (Fin (7 # 10)) then partially_complete
    else incomplete in
  let branchingFactor := fin (calculateBranchingFactor thought) in
  let depthConsistency := fin (calculateDepthConsistency thought) in
  let crossBranchSimilarity := mul depthConsistency completionRatio in
  let recursivePatterns := identifyRecursivePatterns thought in
  let emergentProperties := identifyEmergentProperties thought recursivePatterns in
  let patternStrength :=
    calculatePatternStrength thought recursivePatterns emergentProperties in
  {| maxDepth := counts_maxDepth counts;
     unresolvedCount := counts_unresolvedCount counts;
     totalCount := counts_totalCount counts;
     completionRatio := completionRatio;
     status := status;
     needsAttention := hasUnresolvedWithDeeperAnalysis counts;
     fractalMetrics :=
       {| branchingFactor := branchingFactor;
          depthConsistency := depthConsistency;
          crossBranchSimilarity := crossBranchSimilarity;
          patternStrength := patternStrength;
          recursivePatterns := recursivePatterns;
          emergentProperties := emergentProperties |};
     summary := generateFractalSummary thought |}.

(** The body of [analyzeDepth] after the cache shortcut: [cached] is what the
    first cache read produced; an exception of that read goes on to the
    caller. *)
Definition analyzeDepth_recompute (thoughtId : string)
    (cached : Result (option FractalAnalysis)) (now : Z) (s : Server)
  : Outcome * Server :=
  match cached with
  | Throws => (Threw, s)
  | Ok previous =>
      match findThought thoughtId (thoughtTree s) with
      | None => (Returned notFoundAnalysis, s)
      | Some thought =>
          match analyzeNodeIncremental thought previous now s with
          | (Throws, s1) => (Threw, s1)
          | (Ok counts, s1) =>
              let s2 := markAnalyzed thoughtId now s1 in
              let s3 :=
                cacheAnalysis thoughtId (assembleAnalysis thought counts) now s2 in
              match getCachedAnalysis thoughtId now s3 with
              | (Ok (Some result), s4) => (Returned result, s4)
              | (Ok None, s4) => (ReturnedNull, s4)
              | (Throws, s4) => (Threw, s4)
              end
          end
      end
  end.

(** [analyzeDepth(thoughtId)] *)
Definition analyzeDepth (thoughtId : string) (now : Z) (s : Server)
  : Outcome * Server :=
  let '(cached, s1) := getCachedAnalysis thoughtId now s in
  match cached with
  | Ok (Some result) =>
      match findThought thoughtId (thoughtTree s1) with
      | None => (Threw, s1)
      | Some node =>
          if negb (hasNodeChanged node s1) then (Returned result, s1)
          else analyzeDepth_recompute thoughtId cached now s1
      end
  | _ => analyzeDepth_recompute thoughtId cached now s1
  end.

(** ** Vocabulary of the properties *)

(** Structural induction on a thought, with the property available for every
    sub-thought. *)
Fixpoint FractalThought_ind (P : FractalThought -> Prop)
    (step : forall t, Forall P (subThoughts t) -> P t) (t : FractalThought)
  : P t :=
  match t as t0 return Forall P (subThoughts t0) -> P t0 with
  | mkThought a b c d subs e f g => fun H => step (mkThought a b c d subs e f g) H
  end
    ((fix all (l : list FractalThought) : Forall P l :=
        match l with
        | [] => @List.Forall_nil _ P
        | x :: r => @List.Forall_cons _ P x r (FractalThought_ind P step x) (all r)
        end) (subThoughts t)).

(** What the incremental pass computes when no cached analysis can be
    reused: the counts of the whole subtree. *)
Fixpoint subtreeCounts (node : FractalThought) : NodeCounts :=
  fold_left (fun acc sub => addCounts acc (subtreeCounts sub))
    (subThoughts node) (ownCounts node).

(** The expiration clamp has non-negative finite bounds, so an entry read at
    the instant it was written has not expired. *)
Definition sane_expiration (config : CacheConfig) : bool :=
  match minExpirationMs config, maxExpirationMs config with
  | Fin a, Fin b => Qle_bool 0 a && Qle_bool 0 b
  | _, _ => false
  end.

(** Every cached analysis belongs to a thought of the tree. *)
Definition cache_keys_resolve (s : Server) : Prop :=
  forall k, is_Some (dict_get k (analysisCache s)) ->
            is_Some (findThought k (thoughtTree s)).

(** The part of the state that the cache operations never write. *)
Definition same_store (s s' : Server) : Prop :=
  thoughtTree s' = thoughtTree s /\ cacheConfig s' = cacheConfig s /\
  changeTracker s' = changeTracker s.

(** No key was added to the analysis cache between [s] and [s']. *)
Definition keys_within (s s' : Server) : Prop :=
  forall k, is_Some (dict_get k (analysisCache s')) ->
            is_Some (dict_get k (analysisCache s)).

(** [e] matches an entry [x] of the same cache with the same key: deleting
    [e] removes [x]. *)
Definition same_slot (e x : EvictionEntry) : bool :=
  Bool.eqb (isAnalysis e) (isAnalysis x)
  && String.eqb (entry_key e) (entry_key x).

Definition evicted_by (batch : list EvictionEntry) (x : EvictionEntry) : bool :=
  existsb (fun e => same_slot e x) batch.

(** The batch that [manageCacheSize] evicts from an over-full cache. *)
Definition eviction_batch (s : Server) : list EvictionEntry :=
  slice0
    (stable_sort (fun a b => lastAccess a <? lastAccess b) (eviction_entries s))
    (cache_size s - maxCacheSize (cacheConfig s)
     + ceil_tenth (maxCacheSize (cacheConfig s))).

(** The id that [trackThoughtChange] propagates to: the parent id of the
    thought when it is in the tree and has a non-empty one. *)
Definition parent_of (id : string) (s : Server) : option string :=
  match findThought id (thoughtTree s) with
  | Some t =>
      match parentId t with
      | Some (String c r) => Some (String c r)
      | _ => None
      end
  | None => None
  end.

(** The time of the last analysis on record for [id]; 0 without a record. *)
Definition last_analysis_of (id : string) (s : Server) : Z :=
  match changeTracker s !! id with
  | Some r => lastAnalysis r
  | None => 0
  end.

(** The subtree flag on record for [id]; unset without a record. *)
Definition subtree_flag_of (id : string) (s : Server) : bool :=
  match changeTracker s !! id with
  | Some r => subthoughtChanges r
  | None => false
  end.

(** [completes_one t t']: [t'] is [t] with the [isComplete] flag of exactly
    one thought of the subtree turned from false to true, and nothing else
    changed. *)
Inductive completes_one : FractalThought -> FractalThought -> Prop :=
| complete_here (a b : string) (c : Z) (d : option string)
    (subs : list FractalThought) (f : bool) (g : string) :
    completes_one (mkThought a b c d subs false f g)
                  (mkThought a b c d subs true f g)
| complete_below (a b : string) (c : Z) (d : option string)
    (before after : list FractalThought) (t t' : FractalThought)
    (e f : bool) (g : string) :
    completes_one t t' ->
    completes_one (mkThought a b c d (before ++ t :: after) e f g)
                  (mkThought a b c d (before ++ t' :: after) e f g).

(** The same thought, or the thought with one more thought completed. *)
Definition same_or_completed (n n' : FractalThought) : Prop :=
  n = n' \/ completes_one n n'.

(** One thought fewer is unresolved, out of the same total. *)
Definition one_resolved (c c' : NodeCounts) : Prop :=
  counts_totalCount c' = counts_totalCount c /\
  counts_unresolvedCount c' = counts_unresolvedCount c - 1.

Definition counts_in_range (c : NodeCounts) : Prop :=
  0 <= counts_unresolvedCount c <= counts_totalCount c /\
  1 <= counts_totalCount c.

(** Where a search finds a thought in the old tree it finds the same thought,
    or that thought with the one completion, in the new tree. *)
Definition found_alike (o o' : option FractalThought) : Prop :=
  match o, o' with
  | None, None => True
  | Some n, Some n' => same_or_completed n n'
  | _, _ => False
  end.



(** ** Scenarios *)

Module Scenario.

Definition created : string := "2026-01-01T00:00:00.000Z".

Definition node (id : string) (parent : option string) (d : Z) (done : bool)
    (subs : list FractalThought) : FractalThought :=
  {| thought := id; thoughtId := id; depth := d; parentId := parent;
     subThoughts := subs; isComplete := done; needsDeeperAnalysis := false;
     createdAt := created |}.

Definition root_with (subs : list FractalThought) : FractalThought :=
  {| thought := "Root thought"; thoughtId := "root"; depth := 0;
     parentId := None; subThoughts := subs; isComplete := false;
     needsDeeperAnalysis := false; createdAt := created |}.

(** root -> A(incomplete) -> [B(complete, leaf), C(incomplete, leaf)] *)
Definition B : FractalThought := node "B" (Some "A") 2 true [].
Definition C : FractalThought := node "C" (Some "A") 2 false [].
Definition A : FractalThought := node "A" (Some "root") 1 false [B; C].

(** A as a thought that needs deeper analysis: its patterns give rise to
    emergent properties. *)
Definition A_deeper : FractalThought :=
  {| thought := "A"; thoughtId := "A"; depth := 1; parentId := Some "root";
     subThoughts := [B; C]; isComplete := false; needsDeeperAnalysis := true;
     createdAt := created |}.

(** A new server whose tree is that of the scenario; nothing analysed or
    recorded yet. *)
Definition family : Server := with_tree [root_with [A]] (initial created).

(** The same tree with the changes on record that adding A, B and C in turn
    leaves (the parent with its subtree flag, then the new thought). *)
Definition family_tracked : Server :=
  trackThoughtChange "C" false 300
    (trackThoughtChange "A" true 300
       (trackThoughtChange "B" false 200
          (trackThoughtChange "A" true 200
             (trackThoughtChange "A" false 100
                (trackThoughtChange "root" true 100 family))))).

(** The tree after C has been completed. *)
Definition C_done : FractalThought := node "C" (Some "A") 2 true [].
Definition A_after : FractalThought := node "A" (Some "root") 1 false [B; C_done].

(** C gets a sub-thought D, with the changes on record that adding D leaves
    and the two analyses that follow the addition. *)
Definition D : FractalThought := node "D" (Some "C") 3 false [].
Definition C_grown : FractalThought := node "C" (Some "A") 2 false [D].
Definition A_grown : FractalThought := node "A" (Some "root") 1 false [B; C_grown].

Definition grow (s : Server) : Server :=
  snd (analyzeDepth "C" 2000
         (snd (analyzeDepth "D" 2000
                 (trackThoughtChange "D" false 2000
                    (trackThoughtChange "C" true 2000
                       (with_tree [root_with [A_grown]] s)))))).

(** The analysis that a fresh [analyzeDepth] builds for A. *)
Definition analysis_of_A : FractalAnalysis :=
  assembleAnalysis A (subtreeCounts A).

(** An analysis whose first pattern has a pipe in its key. *)
Definition piped : FractalAnalysis :=
  {| maxDepth := 2; unresolvedCount := 1; totalCount := 2;
     completionRatio := Fin (1 # 2); status := incomplete;
     needsAttention := false;
     fractalMetrics :=
       {| branchingFactor := of_Z 1; depthConsistency := of_Z 1;
          crossBranchSimilarity := Fin (1 # 2); patternStrength := Fin (2 # 5);
          recursivePatterns :=
            [ {| type := "a|b"; occurrences := 1; scales := [1];
                 evolution := []; crossBranchOccurrences := 0;
                 confidence := 1 |} ];
          emergentProperties := [] |};
     summary := summary notFoundAnalysis |}.

Definition entry_at (id : string) (t : Z) : string * CachedAnalysis :=
  (id, {| timestamp := t; cached_summary := "D0|C0%|P[]|E[]|S0%"; key := id;
          fullAnalysis := notFoundAnalysis; accessCount := 1 |}).

Definition aggregate_at (id : string) (t : Z) : string * AggregateSummary :=
  (id, {| aggregate_thoughtId := id; aggregate_timestamp := t;
          aggregate_summary := "D0|C0%|P[]|E[]|S0%"; childSummaries := [];
          metrics := {| totalBranches := 1; averageDepth := of_Z 0;
                        completionRate := of_Z 0;
                        aggregate_patternStrength := of_Z 0 |} |}).

(** A cache over its capacity of two: three analysis entries and one
    aggregate entry. *)
Definition crowded : Server :=
  with_aggregateCache [aggregate_at "a" 5]
    (with_analysisCache [entry_at "a" 30; entry_at "b" 10; entry_at "c" 20]
       (with_config
          {| baseExpirationMs := of_Z 300000;
             patternStrengthMultiplier := of_Z 2;
             depthMultiplier := Fin (3 # 2);
             maxCacheSize := 2;
             minExpirationMs := of_Z 60000;
             maxExpirationMs := of_Z 1800000 |}
          (initial created))).

End Scenario.

(** ** Cache maintenance *)

(** The test of [evictStaleEntries] on an analysis entry; it is also the
    test of [getCachedAnalysis]. *)
Definition stale_analysis (config : CacheConfig) (now : Z)
    (entry : CachedAnalysis) : bool :=
  gtb (of_Z (now - timestamp entry))
      (getCacheExpiration config (fullAnalysis entry)).

(** The test of [evictStaleEntries] on an aggregate entry. *)
Definition stale_aggregate (config : CacheConfig) (now : Z)
    (entry : AggregateSummary) : bool :=
  gtb (of_Z (now - aggregate_timestamp entry)) (maxExpirationMs config).

(** One [forEach] of [evictStaleEntries]: the loop runs over the entries that
    the object had when the loop began and deletes from the object itself;
    the second component counts the deletions. *)
Definition sweep {V : Type} (stale : V -> bool) (entries : Dict V)
    (acc : Dict V * Z) : Dict V * Z :=
  fold_left
    (fun (acc : Dict V * Z) kv =>
       if stale (snd kv) then (dict_delete (fst kv) (fst acc), snd acc + 1)
       else acc)
    entries acc.

(** [evictStaleEntries()] *)
Definition evictStaleEntries (now : Z) (s : Server) : Server :=
  let '(analyses, evicted1) :=
    sweep (stale_analysis (cacheConfig s) now) (analysisCache s)
      (analysisCache s, 0) in
  let '(aggregates, evicted) :=
    sweep (stale_aggregate (cacheConfig s) now) (aggregateCache s)
      (aggregateCache s, evicted1) in
  let s1 := with_aggregateCache aggregates (with_analysisCache analyses s) in
  if 0 <? evicted then
    with_stats
      {| hits := hits (cacheStats s1); misses := misses (cacheStats s1);
         evictions := evictions (cacheStats s1) + evicted;
         totalSize := cache_size s1 |} s1
  else s1.

(** [getCacheStats()] and [getCacheConfig()] return copies. *)
Definition getCacheStats (s : Server) : CacheStats := cacheStats s.
Definition getCacheConfig (s : Server) : CacheConfig := cacheConfig s.

(** [Partial<CacheConfig>]: the fields that the caller gives. *)
Record CacheConfigUpdate : Type := mkUpdate {
  new_baseExpirationMs : option number;
  new_patternStrengthMultiplier : option number;
  new_depthMultiplier : option number;
  new_maxCacheSize : option Z;
  new_minExpirationMs : option number;
  new_maxExpirationMs : option number
}.

(** [{ ...this.cacheConfig, ...config }] *)
Definition merge_config (current : CacheConfig) (config : CacheConfigUpdate)
  : CacheConfig :=
  {| baseExpirationMs :=
       default (baseExpirationMs current) (new_baseExpirationMs config);
     patternStrengthMultiplier :=
       default (patternStrengthMultiplier current)
               (new_patternStrengthMultiplier config);
     depthMultiplier :=
       default (depthMultiplier current) (new_depthMultiplier config);
     maxCacheSize := default (maxCacheSize current) (new_maxCacheSize config);
     minExpirationMs :=
       default (minExpirationMs current) (new_minExpirationMs config);
     maxExpirationMs :=
       default (maxExpirationMs current) (new_maxExpirationMs config) |}.

(** [updateCacheConfig(config)] *)
Definition updateCacheConfig (config : CacheConfigUpdate) (now : Z) (s : Server)
  : Server :=
  evictStaleEntries now (with_config (merge_config (cacheConfig s) config) s).

(** [updateCacheConfig({ maxCacheSize: n })]: the capacity alone is given. *)
Definition capacity_update (n : Z) : CacheConfigUpdate :=
  {| new_baseExpirationMs := None; new_patternStrengthMultiplier := None;
     new_depthMultiplier := None; new_maxCacheSize := Some n;
     new_minExpirationMs := None; new_maxExpirationMs := None |}.

(** The crowded cache of the scenario after its capacity has been set to
    zero at time 40: no entry has expired, all four stay. *)
Definition no_room : Server :=
  updateCacheConfig (capacity_update 0) 40 Scenario.crowded.

(** The fixed life of a summary: 30 minutes. *)
Definition summaryLifeMs : Z := 30 * 60 * 1000.

(** [getCachedSummary(thoughtId)].  For an id that names an inherited member
    and has no entry, the code compares with the missing time stamp of that
    member (false) and returns its [summary], which is [undefined]: [None]
    here, the state as it was. *)
Definition getCachedSummary (thoughtId : string) (now : Z) (s : Server)
  : option string * Server :=
  match dict_get thoughtId (analysisCache s) with
  | None => (None, s)
  | Some cached =>
      if summaryLifeMs <? now - timestamp cached then
        (None, with_analysisCache (dict_delete thoughtId (analysisCache s)) s)
      else (Some (cached_summary cached), s)
  end.

(** ** A thought with its context *)

(** The loop of [findPath] at one node: [path] holds the ancestors. *)
Fixpoint findPathNode (id : string) (path : list FractalThought)
    (node : FractalThought) : option (list FractalThought) :=
  if String.eqb (thoughtId node) id then Some (path ++ [node])%list
  else first_some (findPathNode id (path ++ [node])%list) (subThoughts node).

Definition findPath (id : string) (nodes : list FractalThought)
    (path : list FractalThought) : option (list FractalThought) :=
  first_some (findPathNode id path) nodes.

(** The object that [getThoughtWithContext] returns; every field may be
    missing. *)
Record ThoughtWithContext : Type := mkWithContext {
  found_thought : option FractalThought;
  found_parent : option FractalThought;
  found_siblings : option (list FractalThought);
  found_path : option (list FractalThought)
}.

(** [getThoughtWithContext(thoughtId)] *)
Definition getThoughtWithContext (thoughtId : string) (s : Server)
  : ThoughtWithContext :=
  match findPath thoughtId (thoughtTree s) [] with
  | None =>
      {| found_thought := None; found_parent := None; found_siblings := None;
         found_path := None |}
  | Some path =>
      let parent :=
        if (1 <? length path)%nat then nth_error path (length path - 2)
        else None in
      {| found_thought := nth_error path (length path - 1);
         found_parent := parent;
         found_siblings :=
           Some match parent with
                | Some p => subThoughts p
                | None => thoughtTree s
                end;
         found_path := Some path |}
  end.

(** ** Aggregate summaries *)

(** The value of a call of [analyzeDepth] that did not throw; [None] is
    [null]. *)
Definition returned (o : Outcome) : option FractalAnalysis :=
  match o with
  | Returned a => Some a
  | _ => None
  end.

(** [getCachedSummary(id) || summarizeAnalysis(analyzeDepth(id))]: the
    summary of one child; [None] when [analyzeDepth] throws. *)
Definition childSummary (id : string) (now : Z) (s : Server)
  : option string * Server :=
  match getCachedSummary id now s with
  | (Some (String c r), s1) => (Some (String c r), s1)
  | (_, s1) =>
      match analyzeDepth id now s1 with
      | (Returned a, s2) =>
          (Some (AnalysisSummarizer.summarizeAnalysis (Some a)), s2)
      | (ReturnedNull, s2) => (Some (AnalysisSummarizer.summarizeAnalysis None), s2)
      | (Threw, s2) => (None, s2)
      end
  end.

(** [collectChildSummaries(node)]: the summaries of all descendants, a child
    before its own children.  The first component is [None] once an
    exception has left the loops. *)
Fixpoint collectChildSummaries (node : FractalThought) (now : Z)
    (st : option (Dict string) * Server) : option (Dict string) * Server :=
  fold_left
    (fun (st : option (Dict string) * Server) child =>
       match fst st with
       | None => st
       | Some childSummaries =>
           match childSummary (thoughtId child) now (snd st) with
           | (Some text, s1) =>
               collectChildSummaries child now
                 (Some (dict_set (thoughtId child) text childSummaries), s1)
           | (None, s1) => (None, s1)
           end
       end)
    (subThoughts node) st.

(** The thoughts that the ids resolve to, unresolved ids dropped:
    [ids.map(id => this.findThought(id)!).filter(Boolean)]. *)
Definition resolve_all (ids : list string) (tree : list FractalThought)
  : list FractalThought :=
  flat_map
    (fun id => match findThought id tree with Some n => [n] | None => [] end)
    ids.

Definition aggregateMetrics (allNodes : list FractalThought)
    (analysis : FractalAnalysis) : AggregateMetrics :=
  {| totalBranches := Zlength' allNodes;
     averageDepth :=
       div (of_Z (Zsum (map depth allNodes))) (of_Z (Zlength' allNodes));
     completionRate :=
       div (of_Z (Zlength' (List.filter isComplete allNodes)))
           (of_Z (Zlength' allNodes));
     aggregate_patternStrength := patternStrength (fractalMetrics analysis) |}.

(** [generateAggregateSummary(thoughtId)]; [None] when it throws: the thought
    is not found, an [analyzeDepth] throws, or the analysis of the thought is
    [null] when its pattern strength is read. *)
Definition generateAggregateSummary (thoughtId : string) (now : Z) (s : Server)
  : option AggregateSummary * Server :=
  match findThought thoughtId (thoughtTree s) with
  | None => (None, s)
  | Some thought =>
      let '(outcome, s1) := analyzeDepth thoughtId now s in
      match outcome with
      | Threw => (None, s1)
      | _ =>
          let analysis := returned outcome in
          let summary := AnalysisSummarizer.summarizeAnalysis analysis in
          match collectChildSummaries thought now (Some [], s1) with
          | (None, s2) => (None, s2)
          | (Some childSummaries, s2) =>
              match analysis with
              | None => (None, s2)
              | Some a =>
                  let allNodes :=
                    thought
                    :: resolve_all (dict_keys childSummaries) (thoughtTree s2) in
                  let aggregateSummary :=
                    {| aggregate_thoughtId := thoughtId;
                       aggregate_timestamp := now;
                       aggregate_summary := summary;
                       childSummaries := childSummaries;
                       metrics := aggregateMetrics allNodes a |} in
                  (Some aggregateSummary,
                   with_aggregateCache
                     (dict_set thoughtId aggregateSummary (aggregateCache s2))
                     s2)
              end
          end
      end
  end.

(** [getAggregateSummary(thoughtId, forceRegenerate)]; [None] is [null].  For
    an id that names an inherited member and has no entry, the comparison
    with the missing time stamp of that member is false and the summary is
    generated, as for a missing entry. *)
Definition getAggregateSummary (thoughtId : string) (forceRegenerate : bool)
    (now : Z) (s : Server) : option AggregateSummary * Server :=
  match dict_get thoughtId (aggregateCache s) with
  | Some cached =>
      if negb forceRegenerate
         && (now - aggregate_timestamp cached <? summaryLifeMs)
      then (Some cached, s)
      else generateAggregateSummary thoughtId now s
  | None => generateAggregateSummary thoughtId now s
  end.

(** ** Adding a thought *)

(** The arguments of [addThought]. *)
Record ThoughtParams : Type := mkParams {
  param_thought : string;
  param_thoughtId : option string;
  param_depth : option Z;
  param_parentId : option string;
  param_isComplete : bool;
  param_needsDeeperAnalysis : bool;
  param_createdAt : option string
}.

Record ThoughtContext : Type := mkContext {
  context_parent : option FractalThought;
  context_siblings : list FractalThought;
  context_depth : Z;
  context_pathLength : Z
}.

(** The successful result of [addThought]; in [result_analysis], [None] is
    the [null] of [analyzeDepth]; [result_parentAnalysis] is [None] when the
    thought has no parent id. *)
Record AddedThought : Type := mkAdded {
  result_thought : FractalThought;
  result_context : ThoughtContext;
  result_analysis : option FractalAnalysis;
  result_parentAnalysis : option (option FractalAnalysis);
  result_aggregateSummary : AggregateSummary
}.

(** The three results with [success: false], by the head of their message. *)
Inductive AddFailure : Type :=
| InvalidParameters
| ParentNotFound (parentId : string)
| ErrorAddingThought.

Inductive AddResult : Type :=
| Added (result : AddedThought)
| Rejected (failure : AddFailure).

Definition with_subThoughts (subs : list FractalThought) (t : FractalThought)
  : FractalThought :=
  mkThought (thought t) (thoughtId t) (depth t) (parentId t) subs
    (isComplete t) (needsDeeperAnalysis t) (createdAt t).

(** [l] with the first element that [f] changes replaced by its change. *)
Fixpoint update_first {A : Type} (f : A -> option A) (l : list A)
  : option (list A) :=
  match l with
  | [] => None
  | x :: r =>
      match f x with
      | Some x' => Some (x' :: r)
      | None => option_map (cons x) (update_first f r)
      end
  end.

(** [child] pushed onto the sub-thoughts of the node that the search of
    [findThought] for [id] reaches first below [node]. *)
Fixpoint pushInNode (id : string) (child node : FractalThought)
  : option FractalThought :=
  if String.eqb (thoughtId node) id
  then Some (with_subThoughts (subThoughts node ++ [child])%list node)
  else option_map (fun subs => with_subThoughts subs node)
         (update_first (pushInNode id child) (subThoughts node)).

(** [parent.subThoughts.push(child)] for [parent = this.findThought(id)]: the
    tree holds each thought object once, so the push shows at the place of
    the tree where the search found the parent. *)
Definition pushUnder (id : string) (child : FractalThought)
    (thoughtTree : list FractalThought) : list FractalThought :=
  if String.eqb id "root" then
    match thoughtTree with
    | first :: rest =>
        with_subThoughts (subThoughts first ++ [child])%list first :: rest
    | [] => []
    end
  else
    match update_first (pushInNode id child) thoughtTree with
    | Some tree => tree
    | None => thoughtTree
    end.

Section AddThought.

(** The check of [z.string().datetime()], which belongs to the validation
    library. *)
Variable is_datetime : string -> bool.

(** [ThoughtSchema.safeParse(params).success] for arguments of the declared
    types. *)
Definition validParams (params : ThoughtParams) : bool :=
  negb (String.eqb (param_thought params) "")
  && match param_depth params with Some d => 0 <=? d | None => true end
  && match param_createdAt params with Some c => is_datetime c | None => true end.

(** The object that [addThought] builds for validated arguments, given the
    thought that the parent id resolves to.  [uuid] is what [uuidv4()]
    returns and [nowIso] what [new Date().toISOString()] returns. *)
Definition newThoughtOf (params : ThoughtParams) (uuid nowIso : string)
    (parent : option FractalThought) : FractalThought :=
  {| thought := param_thought params;
     thoughtId := AnalysisSummarizer.or_string (param_thoughtId params) uuid;
     depth :=
       match param_depth params with
       | Some d => d
       | None => match parent with Some p => depth p + 1 | None => 0 end
       end;
     parentId := param_parentId params;
     subThoughts := [];
     isComplete := param_isComplete params;
     needsDeeperAnalysis := param_needsDeeperAnalysis params;
     createdAt := AnalysisSummarizer.or_string (param_createdAt params) nowIso |}.

(** The part of [addThought] that places the new thought, below its parent
    or as a new root, and records the changes. *)
Definition placeThought (newThought : FractalThought)
    (parent : option FractalThought) (now : Z) (s : Server) : Server :=
  let s1 :=
    match parentId newThought, parent with
    | Some id, Some p =>
        trackThoughtChange (thoughtId p) true now
          (with_tree (pushUnder id newThought (thoughtTree s)) s)
    | _, _ => with_tree (thoughtTree s ++ [newThought])%list s
    end in
  trackThoughtChange (thoughtId newThought) false now s1.

(** The rest of [addThought]: the context of the new thought, the analyses
    and the aggregate summaries.  An exception in any of them is caught and
    reported; the thought stays in the tree. *)
Definition reportAdded (newThought : FractalThought) (now : Z) (s2 : Server)
  : AddResult * Server :=
  let thoughtContext := getThoughtWithContext (thoughtId newThought) s2 in
  let pathLength :=
    match found_path thoughtContext with
    | Some path => Zlength' path
    | None => 0
    end in
  let context :=
    {| context_parent := found_parent thoughtContext;
       context_siblings :=
         match found_siblings thoughtContext with
         | Some l => l
         | None => []
         end;
       context_depth := pathLength;
       context_pathLength := pathLength |} in
  match analyzeDepth (thoughtId newThought) now s2 with
  | (Threw, s3) => (Rejected ErrorAddingThought, s3)
  | (thoughtOutcome, s3) =>
      let '(parentOutcome, s4) :=
        match parentId newThought with
        | Some (String c r) =>
            let '(o, s4) := analyzeDepth (String c r) now s3 in (Some o, s4)
        | _ => (None, s3)
        end in
      match parentOutcome with
      | Some Threw => (Rejected ErrorAddingThought, s4)
      | _ =>
          match generateAggregateSummary (thoughtId newThought) now s4 with
          | (None, s5) => (Rejected ErrorAddingThought, s5)
          | (Some thoughtAggregate, s5) =>
              let result :=
                Added
                  {| result_thought := newThought;
                     result_context := context;
                     result_analysis := returned thoughtOutcome;
                     result_parentAnalysis := option_map returned parentOutcome;
                     result_aggregateSummary := thoughtAggregate |} in
              match parentId newThought with
              | Some (String c r) =>
                  match generateAggregateSummary (String c r) now s5 with
                  | (None, s6) => (Rejected ErrorAddingThought, s6)
                  | (Some _, s6) => (result, s6)
                  end
              | _ => (result, s5)
              end
          end
      end
  end.

(** [addThought(params)]; [now] is the reading of the clock. *)
Definition addThought (params : ThoughtParams) (uuid nowIso : string) (now : Z)
    (s : Server) : AddResult * Server :=
  if negb (validParams params) then (Rejected InvalidParameters, s)
  else
    let parent :=
      match param_parentId params with
      | Some id => findThought id (thoughtTree s)
      | None => None
      end in
    match param_parentId params, parent with
    | Some (String c r), None => (Rejected (ParentNotFound (String c r)), s)
    | _, _ =>
        let newThought := newThoughtOf params uuid nowIso parent in
        reportAdded newThought now (placeThought newThought parent now s)
    end.

End AddThought.

(** ** The uncached server *)

(** The counting pass of the [analyzeDepth] of the server without a cache
    (src/fractal-thinking-mcp.ts): the four running variables, which
    [analyzeNode] updates at every descendant. *)
Module Legacy.

Fixpoint analyzeNode (node : FractalThought) (acc : NodeCounts) : NodeCounts :=
  fold_left (fun acc sub => analyzeNode sub acc) (subThoughts node)
    {| counts_maxDepth := Z.max (counts_maxDepth acc) (depth node);
       counts_unresolvedCount :=
         if isComplete node then counts_unresolvedCount acc
         else counts_unresolvedCount acc + 1;
       counts_totalCount := counts_totalCount acc + 1;
       hasUnresolvedWithDeeperAnalysis :=
         if negb (isComplete node) && needsDeeperAnalysis node then true
         else hasUnresolvedWithDeeperAnalysis acc |}.

Definition countThoughts (thought : FractalThought) : NodeCounts :=
  fold_left (fun acc sub => analyzeNode sub acc) (subThoughts thought)
    {| counts_maxDepth := depth thought;
       counts_unresolvedCount := if isComplete thought then 0 else 1;
       counts_totalCount := 1;
       hasUnresolvedWithDeeperAnalysis := false |}.

End Legacy.

(** ** Vocabulary of the further properties *)

(** The thoughts of a subtree in the order of the search: a thought before
    its sub-thoughts, these from first to last. *)
Fixpoint flatten (node : FractalThought) : list FractalThought :=
  node :: flat_map flatten (subThoughts node).

Definition thoughts_of (tree : list FractalThought) : list FractalThought :=
  flat_map flatten tree.

Definition has_id (id : string) (node : FractalThought) : bool :=
  String.eqb (thoughtId node) id.

(** No thought of the list has an id that names an inherited member of the
    cache object. *)
Definition plain_ids (l : list FractalThought) : Prop :=
  Forall (fun t => inherited (thoughtId t) = false) l.

(** Every thought of the list after the first is a sub-thought of the one
    before it. *)
Fixpoint descends (path : list FractalThought) : Prop :=
  match path with
  | a :: (b :: _) as rest => In b (subThoughts a) /\ descends rest
  | _ => True
  end.

(** [m] is the largest depth among the thoughts of [l]. *)
Definition largest_depth (m : Z) (l : list FractalThought) : Prop :=
  (forall t, In t l -> depth t <= m) /\ (exists t, In t l /\ depth t = m).

(** The distinct values of [l], in the order of their first occurrence:
    [new Set(l)]. *)
Definition distinct (l : list Z) : list Z :=
  fold_left (fun s d => set_add Z.eqb d s) l [].

(** The record of a pattern is consistent: one evolution step per
    occurrence, at least one; the scales are the distinct depths of the
    steps; fewer cross-branch occurrences than occurrences; and every step
    satisfies [P]. *)
Definition data_ok (P : EvolutionStep -> Prop) (d : PatternData) : Prop :=
  data_occurrences d = Zlength' (data_evolution d) /\
  1 <= data_occurrences d /\
  data_scales d = distinct (map step_depth (data_evolution d)) /\
  0 <= data_crossBranchOccurrences d < data_occurrences d /\
  Forall P (data_evolution d).

(** The state of the pattern traversal is consistent: every record is, the
    keys seen among the siblings have records, and no key has two. *)
Definition patterns_ok (P : EvolutionStep -> Prop) (st : PatternState) : Prop :=
  (forall k d, dict_get k (fst st) = Some d -> data_ok P d) /\
  (forall k, In k (snd st) -> is_Some (dict_get k (fst st))) /\
  NoDup (dict_keys (fst st)).

(** No key is lost from [st] to [st']. *)
Definition keys_grow (st st' : PatternState) : Prop :=
  forall k, is_Some (dict_get k (fst st)) -> is_Some (dict_get k (fst st')).

(** The step was recorded at a thought of the subtree of [node]. *)
Definition step_of (node : FractalThought) (step : EvolutionStep) : Prop :=
  exists t, In t (flatten node) /\ step_depth step = depth t /\
            step_confidence step = occurrence_confidence t.

(** A number that is finite and not negative. *)
Definition nonneg (x : number) : Prop := exists q, x = Fin q /\ (0 <= q)%Q.

(** A number that is finite and greater than zero. *)
Definition above_zero (x : number) : Prop := exists q, x = Fin q /\ (0 < q)%Q.

(** A number between 0 and 1. *)
Definition unit_interval (x : number) : Prop :=
  exists q, x = Fin q /\ (0 <= q <= 1)%Q.

(** The fields of a pattern that the strengths are computed from are what
    the traversal of a tree with non-negative depths leaves. *)
Definition pattern_sane (p : RecursivePattern) : Prop :=
  1 <= occurrences p /\ 0 <= crossBranchOccurrences p /\
  scales p <> [] /\ Forall (fun d => 0 <= d) (scales p).

(** No cached analysis sits under a name that the cache object inherits. *)
Definition keys_plain (s : Server) : Prop :=
  forall k, is_Some (dict_get k (analysisCache s)) -> inherited k = false.

(** Between [s] and [s'] no analysis was cached under an inherited name. *)
Definition adds_plain (s s' : Server) : Prop :=
  forall k, is_Some (dict_get k (analysisCache s')) ->
            is_Some (dict_get k (analysisCache s)) \/ inherited k = false.

(** The call of [analyzeDepth] is answered by the cache shortcut: its first
    read is a hit, for a thought of the tree that reads as unchanged. *)
Definition served_from_cache (id : string) (now : Z) (s : Server) : bool :=
  match fst (getCachedAnalysis id now s), findThought id (thoughtTree s) with
  | Ok (Some _), Some node => negb (hasNodeChanged node s)
  | _, _ => false
  end.

(** A thought that is not complete and needs deeper analysis. *)
Definition calls_for_attention (t : FractalThought) : bool :=
  negb (isComplete t) && needsDeeperAnalysis t.

(** The same depth, unresolved and total counts. *)
Definition same_counts (c c' : NodeCounts) : Prop :=
  counts_maxDepth c = counts_maxDepth c' /\
  counts_unresolvedCount c = counts_unresolvedCount c' /\
  counts_totalCount c = counts_totalCount c'.

(** An analysis as [analyzeDepth] assembles it for a thought, from counts
    that are in range and with the attention flag unset. *)
Definition analysis_ok (a : FractalAnalysis) : Prop :=
  exists thought counts,
    a = assembleAnalysis thought counts /\ counts_in_range counts /\
    hasUnresolvedWithDeeperAnalysis counts = false.

(** A cache entry under key [k] as [cacheAnalysis] writes it: it names its
    key and its summary is the compact summary of its analysis. *)
Definition entry_ok (k : string) (e : CachedAnalysis) : Prop :=
  key e = k /\
  cached_summary e = AnalysisSummarizer.summarizeAnalysis (Some (fullAnalysis e)) /\
  analysis_ok (fullAnalysis e).

Definition cache_ok (s : Server) : Prop :=
  forall k e, dict_get k (analysisCache s) = Some e -> entry_ok k e.

(** Every aggregate summary belongs to a thought of the tree. *)
Definition aggregates_resolve (s : Server) : Prop :=
  forall k, is_Some (dict_get k (aggregateCache s)) ->
            is_Some (findThought k (thoughtTree s)).

(** The caches of a well-formed state. *)
Definition state_ok (s : Server) : Prop :=
  cache_ok s /\ cache_keys_resolve s /\ aggregates_resolve s /\
  NoDup (dict_keys (analysisCache s)) /\ NoDup (dict_keys (aggregateCache s)).

(** Two cache entries that differ at most in time stamp and access count. *)
Definition same_content (e e' : CachedAnalysis) : Prop :=
  key e' = key e /\ cached_summary e' = cached_summary e /\
  fullAnalysis e' = fullAnalysis e.

(** From [s] to [s'] the tree and the configuration are the same and the
    caches have lost entries or had analysis entries refreshed, nothing
    else. *)
Definition cache_shrinks (s s' : Server) : Prop :=
  thoughtTree s' = thoughtTree s /\ cacheConfig s' = cacheConfig s /\
  (forall k e', dict_get k (analysisCache s') = Some e' ->
     exists e, dict_get k (analysisCache s) = Some e /\ same_content e e') /\
  (forall k g, dict_get k (aggregateCache s') = Some g ->
     dict_get k (aggregateCache s) = Some g) /\
  (NoDup (dict_keys (analysisCache s)) -> NoDup (dict_keys (analysisCache s'))) /\
  (NoDup (dict_keys (aggregateCache s)) -> NoDup (dict_keys (aggregateCache s'))).

(** What a call of [analyzeDepth] that does not throw returns in a
    well-formed state, given what the id resolves to: for a thought an
    analysis of it or [null], for an unknown id the default analysis. *)
Definition outcome_ok (found : option FractalThought) (o : Outcome) : Prop :=
  match o with
  | Returned a =>
      match found with
      | Some _ => analysis_ok a
      | None => a = notFoundAnalysis
      end
  | ReturnedNull => is_Some found
  | Threw => True
  end.

(** [t] names [id] as its parent. *)
Definition parent_is (id : string) (t : FractalThought) : bool :=
  match parentId t with
  | Some p => String.eqb p id
  | None => false
  end.

(** Every sub-thought below [node] names the thought that holds it as its
    parent. *)
Fixpoint well_linked (node : FractalThought) : bool :=
  forallb (fun sub => parent_is (thoughtId node) sub && well_linked sub)
    (subThoughts node).

(** [t] names no parent. *)
Definition is_top (t : FractalThought) : bool :=
  match parentId t with
  | None => true
  | Some p => String.eqb p ""
  end.

(** The shape of the tree of a running server: the first root is the thought
    "root", roots name no parent, sub-thoughts name their parent, ids are
    not empty and depths are not negative. *)
Definition tree_ok (tree : list FractalThought) : Prop :=
  option_map thoughtId (head tree) = Some "root" /\
  Forall (fun t => is_top t = true /\ well_linked t = true) tree /\
  Forall (fun t => thoughtId t <> "" /\ 0 <= depth t) (thoughts_of tree).

(** A thought without its sub-thoughts. *)
Definition bare (t : FractalThought) : FractalThought := with_subThoughts [] t.

(** The thoughts of [l'] are those of [l] with [child] inserted, up to their
    sub-thought lists. *)
Definition inserted (child : FractalThought) (l l' : list FractalThought) : Prop :=
  exists l1 l2,
    map bare l = (l1 ++ l2)%list /\ map bare l' = (l1 ++ bare child :: l2)%list.

(** The tree after [addThought] has placed [child]: below the parent that
    [parentId] names, or as a new root when it names none. *)
Definition addedTo (parentId : option string) (child : FractalThought)
    (tree : list FractalThought) : list FractalThought :=
  match parentId with
  | Some (String c r) => pushUnder (String c r) child tree
  | _ => (tree ++ [child])%list
  end.

(** From [s] to [s'] the tree and the configuration are the same, and the
    caches stay well formed if they were. *)
Definition preserves (s s' : Server) : Prop :=
  thoughtTree s' = thoughtTree s /\ cacheConfig s' = cacheConfig s /\
  (state_ok s -> state_ok s').

Section Reachable.

Variable is_datetime : string -> bool.

(** One call of a public method of the class that can change the state, at
    any reading of the clock.  The caller leaves the objects it gets back as
    they are. *)
Inductive api_step (s : Server) : Server -> Prop :=
| step_addThought (params : ThoughtParams) (uuid nowIso : string) (now : Z) :
    uuid <> "" ->
    api_step s (snd (addThought is_datetime params uuid nowIso now s))
| step_analyzeDepth (id : string) (now : Z) :
    api_step s (snd (analyzeDepth id now s))
| step_getCachedSummary (id : string) (now : Z) :
    api_step s (snd (getCachedSummary id now s))
| step_getAggregateSummary (id : string) (forceRegenerate : bool) (now : Z) :
    api_step s (snd (getAggregateSummary id forceRegenerate now s))
| step_updateCacheConfig (config : CacheConfigUpdate) (now : Z) :
    api_step s (updateCacheConfig config now s).

(** The states of a server from its construction on. *)
Inductive reachable : Server -> Prop :=
| reachable_initial (created : string) : reachable (initial created)
| reachable_step (s s' : Server) :
    reachable s -> api_step s s' -> reachable s'.

End Reachable.

(** What a successful search below [node] returns: the ancestors given,
    then a descending chain from [node] to the thought that [findNode]
    finds. *)
Definition path_below (id : string) (path : list FractalThought)
    (node : FractalThought) (result : option (list FractalThought)) : Prop :=
  match result with
  | None => findNode id node = None
  | Some full =>
      exists rest t,
        full = (path ++ node :: rest)%list /\ descends (node :: rest) /\
        List.last (node :: rest) node = t /\ findNode id node = Some t
  end.

(** * Properties *)

(** ** Insertion-ordered maps *)

Lemma dict_get_set_eq {V : Type} (k : string) (v : V) (d : Dict V) :
  dict_get k (dict_set k v d) = Some v.
Proof.
  induction d as [|[k' v'] r IH]; simpl.
  - by rewrite String.eqb_refl.
  - destruct (String.eqb k' k) eqn:E; simpl; rewrite ?E; [|done].
    by rewrite String.eqb_refl.
Qed.

Lemma dict_get_set_ne {V : Type} (k k' : string) (v : V) (d : Dict V) :
  k <> k' -> dict_get k' (dict_set k v d) = dict_get k' d.
Proof.
  intros Hne. induction d as [|[k0 v0] r IH]; simpl.
  - apply String.eqb_neq in Hne. by rewrite Hne.
  - destruct (String.eqb k0 k) eqn:E; simpl.
    + apply String.eqb_eq in E as ->.
      apply String.eqb_neq in Hne. by rewrite Hne.
    + by rewrite IH.
Qed.

Lemma dict_get_delete_eq {V : Type} (k : string) (d : Dict V) :
  dict_get k (dict_delete k d) = None.
Proof.
  induction d as [|[k0 v0] r IH]; simpl; [done|].
  destruct (String.eqb k0 k) eqn:E; simpl; rewrite ?E; done.
Qed.

Lemma dict_get_delete_ne {V : Type} (k k' : string) (d : Dict V) :
  k <> k' -> dict_get k' (dict_delete k d) = dict_get k' d.
Proof.
  intros Hne. induction d as [|[k0 v0] r IH]; simpl; [done|].
  destruct (String.eqb k0 k) eqn:E; simpl.
  - apply String.eqb_eq in E as ->.
    apply String.eqb_neq in Hne. by rewrite Hne.
  - by rewrite IH.
Qed.

Lemma dict_get_delete_some {V : Type} (k k' : string) (d : Dict V) :
  is_Some (dict_get k' (dict_delete k d)) -> is_Some (dict_get k' d).
Proof.
  destruct (decide (k = k')) as [->|Hne].
  - rewrite dict_get_delete_eq. by intros [? ?].
  - by rewrite dict_get_delete_ne.
Qed.

(** ** Reading the cache *)

Lemma getCachedAnalysis_absent (id : string) (now : Z) (s : Server) :
  dict_get id (analysisCache s) = None ->
  inherited id = false ->
  getCachedAnalysis id now s = (Ok None, count_miss s).
Proof. intros H Hid. unfold getCachedAnalysis. by rewrite H, Hid. Qed.

Lemma getCachedAnalysis_inherited (id : string) (now : Z) (s : Server) :
  dict_get id (analysisCache s) = None ->
  inherited id = true ->
  getCachedAnalysis id now s = (Throws, s).
Proof. intros H Hid. unfold getCachedAnalysis. by rewrite H, Hid. Qed.

(** C10: what [analyzeDepth] does for an id that resolves to no thought (and,
    as in every state the server reaches, has no cache entry).  When the id
    names a member that the cache object inherits ("constructor",
    "toString", "__proto__", ...), the first cache read throws and the state
    is left as it was.  For every other id the call returns the fixed
    default analysis: all counts and metrics zero, status incomplete, no
    patterns, no emergent properties, and the summary "Thought not found";
    no ratio is computed and the lookup is counted as one miss. *)
Theorem analyzeDepth_unknown_thought (id : string) (now : Z) (s : Server) :
  findThought id (thoughtTree s) = None ->
  dict_get id (analysisCache s) = None ->
  if inherited id then analyzeDepth id now s = (Threw, s)
  else
    exists a,
      analyzeDepth id now s = (Returned a, count_miss s) /\
      maxDepth a = 0 /\ totalCount a = 0 /\ unresolvedCount a = 0 /\
      completionRatio a = Fin 0 /\ status a = incomplete /\
      needsAttention a = false /\
      branchingFactor (fractalMetrics a) = Fin 0 /\
      depthConsistency (fractalMetrics a) = Fin 0 /\
      crossBranchSimilarity (fractalMetrics a) = Fin 0 /\
      patternStrength (fractalMetrics a) = Fin 0 /\
      recursivePatterns (fractalMetrics a) = [] /\
      emergentProperties (fractalMetrics a) = [] /\
      complexSystems (summary a) = "Thought not found".
Proof.
  intros Hfind Hcache. destruct (inherited id) eqn:Hid.
  - unfold analyzeDepth.
    by rewrite (getCachedAnalysis_inherited _ _ _ Hcache Hid).
  - exists notFoundAnalysis. split; [|by repeat split].
    unfold analyzeDepth. rewrite (getCachedAnalysis_absent _ _ _ Hcache Hid).
    unfold analyzeDepth_recompute. simpl. by rewrite Hfind.
Qed.

Lemma analyzeDepth_unknown_thought_witness :
  analyzeDepth "constructor" 1000 (initial "2026-01-01T00:00:00.000Z")
  = (Threw, initial "2026-01-01T00:00:00.000Z") /\
  exists a,
    analyzeDepth "missing" 1000 (initial "2026-01-01T00:00:00.000Z")
    = (Returned a, count_miss (initial "2026-01-01T00:00:00.000Z"))
    /\ totalCount a = 0 /\ complexSystems (summary a) = "Thought not found".
Proof.
  split.
  - exact (analyzeDepth_unknown_thought "constructor" 1000
             (initial "2026-01-01T00:00:00.000Z") eq_refl eq_refl).
  - destruct (analyzeDepth_unknown_thought "missing" 1000
                (initial "2026-01-01T00:00:00.000Z") eq_refl eq_refl)
      as (a & H & _ & Ht & H').
    exists a. split; [exact H|]. split; [exact Ht|]. apply H'.
Defined.

(** ** What the cache operations leave alone *)

Lemma fold_left_invariant {A B : Type} (P : A -> Prop) (f : A -> B -> A)
    (l : list B) (init : A) :
  Forall (fun x => forall a, P a -> P (f a x)) l ->
  P init -> P (fold_left f l init).
Proof.
  revert init. induction l as [|x r IH]; intros init Hall Hinit; simpl; [done|].
  inversion Hall; subst. apply IH; auto.
Qed.

Lemma same_store_refl (s : Server) : same_store s s.
Proof. by repeat split. Qed.

Lemma same_store_trans (s1 s2 s3 : Server) :
  same_store s1 s2 -> same_store s2 s3 -> same_store s1 s3.
Proof.
  intros (? & ? & ?) (? & ? & ?). repeat split; congruence.
Qed.

Lemma keys_within_refl (s : Server) : keys_within s s.
Proof. by intros k. Qed.

Lemma keys_within_trans (s1 s2 s3 : Server) :
  keys_within s1 s2 -> keys_within s2 s3 -> keys_within s1 s3.
Proof. intros H12 H23 k Hk. apply H12, H23, Hk. Qed.

Lemma getCachedAnalysis_store (id : string) (now : Z) (s : Server) :
  same_store s (snd (getCachedAnalysis id now s)).
Proof.
  unfold getCachedAnalysis.
  destruct (dict_get id (analysisCache s)) as [c|];
    [|destruct (inherited id); by repeat split].
  destruct (gtb _ _); by repeat split.
Qed.

Lemma getCachedAnalysis_keys (id : string) (now : Z) (s : Server) :
  keys_within s (snd (getCachedAnalysis id now s)).
Proof.
  unfold getCachedAnalysis, keys_within.
  destruct (dict_get id (analysisCache s)) as [c|] eqn:E;
    [|by destruct (inherited id)].
  destruct (gtb _ _); simpl; intros k.
  - apply dict_get_delete_some.
  - destruct (decide (id = k)) as [<-|Hne].
    + by rewrite E.
    + by rewrite dict_get_set_ne.
Qed.

Lemma analyzeNodeIncremental_unfold (node : FractalThought)
    (previous : option FractalAnalysis) (now : Z) (s : Server) :
  analyzeNodeIncremental node previous now s =
  let recompute :=
    fold_left
      (fun (acc : Result NodeCounts * Server) sub =>
         match fst acc with
         | Throws => acc
         | Ok counts =>
             match getCachedAnalysis (thoughtId sub) now (snd acc) with
             | (Throws, s1) => (Throws, s1)
             | (Ok cached, s1) =>
                 match analyzeNodeIncremental sub cached now s1 with
                 | (Ok subAnalysis, s2) => (Ok (addCounts counts subAnalysis), s2)
                 | (Throws, s2) => (Throws, s2)
                 end
             end
         end)
      (subThoughts node) (Ok (ownCounts node), s) in
  match previous with
  | Some previous =>
      if negb (hasNodeChanged node s) then (Ok (reuseCounts previous), s)
      else recompute
  | None => recompute
  end.
Proof. by destruct node. Qed.

(** A property of the state that every cache read keeps is kept by the
    incremental pass. *)
Lemma analyzeNodeIncremental_keeps (R : Server -> Server -> Prop) (now : Z) :
  (forall s, R s s) ->
  (forall s1 s2 s3, R s1 s2 -> R s2 s3 -> R s1 s3) ->
  (forall id s, R s (snd (getCachedAnalysis id now s))) ->
  forall node previous s,
    R s (snd (analyzeNodeIncremental node previous now s)).
Proof.
  intros Hrefl Htrans Hget node.
  induction node as [node IH] using FractalThought_ind.
  intros previous s. rewrite analyzeNodeIncremental_unfold. cbv zeta.
  set (loop := fold_left _ _ _).
  assert (R s (snd loop)) as Hloop.
  { subst loop.
    apply (fold_left_invariant (fun acc => R s (snd acc))); [|apply Hrefl].
    eapply Forall_impl; [exact IH|].
    intros sub Hsub [[acc|] s0] Hacc; simpl in *; [|exact Hacc].
    pose proof (Hget (thoughtId sub) s0) as Hread.
    destruct (getCachedAnalysis (thoughtId sub) now s0) as [[cached|] s1];
      simpl in *; [|eauto].
    pose proof (Hsub cached s1) as Hrec.
    destruct (analyzeNodeIncremental sub cached now s1) as [[sa|] s2].
    all: simpl in *; eauto. }
  destruct previous as [p|]; [|exact Hloop].
  destruct (negb (hasNodeChanged node s)); [apply Hrefl|exact Hloop].
Qed.

Lemma analyzeNodeIncremental_store (node : FractalThought)
    (previous : option FractalAnalysis) (now : Z) (s : Server) :
  same_store s (snd (analyzeNodeIncremental node previous now s)).
Proof.
  apply analyzeNodeIncremental_keeps.
  - apply same_store_refl.
  - apply same_store_trans.
  - intros id s0. apply getCachedAnalysis_store.
Qed.

Lemma analyzeNodeIncremental_keys (node : FractalThought)
    (previous : option FractalAnalysis) (now : Z) (s : Server) :
  keys_within s (snd (analyzeNodeIncremental node previous now s)).
Proof.
  apply analyzeNodeIncremental_keeps.
  - apply keys_within_refl.
  - apply keys_within_trans.
  - intros id s0. apply getCachedAnalysis_keys.
Qed.

(** ** Reads that do not throw *)

Lemma flatten_unfold (node : FractalThought) :
  flatten node = node :: flat_map flatten (subThoughts node).
Proof. destruct node; reflexivity. Qed.

Lemma plain_ids_own (node : FractalThought) :
  plain_ids (flatten node) -> inherited (thoughtId node) = false.
Proof.
  rewrite flatten_unfold. intros H. by apply List.Forall_cons_iff in H as [H _].
Qed.

Lemma plain_ids_sub (node sub : FractalThought) :
  plain_ids (flatten node) -> In sub (subThoughts node) ->
  plain_ids (flatten sub).
Proof.
  rewrite flatten_unfold. intros H Hsub.
  apply List.Forall_cons_iff in H as [_ H].
  apply List.Forall_forall. intros t Ht.
  rewrite List.Forall_forall in H. apply H, in_flat_map. by exists sub.
Qed.

(** A read under an id that names no inherited member, or that has an entry,
    does not throw. *)
Lemma getCachedAnalysis_returns (id : string) (now : Z) (s : Server) :
  inherited id = false \/ is_Some (dict_get id (analysisCache s)) ->
  exists cached, fst (getCachedAnalysis id now s) = Ok cached.
Proof.
  intros H. unfold getCachedAnalysis.
  destruct (dict_get id (analysisCache s)) as [entry|].
  - destruct (gtb _ _); eauto.
  - destruct H as [->|[x Hx]]; [eauto | discriminate].
Qed.

(** A read that throws changes nothing. *)
Lemma getCachedAnalysis_throws (id : string) (now : Z) (s : Server) :
  fst (getCachedAnalysis id now s) = Throws ->
  getCachedAnalysis id now s = (Throws, s) /\
  inherited id = true /\ dict_get id (analysisCache s) = None.
Proof.
  unfold getCachedAnalysis.
  destruct (dict_get id (analysisCache s)) as [entry|].
  - by destruct (gtb _ _).
  - by destruct (inherited id).
Qed.

(** The incremental pass over a subtree without inherited names returns its
    counts. *)
Lemma analyzeNodeIncremental_returns (node : FractalThought) (now : Z) :
  plain_ids (flatten node) ->
  forall previous s,
    exists counts, fst (analyzeNodeIncremental node previous now s) = Ok counts.
Proof.
  induction node as [node IH] using FractalThought_ind.
  intros Hplain previous s. rewrite analyzeNodeIncremental_unfold. cbv zeta.
  set (loop := fold_left _ _ _).
  assert (exists counts, fst loop = Ok counts) as Hloop.
  { subst loop.
    apply (fold_left_invariant (fun acc => exists counts, fst acc = Ok counts));
      [|by eexists].
    apply List.Forall_forall. intros sub Hsub [acc s0] [counts Hacc].
    simpl in Hacc. subst acc. cbn [fst snd].
    pose proof (plain_ids_sub node sub Hplain Hsub) as Hplain'.
    destruct (getCachedAnalysis_returns (thoughtId sub) now s0) as [cached Hread].
    { left. by apply plain_ids_own. }
    destruct (getCachedAnalysis (thoughtId sub) now s0) as [read s1].
    simpl in Hread. subst read.
    rewrite List.Forall_forall in IH.
    destruct (IH sub Hsub Hplain' cached s1) as [sa Hsa].
    destruct (analyzeNodeIncremental sub cached now s1) as [result s2].
    simpl in Hsa. subst result. by eexists. }
  destruct previous as [p|]; [|exact Hloop].
  destruct (negb (hasNodeChanged node s)); [by eexists | exact Hloop].
Qed.

(** ** The stable sort *)

Section StableSort.
Context {A : Type} (rank : A -> Z).

Local Abbreviation before := (fun a b : A => rank a <? rank b).
Local Abbreviation ordered := (fun a b : A => rank a <= rank b).

Lemma sort_insert_perm (x : A) (l : list A) :
  Permutation (sort_insert before x l) (x :: l).
Proof.
  induction l as [|y r IH]; simpl; [done|].
  destruct (rank x <? rank y); [done|].
  rewrite IH. apply perm_swap.
Qed.

Lemma sort_insert_sorted (x : A) (l : list A) :
  StronglySorted ordered l -> StronglySorted ordered (sort_insert before x l).
Proof.
  induction 1 as [|y r Hr IH Hy]; simpl.
  - repeat constructor.
  - destruct (rank x <? rank y) eqn:E.
    + apply Z.ltb_lt in E. constructor; [by constructor|].
      constructor; [lia|].
      eapply Forall_impl; [exact Hy|]. simpl. intros; lia.
    + apply Z.ltb_ge in E. constructor; [exact IH|].
      rewrite (sort_insert_perm x r). by constructor.
Qed.

Lemma stable_sort_perm (l : list A) : Permutation (stable_sort before l) l.
Proof.
  unfold stable_sort.
  assert (forall acc, Permutation
            (fold_left (fun sorted x => sort_insert before x sorted) l acc)
            (l ++ acc)) as H.
  { induction l as [|x r IH]; intros acc; simpl; [done|].
    rewrite IH, sort_insert_perm. by rewrite Permutation_middle. }
  rewrite H. by rewrite app_nil_r.
Qed.

Lemma stable_sort_sorted (l : list A) :
  StronglySorted ordered (stable_sort before l).
Proof.
  unfold stable_sort.
  assert (forall acc, StronglySorted ordered acc ->
            StronglySorted ordered
              (fold_left (fun sorted x => sort_insert before x sorted) l acc))
    as H.
  { induction l as [|x r IH]; intros acc Hacc; simpl; [done|].
    apply IH. by apply sort_insert_sorted. }
  apply H. constructor.
Qed.

(** In a sorted list every element of a prefix ranks at most as high as
    every element after it. *)
Lemma sorted_prefix_le (l : list A) (n : nat) (a b : A) :
  StronglySorted ordered l ->
  In a (firstn n l) -> In b (skipn n l) -> rank a <= rank b.
Proof.
  intros Hs. revert n.
  induction Hs as [|y r Hr IH Hy]; intros n Ha Hb.
  - destruct n; simpl in *; tauto.
  - destruct n as [|n]; simpl in *; [tauto|].
    destruct Ha as [->|Ha]; [|by eapply IH].
    rewrite Forall_forall in Hy. apply Hy.
    apply list_elem_of_In. rewrite <- (firstn_skipn n r).
    apply in_or_app. by right.
Qed.
End StableSort.

(** ** Eviction *)

Lemma dict_delete_filter {V : Type} (k : string) (d : Dict V) :
  dict_delete k d = List.filter (fun kv => negb (String.eqb (fst kv) k)) d.
Proof.
  induction d as [|[k0 v0] r IH]; simpl; [done|].
  destruct (String.eqb k0 k); simpl; by rewrite IH.
Qed.

Lemma filter_map_swap {A B : Type} (f : A -> B) (p : B -> bool) (l : list A) :
  List.filter p (map f l) = map f (List.filter (fun x => p (f x)) l).
Proof.
  induction l as [|x r IH]; simpl; [done|].
  destruct (p (f x)); simpl; by rewrite IH.
Qed.

Lemma filter_all {A : Type} (p : A -> bool) (l : list A) :
  (forall x, p x = true) -> List.filter p l = l.
Proof.
  intros H. induction l as [|x r IH]; simpl; [done|]. by rewrite H, IH.
Qed.

Lemma filter_twice {A : Type} (p q : A -> bool) (l : list A) :
  List.filter q (List.filter p l) = List.filter (fun x => p x && q x) l.
Proof.
  induction l as [|x r IH]; simpl; [done|].
  destruct (p x); simpl; [|done]. destruct (q x); by rewrite IH.
Qed.

Lemma filter_length_perm {A : Type} (p : A -> bool) (l l' : list A) :
  Permutation l l' -> length (List.filter p l) = length (List.filter p l').
Proof.
  induction 1 as [|x l l' _ IH|x y l|l l' l'' _ IH1 _ IH2]; simpl.
  - done.
  - destruct (p x); simpl; by rewrite IH.
  - destruct (p x), (p y); done.
  - congruence.
Qed.

Lemma cache_size_entries (s : Server) :
  cache_size s = Zlength' (eviction_entries s).
Proof.
  unfold cache_size, eviction_entries, dict_keys, Zlength'.
  rewrite length_app, !length_map. lia.
Qed.

Lemma evict_entry_entries (s : Server) (e : EvictionEntry) :
  eviction_entries (evict_entry s e)
  = List.filter (fun x => negb (same_slot e x)) (eviction_entries s).
Proof.
  unfold evict_entry, eviction_entries, same_slot.
  rewrite List.filter_app, !filter_map_swap.
  destruct (isAnalysis e); simpl.
  - rewrite dict_delete_filter. f_equal.
    + f_equal. apply List.filter_ext. intros [k v]. simpl.
      by rewrite String.eqb_sym.
    + by rewrite filter_all.
  - rewrite dict_delete_filter. f_equal.
    + by rewrite filter_all.
    + f_equal. apply List.filter_ext. intros [k v]. simpl.
      by rewrite String.eqb_sym.
Qed.

Lemma evict_batch_entries (batch : list EvictionEntry) (s : Server) :
  eviction_entries (fold_left evict_entry batch s)
  = List.filter (fun x => negb (evicted_by batch x)) (eviction_entries s).
Proof.
  revert s. induction batch as [|e r IH]; intros s; simpl.
  - by rewrite filter_all.
  - rewrite IH, evict_entry_entries, filter_twice.
    apply List.filter_ext. intros x. unfold evicted_by.
    by rewrite negb_orb.
Qed.

Lemma evict_batch_evictions (batch : list EvictionEntry) (s : Server) :
  evictions (cacheStats (fold_left evict_entry batch s))
  = evictions (cacheStats s) + Zlength' batch.
Proof.
  revert s. induction batch as [|e r IH]; intros s; unfold Zlength' in *; simpl.
  - lia.
  - rewrite IH. unfold evict_entry. destruct (isAnalysis e); simpl; lia.
Qed.

Lemma evict_batch_store (batch : list EvictionEntry) (s : Server) :
  same_store s (fold_left evict_entry batch s).
Proof.
  revert s. induction batch as [|e r IH]; intros s; simpl.
  - apply same_store_refl.
  - eapply same_store_trans; [|apply IH].
    unfold evict_entry. destruct (isAnalysis e); by repeat split.
Qed.

Lemma evict_batch_keys (batch : list EvictionEntry) (s : Server) :
  keys_within s (fold_left evict_entry batch s).
Proof.
  revert s. induction batch as [|e r IH]; intros s; simpl.
  - apply keys_within_refl.
  - eapply keys_within_trans; [|apply IH].
    unfold evict_entry, keys_within. destruct (isAnalysis e); simpl; [|done].
    intros k. apply dict_get_delete_some.
Qed.

Lemma same_slot_refl (e : EvictionEntry) : same_slot e e = true.
Proof. unfold same_slot. by rewrite Bool.eqb_reflx, String.eqb_refl. Qed.

Lemma evicted_by_member (batch : list EvictionEntry) (e : EvictionEntry) :
  In e batch -> evicted_by batch e = true.
Proof.
  intros H. apply existsb_exists. exists e. split; [done|apply same_slot_refl].
Qed.

Lemma filter_none {A : Type} (p : A -> bool) (l : list A) :
  (forall x, In x l -> p x = false) -> List.filter p l = [].
Proof.
  induction l as [|x r IH]; simpl; intros H; [done|].
  rewrite (H x) by auto. apply IH. auto.
Qed.

(** Deleting a batch taken from the entries leaves at most the others. *)
Lemma survivors_bound (batch rest entries : list EvictionEntry) :
  Permutation entries (batch ++ rest) ->
  (length (List.filter (fun x => negb (evicted_by batch x)) entries)
   <= length rest)%nat.
Proof.
  intros Hperm. rewrite (filter_length_perm _ _ _ Hperm), List.filter_app.
  rewrite length_app.
  assert (List.filter (fun x => negb (evicted_by batch x)) batch = []) as ->.
  { apply filter_none. intros x Hx. by rewrite evicted_by_member. }
  simpl. apply List.filter_length_le.
Qed.

Lemma ceil_tenth_bounds (n : Z) : 1 <= n -> 1 <= ceil_tenth n <= n.
Proof. intros H. unfold ceil_tenth. Z.div_mod_to_equations. lia. Qed.

Lemma refresh_totalSize_entries (s : Server) :
  eviction_entries (refresh_totalSize s) = eviction_entries s.
Proof. done. Qed.

Lemma eviction_batch_length (s : Server) :
  1 <= maxCacheSize (cacheConfig s) ->
  maxCacheSize (cacheConfig s) < cache_size s ->
  Zlength' (eviction_batch s)
  = cache_size s - maxCacheSize (cacheConfig s)
    + ceil_tenth (maxCacheSize (cacheConfig s)).
Proof.
  intros Hcap Hover. pose proof (ceil_tenth_bounds _ Hcap) as Hc.
  unfold eviction_batch, slice0, Zlength'.
  set (sorted := stable_sort _ _).
  assert (Z.of_nat (length sorted) = cache_size s) as Hlen.
  { rewrite cache_size_entries. unfold Zlength'. f_equal.
    apply Permutation_length, (stable_sort_perm lastAccess). }
  rewrite length_firstn, Hlen. unfold Str.clamp_index.
  destruct (_ <? 0) eqn:E; [apply Z.ltb_lt in E; lia|]. lia.
Qed.

(** The entries left by the batch are those of the sorted list after it. *)
Lemma eviction_batch_oldest (s : Server) (e k : EvictionEntry) :
  In e (eviction_batch s) ->
  In k (List.filter (fun x => negb (evicted_by (eviction_batch s) x))
          (eviction_entries s)) ->
  lastAccess e <= lastAccess k.
Proof.
  unfold eviction_batch, slice0. set (sorted := stable_sort _ _).
  set (n := Z.to_nat _). intros He Hk.
  apply List.filter_In in Hk as [Hk Hout].
  apply (sorted_prefix_le lastAccess sorted n);
    [apply stable_sort_sorted|exact He|].
  assert (In k sorted) as Hin.
  { eapply Permutation_in; [|exact Hk].
    symmetry. apply (stable_sort_perm lastAccess). }
  rewrite <- (firstn_skipn n sorted) in Hin.
  apply in_app_or in Hin as [Hin|Hin]; [|done].
  apply evicted_by_member in Hin. rewrite Hin in Hout. done.
Qed.

Lemma manageCacheSize_over (s : Server) :
  maxCacheSize (cacheConfig s) < cache_size s ->
  manageCacheSize s
  = refresh_totalSize (fold_left evict_entry (eviction_batch s) s).
Proof.
  intros H. unfold manageCacheSize, evictLeastUsedEntries, eviction_batch.
  apply Z.ltb_lt in H. by rewrite H.
Qed.

Lemma manageCacheSize_room (s : Server) :
  1 <= maxCacheSize (cacheConfig s) ->
  maxCacheSize (cacheConfig s) < cache_size s ->
  cache_size (manageCacheSize s)
  <= maxCacheSize (cacheConfig s) - ceil_tenth (maxCacheSize (cacheConfig s)).
Proof.
  intros Hcap Hover. pose proof (eviction_batch_length s Hcap Hover) as Hlen.
  rewrite manageCacheSize_over by done.
  rewrite cache_size_entries, refresh_totalSize_entries, evict_batch_entries.
  revert Hlen. unfold eviction_batch, slice0. set (sorted := stable_sort _ _).
  set (n := Z.to_nat _). intros Hlen.
  pose proof (survivors_bound (firstn n sorted) (skipn n sorted)
                (eviction_entries s)) as Hbound.
  rewrite firstn_skipn in Hbound.
  specialize (Hbound (Permutation_sym (stable_sort_perm lastAccess _))).
  assert (length sorted = length (eviction_entries s)) as Hsame
    by apply Permutation_length, (stable_sort_perm lastAccess).
  pose proof (firstn_skipn n sorted) as Hsplit.
  apply (f_equal (@length _)) in Hsplit. rewrite length_app in Hsplit.
  rewrite cache_size_entries in Hlen. unfold Zlength' in *. lia.
Qed.

Lemma manageCacheSize_store (s : Server) : same_store s (manageCacheSize s).
Proof.
  unfold manageCacheSize. destruct (_ <? _); [|apply same_store_refl].
  unfold evictLeastUsedEntries.
  destruct (evict_batch_store
              (slice0 (stable_sort (fun a b => lastAccess a <? lastAccess b)
                         (eviction_entries s))
                 (cache_size s - maxCacheSize (cacheConfig s)
                  + ceil_tenth (maxCacheSize (cacheConfig s)))) s)
    as (? & ? & ?).
  by repeat split.
Qed.

Lemma manageCacheSize_keys (s : Server) : keys_within s (manageCacheSize s).
Proof.
  unfold manageCacheSize. destruct (_ <? _); [|apply keys_within_refl].
  unfold evictLeastUsedEntries. intros k. simpl. apply evict_batch_keys.
Qed.

Lemma dict_set_length {V : Type} (k : string) (v : V) (d : Dict V) :
  (length (dict_set k v d) <= S (length d))%nat.
Proof.
  induction d as [|[k0 v0] r IH]; simpl; [lia|].
  destruct (String.eqb k0 k); simpl; lia.
Qed.

Lemma cacheAnalysis_size (id : string) (analysis : FractalAnalysis) (now : Z)
    (s : Server) :
  cache_size (cacheAnalysis id analysis now s)
  <= cache_size (manageCacheSize s) + 1.
Proof.
  unfold cacheAnalysis, cache_size. cbn [analysisCache aggregateCache
    refresh_totalSize with_analysisCache with_stats].
  unfold dict_keys, Zlength'. rewrite !length_map.
  match goal with
  | |- context [dict_set ?k ?v ?d] => pose proof (dict_set_length k v d)
  end.
  lia.
Qed.

(** C2 (amended): when [maxCacheSize] is at least 1 and the resident entries
    (analysis and aggregate together, as the code counts them) already
    exceed it, inserting an analysis first evicts one batch (the excess plus
    a tenth of the capacity, rounded up) of the entries with the oldest
    timestamps, every one of them at most as recent as every entry kept, and
    only then inserts; after the insertion the new entry is resident and the
    resident entries do not exceed [maxCacheSize]. *)
Theorem cacheAnalysis_within_capacity (id : string) (analysis : FractalAnalysis)
    (now : Z) (s : Server) :
  1 <= maxCacheSize (cacheConfig s) ->
  maxCacheSize (cacheConfig s) < cache_size s ->
  let batch := eviction_batch s in
  let before_insert := manageCacheSize s in
  let after := cacheAnalysis id analysis now s in
  Zlength' batch
  = cache_size s - maxCacheSize (cacheConfig s)
    + ceil_tenth (maxCacheSize (cacheConfig s)) /\
  (forall e, In e batch -> In e (eviction_entries s)) /\
  eviction_entries before_insert
  = List.filter (fun x => negb (evicted_by batch x)) (eviction_entries s) /\
  (forall e k, In e batch -> In k (eviction_entries before_insert) ->
               lastAccess e <= lastAccess k) /\
  evictions (cacheStats after) = evictions (cacheStats s) + Zlength' batch /\
  (exists entry, dict_get id (analysisCache after) = Some entry /\
                 fullAnalysis entry = analysis /\ timestamp entry = now) /\
  maxCacheSize (cacheConfig after) = maxCacheSize (cacheConfig s) /\
  cache_size after <= maxCacheSize (cacheConfig after) /\
  totalSize (cacheStats after) = cache_size after.
Proof.
  intros Hcap Hover batch before_insert after.
  pose proof (ceil_tenth_bounds _ Hcap) as Hc.
  pose proof (manageCacheSize_room s Hcap Hover) as Hroom.
  assert (eviction_entries before_insert
          = List.filter (fun x => negb (evicted_by batch x)) (eviction_entries s))
    as Hleft.
  { subst before_insert batch. rewrite manageCacheSize_over by done.
    by rewrite refresh_totalSize_entries, evict_batch_entries. }
  split; [by apply eviction_batch_length|].
  split.
  { intros e He. subst batch. unfold eviction_batch, slice0 in He.
    set (sorted := stable_sort _ _) in He. set (n := Z.to_nat _) in He.
    eapply Permutation_in; [apply (stable_sort_perm lastAccess)|].
    fold sorted. rewrite <- (firstn_skipn n sorted).
    apply in_or_app. left. exact He. }
  split; [exact Hleft|].
  split.
  { intros e k He Hk. rewrite Hleft in Hk. by eapply eviction_batch_oldest. }
  split.
  { subst after. unfold cacheAnalysis. simpl.
    rewrite manageCacheSize_over by done. simpl.
    apply evict_batch_evictions. }
  split.
  { eexists. subst after. unfold cacheAnalysis. simpl.
    rewrite dict_get_set_eq. by repeat split. }
  assert (cacheConfig after = cacheConfig s) as Hcfg.
  { subst after. unfold cacheAnalysis. simpl.
    by destruct (manageCacheSize_store s) as (_ & -> & _). }
  split; [by rewrite Hcfg|].
  split; [|done].
  rewrite Hcfg. subst after.
  pose proof (cacheAnalysis_size id analysis now s). lia.
Qed.

(** ** Expiration *)

Lemma Qltb_lt (a b : Q) : Qltb a b = true <-> (a < b)%Q.
Proof.
  unfold Qltb. rewrite negb_true_iff. split.
  - intros H. apply Qnot_le_lt. intros Hle.
    apply Qle_bool_iff in Hle. congruence.
  - intros H. destruct (Qle_bool b a) eqn:E; [|done].
    apply Qle_bool_iff in E. exfalso. by apply (Qlt_not_le a b).
Qed.

Lemma Qltb_ge (a b : Q) : Qltb a b = false <-> (b <= a)%Q.
Proof.
  unfold Qltb. rewrite negb_false_iff. apply Qle_bool_iff.
Qed.

(** A clamp between non-negative finite bounds is never negative. *)
Lemma clamp_not_negative (e : number) (a b : Q) :
  (0 <= a)%Q -> (0 <= b)%Q ->
  gtb (of_Z 0) (min (max e (Fin a)) (Fin b)) = false.
Proof.
  intros Ha Hb.
  assert (forall q, (0 <= q)%Q -> gtb (of_Z 0) (min (Fin q) (Fin b)) = false)
    as Hfin.
  { intros q Hq. simpl. destruct (Qltb b q); simpl; by apply Qltb_ge. }
  destruct e as [q| | |]; simpl.
  - destruct (Qltb q a) eqn:E.
    + by apply Hfin.
    + apply Hfin. apply Qltb_ge in E. by apply (Qle_trans _ a).
  - by apply Qltb_ge.
  - by apply Hfin.
  - done.
Qed.

Lemma sane_expiration_not_expired (config : CacheConfig) (a : FractalAnalysis) :
  sane_expiration config = true ->
  gtb (of_Z 0) (getCacheExpiration config a) = false.
Proof.
  unfold sane_expiration, getCacheExpiration.
  destruct (minExpirationMs config) as [lo| | |]; try done.
  destruct (maxExpirationMs config) as [hi| | |]; try done.
  intros H. apply andb_true_iff in H as [Hlo Hhi].
  apply Qle_bool_iff in Hlo, Hhi. by apply clamp_not_negative.
Qed.

(** An entry read at the instant it was written is a hit. *)
Lemma getCachedAnalysis_present (id : string) (now : Z) (s : Server)
    (entry : CachedAnalysis) :
  dict_get id (analysisCache s) = Some entry ->
  gtb (of_Z (now - timestamp entry))
      (getCacheExpiration (cacheConfig s) (fullAnalysis entry)) = false ->
  getCachedAnalysis id now s
  = (Ok (Some (fullAnalysis entry)),
     count_hit
       (with_analysisCache
          (dict_set id
             {| timestamp := now;
                cached_summary := cached_summary entry;
                key := key entry;
                fullAnalysis := fullAnalysis entry;
                accessCount := accessCount entry + 1 |}
             (analysisCache s))
          s)).
Proof. intros Hget Hfresh. unfold getCachedAnalysis. by rewrite Hget, Hfresh. Qed.

Lemma getCachedAnalysis_expired (id : string) (now : Z) (s : Server)
    (entry : CachedAnalysis) :
  dict_get id (analysisCache s) = Some entry ->
  gtb (of_Z (now - timestamp entry))
      (getCacheExpiration (cacheConfig s) (fullAnalysis entry)) = true ->
  getCachedAnalysis id now s
  = (Ok None,
     count_miss (with_analysisCache (dict_delete id (analysisCache s)) s)).
Proof. intros Hget Hold. unfold getCachedAnalysis. by rewrite Hget, Hold. Qed.

(** ** Change tracking *)

Lemma trackThoughtChange_tracker (id : string) (include : bool) (now : Z)
    (s : Server) :
  changeTracker (trackThoughtChange id include now s)
  = let own :=
      {| lastModified := now;
         subthoughtChanges := if include then true else subtree_flag_of id s;
         lastAnalysis := last_analysis_of id s |} in
    let tracker1 := <[id := own]> (changeTracker s) in
    match parent_of id s with
    | Some p =>
        let parentTracker :=
          default {| lastModified := now; subthoughtChanges := true;
                     lastAnalysis := 0 |} (tracker1 !! p) in
        <[p := {| lastModified := lastModified parentTracker;
                  subthoughtChanges := true;
                  lastAnalysis := lastAnalysis parentTracker |}]> tracker1
    | None => tracker1
    end.
Proof.
  unfold trackThoughtChange, parent_of, subtree_flag_of, last_analysis_of.
  cbn [changeTracker with_changeTracker].
  destruct (changeTracker s !! id) as [old|]; simpl;
    destruct (findThought id (thoughtTree s)) as [t|]; try done;
    destruct (parentId t) as [[|c r]|]; done.
Qed.

Lemma trackThoughtChange_rest (id : string) (include : bool) (now : Z)
    (s : Server) :
  thoughtTree (trackThoughtChange id include now s) = thoughtTree s /\
  analysisCache (trackThoughtChange id include now s) = analysisCache s /\
  aggregateCache (trackThoughtChange id include now s) = aggregateCache s /\
  cacheStats (trackThoughtChange id include now s) = cacheStats s /\
  cacheConfig (trackThoughtChange id include now s) = cacheConfig s.
Proof. by repeat split. Qed.

(** C4 (amended): [trackThoughtChange(id, includeSubthoughts)] stamps the
    record of [id] with the current time; it sets the subtree flag of that
    record when [includeSubthoughts] is true and otherwise leaves it as it
    was; it sets the subtree flag on the record of the immediate parent
    whenever the thought is in the tree and has a parent, whatever
    [includeSubthoughts] is; and it changes the record of no other node, nor
    the tree, the caches, the counters or the configuration. *)
Theorem trackThoughtChange_effect (id : string) (include : bool) (now : Z)
    (s : Server) :
  let s' := trackThoughtChange id include now s in
  (exists r, changeTracker s' !! id = Some r /\ lastModified r = now /\
     (include = true -> subthoughtChanges r = true) /\
     (parent_of id s <> Some id ->
        subthoughtChanges r = (if include then true else subtree_flag_of id s) /\
        lastAnalysis r = last_analysis_of id s)) /\
  (forall p, parent_of id s = Some p ->
     exists r, changeTracker s' !! p = Some r /\ subthoughtChanges r = true /\
       (p <> id ->
          match changeTracker s !! p with
          | Some old =>
              lastModified r = lastModified old /\
              lastAnalysis r = lastAnalysis old
          | None => lastModified r = now /\ lastAnalysis r = 0
          end)) /\
  (forall k, k <> id -> parent_of id s <> Some k ->
     changeTracker s' !! k = changeTracker s !! k) /\
  thoughtTree s' = thoughtTree s /\ analysisCache s' = analysisCache s /\
  aggregateCache s' = aggregateCache s /\ cacheStats s' = cacheStats s /\
  cacheConfig s' = cacheConfig s.
Proof.
  intros s'. subst s'. rewrite trackThoughtChange_tracker. cbv zeta.
  split; [|split; [|split; [|apply trackThoughtChange_rest]]].
  - destruct (parent_of id s) as [p|] eqn:Hp.
    + destruct (decide (p = id)) as [->|Hne].
      * rewrite !lookup_insert_eq. simpl. eexists. split; [done|].
        split; [done|]. split; [done|]. intros Hself. by destruct Hself.
      * rewrite lookup_insert_ne, lookup_insert_eq by done.
        eexists. split; [done|]. split; [done|].
        split; [by intros ->|done].
    + rewrite lookup_insert_eq. eexists. split; [done|]. split; [done|].
      split; [by intros ->|done].
  - intros p ->. rewrite lookup_insert_eq. eexists. split; [done|].
    split; [done|]. intros Hne. rewrite lookup_insert_ne by done.
    by destruct (changeTracker s !! p).
  - intros k Hk Hpar. destruct (parent_of id s) as [p|].
    + rewrite !lookup_insert_ne; [done|done|]. intros ->. by apply Hpar.
    + by rewrite lookup_insert_ne.
Qed.

Lemma trackThoughtChange_effect_witness :
  (exists r,
     changeTracker (trackThoughtChange "C" true 400 Scenario.family_tracked)
       !! "A" = Some r /\ subthoughtChanges r = true) /\
  changeTracker (trackThoughtChange "C" true 400 Scenario.family_tracked)
    !! "root"
  = changeTracker Scenario.family_tracked !! "root".
Proof.
  destruct (trackThoughtChange_effect "C" true 400 Scenario.family_tracked)
    as (_ & Hparent & Hframe & _).
  split.
  - destruct (Hparent "A" eq_refl) as (r & H1 & H2 & _).
    exists r. split; assumption.
  - apply Hframe; [done|]. vm_compute. congruence.
Defined.

(** C4, as stated, fails: recording a change on A without the subtree flag
    still sets the subtree flag on the record of its parent (the root), which
    was clear before. *)
Lemma parent_flagged_without_subtree_flag :
  let s := snd (analyzeDepth "root" 500 Scenario.family_tracked) in
  let s' := trackThoughtChange "A" false 600 s in
  changeTracker s !! "root"
  = Some {| lastModified := 100; subthoughtChanges := false;
            lastAnalysis := 500 |} /\
  changeTracker s' !! "root"
  = Some {| lastModified := 100; subthoughtChanges := true;
            lastAnalysis := 500 |}.
Proof. vm_compute. done. Qed.

Lemma hasNodeChanged_same_store (node : FractalThought) (s s' : Server) :
  same_store s s' -> hasNodeChanged node s' = hasNodeChanged node s.
Proof. intros (_ & _ & H). unfold hasNodeChanged. by rewrite H. Qed.

(** Once the record of a thought says it changed, [analyzeDepth] does not
    take the cache shortcut: it runs the recomputation. *)
Lemma analyzeDepth_changed (id : string) (node : FractalThought) (now : Z)
    (s : Server) :
  findThought id (thoughtTree s) = Some node ->
  hasNodeChanged node s = true ->
  analyzeDepth id now s
  = analyzeDepth_recompute id (fst (getCachedAnalysis id now s)) now
      (snd (getCachedAnalysis id now s)).
Proof.
  intros Hfind Hchanged. unfold analyzeDepth.
  pose proof (getCachedAnalysis_store id now s) as Hstore.
  destruct (getCachedAnalysis id now s) as [[[result|]|] s1]; simpl in *;
    [|done|done].
  destruct Hstore as (Htree & Hrest). rewrite Htree, Hfind.
  rewrite (hasNodeChanged_same_store node s s1) by (by split).
  by rewrite Hchanged.
Qed.

(** C1 (amended): a change recorded on a thought itself (with the subtree
    flag, or at a clock reading after its last analysis) or on one of its
    direct children marks the thought as changed, so that the next
    [analyzeDepth] for it bypasses the cached snapshot and recomputes. *)
Theorem recorded_change_forces_recompute (id x : string)
    (node : FractalThought) (include : bool) (now now' : Z) (s : Server) :
  findThought id (thoughtTree s) = Some node ->
  thoughtId node = id ->
  (x = id /\ (include = true \/ last_analysis_of id s < now))
  \/ parent_of x s = Some id ->
  let s' := trackThoughtChange x include now s in
  hasNodeChanged node s' = true /\
  analyzeDepth id now' s'
  = analyzeDepth_recompute id (fst (getCachedAnalysis id now' s')) now'
      (snd (getCachedAnalysis id now' s')).
Proof.
  intros Hfind Hid Hcase s'.
  assert (hasNodeChanged node s' = true) as Hchanged.
  { unfold hasNodeChanged. rewrite Hid. subst s'.
    rewrite trackThoughtChange_tracker. cbv zeta.
    destruct Hcase as [[-> Hown]|Hparent].
    - destruct (parent_of id s) as [p|] eqn:Hp.
      + destruct (decide (p = id)) as [->|Hne].
        * rewrite !lookup_insert_eq. simpl. apply orb_true_r.
        * rewrite lookup_insert_ne, lookup_insert_eq by done. simpl.
          destruct Hown as [->|Hlt]; [apply orb_true_r|].
          apply orb_true_iff. left. by apply Z.ltb_lt.
      + rewrite lookup_insert_eq. simpl.
        destruct Hown as [->|Hlt]; [apply orb_true_r|].
        apply orb_true_iff. left. by apply Z.ltb_lt.
    - rewrite Hparent, lookup_insert_eq. simpl. apply orb_true_r. }
  split; [exact Hchanged|].
  apply (analyzeDepth_changed id node); [|exact Hchanged].
  subst s'. by destruct (trackThoughtChange_rest x include now s) as (-> & _).
Qed.

Lemma recorded_change_forces_recompute_witness :
  hasNodeChanged Scenario.A
    (trackThoughtChange "C" false 400 Scenario.family_tracked) = true.
Proof.
  apply (recorded_change_forces_recompute "A" "C" Scenario.A false 400 500
           Scenario.family_tracked eq_refl eq_refl).
  right. reflexivity.
Defined.

(** C1, as stated, fails for a descendant that is not a direct child: after
    the root has been analysed (4 thoughts), D is added under the grandchild
    C and the change is recorded on C with the subtree flag and on D; the
    next [analyzeDepth] of the root still reads the root as unchanged and
    returns the cached snapshot, which counts 4 thoughts where the tree has
    5, and the root is not marked as analysed again. *)
Lemma deep_change_served_from_cache :
  let s1 := snd (analyzeDepth "root" 1000 Scenario.family_tracked) in
  let s2 := Scenario.grow s1 in
  exists r,
    fst (analyzeDepth "root" 1000 Scenario.family_tracked) = Returned r /\
    totalCount r = 4 /\
    hasNodeChanged (Scenario.root_with [Scenario.A_grown]) s2 = false /\
    analyzeDepth "root" 3000 s2
    = (Returned r, snd (getCachedAnalysis "root" 3000 s2)) /\
    last_analysis_of "root" (snd (analyzeDepth "root" 3000 s2)) = 1000 /\
    counts_totalCount (subtreeCounts (Scenario.root_with [Scenario.A_grown])) = 5.
Proof. vm_compute. eexists. repeat split. Qed.

(** ** The cache shortcut and the recomputation *)

Lemma markAnalyzed_rest (id : string) (now : Z) (s : Server) :
  thoughtTree (markAnalyzed id now s) = thoughtTree s /\
  cacheConfig (markAnalyzed id now s) = cacheConfig s /\
  analysisCache (markAnalyzed id now s) = analysisCache s /\
  aggregateCache (markAnalyzed id now s) = aggregateCache s /\
  cacheStats (markAnalyzed id now s) = cacheStats s.
Proof. unfold markAnalyzed. by destruct (changeTracker s !! id). Qed.

Lemma markAnalyzed_settles (node : FractalThought) (now : Z) (s : Server)
    (r : ThoughtChangeTracker) :
  changeTracker s !! thoughtId node = Some r ->
  lastModified r <= now ->
  hasNodeChanged node (markAnalyzed (thoughtId node) now s) = false.
Proof.
  intros Hr Hle. unfold hasNodeChanged, markAnalyzed. rewrite Hr.
  cbn [changeTracker with_changeTracker]. rewrite lookup_insert_eq. simpl.
  rewrite orb_false_r. by apply Z.ltb_ge.
Qed.

Lemma cacheAnalysis_store (id : string) (analysis : FractalAnalysis) (now : Z)
    (s : Server) :
  same_store s (cacheAnalysis id analysis now s).
Proof.
  destruct (manageCacheSize_store s) as (? & ? & ?).
  unfold cacheAnalysis. by repeat split.
Qed.

(** The recomputation ends with the new analysis cached at the current time,
    returned, and the thought on record as analysed. *)
Lemma analyzeDepth_recompute_settles (id : string) (node : FractalThought)
    (cached : option FractalAnalysis) (now : Z) (s : Server)
    (r : ThoughtChangeTracker) :
  findThought id (thoughtTree s) = Some node ->
  thoughtId node = id ->
  plain_ids (flatten node) ->
  sane_expiration (cacheConfig s) = true ->
  changeTracker s !! id = Some r ->
  lastModified r <= now ->
  exists a s1 entry,
    analyzeDepth_recompute id (Ok cached) now s = (Returned a, s1) /\
    dict_get id (analysisCache s1) = Some entry /\
    fullAnalysis entry = a /\ timestamp entry = now /\
    hasNodeChanged node s1 = false /\
    thoughtTree s1 = thoughtTree s /\ cacheConfig s1 = cacheConfig s.
Proof.
  intros Hfind Hid Hplain Hsane Hr Hle. unfold analyzeDepth_recompute.
  rewrite Hfind.
  pose proof (analyzeNodeIncremental_store node cached now s) as Hpass.
  destruct (analyzeNodeIncremental_returns node now Hplain cached s)
    as [counts Hcounts].
  destruct (analyzeNodeIncremental node cached now s) as [result s1].
  simpl in Hcounts. subst result.
  simpl in Hpass. destruct Hpass as (Htree1 & Hcfg1 & Htrack1).
  set (s2 := markAnalyzed id now s1).
  set (analysis := assembleAnalysis node counts).
  set (s3 := cacheAnalysis id analysis now s2).
  assert (thoughtTree s2 = thoughtTree s /\ cacheConfig s2 = cacheConfig s)
    as (Htree2 & Hcfg2).
  { destruct (markAnalyzed_rest id now s1) as (Ht & Hc & _).
    subst s2. split; congruence. }
  assert (same_store s2 s3) as Hstore3 by apply cacheAnalysis_store.
  assert (hasNodeChanged node s2 = false) as Hsettled.
  { subst s2. rewrite <- Hid. apply (markAnalyzed_settles node now s1 r); [|done].
    by rewrite Hid, Htrack1. }
  set (fresh := {| timestamp := now;
                   cached_summary :=
                     AnalysisSummarizer.summarizeAnalysis (Some analysis);
                   key := id; fullAnalysis := analysis; accessCount := 0 |}).
  assert (dict_get id (analysisCache s3) = Some fresh) as Hentry.
  { subst s3. unfold cacheAnalysis. cbn [analysisCache refresh_totalSize
      with_stats with_analysisCache]. apply dict_get_set_eq. }
  assert (gtb (of_Z (now - timestamp fresh))
            (getCacheExpiration (cacheConfig s3) (fullAnalysis fresh)) = false)
    as Hfresh.
  { change (timestamp fresh) with now. rewrite Z.sub_diag.
    apply sane_expiration_not_expired.
    destruct Hstore3 as (_ & -> & _). by rewrite Hcfg2. }
  rewrite (getCachedAnalysis_present id now s3 fresh Hentry Hfresh).
  eexists _, _, _. split; [done|].
  cbn [analysisCache count_hit with_stats with_analysisCache].
  rewrite dict_get_set_eq. split; [done|]. split; [done|]. split; [done|].
  destruct Hstore3 as (Htree3 & Hcfg3 & Htrack3).
  split.
  { rewrite (hasNodeChanged_same_store node s2); [done|].
    by repeat split. }
  cbn [thoughtTree cacheConfig count_hit with_stats with_analysisCache].
  split; congruence.
Qed.

(** A fresh entry for an unchanged thought: [analyzeDepth] returns the cached
    snapshot, counts one hit, and bumps the access counter of the entry. *)
Lemma analyzeDepth_hit (id : string) (node : FractalThought) (now : Z)
    (s : Server) (entry : CachedAnalysis) :
  findThought id (thoughtTree s) = Some node ->
  dict_get id (analysisCache s) = Some entry ->
  gtb (of_Z (now - timestamp entry))
      (getCacheExpiration (cacheConfig s) (fullAnalysis entry)) = false ->
  hasNodeChanged node s = false ->
  analyzeDepth id now s
  = (Returned (fullAnalysis entry),
     count_hit
       (with_analysisCache
          (dict_set id
             {| timestamp := now;
                cached_summary := cached_summary entry;
                key := key entry;
                fullAnalysis := fullAnalysis entry;
                accessCount := accessCount entry + 1 |}
             (analysisCache s))
          s)).
Proof.
  intros Hfind Hentry Hfresh Hsame. unfold analyzeDepth.
  rewrite (getCachedAnalysis_present id now s entry Hentry Hfresh).
  cbn [thoughtTree count_hit with_stats with_analysisCache]. rewrite Hfind.
  rewrite (hasNodeChanged_same_store node s) by (by repeat split).
  by rewrite Hsame.
Qed.

(** After [analyzeDepth] on a thought with a change record, the analysis it
    returned is cached at the current time and the thought reads as
    unchanged. *)
Lemma analyzeDepth_settles (id : string) (node : FractalThought) (now : Z)
    (s : Server) (r : ThoughtChangeTracker) :
  findThought id (thoughtTree s) = Some node ->
  thoughtId node = id ->
  plain_ids (flatten node) ->
  sane_expiration (cacheConfig s) = true ->
  changeTracker s !! id = Some r ->
  lastModified r <= now ->
  exists a s1 entry,
    analyzeDepth id now s = (Returned a, s1) /\
    dict_get id (analysisCache s1) = Some entry /\
    fullAnalysis entry = a /\ timestamp entry = now /\
    hasNodeChanged node s1 = false /\
    thoughtTree s1 = thoughtTree s /\ cacheConfig s1 = cacheConfig s.
Proof.
  intros Hfind Hid Hplain Hsane Hr Hle. unfold analyzeDepth.
  pose proof (getCachedAnalysis_store id now s) as Hstore.
  assert (inherited id = false) as Hown
    by (rewrite <- Hid; by apply plain_ids_own).
  assert (forall cached s1, same_store s s1 ->
            exists a s2 entry,
              analyzeDepth_recompute id (Ok cached) now s1 = (Returned a, s2) /\
              dict_get id (analysisCache s2) = Some entry /\
              fullAnalysis entry = a /\ timestamp entry = now /\
              hasNodeChanged node s2 = false /\
              thoughtTree s2 = thoughtTree s /\ cacheConfig s2 = cacheConfig s)
    as Hrecompute.
  { intros cached s1 (Htree & Hcfg & Htrack).
    rewrite <- Htree in Hfind. rewrite <- Hcfg in Hsane. rewrite <- Htrack in Hr.
    destruct (analyzeDepth_recompute_settles id node cached now s1 r
                Hfind Hid Hplain Hsane Hr Hle)
      as (a & s2 & entry & H1 & H2 & H3 & H4 & H5 & H6 & H7).
    exists a, s2, entry. repeat split; congruence. }
  unfold getCachedAnalysis in *.
  destruct (dict_get id (analysisCache s)) as [entry|] eqn:Hentry;
    [|rewrite Hown in *; by apply Hrecompute].
  destruct (gtb _ _) eqn:Hold; [by apply Hrecompute|].
  cbn [thoughtTree count_hit with_stats with_analysisCache]. rewrite Hfind.
  destruct (hasNodeChanged node _) eqn:Hchanged; cbn [negb];
    [apply Hrecompute; exact Hstore|].
  eexists _, _, _. split; [done|].
  cbn [analysisCache count_hit with_stats with_analysisCache].
  rewrite dict_get_set_eq. by repeat split.
Qed.

(** C7 (amended): for a thought of the tree that has a change record (its
    last modification not after the first call) and whose subtree holds no
    thought with an id that names an inherited member of the cache object,
    under a cache configuration with non-negative expiration bounds, two
    consecutive [analyzeDepth] calls with nothing in between, the second
    before the entry's dynamic expiration has elapsed, return the same
    analysis; the second call adds one to the hit counter and to the access
    counter of the entry and leaves the miss counter unchanged. *)
Theorem consecutive_lookups_hit (id : string) (node : FractalThought)
    (now1 now2 : Z) (s : Server) (r : ThoughtChangeTracker) :
  findThought id (thoughtTree s) = Some node ->
  thoughtId node = id ->
  plain_ids (flatten node) ->
  sane_expiration (cacheConfig s) = true ->
  changeTracker s !! id = Some r ->
  lastModified r <= now1 ->
  (forall a, fst (analyzeDepth id now1 s) = Returned a ->
     gtb (of_Z (now2 - now1)) (getCacheExpiration (cacheConfig s) a) = false) ->
  let first := analyzeDepth id now1 s in
  let second := analyzeDepth id now2 (snd first) in
  exists a entry1 entry2,
    fst first = Returned a /\ fst second = Returned a /\
    hits (cacheStats (snd second)) = hits (cacheStats (snd first)) + 1 /\
    misses (cacheStats (snd second)) = misses (cacheStats (snd first)) /\
    dict_get id (analysisCache (snd first)) = Some entry1 /\
    dict_get id (analysisCache (snd second)) = Some entry2 /\
    accessCount entry2 = accessCount entry1 + 1 /\
    fullAnalysis entry2 = a.
Proof.
  intros Hfind Hid Hplain Hsane Hr Hle Hlive first second.
  destruct (analyzeDepth_settles id node now1 s r Hfind Hid Hplain Hsane Hr Hle)
    as (a & s1 & entry & Hfirst & Hentry & Hfull & Htime & Hsame & Htree & Hcfg).
  subst second first. rewrite Hfirst in *. cbn [fst snd] in *.
  specialize (Hlive a eq_refl).
  rewrite (analyzeDepth_hit id node now2 s1 entry); try done.
  - exists a, entry. eexists. split; [done|]. split; [by rewrite Hfull|].
    cbn [cacheStats analysisCache count_hit with_stats with_analysisCache
         hits misses snd].
    rewrite dict_get_set_eq. by repeat split.
  - congruence.
  - rewrite Htime, Hcfg, Hfull. exact Hlive.
Qed.

Lemma consecutive_lookups_hit_witness :
  exists a,
    fst (analyzeDepth "A" 1000 Scenario.family_tracked) = Returned a /\
    fst (analyzeDepth "A" 2000
           (snd (analyzeDepth "A" 1000 Scenario.family_tracked)))
    = Returned a.
Proof.
  destruct (consecutive_lookups_hit "A" Scenario.A 1000 2000
              Scenario.family_tracked
              {| lastModified := 300; subthoughtChanges := true;
                 lastAnalysis := 0 |}
              eq_refl eq_refl)
    as (a & _ & _ & H1 & H2 & _).
  - repeat (constructor; [reflexivity|]). constructor.
  - reflexivity.
  - reflexivity.
  - simpl. lia.
  - intros a Ha. vm_compute in Ha. injection Ha as <-. reflexivity.
  - exists a. split; assumption.
Defined.

(** C7, as stated, fails in two ways.  A thought without a change record
    (the root of a new server) always reads as changed: the second call
    recomputes, adds two hits and leaves the access counter of the entry at 1.
    And when the entry's expiration (here the 30 minute maximum) has elapsed
    between the calls, the second call is a miss and recomputes, reading the
    two sub-thoughts as misses too. *)
Lemma unchanged_thought_recomputed :
  (let first := analyzeDepth "root" 1000 (initial Scenario.created) in
   let second := analyzeDepth "root" 1001 (snd first) in
   fst second = fst first /\
   option_map accessCount (dict_get "root" (analysisCache (snd first))) = Some 1 /\
   option_map accessCount (dict_get "root" (analysisCache (snd second))) = Some 1 /\
   hits (cacheStats (snd second)) = hits (cacheStats (snd first)) + 2) /\
  (let first := analyzeDepth "A" 1000 Scenario.family_tracked in
   let second := analyzeDepth "A" (1000 + 30 * 60 * 1000 + 1) (snd first) in
   fst second = fst first /\
   misses (cacheStats (snd second)) = misses (cacheStats (snd first)) + 3).
Proof. vm_compute. repeat split. Qed.

(** ** Analysis from an empty cache *)

Lemma subtreeCounts_unfold (node : FractalThought) :
  subtreeCounts node
  = fold_left (fun acc sub => addCounts acc (subtreeCounts sub))
      (subThoughts node) (ownCounts node).
Proof. by destruct node. Qed.

(** Once a read has thrown, the loop over the sub-thoughts does nothing
    more. *)
Lemma incremental_loop_thrown (now : Z) (l : list FractalThought) (s : Server) :
  fold_left
    (fun (acc : Result NodeCounts * Server) sub =>
       match fst acc with
       | Throws => acc
       | Ok counts =>
           match getCachedAnalysis (thoughtId sub) now (snd acc) with
           | (Throws, s1) => (Throws, s1)
           | (Ok cached, s1) =>
               match analyzeNodeIncremental sub cached now s1 with
               | (Ok subAnalysis, s2) => (Ok (addCounts counts subAnalysis), s2)
               | (Throws, s2) => (Throws, s2)
               end
           end
       end)
    l (Throws, s)
  = (Throws, s).
Proof. induction l as [|x r IH]; simpl; [done | exact IH]. Qed.

(** With nothing cached the incremental pass visits the whole subtree, until
    a read throws. *)
Lemma analyzeNodeIncremental_fresh (now : Z) (node : FractalThought) :
  forall s, analysisCache s = [] ->
    exists r s', analyzeNodeIncremental node None now s = (r, s')
               /\ analysisCache s' = [] /\ same_store s s'
               /\ (r = Throws \/ r = Ok (subtreeCounts node)).
Proof.
  induction node as [node IH] using FractalThought_ind. intros s Hempty.
  rewrite analyzeNodeIncremental_unfold, subtreeCounts_unfold. cbv zeta.
  generalize (ownCounts node). revert s Hempty.
  induction IH as [|sub rest Hsub _ IHrest]; intros s Hempty acc;
    cbn [fold_left fst snd].
  - exists (Ok acc), s. split; [done|]. split; [done|].
    split; [apply same_store_refl | by right].
  - assert (dict_get (thoughtId sub) (analysisCache s) = None) as Hnone
      by (by rewrite Hempty).
    destruct (inherited (thoughtId sub)) eqn:Hin.
    { rewrite (getCachedAnalysis_inherited (thoughtId sub) now s Hnone Hin).
      rewrite incremental_loop_thrown. exists Throws, s.
      split; [done|]. split; [done|]. split; [apply same_store_refl | by left]. }
    rewrite (getCachedAnalysis_absent (thoughtId sub) now s Hnone Hin).
    destruct (Hsub (count_miss s) Hempty)
      as (r1 & s1 & -> & Hempty1 & Hstore1 & Hr1).
    assert (same_store s s1) as Hstore.
    { eapply same_store_trans; [|exact Hstore1]. by repeat split. }
    destruct Hr1 as [->| ->].
    { rewrite incremental_loop_thrown. exists Throws, s1.
      split; [done|]. split; [done|]. split; [exact Hstore | by left]. }
    destruct (IHrest s1 Hempty1 (addCounts acc (subtreeCounts sub)))
      as (r2 & s2 & -> & Hempty2 & Hstore2 & Hr2).
    exists r2, s2. split; [done|]. split; [done|]. split; [|exact Hr2].
    eapply same_store_trans; [exact Hstore | exact Hstore2].
Qed.

Lemma cacheAnalysis_then_read (id : string) (analysis : FractalAnalysis)
    (now : Z) (s : Server) :
  sane_expiration (cacheConfig s) = true ->
  exists s', getCachedAnalysis id now (cacheAnalysis id analysis now s)
             = (Ok (Some analysis), s').
Proof.
  intros Hsane.
  set (fresh := {| timestamp := now;
                   cached_summary :=
                     AnalysisSummarizer.summarizeAnalysis (Some analysis);
                   key := id; fullAnalysis := analysis; accessCount := 0 |}).
  eexists. apply (getCachedAnalysis_present id now _ fresh).
  - unfold cacheAnalysis. cbn [analysisCache refresh_totalSize with_stats
      with_analysisCache]. apply dict_get_set_eq.
  - change (timestamp fresh) with now. rewrite Z.sub_diag.
    apply sane_expiration_not_expired.
    by destruct (cacheAnalysis_store id analysis now s) as (_ & -> & _).
Qed.

(** From an empty cache, [analyzeDepth] throws or returns the analysis
    assembled from the counts of the whole subtree. *)
Lemma analyzeDepth_fresh_cases (id : string) (node : FractalThought) (now : Z)
    (s : Server) :
  analysisCache s = [] ->
  findThought id (thoughtTree s) = Some node ->
  sane_expiration (cacheConfig s) = true ->
  exists o s',
    analyzeDepth id now s = (o, s') /\
    (o = Threw \/ o = Returned (assembleAnalysis node (subtreeCounts node))).
Proof.
  intros Hempty Hfind Hsane. unfold analyzeDepth.
  assert (dict_get id (analysisCache s) = None) as Hnone by (by rewrite Hempty).
  destruct (inherited id) eqn:Hin.
  { rewrite (getCachedAnalysis_inherited id now s Hnone Hin).
    exists Threw, s. split; [done | by left]. }
  rewrite (getCachedAnalysis_absent id now s Hnone Hin).
  unfold analyzeDepth_recompute. cbn [thoughtTree count_miss with_stats].
  rewrite Hfind.
  destruct (analyzeNodeIncremental_fresh now node (count_miss s) Hempty)
    as (r & s1 & -> & _ & (_ & Hcfg & _) & [->| ->]).
  { exists Threw, s1. split; [done | by left]. }
  destruct (cacheAnalysis_then_read id
              (assembleAnalysis node (subtreeCounts node)) now
              (markAnalyzed id now s1)) as (s2 & Hread).
  { destruct (markAnalyzed_rest id now s1) as (_ & -> & _). by rewrite Hcfg. }
  cbv zeta. rewrite Hread. eexists _, s2. split; [done | by right].
Qed.

(** From an empty cache, [analyzeDepth] of a subtree without inherited names
    returns the analysis assembled from the counts of the whole subtree. *)
Lemma analyzeDepth_fresh (id : string) (node : FractalThought) (now : Z)
    (s : Server) :
  analysisCache s = [] ->
  findThought id (thoughtTree s) = Some node ->
  sane_expiration (cacheConfig s) = true ->
  inherited id = false ->
  plain_ids (flatten node) ->
  exists s',
    analyzeDepth id now s
    = (Returned (assembleAnalysis node (subtreeCounts node)), s').
Proof.
  intros Hempty Hfind Hsane Hid Hplain. unfold analyzeDepth.
  rewrite getCachedAnalysis_absent by (done || by rewrite Hempty).
  unfold analyzeDepth_recompute. cbn [thoughtTree count_miss with_stats].
  rewrite Hfind.
  destruct (analyzeNodeIncremental_returns node now Hplain None (count_miss s))
    as [counts Hcounts].
  destruct (analyzeNodeIncremental_fresh now node (count_miss s) Hempty)
    as (r & s1 & Hrun & _ & (_ & Hcfg & _) & Hr).
  rewrite Hrun in Hcounts |- *. cbn [fst] in Hcounts.
  destruct Hr as [->| ->]; [discriminate|].
  destruct (cacheAnalysis_then_read id
              (assembleAnalysis node (subtreeCounts node)) now
              (markAnalyzed id now s1)) as (s2 & Hread).
  { destruct (markAnalyzed_rest id now s1) as (_ & -> & _). by rewrite Hcfg. }
  cbv zeta. rewrite Hread. by exists s2.
Qed.

Lemma analyzeDepth_fresh_unknown (id : string) (now : Z) (s : Server) :
  analysisCache s = [] ->
  findThought id (thoughtTree s) = None ->
  analyzeDepth id now s
  = if inherited id then (Threw, s)
    else (Returned notFoundAnalysis, count_miss s).
Proof.
  intros Hempty Hfind. unfold analyzeDepth.
  assert (dict_get id (analysisCache s) = None) as Hnone by (by rewrite Hempty).
  destruct (inherited id) eqn:Hin.
  { by rewrite (getCachedAnalysis_inherited id now s Hnone Hin). }
  rewrite (getCachedAnalysis_absent id now s Hnone Hin).
  unfold analyzeDepth_recompute. cbn [thoughtTree count_miss with_stats].
  by rewrite Hfind.
Qed.

(** C9: in the tree root -> A(incomplete) -> [B(complete leaf), C(incomplete
    leaf)], a fresh analysis of A counts 3 thoughts, 2 of them unresolved,
    with completion ratio 1/3 and status "incomplete", at any clock
    reading. *)
Theorem scenario_analysis_of_A (now : Z) :
  exists a s',
    analyzeDepth "A" now Scenario.family = (Returned a, s') /\
    totalCount a = 3 /\ unresolvedCount a = 2 /\
    completionRatio a = Fin (1 # 3) /\ status a = incomplete.
Proof.
  destruct (analyzeDepth_fresh "A" Scenario.A now Scenario.family
              eq_refl eq_refl eq_refl eq_refl) as (s' & H).
  { repeat (constructor; [reflexivity|]). constructor. }
  eexists _, s'. split; [exact H|]. vm_compute. by repeat split.
Qed.

(** ** Completing one thought *)

Lemma addCounts_one_resolved_l (c c' sub : NodeCounts) :
  one_resolved c c' -> one_resolved (addCounts c sub) (addCounts c' sub).
Proof. intros [Ht Hu]. split; simpl; lia. Qed.

Lemma addCounts_one_resolved_r (acc c c' : NodeCounts) :
  one_resolved c c' -> one_resolved (addCounts acc c) (addCounts acc c').
Proof. intros [Ht Hu]. split; simpl; lia. Qed.

Lemma fold_counts_one_resolved (l : list FractalThought) (c c' : NodeCounts) :
  one_resolved c c' ->
  one_resolved
    (fold_left (fun acc sub => addCounts acc (subtreeCounts sub)) l c)
    (fold_left (fun acc sub => addCounts acc (subtreeCounts sub)) l c').
Proof.
  revert c c'. induction l as [|x r IH]; intros c c' H; simpl; [done|].
  apply IH. by apply addCounts_one_resolved_l.
Qed.

Lemma subtreeCounts_completes (t t' : FractalThought) :
  completes_one t t' -> one_resolved (subtreeCounts t) (subtreeCounts t').
Proof.
  induction 1 as [a b c d subs f g|a b c d pre post t t' e f g Hc IH].
  - rewrite !subtreeCounts_unfold. cbn [subThoughts].
    apply fold_counts_one_resolved. split; simpl; lia.
  - rewrite !subtreeCounts_unfold. cbn [subThoughts].
    rewrite !fold_left_app. cbn [fold_left].
    apply fold_counts_one_resolved. apply addCounts_one_resolved_r, IH.
Qed.

Lemma subtreeCounts_in_range (t : FractalThought) :
  counts_in_range (subtreeCounts t).
Proof.
  induction t as [t IH] using FractalThought_ind.
  rewrite subtreeCounts_unfold.
  apply (fold_left_invariant counts_in_range).
  - eapply Forall_impl; [exact IH|].
    intros sub [Hs1 Hs2] acc [Ha1 Ha2]. split; simpl; lia.
  - unfold counts_in_range, ownCounts. simpl. destruct (isComplete t); lia.
Qed.

Lemma first_some_app {A B : Type} (f : A -> option B) (l1 l2 : list A) :
  first_some f (l1 ++ l2)
  = match first_some f l1 with
    | Some y => Some y
    | None => first_some f l2
    end.
Proof.
  induction l1 as [|x r IH]; simpl; [done|]. by destruct (f x).
Qed.

Lemma findNode_unfold (id : string) (node : FractalThought) :
  findNode id node
  = if String.eqb (thoughtId node) id then Some node
    else first_some (findNode id) (subThoughts node).
Proof. by destruct node. Qed.

Lemma found_alike_refl (o : option FractalThought) : found_alike o o.
Proof. destruct o; simpl; [by left|done]. Qed.

Lemma first_some_completes (id : string) (before after : list FractalThought)
    (t t' : FractalThought) :
  found_alike (findNode id t) (findNode id t') ->
  found_alike (first_some (findNode id) (before ++ t :: after))
              (first_some (findNode id) (before ++ t' :: after)).
Proof.
  intros H. rewrite !first_some_app.
  destruct (first_some (findNode id) before); [by left|]. simpl.
  destruct (findNode id t), (findNode id t'); simpl in *; try done.
  apply found_alike_refl.
Qed.

Lemma findNode_completes (id : string) (t t' : FractalThought) :
  completes_one t t' -> found_alike (findNode id t) (findNode id t').
Proof.
  induction 1 as [a b c d subs f g|a b c d pre post t t' e f g Hc IH];
    rewrite !findNode_unfold; cbn [thoughtId subThoughts].
  - destruct (String.eqb b id).
    + right. constructor.
    + apply found_alike_refl.
  - destruct (String.eqb b id).
    + right. by constructor.
    + by apply first_some_completes.
Qed.

Lemma findThought_completes (id : string) (before after : list FractalThought)
    (t t' : FractalThought) :
  completes_one t t' ->
  found_alike (findThought id (before ++ t :: after))
              (findThought id (before ++ t' :: after)).
Proof.
  intros H. unfold findThought, findNodes.
  destruct (String.eqb id ""); [done|].
  destruct (String.eqb id "root").
  - destruct before as [|x r]; simpl; [by right|by left].
  - by apply first_some_completes, findNode_completes.
Qed.

Lemma completionRatio_assemble (node : FractalThought) (counts : NodeCounts) :
  counts_in_range counts ->
  completionRatio (assembleAnalysis node counts)
  = fin (inject_Z (counts_totalCount counts - counts_unresolvedCount counts)
         / inject_Z (counts_totalCount counts)).
Proof.
  intros [Hu Ht]. unfold assembleAnalysis. cbn [completionRatio].
  unfold div, of_Z.
  destruct (Qeq_bool (inject_Z (counts_totalCount counts)) 0) eqn:E; [|done].
  apply Qeq_bool_eq in E. unfold Qeq in E. simpl in E. lia.
Qed.

Lemma ratio_le_same_total (total u u' : Z) :
  1 <= total -> u' <= u ->
  (Qred (inject_Z (total - u) / inject_Z total)
   <= Qred (inject_Z (total - u') / inject_Z total))%Q.
Proof.
  intros Ht Hu. rewrite !Qred_correct. unfold Qdiv.
  apply Qmult_le_compat_r.
  - rewrite <- Zle_Qle. lia.
  - apply Qinv_le_0_compat. replace 0%Q with (inject_Z 0) by done.
    rewrite <- Zle_Qle. lia.
Qed.

(** The completion ratio that a fresh analysis reports for [n] does not
    decrease when one thought of its subtree is completed. *)
Lemma fresh_ratio_monotone (n n' : FractalThought) :
  same_or_completed n n' ->
  exists q q',
    completionRatio (assembleAnalysis n (subtreeCounts n)) = Fin q /\
    completionRatio (assembleAnalysis n' (subtreeCounts n')) = Fin q' /\
    (q <= q')%Q.
Proof.
  intros Hrel.
  pose proof (subtreeCounts_in_range n) as Hrange.
  pose proof (subtreeCounts_in_range n') as Hrange'.
  rewrite !completionRatio_assemble by done. unfold fin.
  eexists _, _. split; [done|]. split; [done|].
  destruct Hrange as [Hu Ht]. destruct Hrel as [<-|Hc]; [apply Qle_refl|].
  destruct (subtreeCounts_completes n n' Hc) as [-> ->].
  apply ratio_le_same_total; lia.
Qed.

Lemma completes_one_ids (t t' : FractalThought) :
  completes_one t t' -> map thoughtId (flatten t) = map thoughtId (flatten t').
Proof.
  induction 1 as [a b c d subs f g|a b c d pre post t t' e f g Hc IH];
    rewrite !flatten_unfold; cbn [thoughtId subThoughts map]; [done|].
  f_equal. rewrite !flat_map_app. cbn [flat_map].
  rewrite !map_app. by rewrite IH.
Qed.

Lemma same_or_completed_plain (n n' : FractalThought) :
  same_or_completed n n' -> plain_ids (flatten n) -> plain_ids (flatten n').
Proof.
  intros [<-|Hc]; [done|]. unfold plain_ids.
  rewrite <- !(List.Forall_map thoughtId (fun id => inherited id = false)).
  by rewrite (completes_one_ids n n' Hc).
Qed.

(** C8: completing exactly one thought of the tree, everything else
    unchanged, does not lower the completion ratio that a fresh analysis
    (nothing cached to reuse) reports for any thought id: whenever the
    analysis before and the analysis after return, the ratio after is at
    least the ratio before.  And both return when neither the id nor the id
    of a thought in the analysed subtree names an inherited member of the
    cache object. *)
Theorem completing_one_thought_monotone (s s' : Server)
    (before after : list FractalThought) (t t' : FractalThought)
    (id : string) (now now' : Z) :
  thoughtTree s = (before ++ t :: after)%list ->
  thoughtTree s' = (before ++ t' :: after)%list ->
  completes_one t t' ->
  analysisCache s = [] -> analysisCache s' = [] ->
  sane_expiration (cacheConfig s) = true ->
  sane_expiration (cacheConfig s') = true ->
  (forall a a',
     fst (analyzeDepth id now s) = Returned a ->
     fst (analyzeDepth id now' s') = Returned a' ->
     exists q q',
       completionRatio a = Fin q /\ completionRatio a' = Fin q' /\
       (q <= q')%Q) /\
  (inherited id = false ->
   (forall n, findThought id (thoughtTree s) = Some n -> plain_ids (flatten n)) ->
   exists a a',
     fst (analyzeDepth id now s) = Returned a /\
     fst (analyzeDepth id now' s') = Returned a').
Proof.
  intros Htree Htree' Hone Hempty Hempty' Hsane Hsane'.
  pose proof (findThought_completes id before after t t' Hone) as Hfound.
  rewrite <- Htree, <- Htree' in Hfound.
  destruct (findThought id (thoughtTree s)) as [n|] eqn:Hn;
    destruct (findThought id (thoughtTree s')) as [n'|] eqn:Hn';
    simpl in Hfound; try done.
  - split.
    + intros a a' Ha Ha'.
      destruct (analyzeDepth_fresh_cases id n now s Hempty Hn Hsane)
        as (o & s1 & E & Ho).
      destruct (analyzeDepth_fresh_cases id n' now' s' Hempty' Hn' Hsane')
        as (o' & s1' & E' & Ho').
      rewrite E in Ha. rewrite E' in Ha'. cbn [fst] in Ha, Ha'. subst o o'.
      destruct Ho as [Ho|Ho]; [discriminate|]. injection Ho as ->.
      destruct Ho' as [Ho'|Ho']; [discriminate|]. injection Ho' as ->.
      apply fresh_ratio_monotone, Hfound.
    + intros Hid Hplain.
      destruct (analyzeDepth_fresh id n now s Hempty Hn Hsane Hid
                  (Hplain n eq_refl)) as (s1 & ->).
      destruct (analyzeDepth_fresh id n' now' s' Hempty' Hn' Hsane' Hid
                  (same_or_completed_plain n n' Hfound (Hplain n eq_refl)))
        as (s1' & ->).
      by eexists _, _.
  - rewrite (analyzeDepth_fresh_unknown id now s Hempty Hn).
    rewrite (analyzeDepth_fresh_unknown id now' s' Hempty' Hn').
    split.
    + destruct (inherited id); [discriminate|].
      intros a a' Ha Ha'. cbn [fst] in Ha, Ha'.
      injection Ha as <-. injection Ha' as <-.
      exists 0%Q, 0%Q. by repeat split.
    + intros -> _. by eexists _, _.
Qed.

Lemma completing_one_thought_monotone_witness :
  exists a a' q q',
    fst (analyzeDepth "A" 1000 Scenario.family) = Returned a /\
    fst (analyzeDepth "A" 2000
           (with_tree [Scenario.root_with [Scenario.A_after]] Scenario.family))
    = Returned a' /\
    completionRatio a = Fin q /\ completionRatio a' = Fin q' /\
    (q <= q')%Q.
Proof.
  destruct (completing_one_thought_monotone Scenario.family
              (with_tree [Scenario.root_with [Scenario.A_after]] Scenario.family)
              [] [] (Scenario.root_with [Scenario.A])
              (Scenario.root_with [Scenario.A_after]) "A" 1000 2000
              eq_refl eq_refl)
    as [Hle Hreturn]; try reflexivity.
  - apply (complete_below _ _ _ _ [] []).
    apply (complete_below _ _ _ _ [Scenario.B] []).
    apply complete_here.
  - destruct Hreturn as (a & a' & Ha & Ha'); [reflexivity| |].
    + intros n Hn. vm_compute in Hn. injection Hn as <-.
      repeat (constructor; [reflexivity|]). constructor.
    + destruct (Hle a a' Ha Ha') as (q & q' & Hq & Hq' & Hqq).
      exists a, a', q, q'. repeat split; assumption.
Defined.

(** ** Pattern strength without patterns *)

Lemma div_of_Z_nonzero (a b : Z) :
  b <> 0 -> div (of_Z a) (of_Z b) = fin (inject_Z a / inject_Z b).
Proof.
  intros Hb. unfold div, of_Z.
  destruct (Qeq_bool (inject_Z b) 0) eqn:E; [|done].
  apply Qeq_bool_eq in E. unfold Qeq in E. simpl in E. lia.
Qed.

(** C3 (what the code computes): for a node whose detected pattern list is
    empty, the maximum over the empty set of scales is [-Infinity], not 0, and
    [calculatePatternStrength] returns [-Infinity]. *)
Theorem pattern_strength_without_patterns (node : FractalThought) :
  identifyRecursivePatterns node = [] ->
  calculatePatternStrength node (identifyRecursivePatterns node)
    (identifyEmergentProperties node (identifyRecursivePatterns node))
  = NInf.
Proof.
  intros ->. unfold calculatePatternStrength.
  rewrite (div_of_Z_nonzero _ (Z.max 1 (childCount node))) by lia.
  reflexivity.
Qed.

Lemma pattern_strength_without_patterns_witness :
  calculatePatternStrength Scenario.C
    (identifyRecursivePatterns Scenario.C)
    (identifyEmergentProperties Scenario.C
       (identifyRecursivePatterns Scenario.C))
  = NInf.
Proof. apply pattern_strength_without_patterns. reflexivity. Defined.

(** The same through [analyzeDepth]: the first analysis of the root of a new
    server, an incomplete leaf that needs no deeper analysis, reports no
    pattern and a pattern strength of [-Infinity], which the compact summary
    prints as such. *)
Lemma new_root_strength_is_minus_infinity (now : Z) :
  exists a s',
    analyzeDepth "root" now (initial Scenario.created) = (Returned a, s') /\
    recursivePatterns (fractalMetrics a) = [] /\
    patternStrength (fractalMetrics a) = NInf /\
    is_finite (patternStrength (fractalMetrics a)) = false /\
    AnalysisSummarizer.summarizeAnalysis (Some a) = "D0|C0%|P[]|E[]|S-Infinity%".
Proof.
  destruct (analyzeDepth_fresh "root" (rootThought Scenario.created) now
              (initial Scenario.created) eq_refl eq_refl eq_refl eq_refl)
    as (s' & H).
  { repeat (constructor; [reflexivity|]). constructor. }
  eexists _, s'. split; [exact H|]. vm_compute. by repeat split.
Qed.

(** ** The summary codec on the scenario string *)

(** C6, as stated, fails on the emergent property: the decoder drops the last
    two characters of the parenthesised number, so "70)" is read as 7 and the
    strength is 0.07, far from 0.70. *)
Lemma scenario_property_strength_not_70_percent :
  map Partial.strength
    (Partial.emergentProperties
       (Partial.fractalMetrics
          (AnalysisSummarizer.expandSummary
             "D2|C50%|P[expansion(3)]|E[Systematic Exploration(70)]|S40%")))
  = [Fin (7 # 100)]
  /\ ~ (Qabs ((7 # 100) - (7 # 10)) <= 1 # 10)%Q.
Proof. split; [reflexivity|]. intros H. vm_compute in H. by apply H. Qed.

(** C6 (amended): decoding the scenario string gives maxDepth 2, completion
    ratio 0.5, pattern strength 0.4, one pattern "expansion" with 3
    occurrences and no scales, and one emergent property "Systematic
    Exploration" whose strength is 0.07; the strength is 0.70 when the
    property is written as the encoder writes it, "(70%)". *)
Theorem expandSummary_scenario :
  AnalysisSummarizer.expandSummary
    "D2|C50%|P[expansion(3)]|E[Systematic Exploration(70)]|S40%"
  = {| Partial.maxDepth := of_Z 2;
       Partial.completionRatio := Fin (1 # 2);
       Partial.fractalMetrics :=
         {| Partial.branchingFactor := of_Z 0;
            Partial.depthConsistency := of_Z 0;
            Partial.crossBranchSimilarity := of_Z 0;
            Partial.patternStrength := Fin (2 # 5);
            Partial.recursivePatterns :=
              [ {| Partial.type := "expansion";
                   Partial.occurrences := of_Z 3;
                   Partial.scales := [];
                   Partial.evolution := [];
                   Partial.crossBranchOccurrences := of_Z 0;
                   Partial.confidence := of_Z 0 |} ];
            Partial.emergentProperties :=
              [ {| Partial.property := "Systematic Exploration";
                   Partial.strength := Fin (7 # 100);
                   Partial.relatedPatterns := [] |} ] |} |}
  /\ Partial.emergentProperties
       (Partial.fractalMetrics
          (AnalysisSummarizer.expandSummary
             "D2|C50%|P[expansion(3)]|E[Systematic Exploration(70%)]|S40%"))
     = [ {| Partial.property := "Systematic Exploration";
            Partial.strength := Fin (7 # 10);
            Partial.relatedPatterns := [] |} ].
Proof. split; reflexivity. Qed.

(** ** Strings: splitting and slicing *)






(** ** Strings: printing and parsing integers *)



















(** ** Percentages in the compact summary *)






(** ** The round trip through the compact summary *)












(** The encoding is not invertible on the pattern detail: the analysis of A
    holds scales and evolution traces, the decoded patterns hold none. *)
Lemma pattern_detail_lost :
  map scales (recursivePatterns (fractalMetrics Scenario.analysis_of_A))
  = [[2]; [1]; [1]] /\
  map Partial.scales
    (Partial.recursivePatterns
       (Partial.fractalMetrics
          (AnalysisSummarizer.expandSummary
             (AnalysisSummarizer.summarizeAnalysis
                (Some Scenario.analysis_of_A)))))
  = [[]; []].
Proof. by vm_compute. Qed.

(** C2, as stated for every cache state, fails at a capacity of zero, which
    [updateCacheConfig] accepts: the four resident entries exceed the
    capacity, the batch evicts all of them, and the insertion that follows
    leaves one entry resident, more than [maxCacheSize]. *)
Lemma capacity_zero_overshoots :
  maxCacheSize (cacheConfig no_room) = 0 /\
  cache_size no_room = 4 /\
  cache_size (manageCacheSize no_room) = 0 /\
  cache_size (cacheAnalysis "n" notFoundAnalysis 50 no_room) = 1 /\
  maxCacheSize (cacheConfig (cacheAnalysis "n" notFoundAnalysis 50 no_room)) = 0.
Proof. vm_compute. repeat split. Qed.

Lemma cacheAnalysis_within_capacity_witness :
  cache_size (cacheAnalysis "n" notFoundAnalysis 50 Scenario.crowded) <= 2 /\
  map entry_key (eviction_batch Scenario.crowded) = ["a"; "b"; "c"] /\
  map lastAccess (eviction_batch Scenario.crowded) = [5; 10; 20].
Proof.
  split; [|by vm_compute].
  destruct (cacheAnalysis_within_capacity "n" notFoundAnalysis 50
              Scenario.crowded) as (_ & _ & _ & _ & _ & _ & Hcap & Hsize & _).
  - vm_compute. congruence.
  - vm_compute. reflexivity.
  - rewrite Hcap in Hsize. exact Hsize.
Defined.

(** ** Cached analyses belong to thoughts of the tree *)

Lemma initial_cache_keys_resolve (created : string) :
  cache_keys_resolve (initial created).
Proof. intros k [x Hx]. discriminate. Qed.

Lemma analyzeDepth_recompute_tree (id : string)
    (cached : Result (option FractalAnalysis)) (now : Z) (s : Server) :
  thoughtTree (snd (analyzeDepth_recompute id cached now s)) = thoughtTree s.
Proof.
  unfold analyzeDepth_recompute. destruct cached as [previous|]; [|done].
  destruct (findThought id (thoughtTree s)) as [node|]; [|done].
  pose proof (analyzeNodeIncremental_store node previous now s) as (H1 & _).
  destruct (analyzeNodeIncremental node previous now s) as [[counts|] s1];
    [|exact H1].
  simpl in H1. cbv zeta.
  set (s3 := cacheAnalysis _ _ _ _).
  assert (thoughtTree s3 = thoughtTree s) as H3.
  { subst s3.
    destruct (cacheAnalysis_store id (assembleAnalysis node counts) now
                (markAnalyzed id now s1)) as (-> & _).
    destruct (markAnalyzed_rest id now s1) as (-> & _). exact H1. }
  pose proof (getCachedAnalysis_store id now s3) as (H4 & _).
  destruct (getCachedAnalysis id now s3) as [[[result|]|] s4];
    cbn [snd] in *; congruence.
Qed.

Lemma analyzeDepth_tree (id : string) (now : Z) (s : Server) :
  thoughtTree (snd (analyzeDepth id now s)) = thoughtTree s.
Proof.
  unfold analyzeDepth.
  pose proof (getCachedAnalysis_store id now s) as (H1 & _).
  destruct (getCachedAnalysis id now s) as [[[result|]|] s1]; cbn [snd] in *.
  - destruct (findThought id (thoughtTree s1)) as [node|]; [|done].
    destruct (negb (hasNodeChanged node s1)); [done|].
    by rewrite analyzeDepth_recompute_tree.
  - by rewrite analyzeDepth_recompute_tree.
  - by rewrite analyzeDepth_recompute_tree.
Qed.

Lemma analyzeDepth_recompute_keys (id : string)
    (cached : Result (option FractalAnalysis)) (now : Z) (s : Server)
    (k : string) :
  is_Some (dict_get k (analysisCache (snd (analyzeDepth_recompute id cached now s)))) ->
  is_Some (dict_get k (analysisCache s))
  \/ (k = id /\ is_Some (findThought id (thoughtTree s))).
Proof.
  unfold analyzeDepth_recompute. destruct cached as [previous|]; [|by left].
  destruct (findThought id (thoughtTree s)) as [node|]; [|by left].
  pose proof (analyzeNodeIncremental_keys node previous now s) as H1.
  destruct (analyzeNodeIncremental node previous now s) as [[counts|] s1];
    [|by intros Hk; left; apply H1].
  simpl in H1. cbv zeta.
  set (s3 := cacheAnalysis _ _ _ _).
  pose proof (getCachedAnalysis_keys id now s3) as H4.
  assert (is_Some (dict_get k (analysisCache s3)) ->
          is_Some (dict_get k (analysisCache s)) \/ k = id) as H3.
  { subst s3. unfold cacheAnalysis. cbn [analysisCache refresh_totalSize
      with_stats with_analysisCache].
    destruct (decide (id = k)) as [->|Hne]; [by right|].
    rewrite dict_get_set_ne by done. intros Hk. left. apply H1.
    apply manageCacheSize_keys in Hk.
    by destruct (markAnalyzed_rest id now s1) as (_ & _ & <- & _). }
  destruct (getCachedAnalysis id now s3) as [[[result|]|] s4]; simpl in *;
    intros Hk; apply H4, H3 in Hk as [Hk| ->]; eauto.
Qed.

(** [analyzeDepth] never caches an analysis for an id that is not in the
    tree. *)
Lemma analyzeDepth_cache_keys_resolve (id : string) (now : Z) (s : Server) :
  cache_keys_resolve s -> cache_keys_resolve (snd (analyzeDepth id now s)).
Proof.
  intros Hinv k Hk. rewrite analyzeDepth_tree.
  revert Hk. unfold analyzeDepth.
  pose proof (getCachedAnalysis_store id now s) as (Htree & _).
  pose proof (getCachedAnalysis_keys id now s) as Hkeys.
  destruct (getCachedAnalysis id now s) as [[[result|]|] s1]; cbn [snd] in *.
  - destruct (findThought id (thoughtTree s1)) as [node|] eqn:Hfind;
      [|by intros Hk; apply Hinv, Hkeys].
    destruct (negb (hasNodeChanged node s1));
      [by intros Hk; apply Hinv, Hkeys|].
    intros Hk. apply analyzeDepth_recompute_keys in Hk as [Hk|[-> Hk]].
    + by apply Hinv, Hkeys.
    + by rewrite <- Htree.
  - intros Hk. apply analyzeDepth_recompute_keys in Hk as [Hk|[-> Hk]].
    + by apply Hinv, Hkeys.
    + by rewrite <- Htree.
  - intros Hk. apply analyzeDepth_recompute_keys in Hk as [Hk|[-> Hk]].
    + by apply Hinv, Hkeys.
    + by rewrite <- Htree.
Qed.

Lemma trackThoughtChange_cache_keys_resolve (id : string) (include : bool)
    (now : Z) (s : Server) :
  cache_keys_resolve s -> cache_keys_resolve (trackThoughtChange id include now s).
Proof. intros Hinv k Hk. by apply Hinv. Qed.

(** In such a state an id that resolves to no thought has no cache entry. *)
Lemma unknown_thought_not_cached (id : string) (s : Server) :
  cache_keys_resolve s ->
  findThought id (thoughtTree s) = None ->
  dict_get id (analysisCache s) = None.
Proof.
  intros Hinv Hfind. destruct (dict_get id (analysisCache s)) eqn:E; [|done].
  destruct (Hinv id) as [x Hx]; [by rewrite E|]. congruence.
Qed.

(** ** Remarks *)

(** The example of C3: an incomplete leaf that needs no deeper analysis
    matches no pattern of the catalogue. *)
Lemma bare_leaf_has_no_pattern (node : FractalThought) :
  subThoughts node = [] -> isComplete node = false ->
  needsDeeperAnalysis node = false ->
  identifyRecursivePatterns node = [].
Proof.
  destruct node as [a b c d subs e f g]. simpl. by intros -> -> ->.
Qed.

Lemma dict_set_length_absent {V : Type} (k : string) (v : V) (d : Dict V) :
  dict_get k d = None -> length (dict_set k v d) = S (length d).
Proof.
  induction d as [|[k0 v0] r IH]; simpl; [done|].
  destruct (String.eqb k0 k); [done|]. intros H. simpl. by rewrite IH.
Qed.

(** How the condition of C2 comes about: at exactly [maxCacheSize] resident
    entries nothing is evicted (the test is a strict comparison), and
    inserting an analysis under a new key leaves [maxCacheSize + 1] entries. *)
Lemma insert_at_capacity_overshoots (id : string) (analysis : FractalAnalysis)
    (now : Z) (s : Server) :
  cache_size s = maxCacheSize (cacheConfig s) ->
  dict_get id (analysisCache s) = None ->
  cache_size (cacheAnalysis id analysis now s) = maxCacheSize (cacheConfig s) + 1.
Proof.
  intros Hfull Hnew. unfold cacheAnalysis, manageCacheSize.
  rewrite Hfull, Z.ltb_irrefl.
  unfold cache_size in *. cbn [analysisCache aggregateCache refresh_totalSize
    with_stats with_analysisCache].
  unfold dict_keys, Zlength' in *. rewrite !length_map in *.
  rewrite dict_set_length_absent by done. lia.
Qed.

(** The other side of C1: a change recorded on any other thought, such as a
    grandchild, leaves the change status of the node as it was. *)
Lemma distant_change_leaves_node_unchanged (id x : string)
    (node : FractalThought) (include : bool) (now : Z) (s : Server) :
  thoughtId node = id -> x <> id -> parent_of x s <> Some id ->
  hasNodeChanged node (trackThoughtChange x include now s)
  = hasNodeChanged node s.
Proof.
  intros Hid Hx Hparent. unfold hasNodeChanged.
  rewrite trackThoughtChange_tracker, Hid. cbv zeta.
  destruct (parent_of x s) as [p|].
  - rewrite !lookup_insert_ne; [done|done|]. intros ->. by apply Hparent.
  - by rewrite lookup_insert_ne.
Qed.

(** C10 in a state where every cached analysis belongs to a thought of the
    tree: an id that resolves to no thought makes the call throw when it
    names an inherited member, and gets the default analysis otherwise. *)
Lemma unresolved_id_returns_default (id : string) (now : Z) (s : Server) :
  cache_keys_resolve s ->
  findThought id (thoughtTree s) = None ->
  analyzeDepth id now s
  = if inherited id then (Threw, s)
    else (Returned notFoundAnalysis, count_miss s).
Proof.
  intros Hinv Hfind. unfold analyzeDepth.
  pose proof (unknown_thought_not_cached id s Hinv Hfind) as Hnone.
  destruct (inherited id) eqn:Hin.
  { by rewrite (getCachedAnalysis_inherited id now s Hnone Hin). }
  rewrite (getCachedAnalysis_absent id now s Hnone Hin).
  unfold analyzeDepth_recompute. cbn [thoughtTree count_miss with_stats].
  by rewrite Hfind.
Qed.

(** ** Sanity checks of the string primitives *)

Example parseInt_percent : Str.parseInt "50%" = of_Z 50.
Proof. reflexivity. Qed.

Example parseInt_hex : Str.parseInt "  -0x1f" = of_Z (-31).
Proof. reflexivity. Qed.

Example parseInt_no_digit : Str.parseInt "[]" = NaN.
Proof. reflexivity. Qed.

Example slice_inner : Str.slice "P[expansion(3)]" 2 (-1) = "expansion(3)".
Proof. reflexivity. Qed.

Example split_pipe : Str.split "|" "D2|C50%||S" = ["D2"; "C50%"; ""; "S"].
Proof. reflexivity. Qed.

Example trim_both : Str.trim "  expansion " = "expansion".
Proof. reflexivity. Qed.

Example toFixed0_half : Str.toFixed0 (Fin (5 # 2)) = "3".
Proof. reflexivity. Qed.

Example toFixed0_small_negative : Str.toFixed0 (Fin (- (2 # 5))) = "-0".
Proof. reflexivity. Qed.

Example max_of_nothing : max_list [] = NInf.
Proof. reflexivity. Qed.

Example summary_of_A :
  AnalysisSummarizer.summarizeAnalysis (Some Scenario.analysis_of_A)
  = "D2|C33%|P[expansion->completion(1), expansion(1)]|E[]|S36%".
Proof. reflexivity. Qed.

(** ** Searching the tree *)

Lemma find_app {A : Type} (p : A -> bool) (l1 l2 : list A) :
  find p (l1 ++ l2)%list
  = match find p l1 with
    | Some x => Some x
    | None => find p l2
    end.
Proof.
  induction l1 as [|x r IH]; simpl; [reflexivity|].
  destruct (p x); [reflexivity | exact IH].
Qed.

Lemma first_some_flat_find (id : string) (l : list FractalThought) :
  Forall (fun n => findNode id n = find (has_id id) (flatten n)) l ->
  first_some (findNode id) l = find (has_id id) (flat_map flatten l).
Proof.
  induction 1 as [|n r Hn _ IH]; [reflexivity|].
  cbn [first_some flat_map]. rewrite find_app, <- Hn, IH. reflexivity.
Qed.

Lemma findNode_find (id : string) (node : FractalThought) :
  findNode id node = find (has_id id) (flatten node).
Proof.
  induction node as [node IH] using FractalThought_ind.
  rewrite findNode_unfold.
  destruct node as [a b c d subs e f g].
  cbn [flatten find thoughtId subThoughts] in *. unfold has_id at 1.
  cbn [thoughtId].
  destruct (String.eqb b id); [reflexivity|].
  apply first_some_flat_find, IH.
Qed.

Lemma findNodes_find (id : string) (tree : list FractalThought) :
  findNodes id tree = find (has_id id) (thoughts_of tree).
Proof.
  apply first_some_flat_find, List.Forall_forall. intros n _. apply findNode_find.
Qed.

Lemma findNode_id (id : string) (node t : FractalThought) :
  findNode id node = Some t -> thoughtId t = id.
Proof.
  rewrite findNode_find. intros H. apply find_some in H as [_ H].
  apply String.eqb_eq, H.
Qed.

Lemma findNodes_id (id : string) (tree : list FractalThought) (t : FractalThought) :
  findNodes id tree = Some t -> thoughtId t = id.
Proof.
  rewrite findNodes_find. intros H. apply find_some in H as [_ H].
  apply String.eqb_eq, H.
Qed.

(** The id under which a thought is found names no inherited member when the
    id of the thought names none. *)
Lemma findThought_plain (id : string) (tree : list FractalThought)
    (node : FractalThought) :
  findThought id tree = Some node -> plain_ids (flatten node) ->
  inherited id = false.
Proof.
  unfold findThought. destruct (String.eqb id "") eqn:E0; [discriminate|].
  destruct (String.eqb id "root") eqn:Er.
  - apply String.eqb_eq in Er as ->. reflexivity.
  - intros H Hplain. apply findNodes_id in H as <-. apply plain_ids_own, Hplain.
Qed.

(** X1: [findThought] returns no thought for the empty id, the first root for
    the id "root", and for every other id the first thought with that id in
    the order of the search, a thought before its sub-thoughts; it returns
    nothing exactly when no thought has the id. *)
Theorem findThought_first_match (id : string) (tree : list FractalThought) :
  findThought "" tree = None /\
  findThought "root" tree = head tree /\
  (id <> "" -> id <> "root" ->
   findThought id tree = find (has_id id) (thoughts_of tree) /\
   (findThought id tree = None <->
    forall t, In t (thoughts_of tree) -> thoughtId t <> id)).
Proof.
  split; [reflexivity|]. split; [reflexivity|].
  intros Hne Hnr. unfold findThought.
  apply String.eqb_neq in Hne, Hnr. rewrite Hne, Hnr.
  split; [apply findNodes_find|].
  rewrite findNodes_find. split.
  - intros Hnone t Hin Hid.
    apply (find_none _ _ Hnone) in Hin. unfold has_id in Hin.
    apply String.eqb_neq in Hin. contradiction.
  - intros Hall. destruct (find (has_id id) (thoughts_of tree)) as [t|] eqn:E;
      [|reflexivity].
    apply find_some in E as [Hin Hid]. apply String.eqb_eq in Hid.
    exfalso. exact (Hall t Hin Hid).
Qed.

Lemma findThought_first_match_witness :
  findThought "C" (thoughtTree Scenario.family) = Some Scenario.C.
Proof.
  destruct (findThought_first_match "C" (thoughtTree Scenario.family))
    as (_ & _ & H).
  destruct H as [H _]; [discriminate | discriminate |].
  rewrite H. reflexivity.
Defined.

Lemma findPathNode_unfold (id : string) (path : list FractalThought)
    (node : FractalThought) :
  findPathNode id path node
  = if String.eqb (thoughtId node) id then Some (path ++ [node])%list
    else first_some (findPathNode id (path ++ [node])%list) (subThoughts node).
Proof. destruct node; reflexivity. Qed.

Lemma last_default {A : Type} (l : list A) (x d d' : A) :
  List.last (x :: l) d = List.last (x :: l) d'.
Proof.
  revert x. induction l as [|y r IH]; intros x; [reflexivity|].
  change (List.last (y :: r) d = List.last (y :: r) d'). apply IH.
Qed.

Lemma findPathNode_spec (id : string) (node : FractalThought) :
  forall path, path_below id path node (findPathNode id path node).
Proof.
  induction node as [node IH] using FractalThought_ind. intros path.
  rewrite findPathNode_unfold. unfold path_below. rewrite (findNode_unfold id node).
  destruct (String.eqb (thoughtId node) id).
  - exists [], node. repeat split.
  - set (subs := subThoughts node) in *.
    assert (Hsubs : forall x, In x subs -> In x (subThoughts node)) by (intros; assumption).
    clearbody subs.
    induction subs as [|sub r IHr]; [reflexivity|].
    cbn [first_some].
    apply List.Forall_cons_iff in IH as [Hsub Hr].
    specialize (Hsub (path ++ [node])%list). unfold path_below in Hsub.
    destruct (findPathNode id (path ++ [node])%list sub) as [full|].
    + destruct Hsub as (rest & t & Hfull & Hdesc & Hlast & Hfind).
      rewrite Hfind. exists (sub :: rest), t. repeat split.
      * rewrite Hfull, <- app_assoc. reflexivity.
      * apply Hsubs. left. reflexivity.
      * exact Hdesc.
      * change (List.last (sub :: rest) node = t).
        rewrite (last_default rest sub node sub). exact Hlast.
    + rewrite Hsub. apply IHr; [exact Hr|].
      intros x Hx. apply Hsubs. right. exact Hx.
Qed.

Lemma findPath_spec (id : string) (tree : list FractalThought) :
  match findPath id tree [] with
  | None => findNodes id tree = None
  | Some full =>
      exists root rest t,
        full = root :: rest /\ In root tree /\ descends (root :: rest) /\
        List.last (root :: rest) root = t /\ findNodes id tree = Some t
  end.
Proof.
  unfold findPath, findNodes.
  induction tree as [|n r IH]; [reflexivity|].
  cbn [first_some].
  pose proof (findPathNode_spec id n []) as Hn. unfold path_below in Hn.
  destruct (findPathNode id [] n) as [full|].
  - destruct Hn as (rest & t & Hfull & Hdesc & Hlast & Hfind).
    rewrite Hfind. exists n, rest, t. repeat split; try assumption.
    left. reflexivity.
  - rewrite Hn. destruct (first_some (findPathNode id []) r) as [full|].
    + destruct IH as (root & rest & t & Hfull & Hin & Hdesc & Hlast & Hfind).
      exists root, rest, t. repeat split; try assumption. right. exact Hin.
    + exact IH.
Qed.

Lemma nth_error_last {A : Type} (l : list A) (d : A) :
  l <> [] -> nth_error l (length l - 1) = Some (List.last l d).
Proof.
  induction l as [|x r IH]; [congruence|]. intros _.
  destruct r as [|y r']; [reflexivity|].
  replace (length (x :: y :: r') - 1)%nat with (S (length (y :: r') - 1))
    by (simpl; lia).
  cbn [nth_error]. rewrite IH by discriminate. reflexivity.
Qed.

Lemma descends_last_parent (path : list FractalThought) (d : FractalThought) :
  descends path -> (2 <= length path)%nat ->
  exists p, nth_error path (length path - 2) = Some p /\
            In (List.last path d) (subThoughts p).
Proof.
  induction path as [|a r IH]; [simpl; lia|].
  intros Hdesc Hlen.
  destruct r as [|b r']; [simpl in Hlen; lia|].
  destruct r' as [|c r''].
  - exists a. split; [reflexivity|]. apply Hdesc.
  - destruct Hdesc as [_ Hdesc].
    destruct (IH Hdesc) as (p & Hp & Hin); [simpl; lia|].
    exists p. split; [|exact Hin].
    replace (length (a :: b :: c :: r'') - 2)%nat
      with (S (length (b :: c :: r'') - 2)) by (simpl; lia).
    exact Hp.
Qed.

(** X2: [getThoughtWithContext] finds the thought that the search of
    [findThought] finds (without its special cases for the empty id and for
    "root"); the path leads from a root of the tree down to that thought
    through sub-thought links, the parent is the thought before it on the
    path, and the siblings are the list that holds the thought itself: the
    parent's sub-thoughts, or the roots when the thought is a root.  When
    nothing is found every field is missing. *)
Theorem getThoughtWithContext_sound (id : string) (s : Server) :
  let c := getThoughtWithContext id s in
  found_thought c = findNodes id (thoughtTree s) /\
  (forall t, found_thought c = Some t ->
     thoughtId t = id /\
     exists siblings path root,
       found_siblings c = Some siblings /\ In t siblings /\
       found_path c = Some path /\ descends path /\
       head path = Some root /\ In root (thoughtTree s) /\
       nth_error path (length path - 1) = Some t /\
       match found_parent c with
       | Some p =>
           siblings = subThoughts p /\ (2 <= length path)%nat /\
           nth_error path (length path - 2) = Some p
       | None => siblings = thoughtTree s /\ path = [t]
       end) /\
  (found_thought c = None ->
     found_parent c = None /\ found_siblings c = None /\ found_path c = None).
Proof.
  cbv zeta. unfold getThoughtWithContext.
  pose proof (findPath_spec id (thoughtTree s)) as Hp.
  destruct (findPath id (thoughtTree s) []) as [full|].
  - destruct Hp as (root & rest & t & Hfull & Hin & Hdesc & Hlast & Hfind).
    cbn [found_thought found_parent found_siblings found_path].
    assert (Hnth : nth_error full (length full - 1) = Some t).
    { rewrite Hfull, (nth_error_last _ root) by discriminate. f_equal. exact Hlast. }
    rewrite Hnth, Hfind. split; [reflexivity|]. split.
    + intros t' Ht'. injection Ht' as <-.
      split; [exact (findNodes_id _ _ _ Hfind)|].
      destruct (1 <? length full)%nat eqn:Hlen.
      * apply Nat.ltb_lt in Hlen.
        destruct (descends_last_parent full root) as (p & Hp & Hinp);
          [rewrite Hfull; exact Hdesc | lia |].
        rewrite Hp. exists (subThoughts p), full, root.
        split; [reflexivity|].
        split; [rewrite <- Hlast, <- Hfull; exact Hinp|].
        split; [reflexivity|].
        split; [rewrite Hfull; exact Hdesc|].
        split; [rewrite Hfull; reflexivity|].
        split; [exact Hin|].
        split; [exact Hnth|].
        split; [reflexivity|]. split; [lia | exact Hp].
      * apply Nat.ltb_ge in Hlen.
        assert (rest = []) as ->.
        { destruct rest; [reflexivity|]. rewrite Hfull in Hlen. simpl in Hlen. lia. }
        cbn [List.last] in Hlast. subst t full.
        exists (thoughtTree s), [root], root.
        split; [reflexivity|]. split; [exact Hin|].
        split; [reflexivity|]. split; [exact I|].
        split; [reflexivity|]. split; [exact Hin|].
        split; [reflexivity|]. split; reflexivity.
    + discriminate.
  - cbn [found_thought found_parent found_siblings found_path].
    rewrite Hp. split; [reflexivity|]. split; [discriminate|].
    intros _. repeat split.
Qed.

Lemma getThoughtWithContext_sound_witness :
  thoughtId Scenario.C = "C" /\
  option_map thoughtId (found_parent (getThoughtWithContext "C" Scenario.family))
  = Some "A".
Proof.
  destruct (getThoughtWithContext_sound "C" Scenario.family) as (_ & H & _).
  destruct (H Scenario.C) as [Hid _]; [reflexivity|].
  split; [exact Hid | reflexivity].
Defined.

(** ** What a fresh analysis counts *)

Lemma Zlength'_app {A : Type} (l1 l2 : list A) :
  Zlength' (l1 ++ l2)%list = Zlength' l1 + Zlength' l2.
Proof. unfold Zlength'. rewrite length_app. lia. Qed.

Lemma fold_counts_total (subs : list FractalThought) (c : NodeCounts) :
  Forall (fun sub => counts_totalCount (subtreeCounts sub) = Zlength' (flatten sub))
    subs ->
  counts_totalCount
    (fold_left (fun acc sub => addCounts acc (subtreeCounts sub)) subs c)
  = counts_totalCount c + Zlength' (flat_map flatten subs).
Proof.
  intros H. revert c. induction H as [|sub r Hsub _ IH]; intros c.
  - unfold Zlength'. simpl. lia.
  - cbn [fold_left flat_map]. rewrite IH, Zlength'_app. cbn [addCounts counts_totalCount].
    rewrite Hsub. lia.
Qed.

Lemma subtreeCounts_total (node : FractalThought) :
  counts_totalCount (subtreeCounts node) = Zlength' (flatten node).
Proof.
  induction node as [node IH] using FractalThought_ind.
  rewrite subtreeCounts_unfold, (fold_counts_total _ _ IH).
  destruct node as [a b c d subs e f g]. unfold Zlength'.
  cbn [flatten length ownCounts counts_totalCount subThoughts]. lia.
Qed.

Lemma fold_counts_unresolved (subs : list FractalThought) (c : NodeCounts) :
  Forall (fun sub => counts_unresolvedCount (subtreeCounts sub)
                     = Zlength' (List.filter incompleteChild (flatten sub)))
    subs ->
  counts_unresolvedCount
    (fold_left (fun acc sub => addCounts acc (subtreeCounts sub)) subs c)
  = counts_unresolvedCount c
    + Zlength' (List.filter incompleteChild (flat_map flatten subs)).
Proof.
  intros H. revert c. induction H as [|sub r Hsub _ IH]; intros c.
  - unfold Zlength'. simpl. lia.
  - cbn [fold_left flat_map]. rewrite IH, List.filter_app, Zlength'_app.
    cbn [addCounts counts_unresolvedCount]. rewrite Hsub. lia.
Qed.

Lemma subtreeCounts_unresolved (node : FractalThought) :
  counts_unresolvedCount (subtreeCounts node)
  = Zlength' (List.filter incompleteChild (flatten node)).
Proof.
  induction node as [node IH] using FractalThought_ind.
  rewrite subtreeCounts_unfold, (fold_counts_unresolved _ _ IH).
  destruct node as [a b c d subs e f g].
  cbn [flatten List.filter ownCounts counts_unresolvedCount subThoughts isComplete].
  unfold incompleteChild at 2. cbn [isComplete].
  destruct e; unfold Zlength'; cbn [negb length]; lia.
Qed.

Lemma largest_depth_app (m m' : Z) (l l' : list FractalThought) :
  largest_depth m l -> largest_depth m' l' ->
  largest_depth (Z.max m m') (l ++ l')%list.
Proof.
  intros [Hle (t & Hin & Ht)] [Hle' (t' & Hin' & Ht')]. split.
  - intros x Hx. apply in_app_or in Hx as [Hx|Hx];
      [specialize (Hle x Hx) | specialize (Hle' x Hx)]; lia.
  - destruct (Z.max_spec m m') as [[_ ->]|[_ ->]].
    + exists t'. split; [apply in_or_app; right; exact Hin' | exact Ht'].
    + exists t. split; [apply in_or_app; left; exact Hin | exact Ht].
Qed.

Lemma fold_counts_maxDepth (subs : list FractalThought) (c : NodeCounts)
    (seen : list FractalThought) :
  Forall (fun sub => largest_depth (counts_maxDepth (subtreeCounts sub)) (flatten sub))
    subs ->
  largest_depth (counts_maxDepth c) seen ->
  largest_depth
    (counts_maxDepth
       (fold_left (fun acc sub => addCounts acc (subtreeCounts sub)) subs c))
    (seen ++ flat_map flatten subs)%list.
Proof.
  intros H. revert c seen. induction H as [|sub r Hsub _ IH]; intros c seen Hc.
  - cbn [fold_left flat_map]. rewrite app_nil_r. exact Hc.
  - cbn [fold_left flat_map]. rewrite app_assoc. apply IH.
    cbn [addCounts counts_maxDepth]. apply largest_depth_app; assumption.
Qed.

Lemma subtreeCounts_maxDepth (node : FractalThought) :
  largest_depth (counts_maxDepth (subtreeCounts node)) (flatten node).
Proof.
  induction node as [node IH] using FractalThought_ind.
  rewrite subtreeCounts_unfold.
  pose proof (fold_counts_maxDepth (subThoughts node) (ownCounts node) [node] IH)
    as H.
  destruct node as [a b c d subs e f g].
  cbn [flatten subThoughts] in *. apply H.
  cbn [ownCounts counts_maxDepth depth]. split.
  - intros t [<-|[]]. simpl. lia.
  - eexists. split; [left; reflexivity | reflexivity].
Qed.

Lemma subtreeCounts_no_attention (node : FractalThought) :
  hasUnresolvedWithDeeperAnalysis (subtreeCounts node) = false.
Proof.
  induction node as [node IH] using FractalThought_ind.
  rewrite subtreeCounts_unfold.
  assert (Hown : hasUnresolvedWithDeeperAnalysis (ownCounts node) = false)
    by reflexivity.
  revert Hown. generalize (ownCounts node).
  induction IH as [|sub r Hsub _ IHr]; intros c Hc; [exact Hc|].
  cbn [fold_left]. apply IHr. cbn [addCounts hasUnresolvedWithDeeperAnalysis].
  rewrite Hc, Hsub. reflexivity.
Qed.

(** X3: an analysis computed with nothing in the cache, for a thought whose
    subtree holds no id that names an inherited member of the cache object,
    counts every thought of the subtree once, the thought itself included:
    [totalCount] is the number of thoughts, [unresolvedCount] the number of
    those that are not complete, and [maxDepth] the largest [depth] field
    among them. *)
Theorem fresh_analysis_counts_subtree (id : string) (node : FractalThought)
    (now : Z) (s : Server) :
  analysisCache s = [] ->
  findThought id (thoughtTree s) = Some node ->
  plain_ids (flatten node) ->
  sane_expiration (cacheConfig s) = true ->
  exists a s',
    analyzeDepth id now s = (Returned a, s') /\
    totalCount a = Zlength' (flatten node) /\
    unresolvedCount a = Zlength' (List.filter incompleteChild (flatten node)) /\
    (forall t, In t (flatten node) -> depth t <= maxDepth a) /\
    (exists t, In t (flatten node) /\ depth t = maxDepth a).
Proof.
  intros Hempty Hfind Hplain Hsane.
  destruct (analyzeDepth_fresh id node now s Hempty Hfind Hsane
              (findThought_plain id _ node Hfind Hplain) Hplain) as (s' & ->).
  eexists _, s'. split; [reflexivity|].
  cbn [assembleAnalysis totalCount unresolvedCount maxDepth].
  split; [apply subtreeCounts_total|].
  split; [apply subtreeCounts_unresolved|].
  apply subtreeCounts_maxDepth.
Qed.

Lemma fresh_analysis_counts_subtree_witness :
  exists a s',
    analyzeDepth "root" 1000 Scenario.family = (Returned a, s') /\
    totalCount a = 4 /\ unresolvedCount a = 3.
Proof.
  destruct (fresh_analysis_counts_subtree "root" (Scenario.root_with [Scenario.A])
              1000 Scenario.family eq_refl eq_refl)
    as (a & s' & H & Ht & Hu & _).
  - repeat (constructor; [reflexivity|]). constructor.
  - reflexivity.
  - exists a, s'. split; [exact H|]. split; [exact Ht | exact Hu].
Defined.

Lemma Qdiv_inject_pos (a : Z) (p : positive) :
  (inject_Z a / inject_Z (Z.pos p) == a # p)%Q.
Proof. unfold Qeq, Qdiv, Qmult, Qinv, inject_Z. simpl. lia. Qed.

Lemma status_assemble (node : FractalThought) (counts : NodeCounts) :
  counts_in_range counts ->
  status (assembleAnalysis node counts)
  = if counts_unresolvedCount counts =? 0 then complete
    else if 7 * counts_totalCount counts
            <=? 10 * (counts_totalCount counts - counts_unresolvedCount counts)
         then partially_complete
         else incomplete.
Proof.
  intros [Hu Ht]. unfold assembleAnalysis. cbn [status].
  rewrite div_of_Z_nonzero by lia.
  destruct (counts_totalCount counts) as [|p|p] eqn:Et; [lia| |lia].
  set (u := counts_unresolvedCount counts) in *.
  unfold fin, of_Z, geb, gtb, eqb, Qltb.
  assert (Hq : (Qred (inject_Z (Z.pos p - u) / inject_Z (Z.pos p))
                == (Z.pos p - u) # p)%Q)
    by (rewrite Qred_correct; apply Qdiv_inject_pos).
  destruct (Z.eqb_spec u 0) as [Hz|Hz].
  - replace (Qeq_bool _ (inject_Z 1)) with true; [reflexivity|].
    symmetry. apply Qeq_bool_iff. rewrite Hq. unfold Qeq. simpl. lia.
  - replace (Qeq_bool _ (inject_Z 1)) with false.
    2:{ symmetry. apply not_true_iff_false. intros E.
        apply Qeq_bool_iff in E. rewrite Hq in E. unfold Qeq in E.
        simpl in E. lia. }
    destruct (Z.leb_spec (7 * Z.pos p) (10 * (Z.pos p - u))) as [Hge|Hlt].
    + replace (negb (Qle_bool _ (7 # 10)) || Qeq_bool _ (7 # 10)) with true;
        [reflexivity|].
      symmetry. apply orb_true_iff.
      destruct (Z.eq_dec (7 * Z.pos p) (10 * (Z.pos p - u))) as [E|E].
      * right. apply Qeq_bool_iff. rewrite Hq. unfold Qeq. simpl. lia.
      * left. apply negb_true_iff, not_true_iff_false. intros L.
        apply Qle_bool_iff in L. rewrite Hq in L. unfold Qle in L.
        simpl in L. lia.
    + replace (negb (Qle_bool _ (7 # 10)) || Qeq_bool _ (7 # 10)) with false;
        [reflexivity|].
      symmetry. apply orb_false_iff. split.
      * apply negb_false_iff, Qle_bool_iff. rewrite Hq. unfold Qle. simpl. lia.
      * apply not_true_iff_false. intros E. apply Qeq_bool_iff in E.
        rewrite Hq in E. unfold Qeq in E. simpl in E. lia.
Qed.

(** ** The structural metrics *)

Lemma Qsum_fold (l : list Q) (a : Q) : (fold_left Qplus l a == a + Qsum l)%Q.
Proof.
  unfold Qsum. revert a. induction l as [|x r IH]; intros a; cbn [fold_left].
  - lra.
  - rewrite IH, (IH (0 + x)%Q). lra.
Qed.

Lemma Qsum_cons (x : Q) (l : list Q) : (Qsum (x :: l) == x + Qsum l)%Q.
Proof. unfold Qsum at 1. cbn [fold_left]. rewrite Qsum_fold. lra. Qed.

Lemma Qsum_nonneg (l : list Q) :
  Forall (fun x => (0 <= x)%Q) l -> (0 <= Qsum l)%Q.
Proof.
  induction 1 as [|x r Hx _ IH]; [unfold Qsum; simpl; lra|].
  rewrite Qsum_cons. lra.
Qed.


Lemma Qsum_all_zero (l : list Q) :
  Forall (fun x => (x == 0)%Q) l -> (Qsum l == 0)%Q.
Proof.
  induction 1 as [|x r Hx _ IH]; [reflexivity|].
  cbv beta in Hx. rewrite Qsum_cons. lra.
Qed.


Lemma Zlength'_pos {A : Type} (x : A) (l : list A) :
  (0 < inject_Z (Zlength' (x :: l)))%Q.
Proof.
  replace 0%Q with (inject_Z 0) by reflexivity. rewrite <- Zlt_Qlt.
  unfold Zlength'. simpl. lia.
Qed.

Lemma Qsquare_nonneg (a : Q) : (0 <= a * a)%Q.
Proof.
  destruct (Qlt_le_dec a 0) as [H|H].
  - assert (E : (a * a == (- a) * (- a))%Q) by ring.
    rewrite E. apply Qmult_le_0_compat; lra.
  - apply Qmult_le_0_compat; assumption.
Qed.


(** The variance that [calculateDepthConsistency] computes over the depths
    [depths] of the sub-thoughts. *)
Lemma variance_nonneg (depths : list Q) (avg len : Q) :
  (0 < len)%Q ->
  (0 <= Qsum (map (fun b => (b - avg) * (b - avg)) depths) / len)%Q.
Proof.
  intros Hlen. apply Qle_shift_div_l; [exact Hlen|].
  assert (E : (0 * len == 0)%Q) by ring. rewrite E.
  apply Qsum_nonneg, List.Forall_forall. intros x Hx.
  apply in_map_iff in Hx as (b & <- & _). apply Qsquare_nonneg.
Qed.

Lemma consistency_of_variance (v : Q) :
  (0 <= v)%Q ->
  (0 < 1 / (1 + v) <= 1)%Q /\ ((1 / (1 + v) == 1)%Q <-> (v == 0)%Q).
Proof.
  intros Hv. assert (Hpos : (0 < 1 + v)%Q) by lra.
  split; [split|split].
  - apply Qlt_shift_div_l; [exact Hpos | lra].
  - apply Qle_shift_div_r; [exact Hpos | lra].
  - intros H. assert (E : (1 / (1 + v) * (1 + v) == 1)%Q).
    { field. lra. }
    rewrite H in E. lra.
  - intros H. rewrite H. field.
Qed.

Lemma calculateDepthConsistency_pos (node : FractalThought) :
  (0 < calculateDepthConsistency node)%Q.
Proof.
  unfold calculateDepthConsistency.
  destruct (subThoughts node) as [|sub rest]; [lra|]. cbv zeta.
  apply consistency_of_variance, variance_nonneg, Zlength'_pos.
Qed.


Lemma calculateBranchingFactor_unfold (node : FractalThought) :
  calculateBranchingFactor node
  = match subThoughts node with
    | [] => 0%Q
    | subs =>
        ((inject_Z (Zlength' subs) + Qsum (map calculateBranchingFactor subs))
         / (inject_Z (Zlength' (map calculateBranchingFactor subs)) + 1))%Q
    end.
Proof. destruct node as [a b c d subs e f g]. destruct subs; reflexivity. Qed.

Lemma calculateBranchingFactor_nonneg (node : FractalThought) :
  (0 <= calculateBranchingFactor node)%Q.
Proof.
  induction node as [node IH] using FractalThought_ind.
  rewrite calculateBranchingFactor_unfold.
  destruct (subThoughts node) as [|sub rest]; [lra|].
  set (subs := sub :: rest) in *.
  assert (Hsum : (0 <= Qsum (map calculateBranchingFactor subs))%Q).
  { apply Qsum_nonneg, List.Forall_forall. intros x Hx.
    apply in_map_iff in Hx as (y & <- & Hy).
    rewrite List.Forall_forall in IH. exact (IH y Hy). }
  assert (Hlen : (0 < inject_Z (Zlength' subs))%Q) by apply Zlength'_pos.
  assert (Hlen' : (0 < inject_Z (Zlength' (map calculateBranchingFactor subs)))%Q)
    by apply Zlength'_pos.
  apply Qle_shift_div_l; lra.
Qed.

(** X5: the branching factor is never negative and is 0 exactly for a thought
    without sub-thoughts; for a thought whose n sub-thoughts are all leaves
    it is n / (n + 1), so below 1 whatever the fan-out. *)
Theorem branchingFactor_range (node : FractalThought) :
  (0 <= calculateBranchingFactor node)%Q /\
  ((calculateBranchingFactor node == 0)%Q <-> subThoughts node = []) /\
  (Forall (fun sub => subThoughts sub = []) (subThoughts node) ->
   (calculateBranchingFactor node
    == inject_Z (childCount node) / (inject_Z (childCount node) + 1))%Q).
Proof.
  split; [apply calculateBranchingFactor_nonneg|].
  rewrite calculateBranchingFactor_unfold. unfold childCount.
  destruct (subThoughts node) as [|sub rest]; [split; [split; reflexivity|]|].
  { intros _. unfold Zlength'. simpl. reflexivity. }
  set (subs := sub :: rest) in *.
  assert (Hlen : (0 < inject_Z (Zlength' subs))%Q) by apply Zlength'_pos.
  assert (Hmap : Zlength' (map calculateBranchingFactor subs) = Zlength' subs)
    by (unfold Zlength'; rewrite length_map; reflexivity).
  rewrite Hmap. split.
  - split; [|discriminate]. intros Hzero. exfalso.
    assert (Hsum : (0 <= Qsum (map calculateBranchingFactor subs))%Q).
    { apply Qsum_nonneg, List.Forall_forall. intros x Hx.
      apply in_map_iff in Hx as (y & <- & _).
      apply calculateBranchingFactor_nonneg. }
    assert (E : ((inject_Z (Zlength' subs)
                  + Qsum (map calculateBranchingFactor subs))
                 / (inject_Z (Zlength' subs) + 1) * (inject_Z (Zlength' subs) + 1)
                 == inject_Z (Zlength' subs)
                    + Qsum (map calculateBranchingFactor subs))%Q)
      by (field; lra).
    rewrite Hzero in E. lra.
  - intros Hleaves.
    assert (Hsum : (Qsum (map calculateBranchingFactor subs) == 0)%Q).
    { apply Qsum_all_zero, List.Forall_forall. intros x Hx.
      apply in_map_iff in Hx as (y & <- & Hy).
      rewrite List.Forall_forall in Hleaves.
      rewrite calculateBranchingFactor_unfold, (Hleaves y Hy). reflexivity. }
    rewrite Hsum. field. lra.
Qed.

Lemma branchingFactor_range_witness :
  (calculateBranchingFactor Scenario.A == 2 / (2 + 1))%Q.
Proof.
  destruct (branchingFactor_range Scenario.A) as (_ & _ & H).
  apply H. repeat constructor.
Defined.

(** ** The dynamic expiration *)

Lemma clamp_finite (x : number) (lo hi : Q) :
  x <> NaN -> (lo <= hi)%Q ->
  exists e, min (max x (Fin lo)) (Fin hi) = Fin e /\ (lo <= e <= hi)%Q /\
            (x = NInf -> e = lo) /\ (x = PInf -> e = hi).
Proof.
  intros Hnan Hle.
  assert (Hlo : min (Fin lo) (Fin hi) = Fin lo).
  { cbn [min gtb]. destruct (Qltb hi lo) eqn:E; [|reflexivity].
    apply Qltb_lt in E. lra. }
  destruct x as [q| | |]; [| | |congruence].
  - cbn [max gtb]. destruct (Qltb q lo) eqn:E.
    + exists lo. rewrite Hlo. repeat split; try lra; discriminate.
    + apply Qltb_ge in E. cbn [min gtb]. destruct (Qltb hi q) eqn:E'.
      * exists hi. repeat split; try lra; discriminate.
      * apply Qltb_ge in E'. exists q. repeat split; try lra; discriminate.
  - exists hi. cbn [max min gtb]. repeat split; try lra; discriminate.
  - exists lo. cbn [max gtb]. rewrite Hlo. repeat split; try lra; discriminate.
Qed.

Lemma scale_inf_positive (sign : bool) (a : Q) :
  (0 < a)%Q -> scale_inf sign a = if sign then PInf else NInf.
Proof.
  intros Ha. unfold scale_inf.
  replace (Qeq_bool a 0) with false.
  2:{ symmetry. apply not_true_iff_false. intros E. apply Qeq_bool_iff in E. lra. }
  replace (Qltb 0 a) with true by (symmetry; apply Qltb_lt; exact Ha).
  destruct sign; reflexivity.
Qed.

(** The product that [getCacheExpiration] clamps. *)
Lemma expiration_product (b m k : Q) (d : Z) (strength : number) :
  (0 < b)%Q -> (0 < m)%Q -> (0 <= k)%Q -> 0 <= d -> strength <> NaN ->
  let product :=
    mul (mul (Fin b) (add (of_Z 1) (mul strength (Fin m))))
        (add (of_Z 1) (mul (of_Z d) (Fin k))) in
  product <> NaN /\ (strength = NInf -> product = NInf) /\
  (strength = PInf -> product = PInf).
Proof.
  intros Hb Hm Hk Hd Hnan. cbv zeta.
  assert (Hf : exists f, add (of_Z 1) (mul (of_Z d) (Fin k)) = Fin f /\ (0 < f)%Q).
  { eexists. split; [reflexivity|]. unfold of_Z. rewrite !Qred_correct.
    assert (0 <= inject_Z d)%Q
      by (replace 0%Q with (inject_Z 0) by reflexivity; rewrite <- Zle_Qle; lia).
    assert (0 <= inject_Z d * k)%Q by (apply Qmult_le_0_compat; assumption).
    change (inject_Z 1) with 1%Q. lra. }
  destruct Hf as (f & -> & Hf).
  destruct strength as [q| | |]; [| | |congruence].
  - split; [discriminate|]. split; discriminate.
  - cbn [mul add of_Z]. rewrite (scale_inf_positive true m Hm). cbn [add mul].
    rewrite (scale_inf_positive true b Hb). cbn [mul].
    rewrite (scale_inf_positive true f Hf).
    split; [discriminate|]. split; [discriminate | reflexivity].
  - cbn [mul add of_Z]. rewrite (scale_inf_positive false m Hm). cbn [add mul].
    rewrite (scale_inf_positive false b Hb). cbn [mul].
    rewrite (scale_inf_positive false f Hf).
    split; [discriminate|]. split; [reflexivity | discriminate].
Qed.

(** X6: with a positive base expiration, a positive pattern-strength
    multiplier, a non-negative depth multiplier and finite bounds
    min <= max, the expiration of an analysis whose pattern strength is a
    number (not NaN) is finite and lies between minExpirationMs and
    maxExpirationMs; an analysis whose pattern strength is -Infinity (the
    value of every thought without patterns) gets exactly the minimum. *)
Theorem getCacheExpiration_clamped (config : CacheConfig)
    (analysis : FractalAnalysis) (b m k lo hi : Q) :
  baseExpirationMs config = Fin b -> (0 < b)%Q ->
  patternStrengthMultiplier config = Fin m -> (0 < m)%Q ->
  depthMultiplier config = Fin k -> (0 <= k)%Q ->
  minExpirationMs config = Fin lo -> maxExpirationMs config = Fin hi ->
  (lo <= hi)%Q ->
  0 <= maxDepth analysis ->
  patternStrength (fractalMetrics analysis) <> NaN ->
  exists e,
    getCacheExpiration config analysis = Fin e /\ (lo <= e <= hi)%Q /\
    (patternStrength (fractalMetrics analysis) = NInf -> e = lo) /\
    (patternStrength (fractalMetrics analysis) = PInf -> e = hi).
Proof.
  intros Eb Hb Em Hm Ek Hk Elo Ehi Hle Hd Hnan.
  unfold getCacheExpiration. rewrite Eb, Em, Ek, Elo, Ehi.
  destruct (expiration_product b m k (maxDepth analysis)
              (patternStrength (fractalMetrics analysis)) Hb Hm Hk Hd Hnan)
    as (Hp & Hninf & Hpinf).
  destruct (clamp_finite _ lo hi Hp Hle) as (e & He & Hrange & Hl & Hh).
  exists e. split; [exact He|]. split; [exact Hrange|].
  split; intros E; [apply Hl, Hninf, E | apply Hh, Hpinf, E].
Qed.

Lemma getCacheExpiration_clamped_witness :
  exists e,
    getCacheExpiration defaultConfig Scenario.analysis_of_A = Fin e /\
    (60000 <= e <= 1800000)%Q.
Proof.
  destruct (getCacheExpiration_clamped defaultConfig Scenario.analysis_of_A
              (inject_Z 300000) 2 (3 # 2) (inject_Z 60000) (inject_Z 1800000))
    as (e & He & Hrange & _); try reflexivity; try (vm_compute; congruence).
  exists e. split; [exact He | exact Hrange].
Defined.

Lemma clamp_monotone (x y lo hi : Q) :
  (x <= y)%Q ->
  exists e e',
    min (max (Fin x) (Fin lo)) (Fin hi) = Fin e /\
    min (max (Fin y) (Fin lo)) (Fin hi) = Fin e' /\ (e <= e')%Q.
Proof.
  intros Hxy. cbn [max gtb].
  destruct (Qltb x lo) eqn:Ex, (Qltb y lo) eqn:Ey; cbn [min gtb];
    try apply Qltb_lt in Ex; try apply Qltb_ge in Ex;
    try apply Qltb_lt in Ey; try apply Qltb_ge in Ey.
  - destruct (Qltb hi lo); eexists _, _; repeat split; lra.
  - destruct (Qltb hi lo) eqn:E1, (Qltb hi y) eqn:E2;
      try apply Qltb_lt in E1; try apply Qltb_ge in E1;
      try apply Qltb_lt in E2; try apply Qltb_ge in E2;
      eexists _, _; repeat split; lra.
  - lra.
  - destruct (Qltb hi x) eqn:E1, (Qltb hi y) eqn:E2;
      try apply Qltb_lt in E1; try apply Qltb_ge in E1;
      try apply Qltb_lt in E2; try apply Qltb_ge in E2;
      eexists _, _; repeat split; lra.
Qed.

Lemma expiration_product_monotone (b m k s1 s2 d1 d2 : Q) :
  (0 <= b)%Q -> (0 <= m)%Q -> (0 <= k)%Q ->
  (0 <= s1 <= s2)%Q -> (0 <= d1 <= d2)%Q ->
  (b * (1 + s1 * m) * (1 + d1 * k) <= b * (1 + s2 * m) * (1 + d2 * k))%Q.
Proof.
  intros Hb Hm Hk [Hs1 Hs] [Hd1 Hd].
  assert (H1 : (s1 * m <= s2 * m)%Q) by (apply Qmult_le_compat_r; assumption).
  assert (H2 : (d1 * k <= d2 * k)%Q) by (apply Qmult_le_compat_r; assumption).
  assert (H3 : (0 <= s1 * m)%Q) by (apply Qmult_le_0_compat; assumption).
  assert (H4 : (0 <= d1 * k)%Q) by (apply Qmult_le_0_compat; assumption).
  apply (Qle_trans _ (b * (1 + s2 * m) * (1 + d1 * k))).
  - apply Qmult_le_compat_r; [|lra].
    rewrite !(Qmult_comm b). apply Qmult_le_compat_r; lra.
  - rewrite !(Qmult_comm (b * (1 + s2 * m))).
    apply Qmult_le_compat_r; [lra|].
    apply Qmult_le_0_compat; lra.
Qed.

(** X7: with non-negative base expiration and multipliers and finite bounds,
    the expiration does not decrease when the pattern strength or the
    maximum depth of the analysis grows (strengths finite and not negative):
    stronger patterns and deeper thoughts are cached at least as long. *)
Theorem getCacheExpiration_monotone (config : CacheConfig)
    (a1 a2 : FractalAnalysis) (b m k lo hi s1 s2 : Q) :
  baseExpirationMs config = Fin b -> (0 <= b)%Q ->
  patternStrengthMultiplier config = Fin m -> (0 <= m)%Q ->
  depthMultiplier config = Fin k -> (0 <= k)%Q ->
  minExpirationMs config = Fin lo -> maxExpirationMs config = Fin hi ->
  patternStrength (fractalMetrics a1) = Fin s1 ->
  patternStrength (fractalMetrics a2) = Fin s2 ->
  (0 <= s1 <= s2)%Q -> 0 <= maxDepth a1 <= maxDepth a2 ->
  exists e1 e2,
    getCacheExpiration config a1 = Fin e1 /\
    getCacheExpiration config a2 = Fin e2 /\ (e1 <= e2)%Q.
Proof.
  intros Eb Hb Em Hm Ek Hk Elo Ehi E1 E2 Hs [Hd1 Hd].
  unfold getCacheExpiration. rewrite Eb, Em, Ek, Elo, Ehi, E1, E2.
  cbn [mul add of_Z]. unfold fin.
  apply clamp_monotone. rewrite !Qred_correct.
  change (inject_Z 1) with 1%Q.
  apply expiration_product_monotone; try assumption.
  split; [|rewrite <- Zle_Qle; exact Hd].
  replace 0%Q with (inject_Z 0) by reflexivity. rewrite <- Zle_Qle. exact Hd1.
Qed.

Lemma getCacheExpiration_monotone_witness :
  exists e1 e2,
    getCacheExpiration defaultConfig Scenario.analysis_of_A = Fin e1 /\
    getCacheExpiration defaultConfig Scenario.piped = Fin e2 /\
    (e1 <= e2)%Q.
Proof.
  apply (getCacheExpiration_monotone defaultConfig Scenario.analysis_of_A
           Scenario.piped (inject_Z 300000) 2 (3 # 2)
           (inject_Z 60000) (inject_Z 1800000) (109 # 300) (2 # 5));
    try reflexivity; try (vm_compute; congruence);
    try (vm_compute; split; congruence).
Defined.

(** ** Well-formed caches *)

Lemma dict_keys_set {V : Type} (k : string) (v : V) (d : Dict V) :
  dict_keys (dict_set k v d)
  = if existsb (String.eqb k) (dict_keys d) then dict_keys d
    else (dict_keys d ++ [k])%list.
Proof.
  unfold dict_keys. induction d as [|[k' v'] r IH]; [reflexivity|].
  cbn [dict_set map fst existsb].
  rewrite (String.eqb_sym k k').
  destruct (String.eqb_spec k' k) as [->|Hne]; [reflexivity|].
  cbn [map fst orb]. rewrite IH.
  destruct (existsb (String.eqb k) (map fst r)); reflexivity.
Qed.

Lemma dict_set_NoDup {V : Type} (k : string) (v : V) (d : Dict V) :
  NoDup (dict_keys d) -> NoDup (dict_keys (dict_set k v d)).
Proof.
  intros Hd. rewrite dict_keys_set.
  destruct (existsb (String.eqb k) (dict_keys d)) eqn:E; [exact Hd|].
  apply NoDup_app. split; [exact Hd|]. split.
  - intros x Hx Hin. apply list_elem_of_singleton in Hin. subst x.
    apply not_true_iff_false in E. apply E.
    apply existsb_exists. exists k. split; [|apply String.eqb_refl].
    apply list_elem_of_In. exact Hx.
  - apply NoDup_singleton.
Qed.

Lemma dict_keys_delete {V : Type} (k : string) (d : Dict V) :
  dict_keys (dict_delete k d)
  = List.filter (fun x => negb (String.eqb x k)) (dict_keys d).
Proof.
  unfold dict_keys. induction d as [|[k' v'] r IH]; [reflexivity|].
  cbn [dict_delete map fst List.filter].
  destruct (String.eqb k' k); cbn [negb map fst]; rewrite IH; reflexivity.
Qed.

Lemma filter_NoDup {A : Type} (p : A -> bool) (l : list A) :
  NoDup l -> NoDup (List.filter p l).
Proof.
  induction 1 as [|x r Hx _ IH]; cbn [List.filter]; [constructor|].
  destruct (p x); [|exact IH]. constructor; [|exact IH].
  intros Hin. apply Hx. apply list_elem_of_In in Hin.
  apply List.filter_In in Hin as [Hin _]. apply list_elem_of_In. exact Hin.
Qed.

Lemma dict_delete_NoDup {V : Type} (k : string) (d : Dict V) :
  NoDup (dict_keys d) -> NoDup (dict_keys (dict_delete k d)).
Proof. intros Hd. rewrite dict_keys_delete. apply filter_NoDup, Hd. Qed.

Lemma dict_get_delete_some_eq {V : Type} (k k' : string) (v : V) (d : Dict V) :
  dict_get k' (dict_delete k d) = Some v -> dict_get k' d = Some v.
Proof.
  destruct (String.eqb_spec k k') as [->|Hne].
  - rewrite dict_get_delete_eq. discriminate.
  - rewrite dict_get_delete_ne by exact Hne. trivial.
Qed.

Lemma same_content_refl (e : CachedAnalysis) : same_content e e.
Proof. repeat split. Qed.

Lemma cache_shrinks_refl (s : Server) : cache_shrinks s s.
Proof.
  repeat split; try trivial.
  intros k e' H. exists e'. split; [exact H | apply same_content_refl].
Qed.

Lemma cache_shrinks_trans (s1 s2 s3 : Server) :
  cache_shrinks s1 s2 -> cache_shrinks s2 s3 -> cache_shrinks s1 s3.
Proof.
  intros (T1 & C1 & A1 & G1 & N1 & M1) (T2 & C2 & A2 & G2 & N2 & M2).
  split; [congruence|]. split; [congruence|].
  split; [|split; [|split]].
  - intros k e3 H3. destruct (A2 k e3 H3) as (e2 & H2 & K2 & S2 & F2).
    destruct (A1 k e2 H2) as (e1 & H1 & K1 & S1 & F1).
    exists e1. split; [exact H1|]. repeat split; congruence.
  - intros k g H. apply G1, G2, H.
  - intros H. apply N2, N1, H.
  - intros H. apply M2, M1, H.
Qed.

Lemma getCachedAnalysis_shrinks (id : string) (now : Z) (s : Server) :
  cache_shrinks s (snd (getCachedAnalysis id now s)).
Proof.
  unfold getCachedAnalysis.
  destruct (dict_get id (analysisCache s)) as [c|] eqn:E.
  2:{ destruct (inherited id); apply (cache_shrinks_refl s). }
  destruct (gtb _ _); cbn [snd].
  - split; [reflexivity|]. split; [reflexivity|].
    split; [|split; [|split]]; cbn [analysisCache aggregateCache count_miss
      with_stats with_analysisCache]; try trivial.
    + intros k e' H. exists e'. split; [|apply same_content_refl].
      exact (dict_get_delete_some_eq _ _ _ _ H).
    + apply dict_delete_NoDup.
  - split; [reflexivity|]. split; [reflexivity|].
    split; [|split; [|split]]; cbn [analysisCache aggregateCache count_hit
      with_stats with_analysisCache]; try trivial.
    + intros k e' H. destruct (String.eqb_spec id k) as [<-|Hne].
      * rewrite dict_get_set_eq in H. injection H as <-.
        exists c. split; [exact E|]. repeat split.
      * rewrite dict_get_set_ne in H by exact Hne.
        exists e'. split; [exact H | apply same_content_refl].
    + apply dict_set_NoDup.
Qed.

Lemma analyzeNodeIncremental_shrinks (node : FractalThought)
    (previous : option FractalAnalysis) (now : Z) (s : Server) :
  cache_shrinks s (snd (analyzeNodeIncremental node previous now s)).
Proof.
  apply analyzeNodeIncremental_keeps.
  - apply cache_shrinks_refl.
  - apply cache_shrinks_trans.
  - intros id s0. apply getCachedAnalysis_shrinks.
Qed.

Lemma evict_batch_shrinks (batch : list EvictionEntry) (s : Server) :
  cache_shrinks s (fold_left evict_entry batch s).
Proof.
  revert s. induction batch as [|e r IH]; intros s; cbn [fold_left].
  - apply cache_shrinks_refl.
  - eapply cache_shrinks_trans; [|apply IH].
    unfold evict_entry. destruct (isAnalysis e);
      (split; [reflexivity|]; split; [reflexivity|];
       split; [|split; [|split]]);
      cbn [analysisCache aggregateCache count_eviction with_stats
           with_analysisCache with_aggregateCache]; try trivial.
    + intros k e' H. exists e'. split; [|apply same_content_refl].
      exact (dict_get_delete_some_eq _ _ _ _ H).
    + apply dict_delete_NoDup.
    + intros k e' H. exists e'. split; [exact H | apply same_content_refl].
    + intros k g H. exact (dict_get_delete_some_eq _ _ _ _ H).
    + apply dict_delete_NoDup.
Qed.

Lemma refresh_totalSize_shrinks (s : Server) : cache_shrinks s (refresh_totalSize s).
Proof.
  repeat split; try trivial.
  intros k e' H. exists e'. split; [exact H | apply same_content_refl].
Qed.

Lemma manageCacheSize_shrinks (s : Server) : cache_shrinks s (manageCacheSize s).
Proof.
  unfold manageCacheSize. destruct (_ <? _); [|apply cache_shrinks_refl].
  unfold evictLeastUsedEntries.
  eapply cache_shrinks_trans; [apply evict_batch_shrinks|].
  apply refresh_totalSize_shrinks.
Qed.

Lemma markAnalyzed_shrinks (id : string) (now : Z) (s : Server) :
  cache_shrinks s (markAnalyzed id now s).
Proof.
  destruct (markAnalyzed_rest id now s) as (T & C & A & G & _).
  unfold cache_shrinks. rewrite T, C, A, G.
  repeat split; try trivial.
  intros k e' H. exists e'. split; [exact H | apply same_content_refl].
Qed.

Lemma trackThoughtChange_shrinks (id : string) (include : bool) (now : Z)
    (s : Server) :
  cache_shrinks s (trackThoughtChange id include now s).
Proof.
  destruct (trackThoughtChange_rest id include now s) as (T & A & G & _ & C).
  unfold cache_shrinks. rewrite T, C, A, G.
  repeat split; try trivial.
  intros k e' H. exists e'. split; [exact H | apply same_content_refl].
Qed.

Lemma getCachedSummary_shrinks (id : string) (now : Z) (s : Server) :
  cache_shrinks s (snd (getCachedSummary id now s)).
Proof.
  unfold getCachedSummary.
  destruct (dict_get id (analysisCache s)) as [c|]; [|apply cache_shrinks_refl].
  destruct (_ <? _); [|apply cache_shrinks_refl]. cbn [snd].
  split; [reflexivity|]. split; [reflexivity|].
  split; [|split; [|split]]; cbn [analysisCache aggregateCache
    with_analysisCache]; try trivial.
  - intros k e' H. exists e'. split; [|apply same_content_refl].
    exact (dict_get_delete_some_eq _ _ _ _ H).
  - apply dict_delete_NoDup.
Qed.

Lemma entry_ok_content (k : string) (e e' : CachedAnalysis) :
  same_content e e' -> entry_ok k e -> entry_ok k e'.
Proof.
  intros (K & S & F) (Hk & Hs & Ha). unfold entry_ok. rewrite K, S, F.
  repeat split; assumption.
Qed.

Lemma state_ok_shrinks (s s' : Server) :
  cache_shrinks s s' -> state_ok s -> state_ok s'.
Proof.
  intros (T & C & A & G & N & M) (Hc & Hk & Hg & Hn & Hm).
  split; [|split; [|split; [|split]]].
  - intros k e' H. destruct (A k e' H) as (e & He & Hsame).
    exact (entry_ok_content k e e' Hsame (Hc k e He)).
  - intros k [e' H]. rewrite T. apply Hk.
    destruct (A k e' H) as (e & He & _). exists e. exact He.
  - intros k [g H]. rewrite T. apply Hg. exists g. apply G, H.
  - apply N, Hn.
  - apply M, Hm.
Qed.

Lemma cache_ok_shrinks (s s' : Server) :
  cache_shrinks s s' -> cache_ok s -> cache_ok s'.
Proof.
  intros (_ & _ & A & _) Hc k e' H. destruct (A k e' H) as (e & He & Hsame).
  exact (entry_ok_content k e e' Hsame (Hc k e He)).
Qed.

Lemma getCachedAnalysis_entry (id : string) (now : Z) (s : Server)
    (a : FractalAnalysis) :
  fst (getCachedAnalysis id now s) = Ok (Some a) ->
  exists e, dict_get id (analysisCache s) = Some e /\ fullAnalysis e = a /\
            stale_analysis (cacheConfig s) now e = false /\
            exists e', dict_get id (analysisCache (snd (getCachedAnalysis id now s)))
                       = Some e' /\
                       same_content e e' /\ timestamp e' = now /\
                       accessCount e' = accessCount e + 1.
Proof.
  unfold getCachedAnalysis, stale_analysis.
  destruct (dict_get id (analysisCache s)) as [c|] eqn:E;
    [|destruct (inherited id); discriminate].
  destruct (gtb _ _) eqn:Hstale; [discriminate|].
  cbn [fst snd]. intros H. injection H as <-.
  exists c. split; [reflexivity|]. split; [reflexivity|]. split; [exact Hstale|].
  eexists. cbn [analysisCache count_hit with_stats with_analysisCache].
  split; [apply dict_get_set_eq|]. repeat split.
Qed.

Lemma getCachedAnalysis_analysis_ok (id : string) (now : Z) (s : Server)
    (a : FractalAnalysis) :
  cache_ok s -> fst (getCachedAnalysis id now s) = Ok (Some a) -> analysis_ok a.
Proof.
  intros Hc H. apply getCachedAnalysis_entry in H as (e & He & <- & _).
  apply (Hc id e He).
Qed.

Lemma counts_in_range_own (node : FractalThought) : counts_in_range (ownCounts node).
Proof.
  unfold counts_in_range, ownCounts. cbn. destruct (isComplete node); lia.
Qed.

Lemma counts_in_range_add (acc sub : NodeCounts) :
  counts_in_range acc -> counts_in_range sub -> counts_in_range (addCounts acc sub).
Proof. unfold counts_in_range, addCounts. cbn. lia. Qed.

(** The counts of the incremental pass are in range and leave the attention
    flag unset, whatever the pass reuses from a well-formed cache. *)
Lemma analyzeNodeIncremental_counts (now : Z) (node : FractalThought) :
  forall previous s counts,
    cache_ok s ->
    (forall a, previous = Some a -> analysis_ok a) ->
    fst (analyzeNodeIncremental node previous now s) = Ok counts ->
    counts_in_range counts /\ hasUnresolvedWithDeeperAnalysis counts = false.
Proof.
  induction node as [node IH] using FractalThought_ind.
  intros previous s counts Hc Hprev.
  rewrite analyzeNodeIncremental_unfold. cbv zeta.
  set (loop := fold_left _ _ _).
  assert (Hloop : (forall c, fst loop = Ok c ->
                     counts_in_range c /\
                     hasUnresolvedWithDeeperAnalysis c = false) /\
                  cache_ok (snd loop)).
  { subst loop.
    apply (fold_left_invariant
             (fun acc : Result NodeCounts * Server =>
                (forall c, fst acc = Ok c ->
                   counts_in_range c /\
                   hasUnresolvedWithDeeperAnalysis c = false) /\
                cache_ok (snd acc))).
    2:{ split; [|exact Hc]. cbn [fst]. intros c E. injection E as <-.
        split; [apply counts_in_range_own | reflexivity]. }
    eapply Forall_impl; [exact IH|].
    intros sub Hsub [[acc|] s0] [Hacc Hc0]; cbn [fst snd] in *;
      [|split; [exact Hacc | exact Hc0]].
    destruct (Hacc acc eq_refl) as [Hr Hf].
    pose proof (getCachedAnalysis_shrinks (thoughtId sub) now s0) as Hsh.
    pose proof (getCachedAnalysis_analysis_ok (thoughtId sub) now s0) as Hres.
    destruct (getCachedAnalysis (thoughtId sub) now s0) as [[cached|] s1];
      cbn [fst snd] in *.
    2:{ split; [discriminate | exact (cache_ok_shrinks _ _ Hsh Hc0)]. }
    assert (Hc1 : cache_ok s1) by exact (cache_ok_shrinks _ _ Hsh Hc0).
    assert (Hcached : forall a, cached = Some a -> analysis_ok a).
    { intros a ->. apply Hres; [exact Hc0 | reflexivity]. }
    pose proof (fun c => Hsub cached s1 c Hc1 Hcached) as Hcounts.
    pose proof (analyzeNodeIncremental_shrinks sub cached now s1) as Hsh'.
    destruct (analyzeNodeIncremental sub cached now s1) as [[sa|] s2];
      cbn [fst snd] in *.
    2:{ split; [discriminate | exact (cache_ok_shrinks _ _ Hsh' Hc1)]. }
    destruct (Hcounts sa eq_refl) as [Hr' Hf'].
    split; [|exact (cache_ok_shrinks _ _ Hsh' Hc1)].
    intros c E. injection E as <-. split.
    - apply counts_in_range_add; assumption.
    - cbn [addCounts hasUnresolvedWithDeeperAnalysis]. rewrite Hf, Hf'. reflexivity. }
  destruct previous as [p|]; [|exact (proj1 Hloop counts)].
  destruct (negb (hasNodeChanged node s)); [|exact (proj1 Hloop counts)].
  destruct (Hprev p eq_refl) as (t & c & -> & Hr & Hf).
  cbn [fst]. intros E. injection E as <-. split; [exact Hr | exact Hf].
Qed.

Lemma cacheAnalysis_state_ok (id : string) (analysis : FractalAnalysis)
    (now : Z) (s : Server) :
  state_ok s -> analysis_ok analysis ->
  is_Some (findThought id (thoughtTree s)) ->
  state_ok (cacheAnalysis id analysis now s).
Proof.
  intros Hs Ha Hfind.
  pose proof (manageCacheSize_shrinks s) as Hsh.
  pose proof (state_ok_shrinks _ _ Hsh Hs) as (Hc & Hk & Hg & Hn & Hm).
  destruct Hsh as (T & _).
  unfold cacheAnalysis, state_ok, cache_ok, cache_keys_resolve, aggregates_resolve.
  split; [|split; [|split; [|split]]];
    cbn [analysisCache aggregateCache thoughtTree refresh_totalSize with_stats
         with_analysisCache].
  - intros k e H. destruct (String.eqb_spec id k) as [<-|Hne].
    + rewrite dict_get_set_eq in H. injection H as <-.
      repeat split. exact Ha.
    + rewrite dict_get_set_ne in H by exact Hne. exact (Hc k e H).
  - intros k H.
    destruct (String.eqb_spec id k) as [<-|Hne].
    + rewrite T. exact Hfind.
    + rewrite dict_get_set_ne in H by exact Hne. apply Hk, H.
  - exact Hg.
  - apply dict_set_NoDup, Hn.
  - exact Hm.
Qed.

Lemma cacheAnalysis_rest (id : string) (analysis : FractalAnalysis) (now : Z)
    (s : Server) :
  thoughtTree (cacheAnalysis id analysis now s) = thoughtTree s /\
  cacheConfig (cacheAnalysis id analysis now s) = cacheConfig s.
Proof.
  destruct (cacheAnalysis_store id analysis now s) as (T & C & _).
  split; assumption.
Qed.

Lemma analyzeDepth_recompute_ok (id : string)
    (cached : Result (option FractalAnalysis)) (now : Z) (s : Server) :
  state_ok s -> (forall a, cached = Ok (Some a) -> analysis_ok a) ->
  state_ok (snd (analyzeDepth_recompute id cached now s)) /\
  outcome_ok (findThought id (thoughtTree s))
    (fst (analyzeDepth_recompute id cached now s)).
Proof.
  intros Hs Hcached. unfold analyzeDepth_recompute.
  destruct cached as [previous|]; [|split; [exact Hs | exact I]].
  destruct (findThought id (thoughtTree s)) as [node|] eqn:Hfind.
  2:{ cbn [fst snd]. split; [exact Hs | reflexivity]. }
  pose proof (analyzeNodeIncremental_shrinks node previous now s) as Hsh1.
  assert (Hprevious : forall a, previous = Some a -> analysis_ok a)
    by (intros a ->; by apply Hcached).
  pose proof (fun c => analyzeNodeIncremental_counts now node previous s c
                         (proj1 Hs) Hprevious) as Hcounts.
  destruct (analyzeNodeIncremental node previous now s) as [[counts|] s1];
    cbn [fst snd] in *.
  2:{ split; [exact (state_ok_shrinks _ _ Hsh1 Hs) | exact I]. }
  destruct (Hcounts counts eq_refl) as [Hrange Hflag].
  pose proof (state_ok_shrinks _ _ Hsh1 Hs) as Hs1.
  pose proof (markAnalyzed_shrinks id now s1) as Hsh2.
  pose proof (state_ok_shrinks _ _ Hsh2 Hs1) as Hs2.
  assert (Ha : analysis_ok (assembleAnalysis node counts)).
  { exists node, counts. repeat split; try assumption; apply Hrange. }
  assert (Hfind2 : is_Some (findThought id (thoughtTree (markAnalyzed id now s1)))).
  { destruct Hsh2 as (-> & _). destruct Hsh1 as (-> & _). rewrite Hfind. eauto. }
  pose proof (cacheAnalysis_state_ok id _ now _ Hs2 Ha Hfind2) as Hs3.
  set (s3 := cacheAnalysis _ _ _ _) in *.
  pose proof (getCachedAnalysis_shrinks id now s3) as Hsh4.
  pose proof (getCachedAnalysis_analysis_ok id now s3) as Hres.
  destruct (getCachedAnalysis id now s3) as [[[result|]|] s4];
    cbn [fst snd] in *.
  - split; [exact (state_ok_shrinks _ _ Hsh4 Hs3)|].
    apply Hres; [apply Hs3 | reflexivity].
  - split; [exact (state_ok_shrinks _ _ Hsh4 Hs3) | exists node; reflexivity].
  - split; [exact (state_ok_shrinks _ _ Hsh4 Hs3) | exact I].
Qed.

(** In a well-formed state [analyzeDepth] keeps the state well formed; what
    it returns for a thought of the tree is an analysis assembled from
    counts in range, and for an unknown id the default. *)
Lemma analyzeDepth_ok (id : string) (now : Z) (s : Server) :
  state_ok s ->
  state_ok (snd (analyzeDepth id now s)) /\
  outcome_ok (findThought id (thoughtTree s)) (fst (analyzeDepth id now s)).
Proof.
  intros Hs. unfold analyzeDepth.
  pose proof (getCachedAnalysis_shrinks id now s) as Hsh.
  pose proof (getCachedAnalysis_analysis_ok id now s) as Hres.
  pose proof (getCachedAnalysis_entry id now s) as Hentry.
  destruct (getCachedAnalysis id now s) as [[[result|]|] s1];
    cbn [fst snd] in *.
  - pose proof (state_ok_shrinks _ _ Hsh Hs) as Hs1.
    assert (Ha : analysis_ok result) by (apply Hres; [apply Hs | reflexivity]).
    assert (T : thoughtTree s1 = thoughtTree s) by apply Hsh. rewrite <- T.
    destruct (findThought id (thoughtTree s1)) as [node|] eqn:Hfind.
    + destruct (negb (hasNodeChanged node s1)).
      * cbn [fst snd]. split; [exact Hs1 | exact Ha].
      * destruct (analyzeDepth_recompute_ok id (Ok (Some result)) now s1 Hs1)
          as (H1 & H2); [intros a E; injection E as <-; exact Ha|].
        rewrite Hfind in H2. split; [exact H1 | exact H2].
    + split; [exact Hs1 | exact I].
  - pose proof (state_ok_shrinks _ _ Hsh Hs) as Hs1.
    assert (T : thoughtTree s1 = thoughtTree s) by apply Hsh. rewrite <- T.
    exact (analyzeDepth_recompute_ok id (Ok None) now s1 Hs1
             ltac:(discriminate)).
  - pose proof (state_ok_shrinks _ _ Hsh Hs) as Hs1.
    assert (T : thoughtTree s1 = thoughtTree s) by apply Hsh. rewrite <- T.
    exact (analyzeDepth_recompute_ok id Throws now s1 Hs1
             ltac:(discriminate)).
Qed.

(** In a well-formed state [analyzeDepth] does not throw when neither the id
    nor an id in the subtree that it names is that of an inherited member. *)
Lemma analyzeDepth_no_throw (id : string) (now : Z) (s : Server) :
  cache_keys_resolve s ->
  inherited id = false ->
  (forall node, findThought id (thoughtTree s) = Some node ->
                plain_ids (flatten node)) ->
  fst (analyzeDepth id now s) <> Threw.
Proof.
  intros Hk Hid Hplain. unfold analyzeDepth.
  pose proof (getCachedAnalysis_shrinks id now s) as (T & _).
  pose proof (getCachedAnalysis_entry id now s) as Hentry.
  destruct (getCachedAnalysis_returns id now s (or_introl Hid)) as [cached Hread].
  destruct (getCachedAnalysis id now s) as [read s1]. cbn [fst snd] in *.
  subst read.
  assert (Hrecompute :
            fst (analyzeDepth_recompute id (Ok cached) now s1) <> Threw).
  { unfold analyzeDepth_recompute. rewrite T.
    destruct (findThought id (thoughtTree s)) as [node|] eqn:Hfind;
      [|discriminate].
    destruct (analyzeNodeIncremental_returns node now (Hplain node eq_refl)
                cached s1) as [counts Hcounts].
    destruct (analyzeNodeIncremental node cached now s1) as [result s2].
    cbn [fst] in Hcounts. subst result. cbv zeta.
    set (s3 := cacheAnalysis _ _ _ _).
    destruct (getCachedAnalysis_returns id now s3 (or_introl Hid)) as [c Hc].
    destruct (getCachedAnalysis id now s3) as [read s4]. cbn [fst] in Hc.
    subst read. destruct c; discriminate. }
  destruct cached as [result|]; [|exact Hrecompute].
  destruct (Hentry result eq_refl) as (e & He & _).
  destruct (Hk id) as [node Hnode]; [exists e; exact He|].
  rewrite T, Hnode.
  destruct (negb (hasNodeChanged node s1)); [discriminate | exact Hrecompute].
Qed.

(** ** Reading and sweeping the cache *)

Lemma state_ok_empty (s : Server) :
  analysisCache s = [] -> aggregateCache s = [] -> state_ok s.
Proof.
  intros Ha Hg. unfold state_ok, cache_ok, cache_keys_resolve, aggregates_resolve.
  rewrite Ha, Hg.
  split; [intros k e H; discriminate|].
  split; [intros k [x Hx]; discriminate|].
  split; [intros k [x Hx]; discriminate|].
  split; constructor.
Qed.

Lemma analyzeDepth_recompute_returns (id : string)
    (cached : option FractalAnalysis) (now : Z) (s : Server) :
  sane_expiration (cacheConfig s) = true ->
  (forall node, findThought id (thoughtTree s) = Some node ->
                plain_ids (flatten node)) ->
  exists a s', analyzeDepth_recompute id (Ok cached) now s = (Returned a, s').
Proof.
  intros Hsane Hplain. unfold analyzeDepth_recompute.
  destruct (findThought id (thoughtTree s)) as [node|]; [|eauto].
  pose proof (analyzeNodeIncremental_shrinks node cached now s) as (_ & C1 & _).
  destruct (analyzeNodeIncremental_returns node now (Hplain node eq_refl)
              cached s) as [counts Hcounts].
  destruct (analyzeNodeIncremental node cached now s) as [result s1].
  cbn [fst] in Hcounts. subst result. cbn [snd] in C1. cbv zeta.
  destruct (cacheAnalysis_then_read id (assembleAnalysis node counts) now
              (markAnalyzed id now s1)) as (s4 & ->); [|eauto].
  destruct (markAnalyzed_rest id now s1) as (_ & -> & _). rewrite C1. exact Hsane.
Qed.

(** In a state whose cached analyses belong to thoughts of the tree and with
    non-negative expiration bounds, [analyzeDepth] returns an analysis when
    neither the id nor an id in the subtree that it names is that of an
    inherited member. *)
Lemma analyzeDepth_returns (id : string) (now : Z) (s : Server) :
  cache_keys_resolve s -> sane_expiration (cacheConfig s) = true ->
  inherited id = false ->
  (forall node, findThought id (thoughtTree s) = Some node ->
                plain_ids (flatten node)) ->
  exists a s', analyzeDepth id now s = (Returned a, s').
Proof.
  intros Hk Hsane Hid Hplain. unfold analyzeDepth.
  pose proof (getCachedAnalysis_shrinks id now s) as (T & C & _).
  pose proof (getCachedAnalysis_entry id now s) as Hentry.
  destruct (getCachedAnalysis_returns id now s (or_introl Hid)) as [cached Hread].
  destruct (getCachedAnalysis id now s) as [read s1]; cbn [fst snd] in *.
  subst read.
  assert (Hrecompute :
            exists a s', analyzeDepth_recompute id (Ok cached) now s1
                         = (Returned a, s')).
  { apply analyzeDepth_recompute_returns; rewrite ?C, ?T; assumption. }
  destruct cached as [result|]; [|exact Hrecompute].
  destruct (Hentry result eq_refl) as (e & He & _).
  destruct (Hk id) as [node Hnode]; [exists e; exact He|].
  rewrite T, Hnode.
  destruct (negb (hasNodeChanged node s1)); [eauto | exact Hrecompute].
Qed.

Lemma analyzeDepth_recompute_entry (id : string) (node : FractalThought)
    (cached : Result (option FractalAnalysis)) (now : Z) (s s' : Server)
    (a : FractalAnalysis) :
  findThought id (thoughtTree s) = Some node ->
  analyzeDepth_recompute id cached now s = (Returned a, s') ->
  exists e, dict_get id (analysisCache s') = Some e /\ fullAnalysis e = a /\
            timestamp e = now.
Proof.
  intros Hfind. unfold analyzeDepth_recompute.
  destruct cached as [previous|]; [|discriminate]. rewrite Hfind.
  destruct (analyzeNodeIncremental node previous now s) as [[counts|] s1];
    [|discriminate].
  cbv zeta. set (s3 := cacheAnalysis _ _ _ _).
  pose proof (getCachedAnalysis_entry id now s3) as Hentry.
  destruct (getCachedAnalysis id now s3) as [[[result|]|] s4];
    [|discriminate|discriminate].
  cbn [fst snd] in Hentry. intros H. injection H as <- <-.
  destruct (Hentry result eq_refl)
    as (e & _ & F & _ & e' & He' & (_ & _ & F') & Ht & _).
  exists e'. split; [exact He'|]. split; [congruence | exact Ht].
Qed.

(** After [analyzeDepth] has returned the analysis of a thought of the tree,
    the cache holds that analysis under the id, stamped with the time of the
    call. *)
Lemma analyzeDepth_entry (id : string) (node : FractalThought) (now : Z)
    (s s' : Server) (a : FractalAnalysis) :
  findThought id (thoughtTree s) = Some node ->
  analyzeDepth id now s = (Returned a, s') ->
  exists e, dict_get id (analysisCache s') = Some e /\ fullAnalysis e = a /\
            timestamp e = now.
Proof.
  intros Hfind. unfold analyzeDepth.
  pose proof (getCachedAnalysis_shrinks id now s) as (T & _).
  pose proof (getCachedAnalysis_entry id now s) as Hentry.
  destruct (getCachedAnalysis id now s) as [[[result|]|] s1];
    cbn [fst snd] in *.
  - rewrite T, Hfind.
    destruct (negb (hasNodeChanged node s1)).
    + intros H. injection H as <- <-.
      destruct (Hentry result eq_refl)
        as (e & _ & F & _ & e' & He' & (_ & _ & F') & Ht & _).
      exists e'. split; [exact He'|]. split; [congruence | exact Ht].
    + apply (analyzeDepth_recompute_entry id node). rewrite T. exact Hfind.
  - apply (analyzeDepth_recompute_entry id node). rewrite T. exact Hfind.
  - apply (analyzeDepth_recompute_entry id node). rewrite T. exact Hfind.
Qed.

(** X8: the summary cache agrees with the analysis cache.  After
    [analyzeDepth] has returned the analysis of a thought of the tree,
    [getCachedSummary] returns the compact summary of that analysis for the
    next 30 minutes (whatever the configured expiration), and this read
    leaves the state as it is: it counts no hit and does not renew the
    entry. *)
Theorem getCachedSummary_after_analysis (id : string) (node : FractalThought)
    (now now' : Z) (s s' : Server) (a : FractalAnalysis) :
  state_ok s ->
  findThought id (thoughtTree s) = Some node ->
  analyzeDepth id now s = (Returned a, s') ->
  now' - now <= summaryLifeMs ->
  getCachedSummary id now' s'
  = (Some (AnalysisSummarizer.summarizeAnalysis (Some a)), s').
Proof.
  intros Hs Hfind Hcall Hage.
  destruct (analyzeDepth_entry id node now s s' a Hfind Hcall)
    as (e & He & F & Ht).
  pose proof (analyzeDepth_ok id now s Hs) as (Hs' & _).
  rewrite Hcall in Hs'. cbn [snd] in Hs'.
  destruct (proj1 Hs' id e He) as (_ & Hsum & _).
  unfold getCachedSummary. rewrite He, Ht.
  replace (summaryLifeMs <? now' - now) with false by (symmetry; apply Z.ltb_ge; lia).
  rewrite Hsum, F. reflexivity.
Qed.

Lemma getCachedSummary_after_analysis_witness :
  getCachedSummary "A" (1000 + summaryLifeMs)
    (snd (analyzeDepth "A" 1000 Scenario.family))
  = (Some "D2|C33%|P[expansion->completion(1), expansion(1)]|E[]|S36%",
     snd (analyzeDepth "A" 1000 Scenario.family)).
Proof.
  apply (getCachedSummary_after_analysis "A" Scenario.A 1000
           (1000 + summaryLifeMs) Scenario.family _ Scenario.analysis_of_A).
  - apply state_ok_empty; reflexivity.
  - reflexivity.
  - vm_compute. reflexivity.
  - lia.
Defined.

(** X9: a hit renews the entry.  The age of a cached analysis is measured
    from its last hit, not from the time it was computed: after a hit at
    [now1], a read at [now2] is again a hit whenever [now2 - now1] does not
    exceed the expiration of the analysis, however old the analysis is; each
    hit adds one to the access count of the entry and to the hit counter and
    leaves the miss counter alone. *)
Theorem cache_hit_renews_entry (id : string) (now1 now2 : Z) (s : Server)
    (entry : CachedAnalysis) :
  dict_get id (analysisCache s) = Some entry ->
  stale_analysis (cacheConfig s) now1 entry = false ->
  gtb (of_Z (now2 - now1))
      (getCacheExpiration (cacheConfig s) (fullAnalysis entry)) = false ->
  let first := getCachedAnalysis id now1 s in
  let second := getCachedAnalysis id now2 (snd first) in
  fst first = Ok (Some (fullAnalysis entry)) /\
  fst second = Ok (Some (fullAnalysis entry)) /\
  dict_get id (analysisCache (snd second))
  = Some {| timestamp := now2;
            cached_summary := cached_summary entry;
            key := key entry;
            fullAnalysis := fullAnalysis entry;
            accessCount := accessCount entry + 1 + 1 |} /\
  hits (cacheStats (snd second)) = hits (cacheStats s) + 2 /\
  misses (cacheStats (snd second)) = misses (cacheStats s).
Proof.
  intros Hget Hfresh1 Hfresh2. cbv zeta.
  rewrite (getCachedAnalysis_present id now1 s entry Hget Hfresh1).
  cbn [fst snd].
  set (entry1 := {| timestamp := now1; cached_summary := cached_summary entry;
                    key := key entry; fullAnalysis := fullAnalysis entry;
                    accessCount := accessCount entry + 1 |}).
  set (s1 := count_hit _).
  assert (Hget1 : dict_get id (analysisCache s1) = Some entry1)
    by apply dict_get_set_eq.
  rewrite (getCachedAnalysis_present id now2 s1 entry1 Hget1 Hfresh2).
  cbn [fst snd analysisCache count_hit with_stats with_analysisCache cacheStats
       hits misses].
  split; [reflexivity|]. split; [reflexivity|].
  split; [apply dict_get_set_eq|]. split; [|reflexivity].
  subst s1. cbn [cacheStats count_hit with_stats with_analysisCache hits]. lia.
Qed.

Lemma cache_hit_renews_entry_witness :
  fst (getCachedAnalysis "b" 350000
         (snd (getCachedAnalysis "b" 60000 Scenario.crowded)))
  = Ok (Some notFoundAnalysis).
Proof.
  destruct (cache_hit_renews_entry "b" 60000 350000 Scenario.crowded
              (snd (Scenario.entry_at "b" 10)) eq_refl eq_refl eq_refl)
    as (_ & H & _).
  exact H.
Defined.

(** ** Sweeping stale entries *)

Lemma sweep_spec {V : Type} (stale : V -> bool) (entries : Dict V) :
  forall (d : Dict V) (n : Z),
    sweep stale entries (d, n)
    = (List.filter
         (fun kv =>
            negb (existsb (fun e => stale (snd e) && String.eqb (fst e) (fst kv))
                    entries))
         d,
       n + Zlength' (List.filter (fun e => stale (snd e)) entries)).
Proof.
  unfold sweep.
  induction entries as [|x r IH]; intros d n; cbn [fold_left existsb List.filter].
  - rewrite filter_all by reflexivity. unfold Zlength'. cbn [length].
    rewrite Z.add_0_r. reflexivity.
  - destruct (stale (snd x)) eqn:Hx; cbn [fst snd].
    + rewrite IH, dict_delete_filter, filter_twice. apply (f_equal2 pair).
      * apply List.filter_ext. intros kv.
        rewrite (String.eqb_sym (fst x) (fst kv)).
        cbn [andb]. rewrite negb_orb. reflexivity.
      * unfold Zlength'. cbn [length]. lia.
    + rewrite IH. apply (f_equal2 pair); [|reflexivity].
      apply List.filter_ext. intros kv. reflexivity.
Qed.

Lemma NoDup_keys_same_entry {V : Type} (d : Dict V) (k : string) (v v' : V) :
  NoDup (dict_keys d) -> In (k, v) d -> In (k, v') d -> v = v'.
Proof.
  unfold dict_keys. induction d as [|[k0 v0] r IH]; [intros _ []|].
  cbn [map fst]. intros Hnd H1 H2. apply NoDup_cons in Hnd as [Hk Hr].
  assert (Hnot : forall w, In (k0, w) r -> False).
  { intros w Hw. apply Hk, list_elem_of_In, in_map_iff.
    exists (k0, w). split; [reflexivity | exact Hw]. }
  destruct H1 as [E1|H1], H2 as [E2|H2].
  - congruence.
  - injection E1 as -> ->. exfalso. exact (Hnot _ H2).
  - injection E2 as -> ->. exfalso. exact (Hnot _ H1).
  - exact (IH Hr H1 H2).
Qed.

Lemma dict_get_In {V : Type} (d : Dict V) (k : string) (v : V) :
  dict_get k d = Some v -> In (k, v) d.
Proof.
  induction d as [|[k0 v0] r IH]; [discriminate|]. cbn [dict_get].
  destruct (String.eqb_spec k0 k) as [->|Hne].
  - intros H. injection H as ->. left. reflexivity.
  - intros H. right. exact (IH H).
Qed.

Lemma In_dict_get {V : Type} (d : Dict V) (k : string) (v : V) :
  NoDup (dict_keys d) -> In (k, v) d -> dict_get k d = Some v.
Proof.
  intros Hnd Hin. destruct (dict_get k d) as [v'|] eqn:E.
  - f_equal. exact (NoDup_keys_same_entry d k v' v Hnd (dict_get_In d k v' E) Hin).
  - exfalso. revert E. clear Hnd. induction d as [|[k0 v0] r IH]; [destruct Hin|].
    cbn [dict_get]. destruct Hin as [E|Hin].
    + injection E as -> ->. rewrite String.eqb_refl. discriminate.
    + destruct (String.eqb k0 k); [discriminate | exact (IH Hin)].
Qed.

(** With one binding per key, the entries that a sweep keeps are those that
    are not stale themselves. *)
Lemma sweep_own {V : Type} (stale : V -> bool) (d : Dict V) (n : Z) :
  NoDup (dict_keys d) ->
  sweep stale d (d, n)
  = (List.filter (fun kv => negb (stale (snd kv))) d,
     n + Zlength' (List.filter (fun e => stale (snd e)) d)).
Proof.
  intros Hnd. rewrite sweep_spec. apply (f_equal2 pair); [|reflexivity].
  apply List.filter_ext_in. intros [k v] Hin. f_equal. cbn [fst snd].
  destruct (stale v) eqn:Hv.
  - apply existsb_exists. exists (k, v). cbn [fst snd].
    rewrite Hv, String.eqb_refl. split; [exact Hin | reflexivity].
  - apply not_true_iff_false. intros H.
    apply existsb_exists in H as ([k' v'] & Hin' & H). cbn [fst snd] in H.
    apply andb_true_iff in H as [Hs Hk]. apply String.eqb_eq in Hk. subst k'.
    rewrite (NoDup_keys_same_entry d k v' v Hnd Hin' Hin) in Hs. congruence.
Qed.

Lemma filter_split_length {A : Type} (p : A -> bool) (l : list A) :
  Zlength' l
  = Zlength' (List.filter (fun x => negb (p x)) l) + Zlength' (List.filter p l).
Proof.
  unfold Zlength'. induction l as [|x r IH]; [reflexivity|].
  cbn [List.filter length]. destruct (p x); cbn [negb length]; lia.
Qed.

Lemma server_eta (s : Server) :
  mkServer (thoughtTree s) (cacheConfig s) (cacheStats s) (analysisCache s)
    (aggregateCache s) (changeTracker s) = s.
Proof. destruct s. reflexivity. Qed.

Lemma filter_filter_same {A : Type} (p : A -> bool) (l : list A) :
  List.filter p (List.filter p l) = List.filter p l.
Proof.
  rewrite filter_twice. apply List.filter_ext. intros x. destruct (p x); reflexivity.
Qed.

Lemma filter_keeps_none {A : Type} (p : A -> bool) (l : list A) :
  List.filter p (List.filter (fun x => negb (p x)) l) = [].
Proof.
  rewrite filter_twice. apply filter_none. intros x _. destruct (p x); reflexivity.
Qed.

Lemma dict_keys_filter_NoDup {V : Type} (p : string * V -> bool) (d : Dict V) :
  NoDup (dict_keys d) -> NoDup (dict_keys (List.filter p d)).
Proof.
  unfold dict_keys. induction d as [|[k v] r IH]; [trivial|].
  cbn [map fst List.filter]. intros Hnd. apply NoDup_cons in Hnd as [Hk Hr].
  destruct (p (k, v)); [|exact (IH Hr)].
  cbn [map fst]. apply NoDup_cons. split; [|exact (IH Hr)].
  intros Hin. apply Hk. apply list_elem_of_In in Hin. apply list_elem_of_In.
  apply in_map_iff in Hin as (x & Hx & Hin).
  apply List.filter_In in Hin as [Hin _].
  apply in_map_iff. exists x. split; assumption.
Qed.

Lemma evictStaleEntries_caches (now : Z) (s : Server) :
  NoDup (dict_keys (analysisCache s)) ->
  NoDup (dict_keys (aggregateCache s)) ->
  analysisCache (evictStaleEntries now s)
  = List.filter (fun kv => negb (stale_analysis (cacheConfig s) now (snd kv)))
      (analysisCache s) /\
  aggregateCache (evictStaleEntries now s)
  = List.filter (fun kv => negb (stale_aggregate (cacheConfig s) now (snd kv)))
      (aggregateCache s) /\
  thoughtTree (evictStaleEntries now s) = thoughtTree s /\
  cacheConfig (evictStaleEntries now s) = cacheConfig s /\
  changeTracker (evictStaleEntries now s) = changeTracker s /\
  hits (cacheStats (evictStaleEntries now s)) = hits (cacheStats s) /\
  misses (cacheStats (evictStaleEntries now s)) = misses (cacheStats s) /\
  evictions (cacheStats (evictStaleEntries now s))
  = evictions (cacheStats s)
    + (cache_size s - cache_size (evictStaleEntries now s)) /\
  totalSize (cacheStats (evictStaleEntries now s))
  = (if 0 <? cache_size s - cache_size (evictStaleEntries now s)
     then cache_size (evictStaleEntries now s)
     else totalSize (cacheStats s)).
Proof.
  intros Ha Hg. unfold evictStaleEntries.
  rewrite (sweep_own _ _ _ Ha), (sweep_own _ _ _ Hg).
  set (staleA := List.filter (fun e => stale_analysis (cacheConfig s) now (snd e))
                   (analysisCache s)).
  set (staleG := List.filter (fun e => stale_aggregate (cacheConfig s) now (snd e))
                   (aggregateCache s)).
  set (keptA := List.filter _ (analysisCache s)).
  set (keptG := List.filter _ (aggregateCache s)).
  set (n := 0 + Zlength' staleA + Zlength' staleG).
  assert (Hn : 0 <= n) by (unfold n, Zlength'; lia).
  assert (Hcount : Zlength' (dict_keys (analysisCache s))
                   + Zlength' (dict_keys (aggregateCache s))
                   - (Zlength' (dict_keys keptA) + Zlength' (dict_keys keptG))
                   = n).
  { unfold n, dict_keys, Zlength'. rewrite !length_map.
    pose proof (filter_split_length
                  (fun e => stale_analysis (cacheConfig s) now (snd e))
                  (analysisCache s)) as H1.
    pose proof (filter_split_length
                  (fun e => stale_aggregate (cacheConfig s) now (snd e))
                  (aggregateCache s)) as H2.
    unfold Zlength' in H1, H2. fold keptA staleA in H1. fold keptG staleG in H2.
    lia. }
  destruct (0 <? n) eqn:E; unfold cache_size;
    cbn [analysisCache aggregateCache thoughtTree cacheConfig changeTracker
         cacheStats with_stats with_analysisCache with_aggregateCache hits
         misses evictions totalSize];
    rewrite Hcount, E; repeat split; try reflexivity.
  apply Z.ltb_ge in E. lia.
Qed.

Lemma filter_all_in {A : Type} (p : A -> bool) (l : list A) :
  (forall x, In x l -> p x = true) -> List.filter p l = l.
Proof.
  induction l as [|x r IH]; intros H; [reflexivity|]. cbn [List.filter].
  rewrite (H x) by (left; reflexivity). f_equal. apply IH.
  intros y Hy. apply H. right. exact Hy.
Qed.

(** A sweep that finds nothing stale leaves the state as it is. *)
Lemma evictStaleEntries_nothing (now : Z) (s : Server) :
  NoDup (dict_keys (analysisCache s)) ->
  NoDup (dict_keys (aggregateCache s)) ->
  (forall kv, In kv (analysisCache s) ->
              stale_analysis (cacheConfig s) now (snd kv) = false) ->
  (forall kv, In kv (aggregateCache s) ->
              stale_aggregate (cacheConfig s) now (snd kv) = false) ->
  evictStaleEntries now s = s.
Proof.
  intros Ha Hg Hfa Hfg. unfold evictStaleEntries.
  rewrite (sweep_own _ _ _ Ha), (sweep_own _ _ _ Hg).
  rewrite (filter_none _ _ Hfa), (filter_none _ _ Hfg).
  rewrite (filter_all_in _ (analysisCache s))
    by (intros kv Hin; rewrite (Hfa kv Hin); reflexivity).
  rewrite (filter_all_in _ (aggregateCache s))
    by (intros kv Hin; rewrite (Hfg kv Hin); reflexivity).
  cbn [Zlength' length Z.of_nat Z.add Z.ltb Z.compare].
  unfold with_aggregateCache, with_analysisCache.
  cbn [thoughtTree cacheConfig cacheStats analysisCache aggregateCache
       changeTracker].
  apply server_eta.
Qed.

(** X10: [evictStaleEntries] removes exactly the entries that have expired
    at the time of the sweep - an analysis by its own dynamic expiration, an
    aggregate summary by maxExpirationMs - and keeps the others in their
    order; it adds the number removed to the eviction counter, refreshes
    totalSize only when something was removed, touches nothing else, and a
    second sweep at the same time changes nothing. *)
Theorem evictStaleEntries_sweeps (now : Z) (s : Server) :
  NoDup (dict_keys (analysisCache s)) ->
  NoDup (dict_keys (aggregateCache s)) ->
  let s' := evictStaleEntries now s in
  let evicted := cache_size s - cache_size s' in
  analysisCache s'
  = List.filter (fun kv => negb (stale_analysis (cacheConfig s) now (snd kv)))
      (analysisCache s) /\
  aggregateCache s'
  = List.filter (fun kv => negb (stale_aggregate (cacheConfig s) now (snd kv)))
      (aggregateCache s) /\
  0 <= evicted /\
  evictions (cacheStats s') = evictions (cacheStats s) + evicted /\
  totalSize (cacheStats s')
  = (if 0 <? evicted then cache_size s' else totalSize (cacheStats s)) /\
  hits (cacheStats s') = hits (cacheStats s) /\
  misses (cacheStats s') = misses (cacheStats s) /\
  thoughtTree s' = thoughtTree s /\ cacheConfig s' = cacheConfig s /\
  changeTracker s' = changeTracker s /\
  evictStaleEntries now s' = s'.
Proof.
  intros Ha Hg. cbv zeta.
  destruct (evictStaleEntries_caches now s Ha Hg)
    as (EA & EG & ET & EC & EK & EH & EM & EE & ES).
  split; [exact EA|]. split; [exact EG|].
  assert (Hle : 0 <= cache_size s - cache_size (evictStaleEntries now s)).
  { unfold cache_size. rewrite EA, EG. unfold dict_keys, Zlength'.
    rewrite !length_map.
    pose proof (List.filter_length_le
                  (fun kv => negb (stale_analysis (cacheConfig s) now (snd kv)))
                  (analysisCache s)).
    pose proof (List.filter_length_le
                  (fun kv => negb (stale_aggregate (cacheConfig s) now (snd kv)))
                  (aggregateCache s)).
    lia. }
  split; [exact Hle|]. split; [exact EE|]. split; [exact ES|].
  split; [exact EH|]. split; [exact EM|]. split; [exact ET|].
  split; [exact EC|]. split; [exact EK|].
  set (s' := evictStaleEntries now s) in *.
  assert (Ha' : NoDup (dict_keys (analysisCache s')))
    by (rewrite EA; apply dict_keys_filter_NoDup, Ha).
  assert (Hg' : NoDup (dict_keys (aggregateCache s')))
    by (rewrite EG; apply dict_keys_filter_NoDup, Hg).
  apply evictStaleEntries_nothing; [exact Ha' | exact Hg' | |].
  - intros kv Hin. rewrite EA in Hin. apply List.filter_In in Hin as [_ H].
    rewrite EC. apply negb_true_iff, H.
  - intros kv Hin. rewrite EG in Hin. apply List.filter_In in Hin as [_ H].
    rewrite EC. apply negb_true_iff, H.
Qed.

Lemma evictStaleEntries_sweeps_witness :
  dict_keys (analysisCache (evictStaleEntries 300025 Scenario.crowded))
  = ["a"] /\
  evictions (cacheStats (evictStaleEntries 300025 Scenario.crowded)) = 2.
Proof.
  destruct (evictStaleEntries_sweeps 300025 Scenario.crowded)
    as (HA & _ & _ & HE & _).
  - apply (bool_decide_unpack _). vm_compute. exact I.
  - apply (bool_decide_unpack _). vm_compute. exact I.
  - split; [rewrite HA; reflexivity | rewrite HE; reflexivity].
Defined.

Lemma dict_get_filter {V : Type} (p : string * V -> bool) (d : Dict V)
    (k : string) (v : V) :
  NoDup (dict_keys d) ->
  (dict_get k (List.filter p d) = Some v
   <-> dict_get k d = Some v /\ p (k, v) = true).
Proof.
  intros Hnd. split.
  - intros H. apply dict_get_In, List.filter_In in H as [Hin Hp].
    split; [apply In_dict_get; assumption | exact Hp].
  - intros [H Hp]. apply In_dict_get; [apply dict_keys_filter_NoDup, Hnd|].
    apply List.filter_In. split; [apply dict_get_In, H | exact Hp].
Qed.

(** X11: [updateCacheConfig] overrides the given fields of the configuration,
    keeps the others, and at once drops every cached analysis that has
    expired under the new configuration: afterwards the cache holds exactly
    the old entries that are still fresh by the new rules, unchanged. *)
Theorem updateCacheConfig_applies (config : CacheConfigUpdate) (now : Z)
    (s : Server) :
  NoDup (dict_keys (analysisCache s)) ->
  NoDup (dict_keys (aggregateCache s)) ->
  let s' := updateCacheConfig config now s in
  cacheConfig s' = merge_config (cacheConfig s) config /\
  (forall k e,
     dict_get k (analysisCache s') = Some e
     <-> dict_get k (analysisCache s) = Some e /\
         stale_analysis (cacheConfig s') now e = false) /\
  (forall k g,
     dict_get k (aggregateCache s') = Some g
     <-> dict_get k (aggregateCache s) = Some g /\
         stale_aggregate (cacheConfig s') now g = false) /\
  thoughtTree s' = thoughtTree s /\ changeTracker s' = changeTracker s.
Proof.
  intros Ha Hg. cbv zeta. unfold updateCacheConfig.
  set (s0 := with_config (merge_config (cacheConfig s) config) s).
  destruct (evictStaleEntries_caches now s0 Ha Hg)
    as (EA & EG & ET & EC & EK & _).
  split; [exact EC|]. rewrite EC, EA, EG, ET, EK.
  change (analysisCache s0) with (analysisCache s).
  change (aggregateCache s0) with (aggregateCache s).
  split; [|split; [|split; reflexivity]].
  - intros k e. rewrite (dict_get_filter _ _ _ _ Ha). cbn [snd].
    rewrite negb_true_iff. reflexivity.
  - intros k g. rewrite (dict_get_filter _ _ _ _ Hg). cbn [snd].
    rewrite negb_true_iff. reflexivity.
Qed.

Lemma updateCacheConfig_applies_witness :
  maxExpirationMs
    (cacheConfig
       (updateCacheConfig
          (mkUpdate None None None None None (Some (of_Z 15))) 30
          Scenario.crowded))
  = of_Z 15 /\
  dict_keys
    (analysisCache
       (updateCacheConfig
          (mkUpdate None None None None None (Some (of_Z 15))) 30
          Scenario.crowded))
  = ["a"; "c"].
Proof.
  destruct (updateCacheConfig_applies
              (mkUpdate None None None None None (Some (of_Z 15))) 30
              Scenario.crowded)
    as (HC & _).
  - apply (bool_decide_unpack _). vm_compute. exact I.
  - apply (bool_decide_unpack _). vm_compute. exact I.
  - split; [rewrite HC; reflexivity | reflexivity].
Defined.

Lemma evictStaleEntries_tree (now : Z) (s : Server) :
  thoughtTree (evictStaleEntries now s) = thoughtTree s.
Proof.
  unfold evictStaleEntries.
  destruct (sweep _ (analysisCache s) _) as [analyses evicted1].
  destruct (sweep _ (aggregateCache s) _) as [aggregates evicted].
  destruct (0 <? evicted); reflexivity.
Qed.

(** ** Growing the tree *)


Lemma pushInNode_unfold (id : string) (child node : FractalThought) :
  pushInNode id child node
  = if String.eqb (thoughtId node) id
    then Some (with_subThoughts (subThoughts node ++ [child])%list node)
    else option_map (fun subs => with_subThoughts subs node)
           (update_first (pushInNode id child) (subThoughts node)).
Proof. destruct node; reflexivity. Qed.

Lemma bare_with_subThoughts (subs : list FractalThought) (t : FractalThought) :
  bare (with_subThoughts subs t) = bare t.
Proof. reflexivity. Qed.

Lemma flatten_with_subThoughts (subs : list FractalThought) (t : FractalThought) :
  flatten (with_subThoughts subs t)
  = with_subThoughts subs t :: flat_map flatten subs.
Proof. rewrite flatten_unfold. reflexivity. Qed.

Lemma update_first_inserted (f : FractalThought -> option FractalThought)
    (child : FractalThought) (l l' : list FractalThought) :
  Forall (fun x => forall x', f x = Some x' ->
                     inserted child (flatten x) (flatten x')) l ->
  update_first f l = Some l' ->
  inserted child (flat_map flatten l) (flat_map flatten l').
Proof.
  intros H. revert l'. induction H as [|x r Hx _ IH]; intros l'; [discriminate|].
  cbn [update_first]. destruct (f x) as [x'|] eqn:E.
  - intros H. injection H as <-. destruct (Hx x' eq_refl) as (l1 & l2 & E1 & E2).
    exists l1, (l2 ++ map bare (flat_map flatten r))%list.
    cbn [flat_map]. rewrite !map_app, E1, E2, <- !app_assoc. split; reflexivity.
  - destruct (update_first f r) as [r'|]; [|discriminate].
    intros H. injection H as <-. destruct (IH r' eq_refl) as (l1 & l2 & E1 & E2).
    exists (map bare (flatten x) ++ l1)%list, l2.
    cbn [flat_map]. rewrite !map_app, E1, E2, <- !app_assoc. split; reflexivity.
Qed.

Lemma pushed_here_inserted (child node : FractalThought) :
  subThoughts child = [] ->
  inserted child (flatten node)
    (flatten (with_subThoughts (subThoughts node ++ [child])%list node)).
Proof.
  intros Hleaf. exists (map bare (flatten node)), [].
  rewrite app_nil_r. split; [reflexivity|].
  rewrite flatten_with_subThoughts, (flatten_unfold node), flat_map_app.
  cbn [flat_map]. rewrite (flatten_unfold child), Hleaf. cbn [flat_map].
  rewrite app_nil_r. cbn [map]. rewrite !map_app. reflexivity.
Qed.

Lemma pushInNode_inserted (id : string) (child node : FractalThought) :
  subThoughts child = [] ->
  forall node', pushInNode id child node = Some node' ->
                inserted child (flatten node) (flatten node').
Proof.
  intros Hleaf. induction node as [node IH] using FractalThought_ind.
  intros node'. rewrite pushInNode_unfold.
  destruct (String.eqb (thoughtId node) id).
  - intros H. injection H as <-. apply pushed_here_inserted, Hleaf.
  - destruct (update_first (pushInNode id child) (subThoughts node)) as [subs|] eqn:E;
      [|discriminate].
    cbn [option_map]. intros H. injection H as <-.
    destruct (update_first_inserted _ child _ _ IH E) as (l1 & l2 & E1 & E2).
    exists (bare node :: l1), l2.
    rewrite flatten_with_subThoughts, (flatten_unfold node). cbn [map].
    rewrite E1, E2. split; reflexivity.
Qed.

Lemma pushInNode_found (id : string) (child node : FractalThought) :
  pushInNode id child node = None <-> findNode id node = None.
Proof.
  induction node as [node IH] using FractalThought_ind.
  rewrite pushInNode_unfold, findNode_unfold.
  destruct (String.eqb (thoughtId node) id); [split; discriminate|].
  induction IH as [|x r Hx _ IHr]; [split; reflexivity|].
  cbn [update_first first_some].
  destruct (pushInNode id child x) as [x'|] eqn:Ex.
  - destruct (findNode id x) as [y|] eqn:Ey; [split; discriminate|].
    exfalso. destruct Hx as [_ Hx]. specialize (Hx eq_refl). discriminate.
  - destruct Hx as [Hx _]. rewrite (Hx eq_refl).
    destruct (update_first (pushInNode id child) r); cbn [option_map] in *;
      [|exact IHr].
    split; [discriminate|]. intros H. apply IHr in H. discriminate.
Qed.

Lemma update_first_found (id : string) (child : FractalThought)
    (l : list FractalThought) :
  update_first (pushInNode id child) l = None <-> findNodes id l = None.
Proof.
  unfold findNodes. induction l as [|x r IH]; [split; reflexivity|].
  cbn [update_first first_some].
  pose proof (pushInNode_found id child x) as Hx.
  destruct (pushInNode id child x) as [x'|].
  - destruct (findNode id x); [split; discriminate|].
    destruct Hx as [_ Hx]. specialize (Hx eq_refl). discriminate.
  - destruct Hx as [Hx _]. rewrite (Hx eq_refl).
    destruct (update_first (pushInNode id child) r); cbn [option_map] in *;
      [|exact IH].
    split; [discriminate|]. intros H. apply IH in H. discriminate.
Qed.

Lemma thoughts_of_app (l1 l2 : list FractalThought) :
  thoughts_of (l1 ++ l2)%list = (thoughts_of l1 ++ thoughts_of l2)%list.
Proof. apply flat_map_app. Qed.

Lemma pushUnder_inserted (id : string) (child p : FractalThought)
    (tree : list FractalThought) :
  subThoughts child = [] ->
  findThought id tree = Some p ->
  inserted child (thoughts_of tree) (thoughts_of (pushUnder id child tree)).
Proof.
  intros Hleaf. unfold findThought, pushUnder.
  destruct (String.eqb id ""); [discriminate|].
  destruct (String.eqb id "root").
  - destruct tree as [|first rest]; [discriminate|]. intros _.
    destruct (pushed_here_inserted child first Hleaf) as (l1 & l2 & E1 & E2).
    exists l1, (l2 ++ map bare (thoughts_of rest))%list.
    unfold thoughts_of. cbn [flat_map]. rewrite !map_app, E1, E2, <- !app_assoc.
    split; reflexivity.
  - intros Hfind.
    destruct (update_first (pushInNode id child) tree) as [tree'|] eqn:E.
    + apply (update_first_inserted (pushInNode id child)); [|exact E].
      apply List.Forall_forall. intros x _ x'. apply pushInNode_inserted, Hleaf.
    + apply update_first_found in E. congruence.
Qed.

Lemma appended_inserted (child : FractalThought) (tree : list FractalThought) :
  subThoughts child = [] ->
  inserted child (thoughts_of tree) (thoughts_of (tree ++ [child])).
Proof.
  intros Hleaf. exists (map bare (thoughts_of tree)), [].
  rewrite app_nil_r, thoughts_of_app. split; [reflexivity|].
  unfold thoughts_of at 2. cbn [flat_map]. rewrite flatten_unfold, Hleaf.
  cbn [flat_map]. rewrite app_nil_r, map_app. reflexivity.
Qed.

Lemma inserted_old (child : FractalThought) (l l' : list FractalThought)
    (t : FractalThought) :
  inserted child l l' -> In t l -> exists t', In t' l' /\ bare t' = bare t.
Proof.
  intros (l1 & l2 & E1 & E2) Hin.
  assert (H : In (bare t) (map bare l')).
  { rewrite E2. apply (in_map bare) in Hin. rewrite E1 in Hin.
    apply in_app_or in Hin as [H|H]; apply in_or_app; [left | right; right];
      exact H. }
  apply in_map_iff in H as (t' & Ht' & Hin'). eauto.
Qed.

Lemma inserted_new (child : FractalThought) (l l' : list FractalThought)
    (t' : FractalThought) :
  inserted child l l' -> In t' l' ->
  bare t' = bare child \/ exists t, In t l /\ bare t = bare t'.
Proof.
  intros (l1 & l2 & E1 & E2) Hin.
  apply (in_map bare) in Hin. rewrite E2 in Hin.
  apply in_app_or in Hin as [H|[H|H]].
  - right. assert (H' : In (bare t') (map bare l))
      by (rewrite E1; apply in_or_app; left; exact H).
    apply in_map_iff in H' as (t & Ht & Hin'). eauto.
  - left. symmetry. exact H.
  - right. assert (H' : In (bare t') (map bare l))
      by (rewrite E1; apply in_or_app; right; exact H).
    apply in_map_iff in H' as (t & Ht & Hin'). eauto.
Qed.


Lemma inserted_length (child : FractalThought) (l l' : list FractalThought) :
  inserted child l l' -> length l' = S (length l).
Proof.
  intros (l1 & l2 & E1 & E2).
  rewrite <- (length_map bare l'), <- (length_map bare l), E1, E2.
  rewrite !length_app. cbn [length]. lia.
Qed.

Lemma bare_id (t t' : FractalThought) :
  bare t = bare t' ->
  thoughtId t = thoughtId t' /\ depth t = depth t' /\ parentId t = parentId t' /\
  isComplete t = isComplete t' /\ thought t = thought t'.
Proof.
  destruct t, t'. unfold bare, with_subThoughts. cbn. intros H.
  injection H as -> -> -> -> -> ->. repeat split.
Qed.

Lemma findNodes_is_Some (id : string) (tree : list FractalThought) :
  is_Some (findNodes id tree)
  <-> exists t, In t (thoughts_of tree) /\ thoughtId t = id.
Proof.
  rewrite findNodes_find. split.
  - intros [t H]. apply find_some in H as [Hin Hid].
    exists t. split; [exact Hin | apply String.eqb_eq, Hid].
  - intros (t & Hin & Hid).
    destruct (find (has_id id) (thoughts_of tree)) as [x|] eqn:E; [eauto|].
    apply (find_none _ _ E) in Hin. unfold has_id in Hin.
    rewrite Hid, String.eqb_refl in Hin. discriminate.
Qed.

Lemma findThought_in (id : string) (tree : list FractalThought)
    (t : FractalThought) :
  findThought id tree = Some t -> In t (thoughts_of tree).
Proof.
  unfold findThought. destruct (String.eqb id ""); [discriminate|].
  destruct (String.eqb id "root").
  - destruct tree as [|first rest]; [discriminate|]. cbn [head].
    intros H. injection H as <-. unfold thoughts_of. cbn [flat_map].
    rewrite flatten_unfold. left. reflexivity.
  - rewrite findNodes_find. intros H. apply find_some in H as [H _]. exact H.
Qed.

Lemma flatten_subtree (m t x : FractalThought) :
  In t (flatten m) -> In x (flatten t) -> In x (flatten m).
Proof.
  induction m as [m IH] using FractalThought_ind.
  rewrite (flatten_unfold m). intros [<-|Hin] Hx.
  - rewrite flatten_unfold in Hx. exact Hx.
  - right. apply in_flat_map in Hin as (sub & Hsub & Hin).
    apply in_flat_map. exists sub. split; [exact Hsub|].
    rewrite List.Forall_forall in IH. exact (IH sub Hsub Hin Hx).
Qed.

(** In a tree without inherited names, the subtree of every thought that a
    search finds is without them. *)
Lemma found_plain (id : string) (tree : list FractalThought)
    (node : FractalThought) :
  plain_ids (thoughts_of tree) -> findThought id tree = Some node ->
  plain_ids (flatten node).
Proof.
  intros Hplain Hfind. apply findThought_in in Hfind.
  unfold thoughts_of in Hfind. apply in_flat_map in Hfind as (root & Hroot & Hin).
  apply List.Forall_forall. intros x Hx.
  unfold plain_ids in Hplain. rewrite List.Forall_forall in Hplain.
  apply Hplain. unfold thoughts_of. apply in_flat_map. exists root.
  split; [exact Hroot | exact (flatten_subtree root node x Hin Hx)].
Qed.

(** A tree that grows by an insertion resolves every id that it resolved
    before. *)
Lemma findThought_inserted (child : FractalThought) (tree tree' : list FractalThought)
    (id : string) :
  inserted child (thoughts_of tree) (thoughts_of tree') ->
  is_Some (findThought id tree) -> is_Some (findThought id tree').
Proof.
  intros Hins. unfold findThought. destruct (String.eqb id ""); [trivial|].
  destruct (String.eqb id "root").
  - destruct tree as [|first rest]; [intros [x Hx]; discriminate|]. intros _.
    destruct tree' as [|first' rest']; [|cbn; eauto].
    apply inserted_length in Hins. unfold thoughts_of in Hins.
    cbn [flat_map length] in Hins. lia.
  - rewrite !findNodes_is_Some. intros (t & Hin & Hid).
    destruct (inserted_old child _ _ t Hins Hin) as (t' & Hin' & Hb).
    exists t'. split; [exact Hin'|]. apply bare_id in Hb as (-> & _). exact Hid.
Qed.

Lemma well_linked_unfold (node : FractalThought) :
  well_linked node
  = forallb (fun sub => parent_is (thoughtId node) sub && well_linked sub)
      (subThoughts node).
Proof. destruct node; reflexivity. Qed.

Lemma pushInNode_bare (id : string) (child node node' : FractalThought) :
  pushInNode id child node = Some node' -> bare node' = bare node.
Proof.
  rewrite pushInNode_unfold. destruct (String.eqb (thoughtId node) id).
  - intros H. injection H as <-. reflexivity.
  - destruct (update_first _ _); [|discriminate].
    intros H. injection H as <-. reflexivity.
Qed.

Lemma update_first_forallb {A : Type} (f : A -> option A) (F : A -> bool)
    (l l' : list A) :
  Forall (fun x => forall x', f x = Some x' -> F x = true -> F x' = true) l ->
  update_first f l = Some l' -> forallb F l = true -> forallb F l' = true.
Proof.
  intros H. revert l'. induction H as [|x r Hx _ IH]; intros l'; [discriminate|].
  cbn [update_first forallb]. intros Hup Hall.
  apply andb_true_iff in Hall as [Hfx Hr].
  destruct (f x) as [x'|] eqn:E.
  - injection Hup as <-. cbn [forallb]. rewrite (Hx x' eq_refl Hfx), Hr. reflexivity.
  - destruct (update_first f r) as [r'|]; [|discriminate].
    injection Hup as <-. cbn [forallb]. rewrite Hfx, (IH r' eq_refl Hr). reflexivity.
Qed.

Lemma parent_is_bare (id : string) (t t' : FractalThought) :
  bare t = bare t' -> parent_is id t = parent_is id t'.
Proof. intros H. apply bare_id in H as (_ & _ & H & _). unfold parent_is. rewrite H. reflexivity. Qed.

Lemma is_top_bare (t t' : FractalThought) : bare t = bare t' -> is_top t = is_top t'.
Proof. intros H. apply bare_id in H as (_ & _ & H & _). unfold is_top. rewrite H. reflexivity. Qed.

Lemma pushInNode_well_linked (id : string) (child node : FractalThought) :
  parent_is id child = true -> well_linked child = true ->
  forall node', pushInNode id child node = Some node' ->
                well_linked node = true -> well_linked node' = true.
Proof.
  intros Hparent Hchild. induction node as [node IH] using FractalThought_ind.
  intros node'. rewrite pushInNode_unfold.
  destruct (String.eqb_spec (thoughtId node) id) as [Hid|Hne].
  - intros H. injection H as <-. rewrite !well_linked_unfold.
    change (thoughtId (with_subThoughts _ node)) with (thoughtId node).
    change (subThoughts (with_subThoughts (subThoughts node ++ [child])%list node))
      with (subThoughts node ++ [child])%list.
    rewrite forallb_app. intros ->. cbn [forallb andb].
    rewrite Hid, Hparent, Hchild. reflexivity.
  - destruct (update_first (pushInNode id child) (subThoughts node)) as [subs|] eqn:E;
      [|discriminate].
    cbn [option_map]. intros H. injection H as <-. rewrite !well_linked_unfold.
    change (thoughtId (with_subThoughts subs node)) with (thoughtId node).
    change (subThoughts (with_subThoughts subs node)) with subs.
    apply (update_first_forallb (pushInNode id child)); [|exact E].
    eapply Forall_impl; [exact IH|]. cbv beta.
    intros x Hx x' Hpush Hok. apply andb_true_iff in Hok as [Hp Hw].
    rewrite <- (parent_is_bare _ x x') by (symmetry; exact (pushInNode_bare _ _ _ _ Hpush)).
    rewrite Hp, (Hx x' Hpush Hw). reflexivity.
Qed.

Lemma update_first_Forall {A : Type} (f : A -> option A) (P : A -> Prop)
    (l l' : list A) :
  (forall x x', f x = Some x' -> P x -> P x') ->
  update_first f l = Some l' -> Forall P l -> Forall P l'.
Proof.
  intros Hf. revert l'. induction l as [|x r IH]; intros l'; [discriminate|].
  cbn [update_first]. intros Hup Hall. apply List.Forall_cons_iff in Hall as [Hx Hr].
  destruct (f x) as [x'|] eqn:E.
  - injection Hup as <-. constructor; [exact (Hf x x' E Hx) | exact Hr].
  - destruct (update_first f r) as [r'|]; [|discriminate].
    injection Hup as <-. constructor; [exact Hx | exact (IH r' eq_refl Hr)].
Qed.

Lemma update_first_head_id (f : FractalThought -> option FractalThought)
    (l l' : list FractalThought) :
  (forall x x', f x = Some x' -> bare x' = bare x) ->
  update_first f l = Some l' ->
  option_map thoughtId (head l') = option_map thoughtId (head l).
Proof.
  intros Hf. destruct l as [|x r]; [discriminate|]. cbn [update_first].
  destruct (f x) as [x'|] eqn:E.
  - intros H. injection H as <-. cbn [head option_map].
    apply Hf, bare_id in E as (-> & _). reflexivity.
  - destruct (update_first f r); [|discriminate].
    intros H. injection H as <-. reflexivity.
Qed.

(** The shape of the tree survives the placing of a new thought that has an
    id and a non-negative depth, names the parent it is placed under, and
    has no sub-thoughts yet. *)
Lemma tree_ok_addedTo (parentId0 : option string) (child : FractalThought)
    (tree : list FractalThought) :
  tree_ok tree ->
  thoughtId child <> "" -> 0 <= depth child -> subThoughts child = [] ->
  parentId child = parentId0 ->
  (forall c r, parentId0 = Some (String c r) ->
               is_Some (findThought (String c r) tree)) ->
  tree_ok (addedTo parentId0 child tree) /\
  inserted child (thoughts_of tree) (thoughts_of (addedTo parentId0 child tree)).
Proof.
  intros (Hhead & Hroots & Hall) Hid Hdepth Hleaf Hparent Hfound.
  assert (Hlinked : well_linked child = true)
    by (rewrite well_linked_unfold, Hleaf; reflexivity).
  assert (Hins : inserted child (thoughts_of tree)
                   (thoughts_of (addedTo parentId0 child tree))).
  { unfold addedTo. destruct parentId0 as [[|c r]|];
      try (apply appended_inserted, Hleaf).
    destruct (Hfound c r eq_refl) as [p Hp].
    exact (pushUnder_inserted _ child p tree Hleaf Hp). }
  split; [|exact Hins]. split; [|split].
  - unfold addedTo. destruct parentId0 as [[|c r]|];
      try (destruct tree; [discriminate | exact Hhead]).
    unfold pushUnder. destruct (String.eqb (String c r) "root").
    + destruct tree as [|first rest]; [discriminate | exact Hhead].
    + destruct (update_first _ tree) as [tree'|] eqn:E; [|exact Hhead].
      rewrite (update_first_head_id _ tree tree' (pushInNode_bare _ child) E).
      exact Hhead.
  - unfold addedTo. destruct parentId0 as [[|c r]|].
    + apply Forall_app. split; [exact Hroots|]. constructor; [|constructor].
      split; [unfold is_top; rewrite Hparent; reflexivity | exact Hlinked].
    + assert (Hp : parent_is (String c r) child = true)
        by (unfold parent_is; rewrite Hparent; apply String.eqb_refl).
      unfold pushUnder. destruct (String.eqb_spec (String c r) "root") as [Hr|Hr].
      * destruct tree as [|first rest]; [constructor|].
        apply List.Forall_cons_iff in Hroots as [[Htop Hw] Hrest].
        constructor; [|exact Hrest]. split; [exact Htop|].
        rewrite well_linked_unfold.
        change (thoughtId (with_subThoughts _ first)) with (thoughtId first).
        change (subThoughts (with_subThoughts (subThoughts first ++ [child])%list first))
          with (subThoughts first ++ [child])%list.
        rewrite forallb_app. rewrite well_linked_unfold in Hw. rewrite Hw.
        cbn [forallb andb]. cbn [head option_map] in Hhead.
        injection Hhead as ->. rewrite <- Hr, Hp, Hlinked. reflexivity.
      * destruct (update_first _ tree) as [tree'|] eqn:E; [|exact Hroots].
        apply (update_first_Forall (pushInNode (String c r) child) _ tree tree');
          [|exact E | exact Hroots].
        intros x x' Hpush [Htop Hw]. split.
        -- rewrite (is_top_bare x' x) by exact (pushInNode_bare _ _ _ _ Hpush).
           exact Htop.
        -- exact (pushInNode_well_linked _ child x Hp Hlinked x' Hpush Hw).
    + apply Forall_app. split; [exact Hroots|]. constructor; [|constructor].
      split; [unfold is_top; rewrite Hparent; reflexivity | exact Hlinked].
  - apply List.Forall_forall. intros t' Hin.
    rewrite List.Forall_forall in Hall.
    destruct (inserted_new child _ _ t' Hins Hin) as [Hb|(t & Ht & Hb)].
    + apply bare_id in Hb as (-> & -> & _). split; assumption.
    + apply bare_id in Hb as (<- & <- & _). exact (Hall t Ht).
Qed.

(** ** Operations that keep the state well formed *)

Lemma preserves_refl (s : Server) : preserves s s.
Proof. split; [reflexivity|]. split; [reflexivity | trivial]. Qed.

Lemma preserves_trans (s1 s2 s3 : Server) :
  preserves s1 s2 -> preserves s2 s3 -> preserves s1 s3.
Proof.
  intros (T1 & C1 & H1) (T2 & C2 & H2).
  split; [congruence|]. split; [congruence|]. intros H. apply H2, H1, H.
Qed.

Lemma cache_shrinks_preserves (s s' : Server) :
  cache_shrinks s s' -> preserves s s'.
Proof.
  intros Hsh. split; [apply Hsh|]. split; [apply Hsh|].
  apply state_ok_shrinks, Hsh.
Qed.

Lemma analyzeDepth_recompute_config (id : string)
    (cached : Result (option FractalAnalysis)) (now : Z) (s : Server) :
  cacheConfig (snd (analyzeDepth_recompute id cached now s)) = cacheConfig s.
Proof.
  unfold analyzeDepth_recompute. destruct cached as [previous|]; [|reflexivity].
  destruct (findThought id (thoughtTree s)) as [node|]; [|reflexivity].
  pose proof (analyzeNodeIncremental_shrinks node previous now s)
    as (_ & C1 & _).
  destruct (analyzeNodeIncremental node previous now s) as [[counts|] s1];
    [|exact C1].
  cbn [snd] in C1. cbv zeta.
  destruct (cacheAnalysis_rest id (assembleAnalysis node counts) now
              (markAnalyzed id now s1)) as (_ & C3).
  set (s3 := cacheAnalysis _ _ _ _) in *.
  pose proof (getCachedAnalysis_shrinks id now s3) as (_ & C4 & _).
  destruct (markAnalyzed_rest id now s1) as (_ & C2 & _).
  destruct (getCachedAnalysis id now s3) as [[[result|]|] s4]; cbn [snd] in *;
    congruence.
Qed.

Lemma analyzeDepth_config (id : string) (now : Z) (s : Server) :
  cacheConfig (snd (analyzeDepth id now s)) = cacheConfig s.
Proof.
  unfold analyzeDepth.
  pose proof (getCachedAnalysis_shrinks id now s) as (_ & C1 & _).
  destruct (getCachedAnalysis id now s) as [[[result|]|] s1]; cbn [snd] in *.
  - destruct (findThought id (thoughtTree s1)) as [node|]; [|exact C1].
    destruct (negb (hasNodeChanged node s1)); [exact C1|].
    rewrite analyzeDepth_recompute_config. exact C1.
  - rewrite analyzeDepth_recompute_config. exact C1.
  - rewrite analyzeDepth_recompute_config. exact C1.
Qed.

Lemma analyzeDepth_preserves (id : string) (now : Z) (s : Server) :
  preserves s (snd (analyzeDepth id now s)).
Proof.
  split; [apply analyzeDepth_tree|]. split; [apply analyzeDepth_config|].
  intros Hs. apply (analyzeDepth_ok id now s Hs).
Qed.

(** In a well-formed state with no inherited name in the tree, [analyzeDepth]
    throws for no id but an inherited name. *)
Lemma analyzeDepth_never_throws (id : string) (now : Z) (s : Server) :
  state_ok s -> plain_ids (thoughts_of (thoughtTree s)) ->
  inherited id = false ->
  fst (analyzeDepth id now s) <> Threw.
Proof.
  intros Hs Hplain Hid. apply analyzeDepth_no_throw; [apply Hs | exact Hid|].
  intros node Hnode. exact (found_plain id _ node Hplain Hnode).
Qed.

Lemma childSummary_preserves (id : string) (now : Z) (s : Server) :
  preserves s (snd (childSummary id now s)) /\
  (state_ok s -> plain_ids (thoughts_of (thoughtTree s)) ->
   inherited id = false ->
   is_Some (fst (childSummary id now s))).
Proof.
  unfold childSummary.
  pose proof (cache_shrinks_preserves _ _ (getCachedSummary_shrinks id now s)) as H1.
  destruct (getCachedSummary id now s) as [[[|c r]|] s1]; cbn [snd] in H1.
  - pose proof (analyzeDepth_preserves id now s1) as H2.
    pose proof (analyzeDepth_never_throws id now s1) as H3.
    destruct (analyzeDepth id now s1) as [[a| |] s2]; cbn [fst snd] in *;
      (split; [exact (preserves_trans _ _ _ H1 H2)|]); intros Hs Hplain Hid;
      eauto.
    exfalso. destruct H1 as (T1 & _ & H1).
    apply H3; [apply H1, Hs | rewrite T1; exact Hplain | exact Hid | reflexivity].
  - cbn [fst snd]. split; [exact H1 | eauto].
  - pose proof (analyzeDepth_preserves id now s1) as H2.
    pose proof (analyzeDepth_never_throws id now s1) as H3.
    destruct (analyzeDepth id now s1) as [[a| |] s2]; cbn [fst snd] in *;
      (split; [exact (preserves_trans _ _ _ H1 H2)|]); intros Hs Hplain Hid;
      eauto.
    exfalso. destruct H1 as (T1 & _ & H1).
    apply H3; [apply H1, Hs | rewrite T1; exact Hplain | exact Hid | reflexivity].
Qed.

Lemma collectChildSummaries_unfold (node : FractalThought) (now : Z)
    (st : option (Dict string) * Server) :
  collectChildSummaries node now st
  = fold_left
      (fun (st : option (Dict string) * Server) child =>
         match fst st with
         | None => st
         | Some childSummaries =>
             match childSummary (thoughtId child) now (snd st) with
             | (Some text, s1) =>
                 collectChildSummaries child now
                   (Some (dict_set (thoughtId child) text childSummaries), s1)
             | (None, s1) => (None, s1)
             end
         end)
      (subThoughts node) st.
Proof. destruct node; reflexivity. Qed.

Lemma collectChildSummaries_preserves (now : Z) (node : FractalThought) :
  forall st,
    preserves (snd st) (snd (collectChildSummaries node now st)) /\
    (state_ok (snd st) -> plain_ids (thoughts_of (thoughtTree (snd st))) ->
     plain_ids (flatten node) -> is_Some (fst st) ->
     is_Some (fst (collectChildSummaries node now st))).
Proof.
  induction node as [node IH] using FractalThought_ind. intros st.
  rewrite collectChildSummaries_unfold.
  assert (Hloop :
    forall l, incl l (subThoughts node) ->
      preserves (snd st)
        (snd (fold_left
                (fun (st : option (Dict string) * Server) child =>
                   match fst st with
                   | None => st
                   | Some childSummaries =>
                       match childSummary (thoughtId child) now (snd st) with
                       | (Some text, s1) =>
                           collectChildSummaries child now
                             (Some (dict_set (thoughtId child) text
                                      childSummaries), s1)
                       | (None, s1) => (None, s1)
                       end
                   end) l st)) /\
      (state_ok (snd st) -> plain_ids (thoughts_of (thoughtTree (snd st))) ->
       plain_ids (flatten node) -> is_Some (fst st) ->
       is_Some
         (fst (fold_left
                 (fun (st : option (Dict string) * Server) child =>
                    match fst st with
                    | None => st
                    | Some childSummaries =>
                        match childSummary (thoughtId child) now (snd st) with
                        | (Some text, s1) =>
                            collectChildSummaries child now
                              (Some (dict_set (thoughtId child) text
                                       childSummaries), s1)
                        | (None, s1) => (None, s1)
                        end
                    end) l st)))).
  2:{ apply Hloop. intros x Hx. exact Hx. }
  intros l Hl.
  apply (fold_left_invariant
           (fun acc : option (Dict string) * Server =>
              preserves (snd st) (snd acc) /\
              (state_ok (snd st) ->
               plain_ids (thoughts_of (thoughtTree (snd st))) ->
               plain_ids (flatten node) -> is_Some (fst st) ->
               is_Some (fst acc)))).
  2:{ split; [apply preserves_refl | trivial]. }
  apply List.Forall_forall. intros child Hin.
  pose proof (Hl child Hin) as Hsub.
  rewrite List.Forall_forall in IH. pose proof (IH child Hsub) as Hchild.
  intros [summaries s0] [Hp Hsome]. cbn [fst snd] in *.
  destruct summaries as [childSummaries|]; [|split; assumption].
  destruct (childSummary_preserves (thoughtId child) now s0) as [H1 H2].
  destruct (childSummary (thoughtId child) now s0) as [[text|] s1];
    cbn [fst snd] in *.
  - destruct (Hchild (Some (dict_set (thoughtId child) text childSummaries), s1))
      as [H3 H4]. cbn [fst snd] in *. split.
    + exact (preserves_trans _ _ _ Hp (preserves_trans _ _ _ H1 H3)).
    + intros Hs Htree Hnode Hst. apply H4; [| | |eauto].
      * apply H1, Hp, Hs.
      * destruct H1 as (-> & _). destruct Hp as (-> & _). exact Htree.
      * exact (plain_ids_sub node child Hnode Hsub).
  - split; [exact (preserves_trans _ _ _ Hp H1)|].
    intros Hs Htree Hnode Hst. exfalso.
    destruct H2 as [x Hx]; [| | |discriminate].
    + exact (proj2 (proj2 Hp) Hs).
    + destruct Hp as (-> & _). exact Htree.
    + exact (plain_ids_own child (plain_ids_sub node child Hnode Hsub)).
Qed.

Lemma generateAggregateSummary_preserves (id : string) (now : Z) (s : Server) :
  preserves s (snd (generateAggregateSummary id now s)) /\
  (state_ok s -> sane_expiration (cacheConfig s) = true ->
   plain_ids (thoughts_of (thoughtTree s)) -> inherited id = false ->
   is_Some (findThought id (thoughtTree s)) ->
   is_Some (fst (generateAggregateSummary id now s))).
Proof.
  unfold generateAggregateSummary.
  destruct (findThought id (thoughtTree s)) as [thought|] eqn:Hfind.
  2:{ split; [apply preserves_refl|]. intros _ _ _ _ [x Hx]. discriminate. }
  pose proof (analyzeDepth_preserves id now s) as H1.
  pose proof (analyzeDepth_never_throws id now s) as Hthrow.
  pose proof (analyzeDepth_returns id now s) as Hret.
  destruct (analyzeDepth id now s) as [outcome s1]. cbn [fst snd] in *.
  destruct (collectChildSummaries_preserves now thought (Some [], s1))
    as [H2 H3]. cbn [fst snd] in *.
  destruct outcome as [a| |]; cbn [returned].
  - destruct (collectChildSummaries thought now (Some [], s1))
      as [[childSummaries|] s2]; cbn [fst snd] in *.
    + split; [|eauto]. apply (preserves_trans _ s1); [exact H1|].
      destruct H2 as (T2 & C2 & Hs2).
      split; [exact T2|]. split; [exact C2|].
      intros Hs. destruct (Hs2 Hs) as (Hc & Hk & Hg & Hn & Hm).
      split; [exact Hc|]. split; [exact Hk|]. split; [|split; [exact Hn|]].
      * intros k Hk'. unfold aggregates_resolve in Hg.
        cbn [aggregateCache thoughtTree with_aggregateCache] in *.
        destruct (String.eqb_spec id k) as [<-|Hne].
        -- rewrite T2. destruct H1 as (-> & _). rewrite Hfind. eauto.
        -- rewrite dict_get_set_ne in Hk' by exact Hne. apply Hg, Hk'.
      * apply dict_set_NoDup, Hm.
    + split; [exact (preserves_trans _ _ _ H1 H2)|].
      intros Hs _ Hplain _ _. exfalso.
      destruct H3 as [x Hx]; [| | |eauto|discriminate].
      * exact (proj2 (proj2 H1) Hs).
      * destruct H1 as (-> & _). exact Hplain.
      * exact (found_plain id _ thought Hplain Hfind).
  - assert (Hp : preserves s
                   (snd (match collectChildSummaries thought now (Some [], s1)
                         return option AggregateSummary * Server with
                         | (Some _, s2) => (None, s2)
                         | (None, s2) => (None, s2)
                         end))).
    { destruct (collectChildSummaries thought now (Some [], s1)) as [[cs|] s2];
        exact (preserves_trans _ _ _ H1 H2). }
    destruct (collectChildSummaries thought now (Some [], s1)) as [[cs|] s2];
      cbn [fst snd] in *; (split; [exact Hp|]); intros Hs Hsane Hplain Hid _;
      exfalso;
      destruct (Hret (proj1 (proj2 Hs)) Hsane Hid) as (a & s' & E);
      [intros node Hnode; exact (found_plain id _ node Hplain Hnode)
      |discriminate
      |intros node Hnode; exact (found_plain id _ node Hplain Hnode)
      |discriminate].
  - cbn [fst snd]. split; [exact H1|]. intros Hs _ Hplain Hid _. exfalso.
    apply (Hthrow Hs Hplain Hid). reflexivity.
Qed.

Lemma getAggregateSummary_preserves (id : string) (force : bool) (now : Z)
    (s : Server) :
  preserves s (snd (getAggregateSummary id force now s)).
Proof.
  unfold getAggregateSummary.
  destruct (dict_get id (aggregateCache s)) as [cached|];
    [|apply generateAggregateSummary_preserves].
  destruct (negb force && _); [apply preserves_refl|].
  apply generateAggregateSummary_preserves.
Qed.

Lemma trackThoughtChange_preserves (id : string) (include : bool) (now : Z)
    (s : Server) :
  preserves s (trackThoughtChange id include now s).
Proof. apply cache_shrinks_preserves, trackThoughtChange_shrinks. Qed.

Lemma with_tree_state_ok (tree' : list FractalThought) (s : Server) :
  (forall id, is_Some (findThought id (thoughtTree s)) ->
              is_Some (findThought id tree')) ->
  state_ok s -> state_ok (with_tree tree' s).
Proof.
  intros Hgrow (Hc & Hk & Hg & Hn & Hm).
  split; [exact Hc|]. split; [|split; [|split; assumption]].
  - intros k H. apply Hgrow, Hk, H.
  - intros k H. apply Hgrow, Hg, H.
Qed.

(** Turns the equations of the calls made so far into [preserves] facts. *)
Ltac chain_preserves :=
  repeat match goal with
    | E : analyzeDepth ?id ?now ?s = (_, _) |- _ =>
        let H := fresh "Hstep" in
        pose proof (analyzeDepth_preserves id now s) as H;
        rewrite E in H; cbn [snd] in H; clear E
    | E : generateAggregateSummary ?id ?now ?s = (_, _) |- _ =>
        let H := fresh "Hstep" in
        pose proof (proj1 (generateAggregateSummary_preserves id now s)) as H;
        rewrite E in H; cbn [snd] in H; clear E
    end;
  cbn [snd]; eauto using preserves_refl, preserves_trans.

Lemma reportAdded_preserves (newThought : FractalThought) (now : Z) (s2 : Server) :
  preserves s2 (snd (reportAdded newThought now s2)).
Proof.
  unfold reportAdded. cbv zeta.
  destruct (analyzeDepth (thoughtId newThought) now s2)
    as [thoughtOutcome s3] eqn:E3.
  destruct (parentId newThought) as [[|c r]|].
  - destruct thoughtOutcome;
      try (destruct (generateAggregateSummary _ now s3) as [[g|] s5] eqn:E5);
      chain_preserves.
  - destruct (analyzeDepth (String c r) now s3) as [parentOutcome s4] eqn:E4.
    destruct thoughtOutcome; [| |chain_preserves];
      (destruct parentOutcome; [| |chain_preserves];
       (destruct (generateAggregateSummary _ now s4) as [[g|] s5] eqn:E5;
        [|chain_preserves];
        destruct (generateAggregateSummary (String c r) now s5)
          as [[g'|] s6] eqn:E6; chain_preserves)).
  - destruct thoughtOutcome;
      try (destruct (generateAggregateSummary _ now s3) as [[g|] s5] eqn:E5);
      chain_preserves.
Qed.

(** ** Adding a thought *)

Section AddingThoughts.

Variable is_datetime : string -> bool.

(** The parent id of the arguments, when it is not empty, names a thought of
    the tree. *)
Local Abbreviation parent_resolves params tree :=
  (forall c r, param_parentId params = Some (String c r) ->
               is_Some (findThought (String c r) tree)).

Local Abbreviation parent_of_params params tree :=
  (match param_parentId params with
   | Some id => findThought id tree
   | None => None
   end).

Lemma or_string_not_empty (x : option string) (d : string) :
  d <> "" -> AnalysisSummarizer.or_string x d <> "".
Proof. intros Hd. destruct x as [[|c r]|]; cbn; congruence. Qed.

Lemma placeThought_tree (newThought : FractalThought)
    (parent : option FractalThought) (now : Z) (s : Server) :
  thoughtTree (placeThought newThought parent now s)
  = match parentId newThought, parent with
    | Some id, Some p => pushUnder id newThought (thoughtTree s)
    | _, _ => (thoughtTree s ++ [newThought])%list
    end.
Proof.
  unfold placeThought. cbv zeta.
  destruct (trackThoughtChange_rest (thoughtId newThought) false now
              (match parentId newThought, parent with
               | Some id, Some p =>
                   trackThoughtChange (thoughtId p) true now
                     (with_tree (pushUnder id newThought (thoughtTree s)) s)
               | _, _ => with_tree (thoughtTree s ++ [newThought])%list s
               end)) as (-> & _).
  destruct (parentId newThought) as [id|]; [|reflexivity].
  destruct parent as [p|]; [|reflexivity].
  destruct (trackThoughtChange_rest (thoughtId p) true now
              (with_tree (pushUnder id newThought (thoughtTree s)) s))
    as (-> & _).
  reflexivity.
Qed.

(** What [addThought] does, by cases: it rejects the arguments and leaves
    the state alone, or it places the new thought and reports. *)
Lemma addThought_cases (params : ThoughtParams) (uuid nowIso : string) (now : Z)
    (s : Server) :
  (validParams is_datetime params = false /\
   addThought is_datetime params uuid nowIso now s
   = (Rejected InvalidParameters, s))
  \/ (exists c r,
        validParams is_datetime params = true /\
        param_parentId params = Some (String c r) /\
        findThought (String c r) (thoughtTree s) = None /\
        addThought is_datetime params uuid nowIso now s
        = (Rejected (ParentNotFound (String c r)), s))
  \/ (validParams is_datetime params = true /\
      parent_resolves params (thoughtTree s) /\
      let newThought :=
        newThoughtOf params uuid nowIso
          (parent_of_params params (thoughtTree s)) in
      addThought is_datetime params uuid nowIso now s
      = reportAdded newThought now
          (placeThought newThought (parent_of_params params (thoughtTree s))
             now s) /\
      thoughtTree
        (placeThought newThought (parent_of_params params (thoughtTree s)) now s)
      = addedTo (param_parentId params) newThought (thoughtTree s)).
Proof.
  unfold addThought.
  destruct (validParams is_datetime params) eqn:Hvalid; cbn [negb];
    [|left; split; reflexivity].
  right. cbv zeta.
  destruct (param_parentId params) as [[|c r]|] eqn:Hparent.
  - right. split; [reflexivity|]. split; [intros c r E; discriminate|].
    change (findThought "" (thoughtTree s)) with (@None FractalThought).
    split; [reflexivity|].
    rewrite placeThought_tree. cbn [parentId newThoughtOf]. rewrite Hparent.
    reflexivity.
  - destruct (findThought (String c r) (thoughtTree s)) as [p|] eqn:Hfind.
    + right. split; [reflexivity|]. split.
      * intros c' r' E. injection E as <- <-. rewrite Hfind. eauto.
      * split; [reflexivity|].
        rewrite placeThought_tree. cbn [parentId newThoughtOf]. rewrite Hparent.
        reflexivity.
    + left. exists c, r. repeat split; assumption.
  - right. split; [reflexivity|]. split; [intros c r E; discriminate|].
    split; [reflexivity|].
    rewrite placeThought_tree. cbn [parentId newThoughtOf]. rewrite Hparent.
    reflexivity.
Qed.

Lemma placeThought_rest (newThought : FractalThought)
    (parent : option FractalThought) (now : Z) (s : Server) :
  cacheConfig (placeThought newThought parent now s) = cacheConfig s /\
  analysisCache (placeThought newThought parent now s) = analysisCache s /\
  aggregateCache (placeThought newThought parent now s) = aggregateCache s /\
  cacheStats (placeThought newThought parent now s) = cacheStats s.
Proof.
  unfold placeThought. cbv zeta.
  destruct (trackThoughtChange_rest (thoughtId newThought) false now
              (match parentId newThought, parent with
               | Some id, Some p =>
                   trackThoughtChange (thoughtId p) true now
                     (with_tree (pushUnder id newThought (thoughtTree s)) s)
               | _, _ => with_tree (thoughtTree s ++ [newThought])%list s
               end)) as (_ & -> & -> & -> & ->).
  destruct (parentId newThought) as [id|]; [|repeat split].
  destruct parent as [p|]; [|repeat split].
  destruct (trackThoughtChange_rest (thoughtId p) true now
              (with_tree (pushUnder id newThought (thoughtTree s)) s))
    as (_ & -> & -> & -> & ->).
  repeat split.
Qed.

Lemma validParams_depth (params : ThoughtParams) (d : Z) :
  validParams is_datetime params = true -> param_depth params = Some d -> 0 <= d.
Proof.
  unfold validParams. intros H E. rewrite E in H.
  apply andb_true_iff in H as [H _]. apply andb_true_iff in H as [_ H]. lia.
Qed.

Lemma newThoughtOf_depth (params : ThoughtParams) (uuid nowIso : string)
    (tree : list FractalThought) :
  validParams is_datetime params = true -> tree_ok tree ->
  0 <= depth (newThoughtOf params uuid nowIso (parent_of_params params tree)).
Proof.
  intros Hvalid (_ & _ & Hall). cbn [depth newThoughtOf].
  destruct (param_depth params) as [d|] eqn:Ed;
    [exact (validParams_depth params d Hvalid Ed)|].
  destruct (param_parentId params) as [id|]; [|lia].
  destruct (findThought id tree) as [p|] eqn:Hfind; [|lia].
  apply findThought_in in Hfind. rewrite List.Forall_forall in Hall.
  destruct (Hall p Hfind) as [_ Hd]. lia.
Qed.

(** Whatever [addThought] answers, the caches stay well formed, the tree
    keeps its shape and the configuration is not touched. *)
Lemma addThought_invariant (params : ThoughtParams) (uuid nowIso : string)
    (now : Z) (s : Server) :
  uuid <> "" -> state_ok s -> tree_ok (thoughtTree s) ->
  state_ok (snd (addThought is_datetime params uuid nowIso now s)) /\
  tree_ok (thoughtTree (snd (addThought is_datetime params uuid nowIso now s))) /\
  cacheConfig (snd (addThought is_datetime params uuid nowIso now s))
  = cacheConfig s.
Proof.
  intros Huuid Hs Ht.
  destruct (addThought_cases params uuid nowIso now s)
    as [[_ ->]|[(c & r & _ & _ & _ & ->)|(Hvalid & Hres & Hrest)]];
    try (cbn [snd]; split; [assumption | split; [assumption | reflexivity]]).
  cbv zeta in Hrest. destruct Hrest as [Hrun Htree]. rewrite Hrun.
  set (newThought := newThoughtOf params uuid nowIso
                       (parent_of_params params (thoughtTree s))) in *.
  set (s2 := placeThought newThought _ now s) in *.
  destruct (tree_ok_addedTo (param_parentId params) newThought (thoughtTree s) Ht)
    as [Ht2 Hins]; try reflexivity.
  { apply or_string_not_empty, Huuid. }
  { apply newThoughtOf_depth; assumption. }
  { exact Hres. }
  destruct (placeThought_rest newThought (parent_of_params params (thoughtTree s))
              now s) as (C2 & A2 & G2 & _).
  fold s2 in C2, A2, G2.
  assert (Hs2 : state_ok s2).
  { destruct Hs as (Hc & Hk & Hg & Hn & Hm).
    unfold state_ok, cache_ok, cache_keys_resolve, aggregates_resolve.
    rewrite A2, G2, Htree.
    split; [exact Hc|]. split; [|split; [|split; assumption]].
    - intros k H. apply (findThought_inserted newThought (thoughtTree s));
        [exact Hins | apply Hk, H].
    - intros k H. apply (findThought_inserted newThought (thoughtTree s));
        [exact Hins | apply Hg, H]. }
  destruct (reportAdded_preserves newThought now s2) as (T & C & H).
  split; [exact (H Hs2)|]. split; [rewrite T, Htree; exact Ht2|].
  rewrite C. exact C2.
Qed.

Lemma evictStaleEntries_shrinks (now : Z) (s : Server) :
  NoDup (dict_keys (analysisCache s)) ->
  NoDup (dict_keys (aggregateCache s)) ->
  cache_shrinks s (evictStaleEntries now s).
Proof.
  intros Ha Hg.
  destruct (evictStaleEntries_caches now s Ha Hg) as (EA & EG & ET & EC & _).
  split; [exact ET|]. split; [exact EC|]. rewrite EA, EG.
  split; [|split; [|split]].
  - intros k e H. apply (dict_get_filter _ _ _ _ Ha) in H as [H _].
    exists e. split; [exact H | apply same_content_refl].
  - intros k g H. apply (dict_get_filter _ _ _ _ Hg) in H as [H _]. exact H.
  - intros _. apply dict_keys_filter_NoDup, Ha.
  - intros _. apply dict_keys_filter_NoDup, Hg.
Qed.

Lemma updateCacheConfig_invariant (config : CacheConfigUpdate) (now : Z)
    (s : Server) :
  state_ok s ->
  state_ok (updateCacheConfig config now s) /\
  thoughtTree (updateCacheConfig config now s) = thoughtTree s.
Proof.
  intros Hs. unfold updateCacheConfig.
  set (s0 := with_config (merge_config (cacheConfig s) config) s).
  assert (Hs0 : state_ok s0) by exact Hs.
  pose proof (evictStaleEntries_shrinks now s0
                (proj1 (proj2 (proj2 (proj2 Hs0))))
                (proj2 (proj2 (proj2 (proj2 Hs0))))) as Hsh.
  split; [exact (state_ok_shrinks _ _ Hsh Hs0)|]. apply Hsh.
Qed.

Lemma tree_ok_initial (created : string) : tree_ok (thoughtTree (initial created)).
Proof.
  split; [reflexivity|]. split.
  - constructor; [split; reflexivity | constructor].
  - constructor; [|constructor]. split; [discriminate | reflexivity].
Qed.

Lemma api_step_invariant (s s' : Server) :
  api_step is_datetime s s' ->
  state_ok s -> tree_ok (thoughtTree s) ->
  state_ok s' /\ tree_ok (thoughtTree s').
Proof.
  intros Hstep Hs Ht. destruct Hstep as [params uuid nowIso now Huuid|id now|
    id now|id force now|config now].
  - destruct (addThought_invariant params uuid nowIso now s Huuid Hs Ht)
      as (H1 & H2 & _). split; assumption.
  - destruct (analyzeDepth_preserves id now s) as (T & _ & H).
    split; [exact (H Hs) | rewrite T; exact Ht].
  - destruct (cache_shrinks_preserves _ _ (getCachedSummary_shrinks id now s))
      as (T & _ & H).
    split; [exact (H Hs) | rewrite T; exact Ht].
  - destruct (getAggregateSummary_preserves id force now s) as (T & _ & H).
    split; [exact (H Hs) | rewrite T; exact Ht].
  - destruct (updateCacheConfig_invariant config now s Hs) as [H T].
    split; [exact H | rewrite T; exact Ht].
Qed.

(** Every state that the server reaches is well formed. *)
Lemma reachable_invariant (s : Server) :
  reachable is_datetime s -> state_ok s /\ tree_ok (thoughtTree s).
Proof.
  induction 1 as [created|s s' _ [Hs Ht] Hstep].
  - split; [apply state_ok_empty; reflexivity | apply tree_ok_initial].
  - exact (api_step_invariant s s' Hstep Hs Ht).
Qed.

End AddingThoughts.

(** ** What the analyses and the additions guarantee *)

Lemma analysis_ok_facts (a : FractalAnalysis) :
  analysis_ok a ->
  needsAttention a = false /\
  1 <= totalCount a /\ 0 <= unresolvedCount a <= totalCount a /\
  completionRatio a
  = fin (inject_Z (totalCount a - unresolvedCount a) / inject_Z (totalCount a)) /\
  status a
  = (if unresolvedCount a =? 0 then complete
     else if 7 * totalCount a <=? 10 * (totalCount a - unresolvedCount a)
          then partially_complete
          else incomplete).
Proof.
  intros (t & c & -> & Hrange & Hflag).
  split; [exact Hflag|]. split; [apply Hrange|]. split; [apply Hrange|].
  split; [exact (completionRatio_assemble t c Hrange)|].
  exact (status_assemble t c Hrange).
Qed.

(** X12: in a well-formed state (every state that the server reaches is one)
    an analysis that [analyzeDepth] returns never has the attention flag
    set.  Its counts are in range, totalCount is 0 exactly when the id names
    no thought, the completion ratio is the exact fraction
    (totalCount - unresolvedCount) / totalCount, between 0 and 1, and the
    status follows from the counts: "complete" when nothing is unresolved,
    otherwise "partially_complete" from seven tenths on, otherwise
    "incomplete". *)
Theorem returned_analysis_well_formed (id : string) (now : Z) (s : Server)
    (a : FractalAnalysis) :
  state_ok s ->
  fst (analyzeDepth id now s) = Returned a ->
  needsAttention a = false /\
  0 <= unresolvedCount a <= totalCount a /\
  (totalCount a = 0 <-> findThought id (thoughtTree s) = None) /\
  (exists q,
     completionRatio a = Fin q /\ (0 <= q <= 1)%Q /\
     (q * inject_Z (totalCount a)
      == inject_Z (totalCount a - unresolvedCount a))%Q) /\
  status a
  = (if totalCount a =? 0 then incomplete
     else if unresolvedCount a =? 0 then complete
     else if 7 * totalCount a <=? 10 * (totalCount a - unresolvedCount a)
          then partially_complete
          else incomplete).
Proof.
  intros Hs Hcall. destruct (analyzeDepth_ok id now s Hs) as (_ & Ho).
  rewrite Hcall in Ho. cbn [outcome_ok] in Ho.
  destruct (findThought id (thoughtTree s)) as [node|].
  - destruct (analysis_ok_facts a Ho) as (Hn & Ht & Hu & Hr & Hst).
    split; [exact Hn|]. split; [exact Hu|].
    split; [split; [lia | discriminate]|].
    split.
    + exists (Qred (inject_Z (totalCount a - unresolvedCount a)
                    / inject_Z (totalCount a))).
      split; [exact Hr|]. rewrite Qred_correct.
      destruct (totalCount a) as [|p|p] eqn:Et; [lia| |lia].
      rewrite Qdiv_inject_pos. split.
      * unfold Qle. simpl. split; lia.
      * unfold Qeq. simpl. lia.
    + rewrite Hst. destruct (Z.eqb_spec (totalCount a) 0); [lia | reflexivity].
  - subst a. cbn. split; [reflexivity|]. split; [lia|].
    split; [split; reflexivity|]. split; [|reflexivity].
    exists 0%Q. split; [reflexivity|]. split; [lra | reflexivity].
Qed.

Lemma returned_analysis_well_formed_witness :
  needsAttention Scenario.analysis_of_A = false /\
  status Scenario.analysis_of_A = incomplete.
Proof.
  destruct (returned_analysis_well_formed "A" 1000 Scenario.family
              Scenario.analysis_of_A)
    as (Hn & _ & _ & _ & Hst).
  - apply state_ok_empty; reflexivity.
  - vm_compute. reflexivity.
  - split; [exact Hn | rewrite Hst; reflexivity].
Defined.

(** X13: in a well-formed state [analyzeDepth] keeps the state well formed
    and leaves the tree and the configuration as they are, whether it
    returns or throws.  It throws, and leaves the state exactly as it was,
    when the id names an inherited member of the cache object and has no
    cache entry.  It does not throw when neither the id nor the id of a
    thought in the subtree that it names is such a name, and with
    non-negative finite expiration bounds it then returns an analysis
    (never [null]). *)
Theorem analyzeDepth_safe_on_plain_ids (id : string) (now : Z) (s : Server) :
  state_ok s ->
  state_ok (snd (analyzeDepth id now s)) /\
  thoughtTree (snd (analyzeDepth id now s)) = thoughtTree s /\
  cacheConfig (snd (analyzeDepth id now s)) = cacheConfig s /\
  (inherited id = true -> dict_get id (analysisCache s) = None ->
   analyzeDepth id now s = (Threw, s)) /\
  (inherited id = false ->
   (forall node, findThought id (thoughtTree s) = Some node ->
                 plain_ids (flatten node)) ->
   fst (analyzeDepth id now s) <> Threw /\
   (sane_expiration (cacheConfig s) = true ->
    exists a, fst (analyzeDepth id now s) = Returned a)).
Proof.
  intros Hs.
  destruct (analyzeDepth_preserves id now s) as (T & C & H).
  split; [exact (H Hs)|]. split; [exact T|]. split; [exact C|]. split.
  - intros Hid Hnone. unfold analyzeDepth.
    rewrite (getCachedAnalysis_inherited id now s Hnone Hid). reflexivity.
  - intros Hid Hplain. split.
    + exact (analyzeDepth_no_throw id now s (proj1 (proj2 Hs)) Hid Hplain).
    + intros Hsane.
      destruct (analyzeDepth_returns id now s (proj1 (proj2 Hs)) Hsane Hid Hplain)
        as (a & s' & E).
      exists a. rewrite E. reflexivity.
Qed.

Lemma analyzeDepth_safe_on_plain_ids_witness :
  analyzeDepth "toString" 1000 Scenario.family = (Threw, Scenario.family) /\
  fst (analyzeDepth "A" 1000 Scenario.family) <> Threw.
Proof.
  split.
  - destruct (analyzeDepth_safe_on_plain_ids "toString" 1000 Scenario.family)
      as (_ & _ & _ & H & _).
    + apply state_ok_empty; reflexivity.
    + exact (H eq_refl eq_refl).
  - destruct (analyzeDepth_safe_on_plain_ids "A" 1000 Scenario.family)
      as (_ & _ & _ & _ & H).
    + apply state_ok_empty; reflexivity.
    + destruct (H eq_refl) as [Hsafe _]; [|exact Hsafe].
      intros node Hnode. vm_compute in Hnode. injection Hnode as <-.
      repeat (constructor; [reflexivity|]). constructor.
Defined.

Lemma addedTo_inserted (parentId0 : option string) (child : FractalThought)
    (tree : list FractalThought) :
  subThoughts child = [] ->
  (forall c r, parentId0 = Some (String c r) ->
               is_Some (findThought (String c r) tree)) ->
  inserted child (thoughts_of tree) (thoughts_of (addedTo parentId0 child tree)).
Proof.
  intros Hleaf Hfound. unfold addedTo.
  destruct parentId0 as [[|c r]|]; try (apply appended_inserted, Hleaf).
  destruct (Hfound c r eq_refl) as [p Hp].
  exact (pushUnder_inserted _ child p tree Hleaf Hp).
Qed.


Lemma reportAdded_rejection (newThought : FractalThought) (now : Z)
    (s2 s' : Server) (f : AddFailure) :
  reportAdded newThought now s2 = (Rejected f, s') -> f = ErrorAddingThought.
Proof.
  unfold reportAdded. cbv zeta.
  destruct (analyzeDepth (thoughtId newThought) now s2) as [thoughtOutcome s3].
  destruct (parentId newThought) as [[|c r]|].
  - destruct thoughtOutcome;
      try (destruct (generateAggregateSummary _ now s3) as [[g|] s5]);
      intros H; congruence.
  - destruct (analyzeDepth (String c r) now s3) as [parentOutcome s4].
    destruct thoughtOutcome; try (intros H; congruence);
      (destruct parentOutcome; try (intros H; congruence);
       (destruct (generateAggregateSummary _ now s4) as [[g|] s5];
        try (intros H; congruence);
        destruct (generateAggregateSummary (String c r) now s5) as [[g'|] s6];
        intros H; congruence)).
  - destruct thoughtOutcome;
      try (destruct (generateAggregateSummary _ now s3) as [[g|] s5]);
      intros H; congruence.
Qed.


Section AddThoughtProperties.

Variable is_datetime : string -> bool.

(** X14: [addThought] rejects invalid arguments (an empty thought text, a
    negative depth, a creation date that is not a datetime) and a non-empty
    parent id that names no thought, and in these cases - in every case
    except an error raised after the thought was placed - the state is left
    exactly as it was. *)
Theorem addThought_rejects (params : ThoughtParams) (uuid nowIso : string)
    (now : Z) (s : Server) :
  (validParams is_datetime params = false ->
   addThought is_datetime params uuid nowIso now s
   = (Rejected InvalidParameters, s)) /\
  (forall c r,
     validParams is_datetime params = true ->
     param_parentId params = Some (String c r) ->
     findThought (String c r) (thoughtTree s) = None ->
     addThought is_datetime params uuid nowIso now s
     = (Rejected (ParentNotFound (String c r)), s)) /\
  (forall f s',
     addThought is_datetime params uuid nowIso now s = (Rejected f, s') ->
     f <> ErrorAddingThought -> s' = s).
Proof.
  destruct (addThought_cases is_datetime params uuid nowIso now s)
    as [[Hv E]|[(c & r & Hv & Hp & Hf & E)|(Hv & Hres & Hrest)]].
  - split; [intros _; exact E|]. split; [intros; congruence|].
    intros f s' H _. congruence.
  - split; [intros; congruence|]. split.
    + intros c' r' _ Hp' _. rewrite Hp in Hp'. injection Hp' as <- <-. exact E.
    + intros f s' H _. congruence.
  - cbv zeta in Hrest. destruct Hrest as [Hrun _].
    split; [intros; congruence|]. split.
    + intros c r _ Hp Hf. destruct (Hres c r Hp) as [x Hx]. congruence.
    + intros f s' H Hne. exfalso. apply Hne. rewrite Hrun in H.
      exact (reportAdded_rejection _ _ _ _ _ H).
Qed.


(** X16: every state that the server reaches through its public methods is
    well formed.  The first root is the thought "root"; roots name no
    parent and every other thought names the thought that holds it; ids are
    not empty and depths are not negative.  Every cached analysis sits
    under its own key, belongs to a thought of the tree, carries the compact
    summary of its analysis and has the attention flag unset; every
    aggregate summary belongs to a thought of the tree. *)
Theorem reachable_states_well_formed (s : Server) :
  reachable is_datetime s ->
  option_map thoughtId (head (thoughtTree s)) = Some "root" /\
  Forall (fun t => is_top t = true /\ well_linked t = true) (thoughtTree s) /\
  Forall (fun t => thoughtId t <> "" /\ 0 <= depth t)
    (thoughts_of (thoughtTree s)) /\
  (forall k e,
     dict_get k (analysisCache s) = Some e ->
     key e = k /\
     cached_summary e
     = AnalysisSummarizer.summarizeAnalysis (Some (fullAnalysis e)) /\
     needsAttention (fullAnalysis e) = false /\
     1 <= totalCount (fullAnalysis e) /\
     0 <= unresolvedCount (fullAnalysis e) <= totalCount (fullAnalysis e) /\
     is_Some (findThought k (thoughtTree s))) /\
  (forall k, is_Some (dict_get k (aggregateCache s)) ->
             is_Some (findThought k (thoughtTree s))).
Proof.
  intros Hreach.
  destruct (reachable_invariant is_datetime s Hreach)
    as [(Hc & Hk & Hg & _ & _) (Hhead & Hroots & Hall)].
  split; [exact Hhead|]. split; [exact Hroots|]. split; [exact Hall|].
  split; [|exact Hg].
  intros k e He. destruct (Hc k e He) as (Hkey & Hsum & Ha).
  destruct (analysis_ok_facts _ Ha) as (Hn & Ht & Hu & _).
  split; [exact Hkey|]. split; [exact Hsum|]. split; [exact Hn|].
  split; [exact Ht|]. split; [exact Hu|].
  apply Hk. exists e. exact He.
Qed.

(** X17: thoughts are never removed.  Across any call of a public method
    every id that resolved to a thought still resolves, and the number of
    thoughts stays the same or grows by one. *)
Theorem thoughts_never_removed (s s' : Server) :
  api_step is_datetime s s' ->
  (forall id, is_Some (findThought id (thoughtTree s)) ->
              is_Some (findThought id (thoughtTree s'))) /\
  (Zlength' (thoughts_of (thoughtTree s'))
   = Zlength' (thoughts_of (thoughtTree s))
   \/ Zlength' (thoughts_of (thoughtTree s'))
      = Zlength' (thoughts_of (thoughtTree s)) + 1).
Proof.
  intros Hstep.
  assert (Hsame : thoughtTree s' = thoughtTree s ->
                  (forall id, is_Some (findThought id (thoughtTree s)) ->
                              is_Some (findThought id (thoughtTree s'))) /\
                  (Zlength' (thoughts_of (thoughtTree s'))
                   = Zlength' (thoughts_of (thoughtTree s))
                   \/ Zlength' (thoughts_of (thoughtTree s'))
                      = Zlength' (thoughts_of (thoughtTree s)) + 1)).
  { intros ->. split; [trivial | left; reflexivity]. }
  destruct Hstep as [params uuid nowIso now Huuid|id now|id now|id force now|
    config now].
  - destruct (addThought_cases is_datetime params uuid nowIso now s)
      as [[_ E]|[(c & r & _ & _ & _ & E)|(_ & Hres & Hrest)]];
      try (apply Hsame; rewrite E; reflexivity).
    cbv zeta in Hrest. destruct Hrest as [Hrun Htree]. rewrite Hrun.
    destruct (reportAdded_preserves
                (newThoughtOf params uuid nowIso
                   match param_parentId params with
                   | Some id => findThought id (thoughtTree s)
                   | None => None
                   end) now
                (placeThought
                   (newThoughtOf params uuid nowIso
                      match param_parentId params with
                      | Some id => findThought id (thoughtTree s)
                      | None => None
                      end)
                   match param_parentId params with
                   | Some id => findThought id (thoughtTree s)
                   | None => None
                   end now s)) as (-> & _).
    rewrite Htree.
    pose proof (addedTo_inserted (param_parentId params)
                  (newThoughtOf params uuid nowIso
                     match param_parentId params with
                     | Some id => findThought id (thoughtTree s)
                     | None => None
                     end) (thoughtTree s) eq_refl Hres) as Hins.
    split.
    + intros id H. exact (findThought_inserted _ _ _ id Hins H).
    + right. unfold Zlength'. rewrite (inserted_length _ _ _ Hins). lia.
  - apply Hsame, analyzeDepth_tree.
  - apply Hsame, (getCachedSummary_shrinks id now s).
  - apply Hsame, (getAggregateSummary_preserves id force now s).
  - apply Hsame. unfold updateCacheConfig.
    rewrite evictStaleEntries_tree. reflexivity.
Qed.

End AddThoughtProperties.

Lemma addThought_rejects_witness :
  addThought (fun _ => true)
    (mkParams "" (Some "X") None (Some "root") false false None)
    "uuid" "2026-01-01T00:00:00.000Z" 1000 Scenario.family
  = (Rejected InvalidParameters, Scenario.family) /\
  addThought (fun _ => true)
    (mkParams "new" (Some "X") None (Some "Z") false false None)
    "uuid" "2026-01-01T00:00:00.000Z" 1000 Scenario.family
  = (Rejected (ParentNotFound "Z"), Scenario.family).
Proof.
  split.
  - apply (addThought_rejects (fun _ => true)). reflexivity.
  - apply (addThought_rejects (fun _ => true)); reflexivity.
Defined.


Lemma reachable_states_well_formed_witness :
  option_map thoughtId
    (head (thoughtTree
             (snd (analyzeDepth "root" 1000
                     (initial "2026-01-01T00:00:00.000Z")))))
  = Some "root".
Proof.
  apply (reachable_states_well_formed (fun _ => true)).
  eapply reachable_step; [apply reachable_initial|].
  apply step_analyzeDepth.
Defined.

Lemma thoughts_never_removed_witness :
  is_Some
    (findThought "root"
       (thoughtTree
          (snd (addThought (fun _ => true)
                  (mkParams "new" None None (Some "root") false false None)
                  "uuid" "2026-01-01T00:00:00.000Z" 1000
                  (initial "2026-01-01T00:00:00.000Z"))))).
Proof.
  apply (thoughts_never_removed (fun _ => true)
           (initial "2026-01-01T00:00:00.000Z")).
  - apply step_addThought. discriminate.
  - eexists. reflexivity.
Defined.

(** ** Inherited names and the cache *)

Lemma adds_plain_refl (s : Server) : adds_plain s s.
Proof. intros k H. left. exact H. Qed.

Lemma adds_plain_trans (s1 s2 s3 : Server) :
  adds_plain s1 s2 -> adds_plain s2 s3 -> adds_plain s1 s3.
Proof.
  intros H1 H2 k H. destruct (H2 k H) as [H'|H']; [apply H1, H' | right; exact H'].
Qed.

Lemma adds_plain_same (s s' : Server) :
  analysisCache s' = analysisCache s -> adds_plain s s'.
Proof. intros E k H. left. rewrite <- E. exact H. Qed.

Lemma cache_shrinks_adds_plain (s s' : Server) :
  cache_shrinks s s' -> adds_plain s s'.
Proof.
  intros (_ & _ & H & _) k [e He]. left.
  destruct (H k e He) as (e0 & -> & _). eauto.
Qed.

Lemma adds_plain_keys (s s' : Server) :
  adds_plain s s' -> keys_plain s -> keys_plain s'.
Proof. intros H Hs k Hk. destruct (H k Hk) as [H'|H']; [apply Hs, H' | exact H']. Qed.

Lemma analyzeDepth_adds_plain (id : string) (now : Z) (s : Server) :
  adds_plain s (snd (analyzeDepth id now s)).
Proof.
  intros k Hk.
  assert (Hkeys : is_Some (dict_get k (analysisCache s)) \/ k = id).
  { revert Hk. unfold analyzeDepth.
    pose proof (getCachedAnalysis_keys id now s) as Hkeys.
    destruct (getCachedAnalysis id now s) as [[[result|]|] s1]; cbn [snd] in *.
    - destruct (findThought id (thoughtTree s1)) as [node|];
        [|intros Hk; left; apply Hkeys, Hk].
      destruct (negb (hasNodeChanged node s1));
        [intros Hk; left; apply Hkeys, Hk|].
      intros Hk. apply analyzeDepth_recompute_keys in Hk as [Hk|[-> _]];
        [left; apply Hkeys, Hk | right; reflexivity].
    - intros Hk. apply analyzeDepth_recompute_keys in Hk as [Hk|[-> _]];
        [left; apply Hkeys, Hk | right; reflexivity].
    - intros Hk. apply analyzeDepth_recompute_keys in Hk as [Hk|[-> _]];
        [left; apply Hkeys, Hk | right; reflexivity]. }
  destruct Hkeys as [H| ->]; [left; exact H|].
  destruct (inherited id) eqn:Hid; [|right; reflexivity].
  left. destruct (dict_get id (analysisCache s)) as [e|] eqn:He; [eauto|].
  revert Hk. unfold analyzeDepth.
  rewrite (getCachedAnalysis_inherited id now s He Hid).
  unfold analyzeDepth_recompute. cbn [snd]. rewrite He. trivial.
Qed.

Lemma childSummary_adds_plain (id : string) (now : Z) (s : Server) :
  adds_plain s (snd (childSummary id now s)).
Proof.
  unfold childSummary.
  pose proof (cache_shrinks_adds_plain _ _ (getCachedSummary_shrinks id now s))
    as H1.
  destruct (getCachedSummary id now s) as [[[|c r]|] s1]; cbn [snd] in H1.
  - pose proof (analyzeDepth_adds_plain id now s1) as H2.
    destruct (analyzeDepth id now s1) as [[a| |] s2]; cbn [snd] in *;
      exact (adds_plain_trans _ _ _ H1 H2).
  - exact H1.
  - pose proof (analyzeDepth_adds_plain id now s1) as H2.
    destruct (analyzeDepth id now s1) as [[a| |] s2]; cbn [snd] in *;
      exact (adds_plain_trans _ _ _ H1 H2).
Qed.

Lemma collectChildSummaries_adds_plain (now : Z) (node : FractalThought) :
  forall st, adds_plain (snd st) (snd (collectChildSummaries node now st)).
Proof.
  induction node as [node IH] using FractalThought_ind. intros st.
  rewrite collectChildSummaries_unfold.
  apply (fold_left_invariant
           (fun acc : option (Dict string) * Server =>
              adds_plain (snd st) (snd acc))); [|apply adds_plain_refl].
  rewrite List.Forall_forall in IH. apply List.Forall_forall.
  intros child Hin [summaries s0] Hp. cbn [fst snd] in *.
  destruct summaries as [childSummaries|]; [|exact Hp].
  pose proof (childSummary_adds_plain (thoughtId child) now s0) as H1.
  destruct (childSummary (thoughtId child) now s0) as [[text|] s1];
    cbn [snd] in *.
  - pose proof (IH child Hin
                  (Some (dict_set (thoughtId child) text childSummaries), s1))
      as H2.
    cbn [snd] in H2.
    exact (adds_plain_trans _ _ _ Hp (adds_plain_trans _ _ _ H1 H2)).
  - exact (adds_plain_trans _ _ _ Hp H1).
Qed.

Lemma generateAggregateSummary_adds_plain (id : string) (now : Z) (s : Server) :
  adds_plain s (snd (generateAggregateSummary id now s)).
Proof.
  unfold generateAggregateSummary.
  destruct (findThought id (thoughtTree s)) as [thought|];
    [|apply adds_plain_refl].
  pose proof (analyzeDepth_adds_plain id now s) as H1.
  destruct (analyzeDepth id now s) as [outcome s1]. cbn [snd] in H1.
  pose proof (collectChildSummaries_adds_plain now thought (Some [], s1)) as H2.
  cbn [snd] in H2.
  destruct outcome as [a| |]; cbn [returned]; [| |exact H1].
  - destruct (collectChildSummaries thought now (Some [], s1))
      as [[childSummaries|] s2]; cbn [snd] in *;
      exact (adds_plain_trans _ _ _ H1 H2).
  - destruct (collectChildSummaries thought now (Some [], s1))
      as [[childSummaries|] s2]; cbn [snd] in *;
      exact (adds_plain_trans _ _ _ H1 H2).
Qed.

Lemma getAggregateSummary_adds_plain (id : string) (force : bool) (now : Z)
    (s : Server) :
  adds_plain s (snd (getAggregateSummary id force now s)).
Proof.
  unfold getAggregateSummary.
  destruct (dict_get id (aggregateCache s)) as [cached|];
    [|apply generateAggregateSummary_adds_plain].
  destruct (negb force && _); [apply adds_plain_refl|].
  apply generateAggregateSummary_adds_plain.
Qed.

(** Runs the calls of [reportAdded] one by one, keeping for each the fact
    that it caches nothing under an inherited name. *)
Ltac chain_adds_plain :=
  repeat match goal with
    | |- context [analyzeDepth ?id ?now ?s] =>
        let H := fresh "Hstep" in
        pose proof (analyzeDepth_adds_plain id now s) as H;
        destruct (analyzeDepth id now s) as [[?| |] ?]; cbn [snd] in H
    | |- context [generateAggregateSummary ?id ?now ?s] =>
        let H := fresh "Hstep" in
        pose proof (generateAggregateSummary_adds_plain id now s) as H;
        destruct (generateAggregateSummary id now s) as [[?|] ?]; cbn [snd] in H
    end;
  cbn [snd]; eauto using adds_plain_refl, adds_plain_trans.

Lemma reportAdded_adds_plain (newThought : FractalThought) (now : Z)
    (s2 : Server) :
  adds_plain s2 (snd (reportAdded newThought now s2)).
Proof.
  unfold reportAdded. cbv zeta.
  destruct (parentId newThought) as [[|c r]|]; chain_adds_plain.
Qed.

Lemma trackThoughtChange_recorded (id : string) (include : bool) (now : Z)
    (s : Server) :
  is_Some (changeTracker (trackThoughtChange id include now s) !! id).
Proof.
  rewrite trackThoughtChange_tracker. cbv zeta.
  destruct (parent_of id s) as [p|]; [|rewrite lookup_insert_eq; eauto].
  destruct (decide (p = id)) as [->|Hne]; [rewrite lookup_insert_eq; eauto|].
  rewrite lookup_insert_ne by exact Hne. rewrite lookup_insert_eq. eauto.
Qed.

Section PlainKeys.

Variable is_datetime : string -> bool.

Lemma addThought_adds_plain (params : ThoughtParams) (uuid nowIso : string)
    (now : Z) (s : Server) :
  adds_plain s (snd (addThought is_datetime params uuid nowIso now s)).
Proof.
  destruct (addThought_cases is_datetime params uuid nowIso now s)
    as [[_ ->]|[(c & r & _ & _ & _ & ->)|(_ & _ & Hrest)]];
    try apply adds_plain_refl.
  cbv zeta in Hrest. destruct Hrest as [-> _].
  eapply adds_plain_trans; [|apply reportAdded_adds_plain].
  apply adds_plain_same. apply placeThought_rest.
Qed.

Lemma api_step_adds_plain (s s' : Server) :
  api_step is_datetime s s' -> state_ok s -> adds_plain s s'.
Proof.
  intros Hstep Hs. destruct Hstep as [params uuid nowIso now Huuid|id now|
    id now|id force now|config now].
  - apply addThought_adds_plain.
  - apply analyzeDepth_adds_plain.
  - apply cache_shrinks_adds_plain, getCachedSummary_shrinks.
  - apply getAggregateSummary_adds_plain.
  - unfold updateCacheConfig.
    set (s0 := with_config (merge_config (cacheConfig s) config) s).
    apply (adds_plain_trans _ s0); [apply adds_plain_same; reflexivity|].
    apply cache_shrinks_adds_plain, evictStaleEntries_shrinks; apply Hs.
Qed.

(** No state that the server reaches holds a cached analysis under an
    inherited name: the read that precedes every store throws for such a
    name. *)
Lemma reachable_keys_plain (s : Server) :
  reachable is_datetime s -> keys_plain s.
Proof.
  induction 1 as [created|s s' Hreach IH Hstep].
  - intros k [e He]. discriminate.
  - apply (adds_plain_keys s s'); [|exact IH].
    apply api_step_adds_plain; [exact Hstep|].
    apply (reachable_invariant is_datetime s Hreach).
Qed.

(** X25: in every state that the server reaches through its public methods,
    no cached analysis sits under a name that the cache object inherits, and
    [analyzeDepth] of such a name throws and leaves the state as it was,
    whether or not the name is the id of a thought of the tree. *)
Theorem inherited_name_always_throws (id : string) (now : Z) (s : Server) :
  reachable is_datetime s ->
  inherited id = true ->
  dict_get id (analysisCache s) = None /\
  analyzeDepth id now s = (Threw, s).
Proof.
  intros Hreach Hid.
  assert (Hnone : dict_get id (analysisCache s) = None).
  { destruct (dict_get id (analysisCache s)) as [e|] eqn:He; [|reflexivity].
    pose proof (reachable_keys_plain s Hreach id) as H.
    rewrite He in H. rewrite H in Hid by eauto. discriminate. }
  split; [exact Hnone|].
  unfold analyzeDepth. rewrite (getCachedAnalysis_inherited id now s Hnone Hid).
  reflexivity.
Qed.

(** X26: a thought whose id names an inherited member of the cache object is
    added and reported as a failure.  For valid arguments whose parent id is
    empty, missing or names a thought, and whose own id is such a name
    without a cache entry (as in every state the server reaches), the new
    thought is placed in the tree and its change is recorded, the analysis
    that follows throws, and [addThought] returns the error result with the
    state as the placement left it. *)
Theorem addThought_inherited_id (params : ThoughtParams) (uuid nowIso : string)
    (now : Z) (s : Server) :
  validParams is_datetime params = true ->
  (forall c r, param_parentId params = Some (String c r) ->
               is_Some (findThought (String c r) (thoughtTree s))) ->
  inherited (AnalysisSummarizer.or_string (param_thoughtId params) uuid) = true ->
  dict_get (AnalysisSummarizer.or_string (param_thoughtId params) uuid)
    (analysisCache s) = None ->
  let parent :=
    match param_parentId params with
    | Some id => findThought id (thoughtTree s)
    | None => None
    end in
  let newThought := newThoughtOf params uuid nowIso parent in
  addThought is_datetime params uuid nowIso now s
  = (Rejected ErrorAddingThought, placeThought newThought parent now s) /\
  thoughtTree (placeThought newThought parent now s)
  = addedTo (param_parentId params) newThought (thoughtTree s) /\
  is_Some (changeTracker (placeThought newThought parent now s)
             !! thoughtId newThought) /\
  analysisCache (placeThought newThought parent now s) = analysisCache s.
Proof.
  intros Hvalid Hres Hid Hnone. cbv zeta.
  destruct (addThought_cases is_datetime params uuid nowIso now s)
    as [[Hv _]|[(c & r & _ & Hp & Hf & _)|(_ & _ & Hrest)]]; [congruence| |].
  { destruct (Hres c r Hp) as [x Hx]. congruence. }
  cbv zeta in Hrest. destruct Hrest as [Hrun Htree].
  set (parent := match param_parentId params with
                 | Some id => findThought id (thoughtTree s)
                 | None => None
                 end) in *.
  set (newThought := newThoughtOf params uuid nowIso parent) in *.
  destruct (placeThought_rest newThought parent now s) as (_ & A2 & _).
  split; [|split; [exact Htree|split; [|exact A2]]].
  - rewrite Hrun. unfold reportAdded. cbv zeta.
    assert (Hthrow : analyzeDepth (thoughtId newThought) now
                       (placeThought newThought parent now s)
                     = (Threw, placeThought newThought parent now s)).
    { unfold analyzeDepth.
      rewrite (getCachedAnalysis_inherited (thoughtId newThought) now _);
        [reflexivity | rewrite A2; exact Hnone | exact Hid]. }
    rewrite Hthrow. reflexivity.
  - unfold placeThought. cbv zeta. apply trackThoughtChange_recorded.
Qed.

End PlainKeys.

Lemma inherited_name_always_throws_witness :
  exists s,
    s = snd (addThought (fun _ => true)
               (mkParams "new" (Some "constructor") None (Some "root")
                  false false None)
               "uuid" "2026-01-01T00:00:00.000Z" 1000
               (initial "2026-01-01T00:00:00.000Z")) /\
    option_map thoughtId (findThought "constructor" (thoughtTree s))
    = Some "constructor" /\
    analyzeDepth "constructor" 2000 s = (Threw, s).
Proof.
  eexists. split; [reflexivity|]. split; [vm_compute; reflexivity|].
  apply (inherited_name_always_throws (fun _ => true)); [|reflexivity].
  eapply reachable_step; [apply reachable_initial|].
  apply step_addThought. discriminate.
Defined.

Lemma addThought_inherited_id_witness :
  exists s',
    addThought (fun _ => true)
      (mkParams "new" (Some "toString") None (Some "root") false false None)
      "uuid" "2026-01-01T00:00:00.000Z" 1000
      (initial "2026-01-01T00:00:00.000Z")
    = (Rejected ErrorAddingThought, s') /\
    option_map thoughtId (findThought "toString" (thoughtTree s'))
    = Some "toString".
Proof.
  eexists. split.
  - apply (addThought_inherited_id (fun _ => true)
             (mkParams "new" (Some "toString") None (Some "root") false false None)
             "uuid" "2026-01-01T00:00:00.000Z" 1000
             (initial "2026-01-01T00:00:00.000Z")).
    + reflexivity.
    + intros c r E. injection E as <- <-. eexists. reflexivity.
    + reflexivity.
    + reflexivity.
  - vm_compute. reflexivity.
Defined.

(** ** The counting pass of the server without a cache *)

Lemma addCounts_assoc (a b c : NodeCounts) :
  addCounts (addCounts a b) c = addCounts a (addCounts b c).
Proof.
  unfold addCounts. cbn. f_equal; [apply eq_sym, Z.max_assoc | lia | lia|].
  apply eq_sym, orb_assoc.
Qed.

Lemma fold_addCounts_shift (subs : list FractalThought) (a b : NodeCounts) :
  fold_left (fun acc sub => addCounts acc (subtreeCounts sub)) subs (addCounts a b)
  = addCounts a
      (fold_left (fun acc sub => addCounts acc (subtreeCounts sub)) subs b).
Proof.
  revert b. induction subs as [|sub r IH]; intros b; [reflexivity|].
  cbn [fold_left]. rewrite addCounts_assoc. apply IH.
Qed.

Lemma legacy_analyzeNode_unfold (node : FractalThought) (acc : NodeCounts) :
  Legacy.analyzeNode node acc
  = fold_left (fun acc sub => Legacy.analyzeNode sub acc) (subThoughts node)
      {| counts_maxDepth := Z.max (counts_maxDepth acc) (depth node);
         counts_unresolvedCount :=
           if isComplete node then counts_unresolvedCount acc
           else counts_unresolvedCount acc + 1;
         counts_totalCount := counts_totalCount acc + 1;
         hasUnresolvedWithDeeperAnalysis :=
           if negb (isComplete node) && needsDeeperAnalysis node then true
           else hasUnresolvedWithDeeperAnalysis acc |}.
Proof. destruct node; reflexivity. Qed.

Lemma legacy_fold_counts (subs : list FractalThought) :
  Forall (fun sub => forall acc acc',
            same_counts acc acc' ->
            same_counts (Legacy.analyzeNode sub acc)
                        (addCounts acc' (subtreeCounts sub))) subs ->
  forall acc acc',
    same_counts acc acc' ->
    same_counts
      (fold_left (fun acc sub => Legacy.analyzeNode sub acc) subs acc)
      (fold_left (fun acc sub => addCounts acc (subtreeCounts sub)) subs acc').
Proof.
  induction 1 as [|sub r Hsub _ IH]; intros acc acc' Hrel; [exact Hrel|].
  cbn [fold_left]. apply IH, Hsub, Hrel.
Qed.

Lemma legacy_analyzeNode_counts (node : FractalThought) :
  forall acc acc',
    same_counts acc acc' ->
    same_counts (Legacy.analyzeNode node acc) (addCounts acc' (subtreeCounts node)).
Proof.
  induction node as [node IH] using FractalThought_ind. intros acc acc' Hrel.
  rewrite legacy_analyzeNode_unfold, subtreeCounts_unfold, <- fold_addCounts_shift.
  apply (legacy_fold_counts _ IH).
  destruct Hrel as (Hm & Hu & Ht). unfold same_counts, addCounts, ownCounts. cbn.
  rewrite Hm, Hu, Ht. repeat split. destruct (isComplete node); lia.
Qed.

Lemma legacy_fold_flag (subs : list FractalThought) :
  Forall (fun sub => forall acc,
            hasUnresolvedWithDeeperAnalysis (Legacy.analyzeNode sub acc)
            = hasUnresolvedWithDeeperAnalysis acc
              || existsb calls_for_attention (flatten sub)) subs ->
  forall acc,
    hasUnresolvedWithDeeperAnalysis
      (fold_left (fun acc sub => Legacy.analyzeNode sub acc) subs acc)
    = hasUnresolvedWithDeeperAnalysis acc
      || existsb calls_for_attention (flat_map flatten subs).
Proof.
  induction 1 as [|sub r Hsub _ IH]; intros acc; cbn [fold_left flat_map existsb].
  - rewrite orb_false_r. reflexivity.
  - rewrite IH, Hsub, existsb_app, orb_assoc. reflexivity.
Qed.

Lemma legacy_analyzeNode_flag (node : FractalThought) :
  forall acc,
    hasUnresolvedWithDeeperAnalysis (Legacy.analyzeNode node acc)
    = hasUnresolvedWithDeeperAnalysis acc
      || existsb calls_for_attention (flatten node).
Proof.
  induction node as [node IH] using FractalThought_ind. intros acc.
  rewrite legacy_analyzeNode_unfold, (legacy_fold_flag _ IH), flatten_unfold.
  cbn [hasUnresolvedWithDeeperAnalysis existsb]. unfold calls_for_attention at 2.
  destruct (negb (isComplete node) && needsDeeperAnalysis node);
    destruct (hasUnresolvedWithDeeperAnalysis acc); reflexivity.
Qed.

(** X18: the two servers count alike and differ on the attention flag.  For
    a thought whose subtree holds no id that names an inherited member of
    the cache object, an analysis that the caching server computes with
    nothing in its cache reports the maximum depth, the unresolved count and
    the total count that the counting pass of the server without a cache
    computes for the same thought; but that pass raises the flag behind
    needsAttention exactly when some thought below the analysed one is
    incomplete and needs deeper analysis, while the caching server never
    raises it. *)
Theorem cached_counts_agree_with_uncached (id : string) (node : FractalThought)
    (now : Z) (s : Server) :
  analysisCache s = [] ->
  findThought id (thoughtTree s) = Some node ->
  plain_ids (flatten node) ->
  sane_expiration (cacheConfig s) = true ->
  exists a s',
    analyzeDepth id now s = (Returned a, s') /\
    maxDepth a = counts_maxDepth (Legacy.countThoughts node) /\
    unresolvedCount a = counts_unresolvedCount (Legacy.countThoughts node) /\
    totalCount a = counts_totalCount (Legacy.countThoughts node) /\
    needsAttention a = false /\
    hasUnresolvedWithDeeperAnalysis (Legacy.countThoughts node)
    = existsb calls_for_attention (flat_map flatten (subThoughts node)).
Proof.
  intros Hempty Hfind Hplain Hsane.
  destruct (analyzeDepth_fresh id node now s Hempty Hfind Hsane
              (findThought_plain id _ node Hfind Hplain) Hplain) as (s' & ->).
  eexists _, s'. split; [reflexivity|].
  cbn [assembleAnalysis maxDepth unresolvedCount totalCount needsAttention].
  assert (Hc : same_counts (Legacy.countThoughts node) (subtreeCounts node)).
  { unfold Legacy.countThoughts. rewrite subtreeCounts_unfold.
    apply legacy_fold_counts; [|repeat split].
    apply List.Forall_forall. intros sub _. apply legacy_analyzeNode_counts. }
  destruct Hc as (Hm & Hu & Ht).
  split; [symmetry; exact Hm|]. split; [symmetry; exact Hu|].
  split; [symmetry; exact Ht|]. split; [apply subtreeCounts_no_attention|].
  unfold Legacy.countThoughts. rewrite legacy_fold_flag; [reflexivity|].
  apply List.Forall_forall. intros sub _. apply legacy_analyzeNode_flag.
Qed.

Lemma cached_counts_agree_with_uncached_witness :
  exists a s',
    analyzeDepth "root" 1000 Scenario.family = (Returned a, s') /\
    totalCount a = counts_totalCount (Legacy.countThoughts (Scenario.root_with [Scenario.A])) /\
    needsAttention a = false.
Proof.
  destruct (cached_counts_agree_with_uncached "root"
              (Scenario.root_with [Scenario.A]) 1000 Scenario.family
              eq_refl eq_refl)
    as (a & s' & E & _ & _ & Ht & Hn & _).
  - repeat (constructor; [reflexivity|]). constructor.
  - reflexivity.
  - exists a, s'. split; [exact E|]. split; [exact Ht | exact Hn].
Defined.

(** ** The change records that an analysis touches *)

Lemma markAnalyzed_tracker (id : string) (now : Z) (s : Server) :
  changeTracker (markAnalyzed id now s)
  = match changeTracker s !! id with
    | Some r =>
        <[id := {| lastModified := lastModified r; subthoughtChanges := false;
                   lastAnalysis := now |}]> (changeTracker s)
    | None => changeTracker s
    end.
Proof. unfold markAnalyzed. destruct (changeTracker s !! id); reflexivity. Qed.

(** The recomputation marks the thought as analysed exactly when it finds
    the thought and runs to its end. *)
Lemma analyzeDepth_recompute_tracker (id : string)
    (cached : Result (option FractalAnalysis)) (now : Z) (s : Server) :
  (is_Some (findThought id (thoughtTree s)) ->
   fst (analyzeDepth_recompute id cached now s) <> Threw ->
   changeTracker (snd (analyzeDepth_recompute id cached now s))
   = changeTracker (markAnalyzed id now s)) /\
  (findThought id (thoughtTree s) = None
   \/ fst (analyzeDepth_recompute id cached now s) = Threw ->
   changeTracker (snd (analyzeDepth_recompute id cached now s))
   = changeTracker s).
Proof.
  unfold analyzeDepth_recompute.
  destruct cached as [previous|].
  2:{ split; [intros _ H; exfalso; apply H; reflexivity | reflexivity]. }
  destruct (findThought id (thoughtTree s)) as [node|].
  2:{ split; [intros [x Hx]; discriminate | reflexivity]. }
  pose proof (analyzeNodeIncremental_store node previous now s)
    as (_ & _ & K1).
  destruct (analyzeNodeIncremental node previous now s) as [[counts|] s1].
  2:{ cbn [fst snd] in *.
      split; [intros _ H; exfalso; apply H; reflexivity | intros _; exact K1]. }
  cbn [snd] in K1. cbv zeta.
  set (s3 := cacheAnalysis _ _ _ _).
  assert (K3 : changeTracker s3 = changeTracker (markAnalyzed id now s1))
    by apply (cacheAnalysis_store id (assembleAnalysis node counts) now
                (markAnalyzed id now s1)).
  assert (Hown : is_Some (dict_get id (analysisCache s3))).
  { subst s3. unfold cacheAnalysis.
    cbn [analysisCache refresh_totalSize with_stats with_analysisCache].
    rewrite dict_get_set_eq. eauto. }
  pose proof (getCachedAnalysis_store id now s3) as (_ & _ & K4).
  destruct (getCachedAnalysis_returns id now s3 (or_intror Hown)) as [c Hc].
  assert (Hmark : changeTracker (markAnalyzed id now s)
                  = changeTracker (markAnalyzed id now s1))
    by (rewrite !markAnalyzed_tracker, K1; reflexivity).
  destruct (getCachedAnalysis id now s3) as [read s4]. cbn [fst snd] in *.
  subst read. destruct c as [result|]; cbn [fst snd].
  - split; [intros _ _; congruence | intros [H|H]; discriminate].
  - split; [intros _ _; congruence | intros [H|H]; discriminate].
Qed.

Lemma served_from_cache_returns (id : string) (now : Z) (s : Server) :
  served_from_cache id now s = true ->
  exists a,
    fst (getCachedAnalysis id now s) = Ok (Some a) /\
    analyzeDepth id now s = (Returned a, snd (getCachedAnalysis id now s)).
Proof.
  unfold served_from_cache, analyzeDepth.
  pose proof (getCachedAnalysis_store id now s) as Hstore.
  pose proof Hstore as (T & _ & K).
  destruct (getCachedAnalysis id now s) as [[[a|]|] s1]; cbn [fst snd] in *;
    try discriminate.
  rewrite T. destruct (findThought id (thoughtTree s)) as [node|];
    [|discriminate].
  rewrite (hasNodeChanged_same_store node s s1 Hstore).
  intros ->. exists a. split; reflexivity.
Qed.

(** X19: an analysis touches no change record but that of the analysed id,
    and it creates none.  A missing record stays missing (so a thought
    without a record, such as the root of a new server, is recomputed at
    every call).  The record of the analysed id is left as it is when the
    analysis is served from the cache (the first read is a hit for a
    thought that reads as unchanged), when the id names no thought and when
    the call throws; in every other case, that is when the analysis of a
    thought of the tree is recomputed to its end, an existing record keeps
    its modification time, gets the time of the call as its analysis time
    and has its subtree flag cleared.  The thoughts below the analysed one
    are not marked as analysed. *)
Theorem analyzeDepth_touches_own_record (id : string) (now : Z) (s : Server) :
  let s' := snd (analyzeDepth id now s) in
  (forall k, k <> id -> changeTracker s' !! k = changeTracker s !! k) /\
  (changeTracker s !! id = None -> changeTracker s' !! id = None) /\
  (served_from_cache id now s = true ->
   (exists a,
      fst (getCachedAnalysis id now s) = Ok (Some a) /\
      fst (analyzeDepth id now s) = Returned a) /\
   changeTracker s' !! id = changeTracker s !! id) /\
  (findThought id (thoughtTree s) = None
   \/ fst (analyzeDepth id now s) = Threw ->
   changeTracker s' !! id = changeTracker s !! id) /\
  (forall r,
     changeTracker s !! id = Some r ->
     served_from_cache id now s = false ->
     is_Some (findThought id (thoughtTree s)) ->
     fst (analyzeDepth id now s) <> Threw ->
     changeTracker s' !! id
     = Some {| lastModified := lastModified r; subthoughtChanges := false;
               lastAnalysis := now |}).
Proof.
  cbv zeta.
  assert (Hserved : served_from_cache id now s = true ->
            (exists a,
               fst (getCachedAnalysis id now s) = Ok (Some a) /\
               fst (analyzeDepth id now s) = Returned a) /\
            changeTracker (snd (analyzeDepth id now s)) = changeTracker s).
  { intros H. destruct (served_from_cache_returns id now s H) as (a & Ha & E).
    split; [exists a; split; [exact Ha | rewrite E; reflexivity]|].
    rewrite E. cbn [snd]. apply (getCachedAnalysis_store id now s). }
  assert (Hrest : served_from_cache id now s = false ->
            (is_Some (findThought id (thoughtTree s)) ->
             fst (analyzeDepth id now s) <> Threw ->
             changeTracker (snd (analyzeDepth id now s))
             = changeTracker (markAnalyzed id now s)) /\
            (findThought id (thoughtTree s) = None
             \/ fst (analyzeDepth id now s) = Threw ->
             changeTracker (snd (analyzeDepth id now s)) = changeTracker s)).
  { unfold served_from_cache, analyzeDepth.
    pose proof (getCachedAnalysis_store id now s) as Hstore.
    pose proof Hstore as (T & _ & K).
    destruct (getCachedAnalysis id now s) as [read s1]. cbn [fst snd] in *.
    assert (Hrecompute :
      (is_Some (findThought id (thoughtTree s)) ->
       fst (analyzeDepth_recompute id read now s1) <> Threw ->
       changeTracker (snd (analyzeDepth_recompute id read now s1))
       = changeTracker (markAnalyzed id now s)) /\
      (findThought id (thoughtTree s) = None
       \/ fst (analyzeDepth_recompute id read now s1) = Threw ->
       changeTracker (snd (analyzeDepth_recompute id read now s1))
       = changeTracker s)).
    { destruct (analyzeDepth_recompute_tracker id read now s1) as [H1 H2].
      rewrite T in H1, H2. split.
      - intros Hf Ht. rewrite (H1 Hf Ht), !markAnalyzed_tracker, K. reflexivity.
      - intros H. rewrite (H2 H). exact K. }
    destruct read as [[a|]|]; try (intros _; exact Hrecompute).
    rewrite T. destruct (findThought id (thoughtTree s)) as [node|] eqn:Hfind.
    - rewrite (hasNodeChanged_same_store node s s1 Hstore).
      destruct (hasNodeChanged node s); cbn [negb];
        [intros _; exact Hrecompute | discriminate].
    - intros _. cbn [fst snd]. split; [intros [x Hx]; discriminate|].
      intros _. exact K. }
  split; [|split; [|split; [|split]]].
  - intros k Hk. destruct (served_from_cache id now s) eqn:E.
    + destruct (Hserved eq_refl) as [_ ->]. reflexivity.
    + destruct (Hrest eq_refl) as [H1 H2].
      destruct (findThought id (thoughtTree s)) as [node|] eqn:Hfind;
        [|rewrite H2 by (left; reflexivity); reflexivity].
      destruct (fst (analyzeDepth id now s)) eqn:Ho;
        [| |rewrite H2 by (right; reflexivity); reflexivity];
        (rewrite H1 by (eauto || discriminate));
        rewrite markAnalyzed_tracker;
        (destruct (changeTracker s !! id); [|reflexivity]);
        apply lookup_insert_ne; congruence.
  - intros Hnone. destruct (served_from_cache id now s) eqn:E.
    + destruct (Hserved eq_refl) as [_ ->]. exact Hnone.
    + destruct (Hrest eq_refl) as [H1 H2].
      destruct (findThought id (thoughtTree s)) as [node|] eqn:Hfind;
        [|rewrite H2 by (left; reflexivity); exact Hnone].
      destruct (fst (analyzeDepth id now s)) eqn:Ho;
        [| |rewrite H2 by (right; reflexivity); exact Hnone];
        (rewrite H1 by (eauto || discriminate));
        rewrite markAnalyzed_tracker, Hnone; exact Hnone.
  - intros H. destruct (Hserved H) as [Ha ->]. split; [exact Ha | reflexivity].
  - intros H. destruct (served_from_cache id now s) eqn:E.
    + destruct (Hserved eq_refl) as [_ ->]. reflexivity.
    + destruct (Hrest eq_refl) as [_ H2]. rewrite (H2 H). reflexivity.
  - intros r Hr E Hfound Hsafe. destruct (Hrest E) as [H1 _].
    rewrite (H1 Hfound Hsafe), markAnalyzed_tracker, Hr.
    apply lookup_insert_eq.
Qed.

Lemma analyzeDepth_touches_own_record_witness :
  changeTracker (snd (analyzeDepth "A" 1000 Scenario.family_tracked)) !! "A"
  = Some {| lastModified := 300; subthoughtChanges := false;
            lastAnalysis := 1000 |} /\
  changeTracker
    (snd (analyzeDepth "A" 2000
            (snd (analyzeDepth "A" 1000 Scenario.family_tracked)))) !! "A"
  = changeTracker (snd (analyzeDepth "A" 1000 Scenario.family_tracked)) !! "A".
Proof.
  split.
  - destruct (analyzeDepth_touches_own_record "A" 1000 Scenario.family_tracked)
      as (_ & _ & _ & _ & H).
    apply (H {| lastModified := 300; subthoughtChanges := true;
                lastAnalysis := 0 |}).
    + reflexivity.
    + reflexivity.
    + eexists. reflexivity.
    + vm_compute. discriminate.
  - destruct (analyzeDepth_touches_own_record "A" 2000
                (snd (analyzeDepth "A" 1000 Scenario.family_tracked)))
      as (_ & _ & H & _).
    destruct H as [_ H]; [vm_compute; reflexivity | exact H].
Defined.

(** ** The pattern traversal *)

Section SortBy.

Context {A : Type} (before : A -> A -> bool) (le : A -> A -> Prop).
Hypothesis before_le : forall x y, before x y = true -> le x y.
Hypothesis not_before_le : forall x y, before x y = false -> le y x.
Hypothesis le_trans : forall x y z, le x y -> le y z -> le x z.

Lemma sort_insert_permutation (x : A) (l : list A) :
  Permutation (sort_insert before x l) (x :: l).
Proof.
  induction l as [|y r IH]; cbn [sort_insert]; [reflexivity|].
  destruct (before x y); [reflexivity|].
  rewrite IH. apply perm_swap.
Qed.

Lemma stable_sort_permutation (l : list A) :
  Permutation (stable_sort before l) l.
Proof.
  unfold stable_sort.
  assert (H : forall acc,
            Permutation
              (fold_left (fun sorted x => sort_insert before x sorted) l acc)
              (l ++ acc)).
  { induction l as [|x r IH]; intros acc; cbn [fold_left]; [reflexivity|].
    rewrite IH, sort_insert_permutation. symmetry. apply Permutation_middle. }
  rewrite H, app_nil_r. reflexivity.
Qed.

Lemma sort_insert_sorted_by (x : A) (l : list A) :
  StronglySorted le l -> StronglySorted le (sort_insert before x l).
Proof using before_le not_before_le le_trans.
  induction 1 as [|y r Hr IH Hy]; cbn [sort_insert].
  - repeat constructor.
  - destruct (before x y) eqn:E.
    + apply before_le in E. constructor; [constructor; assumption|].
      constructor; [exact E|].
      eapply Forall_impl; [exact Hy|]. cbv beta. intros z Hz.
      exact (le_trans _ _ _ E Hz).
    + apply not_before_le in E. constructor; [exact IH|].
      rewrite (sort_insert_permutation x r). constructor; assumption.
Qed.

Lemma stable_sort_sorted_by (l : list A) :
  StronglySorted le (stable_sort before l).
Proof using before_le not_before_le le_trans.
  unfold stable_sort.
  assert (H : forall acc, StronglySorted le acc ->
            StronglySorted le
              (fold_left (fun sorted x => sort_insert before x sorted) l acc)).
  { induction l as [|x r IH]; intros acc Hacc; cbn [fold_left]; [exact Hacc|].
    apply IH, sort_insert_sorted_by, Hacc. }
  apply H. constructor.
Qed.

End SortBy.

Lemma distinct_snoc (l : list Z) (x : Z) :
  distinct (l ++ [x]) = set_add Z.eqb x (distinct l).
Proof. unfold distinct. rewrite fold_left_app. reflexivity. Qed.

Lemma In_set_add_string (k x : string) (s : list string) :
  In k (set_add String.eqb x s) -> In k s \/ k = x.
Proof.
  unfold set_add. destruct (existsb (String.eqb x) s); [left; assumption|].
  intros H. apply in_app_or in H as [H|[H|[]]]; [left; exact H | right; congruence].
Qed.

Lemma dict_get_set_some {V : Type} (k k' : string) (v : V) (d : Dict V) :
  is_Some (dict_get k' d) -> is_Some (dict_get k' (dict_set k v d)).
Proof.
  intros H. destruct (String.eqb_spec k k') as [<-|Hne].
  - rewrite dict_get_set_eq. eauto.
  - rewrite dict_get_set_ne by exact Hne. exact H.
Qed.

Lemma keys_grow_refl (st : PatternState) : keys_grow st st.
Proof. intros k H. exact H. Qed.

Lemma keys_grow_trans (st1 st2 st3 : PatternState) :
  keys_grow st1 st2 -> keys_grow st2 st3 -> keys_grow st1 st3.
Proof. intros H12 H23 k H. apply H23, H12, H. Qed.

Lemma record_pattern_ok (P : EvolutionStep -> Prop) (t : FractalThought)
    (parentPattern : option string) (st : PatternState) (p : PatternType) :
  (forall v, P {| step_depth := depth t; variation := v;
                  step_confidence := occurrence_confidence t |}) ->
  patterns_ok P st ->
  patterns_ok P (record_pattern t parentPattern st p) /\
  keys_grow st (record_pattern t parentPattern st p) /\
  (forall k, In k (snd st) -> In k (snd (record_pattern t parentPattern st p))).
Proof.
  intros HP Hok. destruct st as [patterns siblingPatterns].
  unfold record_pattern.
  destruct (pt_test p t);
    [|split; [exact Hok | split; [apply keys_grow_refl | trivial]]].
  set (key := match parentPattern with
              | Some (String c r) => String c r +:+ "->" +:+ pt_type p
              | _ => pt_type p
              end).
  set (variation := match find (fun v => snd v t) (pt_variations p) with
                    | Some v => fst v
                    | None => "basic"
                    end).
  destruct Hok as (Hdata & Hsib & Hnd). cbn [fst snd] in *.
  split; [|split].
  - split; [|split]; cbn [fst snd].
    + intros k d. destruct (String.eqb_spec key k) as [<-|Hne].
      2:{ rewrite dict_get_set_ne by exact Hne. apply Hdata. }
      rewrite dict_get_set_eq. intros H. injection H as <-.
      assert (Hexisting :
        match dict_get key patterns with
        | Some d => data_ok P d
        | None => existsb (String.eqb key) siblingPatterns = false
        end).
      { destruct (dict_get key patterns) as [d|] eqn:E; [exact (Hdata key d E)|].
        apply not_true_iff_false. intros H.
        apply existsb_exists in H as (k & Hin & Hk).
        apply String.eqb_eq in Hk. subst k.
        destruct (Hsib key Hin) as [x Hx]. congruence. }
      destruct (dict_get key patterns) as [d|].
      * destruct Hexisting as (Ho & H1 & Hs & Hc & Hall).
        unfold data_ok. cbn [data_occurrences data_scales data_evolution
                             data_crossBranchOccurrences].
        split; [rewrite Ho; unfold Zlength'; rewrite length_app; cbn [length]; lia|].
        split; [lia|].
        split; [rewrite map_app; cbn [map step_depth]; rewrite distinct_snoc, Hs;
                reflexivity|].
        split; [destruct (existsb _ _); lia|].
        apply Forall_app. split; [exact Hall|]. constructor; [apply HP | constructor].
      * rewrite Hexisting.
        unfold data_ok. cbn [data_occurrences data_scales data_evolution
                             data_crossBranchOccurrences empty_data app map].
        split; [reflexivity|]. split; [lia|]. split; [reflexivity|].
        split; [lia|]. constructor; [apply HP | constructor].
    + intros k Hin. apply In_set_add_string in Hin as [Hin| ->].
      * apply dict_get_set_some, Hsib, Hin.
      * rewrite dict_get_set_eq. eauto.
    + apply dict_set_NoDup, Hnd.
  - intros k H. cbn [fst] in *. apply dict_get_set_some, H.
  - intros k Hin. cbn [snd]. unfold set_add.
    destruct (existsb _ _); [exact Hin | apply in_or_app; left; exact Hin].
Qed.

Lemma record_fold_ok (P : EvolutionStep -> Prop) (t : FractalThought)
    (parentPattern : option string) (types : list PatternType) :
  (forall v, P {| step_depth := depth t; variation := v;
                  step_confidence := occurrence_confidence t |}) ->
  forall st,
    patterns_ok P st ->
    patterns_ok P (fold_left (record_pattern t parentPattern) types st) /\
    keys_grow st (fold_left (record_pattern t parentPattern) types st).
Proof.
  intros HP. induction types as [|p r IH]; intros st Hok; cbn [fold_left].
  - split; [exact Hok | apply keys_grow_refl].
  - destruct (record_pattern_ok P t parentPattern st p HP Hok) as (H1 & H2 & _).
    destruct (IH _ H1) as [H3 H4].
    split; [exact H3 | exact (keys_grow_trans _ _ _ H2 H4)].
Qed.

Lemma analyzePatternRecursively_unfold (t : FractalThought)
    (parentPattern : option string) (st : PatternState) :
  analyzePatternRecursively t parentPattern st
  = let '(patterns, siblingPatterns) :=
      fold_left (record_pattern t parentPattern) patternTypes st in
    let visited :=
      fold_left
        (fun inner sub =>
           analyzePatternRecursively sub (first_key (fst inner)) inner)
        (subThoughts t) (patterns, []) in
    (fst visited, siblingPatterns).
Proof. destruct t; reflexivity. Qed.

(** The traversal keeps its state consistent and loses no key, when the
    steps recorded at the thoughts of the subtree satisfy [P]. *)
Lemma analyzePatternRecursively_ok (P : EvolutionStep -> Prop)
    (t : FractalThought) :
  (forall x v, In x (flatten t) ->
               P {| step_depth := depth x; variation := v;
                    step_confidence := occurrence_confidence x |}) ->
  forall parentPattern st,
    patterns_ok P st ->
    patterns_ok P (analyzePatternRecursively t parentPattern st) /\
    keys_grow st (analyzePatternRecursively t parentPattern st).
Proof.
  induction t as [t IH] using FractalThought_ind. intros HP parentPattern st Hok.
  rewrite analyzePatternRecursively_unfold.
  destruct (record_fold_ok P t parentPattern patternTypes) with (st := st)
    as [H1 G1]; [|exact Hok|].
  { intros v. apply HP. rewrite flatten_unfold. left. reflexivity. }
  destruct (fold_left (record_pattern t parentPattern) patternTypes st)
    as [patterns siblingPatterns].
  cbv zeta.
  set (visited := fold_left _ (subThoughts t) (patterns, [])).
  assert (Hvisited : patterns_ok P visited /\ keys_grow (patterns, []) visited).
  { subst visited.
    apply (fold_left_invariant
             (fun inner : PatternState =>
                patterns_ok P inner /\ keys_grow (patterns, []) inner)).
    2:{ split; [|apply keys_grow_refl].
        destruct H1 as (Hd & _ & Hn). split; [exact Hd|].
        split; [intros k []|exact Hn]. }
    apply List.Forall_forall. intros sub Hsub inner [Hin Hgrow].
    rewrite List.Forall_forall in IH.
    destruct (IH sub Hsub) with (parentPattern := first_key (fst inner))
                                (st := inner) as [H2 G2]; [|exact Hin|].
    { intros x v Hx. apply HP. rewrite flatten_unfold. right.
      apply in_flat_map. exists sub. split; assumption. }
    split; [exact H2 | exact (keys_grow_trans _ _ _ Hgrow G2)]. }
  destruct Hvisited as [(Hd & _ & Hn) Hgrow]. split.
  - split; [exact Hd|]. split; [|exact Hn]. cbn [fst snd].
    intros k Hk. apply (Hgrow k). apply (proj1 (proj2 H1)), Hk.
  - intros k Hk. apply (Hgrow k), G1, Hk.
Qed.

(** ** Numbers that stay finite *)

Lemma nonneg_fin (q : Q) : (0 <= q)%Q -> nonneg (fin q).
Proof.
  intros H. exists (Qred q). split; [reflexivity|]. rewrite Qred_correct. exact H.
Qed.

Lemma nonneg_of_Z (z : Z) : 0 <= z -> nonneg (of_Z z).
Proof.
  intros H. exists (inject_Z z). split; [reflexivity|].
  change 0%Q with (inject_Z 0). rewrite <- Zle_Qle. exact H.
Qed.

Lemma above_zero_of_Z (z : Z) : 0 < z -> above_zero (of_Z z).
Proof.
  intros H. exists (inject_Z z). split; [reflexivity|].
  change 0%Q with (inject_Z 0). rewrite <- Zlt_Qlt. exact H.
Qed.

Lemma nonneg_add (x y : number) : nonneg x -> nonneg y -> nonneg (add x y).
Proof.
  intros (a & -> & Ha) (b & -> & Hb). cbn [add]. apply nonneg_fin. lra.
Qed.

Lemma above_zero_add (x y : number) :
  nonneg x -> above_zero y -> above_zero (add x y).
Proof.
  intros (a & -> & Ha) (b & -> & Hb). cbn [add].
  exists (Qred (a + b)). split; [reflexivity|]. rewrite Qred_correct. lra.
Qed.

Lemma nonneg_mul (x y : number) : nonneg x -> nonneg y -> nonneg (mul x y).
Proof.
  intros (a & -> & Ha) (b & -> & Hb). cbn [mul]. apply nonneg_fin.
  apply Qmult_le_0_compat; assumption.
Qed.

Lemma above_zero_mul (x y : number) :
  above_zero x -> above_zero y -> above_zero (mul x y).
Proof.
  intros (a & -> & Ha) (b & -> & Hb). cbn [mul].
  exists (Qred (a * b)). split; [reflexivity|]. rewrite Qred_correct.
  apply Qmult_lt_0_compat; assumption.
Qed.

Lemma nonneg_div (x y : number) : nonneg x -> above_zero y -> nonneg (div x y).
Proof.
  intros (a & -> & Ha) (b & -> & Hb). cbn [div].
  destruct (Qeq_bool b 0) eqn:E; [apply Qeq_bool_eq in E; lra|].
  apply nonneg_fin. apply Qle_shift_div_l; [exact Hb | lra].
Qed.

Lemma unit_interval_nonneg (x : number) : unit_interval x -> nonneg x.
Proof. intros (q & -> & Hq). exists q. split; [reflexivity | lra]. Qed.

Lemma min_one_unit_interval (x : number) :
  nonneg x -> unit_interval (min (of_Z 1) x).
Proof.
  intros (a & -> & Ha). unfold of_Z. cbn [min gtb].
  destruct (Qltb a (inject_Z 1)) eqn:E.
  - apply Qltb_lt in E. exists a. split; [reflexivity|].
    change (inject_Z 1) with 1%Q in E. lra.
  - exists (inject_Z 1). split; [reflexivity|].
    change (inject_Z 1) with 1%Q. lra.
Qed.

Lemma nonneg_num_sum (l : list number) : Forall nonneg l -> nonneg (num_sum l).
Proof.
  unfold num_sum. intros H.
  assert (G : forall acc, nonneg acc -> nonneg (fold_left add l acc)).
  { induction H as [|x r Hx _ IH]; intros acc Hacc; cbn [fold_left];
      [exact Hacc|]. apply IH, nonneg_add; assumption. }
  apply G, nonneg_of_Z. lia.
Qed.

Lemma nonneg_max (x y : number) : nonneg x -> nonneg y -> nonneg (max x y).
Proof.
  intros (a & -> & Ha) (b & -> & Hb). cbn [max gtb].
  destruct (Qltb a b); [exists b | exists a]; split; reflexivity || assumption.
Qed.

Lemma nonneg_max_list (l : list number) :
  Forall nonneg l -> l <> [] -> nonneg (max_list l).
Proof.
  intros H Hne. destruct H as [|x r Hx Hr]; [congruence|].
  unfold max_list. cbn [fold_left].
  assert (E : max NInf x = x) by (destruct Hx as (a & -> & _); reflexivity).
  rewrite E. clear E Hne. revert x Hx.
  induction Hr as [|y r Hy _ IH]; intros x Hx; cbn [fold_left]; [exact Hx|].
  apply IH, nonneg_max; assumption.
Qed.

Lemma Zsum_fold (l : list Z) (a : Z) : fold_left Z.add l a = a + Zsum l.
Proof.
  unfold Zsum. revert a. induction l as [|x r IH]; intros a; cbn [fold_left];
    [lia|]. rewrite IH, (IH (0 + x)). lia.
Qed.

Lemma Zsum_nonneg (l : list Z) : Forall (fun x => 0 <= x) l -> 0 <= Zsum l.
Proof.
  induction 1 as [|x r Hx _ IH]; [unfold Zsum; simpl; lia|].
  unfold Zsum. cbn [fold_left]. rewrite Zsum_fold. lia.
Qed.

Lemma Zsum_map_nonneg {A : Type} (f : A -> Z) (l : list A) :
  (forall x, In x l -> 0 <= f x) -> 0 <= Zsum (map f l).
Proof.
  intros H. apply Zsum_nonneg, List.Forall_forall. intros z Hz.
  apply in_map_iff in Hz as (x & <- & Hx). apply H, Hx.
Qed.

Lemma Zlength'_nonneg {A : Type} (l : list A) : 0 <= Zlength' l.
Proof. unfold Zlength'. lia. Qed.

(** The mean of values between [a] and [b] lies between [a] and [b]. *)
Lemma Qsum_bounds (a b : Q) (l : list Q) :
  Forall (fun x => (a <= x <= b)%Q) l ->
  (a * inject_Z (Zlength' l) <= Qsum l <= b * inject_Z (Zlength' l))%Q.
Proof.
  induction 1 as [|x r Hx _ IH].
  - change (Qsum []) with 0%Q. change (inject_Z (Zlength' [])) with 0%Q. lra.
  - rewrite Qsum_cons. unfold Zlength' in *. cbn [length].
    rewrite Nat2Z.inj_succ, <- Z.add_1_r, inject_Z_plus.
    change (inject_Z 1) with 1%Q.
    generalize dependent (inject_Z (Z.of_nat (length r))). intros n IH.
    cbv beta in Hx. lra.
Qed.

Lemma mean_bounds (a b : Q) (l : list Q) :
  Forall (fun x => (a <= x <= b)%Q) l -> l <> [] ->
  (a <= Qsum l / inject_Z (Z.max 1 (Zlength' l)) <= b)%Q.
Proof.
  intros H Hne. pose proof (Qsum_bounds a b l H) as Hs.
  assert (Hlen : 1 <= Zlength' l).
  { destruct l; [congruence|]. unfold Zlength'. cbn [length]. lia. }
  rewrite Z.max_r by exact Hlen.
  assert (Hpos : (0 < inject_Z (Zlength' l))%Q).
  { change 0%Q with (inject_Z 0). rewrite <- Zlt_Qlt. lia. }
  split.
  - apply Qle_shift_div_l; [exact Hpos | lra].
  - apply Qle_shift_div_r; [exact Hpos | lra].
Qed.

(** ** The patterns of a thought *)

Lemma patterns_ok_empty (P : EvolutionStep -> Prop) :
  patterns_ok P (([], []) : PatternState).
Proof.
  split; [intros k d H; discriminate|].
  split; [intros k []|]. cbn [fst dict_keys map]. constructor.
Qed.

Lemma type_of_data (d : Dict PatternData) :
  map type (map pattern_of_data d) = dict_keys d.
Proof.
  unfold dict_keys. rewrite map_map. apply map_ext. intros [k v]. reflexivity.
Qed.

Lemma confidence_order_trans (a b c : RecursivePattern) :
  (confidence b <= confidence a)%Q -> (confidence c <= confidence b)%Q ->
  (confidence c <= confidence a)%Q.
Proof. intros H1 H2. lra. Qed.

(** What [identifyRecursivePatterns] returns, when the steps recorded at the
    thoughts of the subtree satisfy [P]. *)
Lemma identifyRecursivePatterns_records (P : EvolutionStep -> Prop)
    (node : FractalThought) :
  (forall x v, In x (flatten node) ->
               P {| step_depth := depth x; variation := v;
                    step_confidence := occurrence_confidence x |}) ->
  NoDup (map type (identifyRecursivePatterns node)) /\
  StronglySorted (fun a b => (confidence b <= confidence a)%Q)
    (identifyRecursivePatterns node) /\
  Forall (fun p => exists k d, p = pattern_of_data (k, d) /\ data_ok P d)
    (identifyRecursivePatterns node).
Proof.
  intros HP. unfold identifyRecursivePatterns.
  destruct (analyzePatternRecursively_ok P node HP None ([], [])
              (patterns_ok_empty P)) as [(Hd & _ & Hn) _].
  set (dict := fst (analyzePatternRecursively node None ([], []))) in *.
  set (before := fun a b : RecursivePattern => Qltb (confidence b) (confidence a)).
  pose proof (stable_sort_permutation before (map pattern_of_data dict)) as Hperm.
  split; [|split].
  - assert (Hkeys : Permutation
                      (map type (stable_sort before (map pattern_of_data dict)))
                      (dict_keys dict)).
    { rewrite <- type_of_data. apply Permutation_map, Hperm. }
    rewrite Hkeys. exact Hn.
  - apply stable_sort_sorted_by.
    + intros x y H. apply Qltb_lt in H. lra.
    + intros x y H. apply Qltb_ge in H. exact H.
    + intros x y z. apply confidence_order_trans.
  - apply List.Forall_forall. intros p Hp.
    apply (Permutation_in _ Hperm) in Hp.
    apply in_map_iff in Hp as ([k d] & <- & Hin).
    exists k, d. split; [reflexivity|].
    apply (Hd k). apply In_dict_get; assumption.
Qed.

Lemma step_of_own (node x : FractalThought) (v : string) :
  In x (flatten node) ->
  step_of node {| step_depth := depth x; variation := v;
                  step_confidence := occurrence_confidence x |}.
Proof. intros Hx. exists x. split; [exact Hx|]. split; reflexivity. Qed.

(** X20: the patterns found below a thought have pairwise different keys and
    come in order of decreasing confidence; each one counts one evolution
    step per occurrence, at least one, every step recorded at a thought of
    the subtree; its scales are the distinct depths of its steps; and it has
    fewer cross-branch occurrences than occurrences. *)
Theorem identifyRecursivePatterns_well_formed (node : FractalThought) :
  NoDup (map type (identifyRecursivePatterns node)) /\
  StronglySorted (fun a b => (confidence b <= confidence a)%Q)
    (identifyRecursivePatterns node) /\
  Forall
    (fun p =>
       occurrences p = Zlength' (evolution p) /\
       1 <= occurrences p /\
       scales p = distinct (map step_depth (evolution p)) /\
       0 <= crossBranchOccurrences p < occurrences p /\
       Forall (step_of node) (evolution p))
    (identifyRecursivePatterns node).
Proof.
  destruct (identifyRecursivePatterns_records (step_of node) node)
    as (Hnd & Hsorted & Hall).
  { intros x v Hx. apply step_of_own, Hx. }
  split; [exact Hnd|]. split; [exact Hsorted|].
  eapply Forall_impl; [exact Hall|]. cbv beta.
  intros p (k & d & -> & Hd). exact Hd.
Qed.

(** *** Which thoughts have patterns *)

Lemma record_fold_own (P : EvolutionStep -> Prop) (t : FractalThought)
    (p : PatternType) (types : list PatternType) :
  (forall v, P {| step_depth := depth t; variation := v;
                  step_confidence := occurrence_confidence t |}) ->
  In p types -> pt_test p t = true ->
  forall st,
    patterns_ok P st ->
    is_Some (dict_get (pt_type p) (fst (fold_left (record_pattern t None) types st))).
Proof.
  intros HP. induction types as [|q r IH]; intros Hin Htest st Hok; [destruct Hin|].
  cbn [fold_left].
  destruct (record_pattern_ok P t None st q HP Hok) as (H1 & _ & _).
  destruct Hin as [->|Hin]; [|exact (IH Hin Htest _ H1)].
  destruct (record_fold_ok P t None r HP _ H1) as [_ Hgrow].
  apply Hgrow. destruct st as [patterns siblingPatterns].
  unfold record_pattern. rewrite Htest. cbn [fst].
  rewrite dict_get_set_eq. eauto.
Qed.

Lemma visit_children_keys (t : FractalThought) (patterns : Dict PatternData) :
  patterns_ok (fun _ => True) (patterns, []) ->
  keys_grow (patterns, [])
    (fold_left
       (fun inner sub => analyzePatternRecursively sub (first_key (fst inner)) inner)
       (subThoughts t) (patterns, [])).
Proof.
  intros Hok.
  refine (proj2 (fold_left_invariant
            (fun inner : PatternState =>
               patterns_ok (fun _ => True) inner /\ keys_grow (patterns, []) inner)
            _ _ _ _ _)).
  2:{ split; [exact Hok | apply keys_grow_refl]. }
  apply List.Forall_forall. intros sub _ inner [Hin Hgrow].
  destruct (analyzePatternRecursively_ok (fun _ => True) sub)
    with (parentPattern := first_key (fst inner)) (st := inner) as [H2 G2];
    [trivial | exact Hin |].
  split; [exact H2 | exact (keys_grow_trans _ _ _ Hgrow G2)].
Qed.

Lemma own_pattern_found (node : FractalThought) (p : PatternType) :
  In p patternTypes -> pt_test p node = true ->
  In (pt_type p) (map type (identifyRecursivePatterns node)).
Proof.
  intros Hin Htest.
  unfold identifyRecursivePatterns.
  set (before := fun a b : RecursivePattern => Qltb (confidence b) (confidence a)).
  eapply Permutation_in.
  { symmetry. apply Permutation_map, stable_sort_permutation. }
  rewrite type_of_data, analyzePatternRecursively_unfold.
  pose proof (record_fold_own (fun _ => True) node p patternTypes
                (fun _ => I) Hin Htest ([], []) (patterns_ok_empty _)) as Hown.
  destruct (record_fold_ok (fun _ => True) node None patternTypes
              (fun _ => I) ([], []) (patterns_ok_empty _)) as [Hok _].
  destruct (fold_left (record_pattern node None) patternTypes ([], []))
    as [patterns siblingPatterns].
  cbv zeta. cbn [fst] in *.
  assert (Hok' : patterns_ok (fun _ => True) (patterns, [])).
  { destruct Hok as (Hd & _ & Hn). split; [exact Hd|].
    split; [intros k []|exact Hn]. }
  destruct (visit_children_keys node patterns Hok' (pt_type p) Hown) as [d Hd].
  apply dict_get_In in Hd. unfold dict_keys.
  apply in_map_iff. exists (pt_type p, d). split; [reflexivity | exact Hd].
Qed.

(** X21: a thought has no pattern exactly when it is an incomplete leaf that
    needs no deeper analysis.  A thought with sub-thoughts has the pattern
    "expansion", a complete one "completion", one that needs deeper analysis
    "deepening". *)
Theorem identifyRecursivePatterns_empty_iff (node : FractalThought) :
  (identifyRecursivePatterns node = [] <->
   subThoughts node = [] /\ isComplete node = false /\
   needsDeeperAnalysis node = false) /\
  (subThoughts node <> [] ->
   In "expansion" (map type (identifyRecursivePatterns node))) /\
  (isComplete node = true ->
   In "completion" (map type (identifyRecursivePatterns node))) /\
  (needsDeeperAnalysis node = true ->
   In "deepening" (map type (identifyRecursivePatterns node))).
Proof.
  assert (Hexp : subThoughts node <> [] ->
                 In "expansion" (map type (identifyRecursivePatterns node))).
  { intros Hsub.
    apply (own_pattern_found node (nth 0 patternTypes (mkPatternType "" isLeaf []))).
    - left. reflexivity.
    - cbn [nth patternTypes pt_test]. unfold childCount, Zlength'.
      destruct (subThoughts node); [congruence|]. cbn [length]. apply Z.ltb_lt. lia. }
  assert (Hcom : isComplete node = true ->
                 In "completion" (map type (identifyRecursivePatterns node))).
  { intros H.
    apply (own_pattern_found node (nth 1 patternTypes (mkPatternType "" isLeaf []))).
    - right. left. reflexivity.
    - exact H. }
  assert (Hdeep : needsDeeperAnalysis node = true ->
                  In "deepening" (map type (identifyRecursivePatterns node))).
  { intros H.
    apply (own_pattern_found node (nth 2 patternTypes (mkPatternType "" isLeaf []))).
    - right. right. left. reflexivity.
    - exact H. }
  split; [|split; [exact Hexp | split; [exact Hcom | exact Hdeep]]].
  split.
  - intros Hnil. rewrite Hnil in Hexp, Hcom, Hdeep. cbn [map In] in *.
    split; [|split].
    + destruct (subThoughts node); [reflexivity|]. exfalso. apply Hexp. congruence.
    + destruct (isComplete node); [exfalso; apply Hcom|]; reflexivity.
    + destruct (needsDeeperAnalysis node); [exfalso; apply Hdeep|]; reflexivity.
  - intros (H1 & H2 & H3). apply bare_leaf_has_no_pattern; assumption.
Qed.

(** ** Confidence and strengths *)

Lemma min_one_range (q : Q) : (0 <= q)%Q -> (0 <= min_one q <= 1)%Q.
Proof.
  intros H. unfold min_one. destruct (Qltb q 1) eqn:E; [|lra].
  apply Qltb_lt in E. lra.
Qed.

Lemma ratio_nonneg (z : Z) (d : Q) : 0 <= z -> (0 < d)%Q -> (0 <= inject_Z z / d)%Q.
Proof.
  intros Hz Hd. apply Qle_shift_div_l; [exact Hd|].
  assert (H : (0 <= inject_Z z)%Q).
  { change 0%Q with (inject_Z 0). rewrite <- Zle_Qle. exact Hz. }
  lra.
Qed.

Lemma occurrence_confidence_range (t : FractalThought) :
  0 <= depth t -> (3 # 10 <= occurrence_confidence t <= 1)%Q.
Proof.
  intros Hd. unfold occurrence_confidence.
  pose proof (min_one_range (inject_Z (depth t) / 5)
                (ratio_nonneg _ 5 Hd ltac:(lra))) as H1.
  assert (H2 : (0 <= (if 0 <? childCount t
                      then min_one (inject_Z (childCount t) / 4) else 0) <= 1)%Q).
  { destruct (0 <? childCount t); [|lra].
    apply min_one_range, ratio_nonneg; [apply Zlength'_nonneg | lra]. }
  cbv zeta.
  generalize dependent (min_one (inject_Z (depth t) / 5)). intros a Ha.
  generalize dependent (if 0 <? childCount t
                        then min_one (inject_Z (childCount t) / 4) else 0%Q).
  intros b Hb.
  assert (H3 : (1 # 2 <= (if isComplete t then 1 else 1 # 2) <= 1)%Q)
    by (destruct (isComplete t); lra).
  assert (H4 : (7 # 10 <= (if needsDeeperAnalysis t then 7 # 10 else 1) <= 1)%Q)
    by (destruct (needsDeeperAnalysis t); lra).
  generalize dependent (if isComplete t then 1%Q else (1 # 2)%Q). intros c Hc.
  generalize dependent (if needsDeeperAnalysis t then (7 # 10)%Q else 1%Q).
  intros d Hd'.
  unfold Qdiv. change (/ 4)%Q with (1 # 4)%Q. lra.
Qed.

(** X22: below a thought whose subtree has no negative depth, the confidence
    of every pattern found lies between 0.3 and 1. *)
Theorem pattern_confidence_range (node : FractalThought) :
  Forall (fun t => 0 <= depth t) (flatten node) ->
  Forall (fun p => (3 # 10 <= confidence p <= 1)%Q)
    (identifyRecursivePatterns node).
Proof.
  intros Hdepth. rewrite List.Forall_forall in Hdepth.
  destruct (identifyRecursivePatterns_records
              (fun step => (3 # 10 <= step_confidence step <= 1)%Q) node)
    as (_ & _ & Hall).
  { intros x v Hx. cbn [step_confidence].
    apply occurrence_confidence_range, Hdepth, Hx. }
  eapply Forall_impl; [exact Hall|]. cbv beta.
  intros p (k & d & -> & Ho & H1 & _ & _ & Hsteps).
  cbn [pattern_of_data confidence].
  replace (Zlength' (data_evolution d))
    with (Zlength' (map step_confidence (data_evolution d)))
    by (unfold Zlength'; rewrite length_map; reflexivity).
  apply mean_bounds.
  - apply List.Forall_forall. intros q Hq.
    apply in_map_iff in Hq as (step & <- & Hstep).
    rewrite List.Forall_forall in Hsteps. exact (Hsteps step Hstep).
  - intros Hnil. apply map_eq_nil in Hnil. rewrite Hnil in Ho.
    change (Zlength' []) with 0 in Ho. lia.
Qed.

(** *** The strengths *)

Lemma distinct_In (l : list Z) (x : Z) : In x (distinct l) <-> In x l.
Proof.
  unfold distinct.
  assert (H : forall acc,
            In x (fold_left (fun s d => set_add Z.eqb d s) l acc)
            <-> In x l \/ In x acc).
  { induction l as [|y r IH]; intros acc; cbn [fold_left].
    - cbn [In]. tauto.
    - rewrite IH. cbn [In]. unfold set_add.
      destruct (existsb (Z.eqb y) acc) eqn:E.
      + apply existsb_exists in E as (z & Hz & Hyz). apply Z.eqb_eq in Hyz.
        subst z. split; [tauto|]. intros [[<-|H]|H]; tauto.
      + rewrite in_app_iff. cbn [In]. tauto. }
  rewrite H. cbn [In]. tauto.
Qed.

Lemma pattern_sane_of_data (k : string) (d : PatternData) :
  data_ok (fun step => 0 <= step_depth step) d ->
  pattern_sane (pattern_of_data (k, d)).
Proof.
  intros (Ho & H1 & Hs & Hc & Hsteps). unfold pattern_sane.
  cbn [pattern_of_data occurrences crossBranchOccurrences scales].
  split; [exact H1|]. split; [lia|]. split.
  - destruct (data_evolution d) as [|step r] eqn:E.
    { change (Zlength' []) with 0 in Ho. lia. }
    intros Hnil. assert (Hin : In (step_depth step) (data_scales d)).
    { rewrite Hs. apply distinct_In. left. reflexivity. }
    rewrite Hnil in Hin. destruct Hin.
  - apply List.Forall_forall. intros z Hz. rewrite Hs in Hz.
    apply distinct_In, in_map_iff in Hz as (step & <- & Hstep).
    rewrite List.Forall_forall in Hsteps. exact (Hsteps step Hstep).
Qed.

Lemma identifyRecursivePatterns_sane (node : FractalThought) :
  Forall (fun t => 0 <= depth t) (flatten node) ->
  Forall pattern_sane (identifyRecursivePatterns node).
Proof.
  intros Hdepth. rewrite List.Forall_forall in Hdepth.
  destruct (identifyRecursivePatterns_records
              (fun step => 0 <= step_depth step) node) as (_ & _ & Hall).
  { intros x v Hx. cbn [step_depth]. apply Hdepth, Hx. }
  eapply Forall_impl; [exact Hall|]. cbv beta.
  intros p (k & d & -> & Hd). apply pattern_sane_of_data, Hd.
Qed.

Lemma nonneg_Fin (q : Q) : (0 <= q)%Q -> nonneg (Fin q).
Proof. intros H. exists q. split; [reflexivity | exact H]. Qed.

Lemma maxScale_nonneg (patterns : list RecursivePattern) :
  Forall pattern_sane patterns -> patterns <> [] ->
  nonneg (max_list (map of_Z (flat_map scales patterns))).
Proof.
  intros Hsane Hne. apply nonneg_max_list.
  - apply List.Forall_forall. intros x Hx.
    apply in_map_iff in Hx as (z & <- & Hz).
    apply in_flat_map in Hz as (p & Hp & Hz).
    rewrite List.Forall_forall in Hsane.
    destruct (Hsane p Hp) as (_ & _ & _ & Hscales).
    rewrite List.Forall_forall in Hscales. apply nonneg_of_Z, Hscales, Hz.
  - destruct patterns as [|p r]; [congruence|].
    apply List.Forall_cons_iff in Hsane as [(_ & _ & Hs & _) _].
    cbn [flat_map]. destruct (scales p); [congruence|]. discriminate.
Qed.

Lemma calculateInteractionStrength_range (patterns : list RecursivePattern)
    (names : list string) (depthRange : number) :
  Forall pattern_sane patterns -> names <> [] -> above_zero depthRange ->
  unit_interval (calculateInteractionStrength patterns names depthRange).
Proof.
  intros Hsane Hnames Hrange. unfold calculateInteractionStrength.
  set (relevant := List.filter _ patterns).
  assert (Hrel : forall p, In p relevant -> pattern_sane p).
  { intros p Hp. apply List.filter_In in Hp as [Hp _].
    rewrite List.Forall_forall in Hsane. exact (Hsane p Hp). }
  assert (Hn : above_zero (of_Z (Zlength' names))).
  { apply above_zero_of_Z. destruct names; [congruence|].
    unfold Zlength'. cbn [length]. lia. }
  apply min_one_unit_interval.
  repeat apply nonneg_add; apply nonneg_mul; try (apply nonneg_Fin; lra);
    apply nonneg_div;
    try (apply above_zero_mul; [first [exact Hrange | apply above_zero_of_Z; lia]
                               | exact Hn]);
    apply nonneg_of_Z, Zsum_map_nonneg; intros p Hp.
  - destruct (Hrel p Hp) as (H1 & _). lia.
  - apply Zlength'_nonneg.
  - destruct (Hrel p Hp) as (_ & H2 & _). exact H2.
  - apply Zlength'_nonneg.
Qed.

Lemma pair_property_range (patterns : list RecursivePattern)
    (depthRange : number) (name first second : string) :
  Forall pattern_sane patterns -> above_zero depthRange ->
  Forall (fun e => unit_interval (strength e) /\
                   incl (relatedPatterns e) (map type patterns))
    (pair_property patterns depthRange name first second).
Proof.
  intros Hsane Hrange. unfold pair_property.
  destruct (_ && _); [|constructor].
  constructor; [|constructor]. cbn [strength relatedPatterns]. split.
  - apply calculateInteractionStrength_range; [exact Hsane | discriminate | exact Hrange].
  - intros k Hk. apply in_map_iff in Hk as (p & <- & Hp).
    apply List.filter_In in Hp as [Hp _]. apply in_map, Hp.
Qed.

Lemma filtered_types (f : RecursivePattern -> bool)
    (patterns : list RecursivePattern) :
  incl (map type (List.filter f patterns)) (map type patterns).
Proof.
  intros k Hk. apply in_map_iff in Hk as (p & <- & Hp).
  apply List.filter_In in Hp as [Hp _]. apply in_map, Hp.
Qed.

Lemma identifyEmergentProperties_range (node : FractalThought)
    (patterns : list RecursivePattern) :
  Forall pattern_sane patterns ->
  Forall (fun e => unit_interval (strength e) /\
                   incl (relatedPatterns e) (map type patterns))
    (identifyEmergentProperties node patterns).
Proof.
  intros Hsane. destruct patterns as [|p0 r] eqn:Hps; [constructor|].
  rewrite <- Hps in *. assert (Hne : patterns <> []) by (rewrite Hps; discriminate).
  clear Hps.
  assert (Hrange : above_zero
            (add (max_list (map of_Z (flat_map scales patterns))) (of_Z 1))).
  { apply above_zero_add; [apply maxScale_nonneg; assumption|].
    apply above_zero_of_Z. lia. }
  assert (Hcount : above_zero (of_Z (Zlength' patterns))).
  { apply above_zero_of_Z. destruct patterns; [congruence|].
    unfold Zlength'. cbn [length]. lia. }
  unfold identifyEmergentProperties. cbv zeta.
  repeat (apply Forall_app; split);
    try (apply pair_property_range; assumption).
  - destruct (existsb _ patterns); [|constructor].
    constructor; [|constructor]. cbn [strength relatedPatterns].
    split; [|apply filtered_types].
    apply min_one_unit_interval, nonneg_div; [|exact Hcount].
    apply nonneg_num_sum, List.Forall_forall. intros x Hx.
    apply in_map_iff in Hx as (p & <- & _).
    apply nonneg_div; [|apply above_zero_of_Z; lia].
    apply nonneg_of_Z, Zlength'_nonneg.
  - destruct (existsb _ patterns); [|constructor].
    constructor; [|constructor]. cbn [strength relatedPatterns].
    split; [|apply filtered_types].
    apply min_one_unit_interval, nonneg_div; [|exact Hcount].
    apply nonneg_num_sum, List.Forall_forall. intros x Hx.
    apply in_map_iff in Hx as (p & <- & Hp).
    rewrite List.Forall_forall in Hsane. destruct (Hsane p Hp) as (_ & Hc & _).
    destruct (gtb _ _); [|apply nonneg_of_Z; lia].
    apply nonneg_div; [apply nonneg_of_Z, Hc | apply above_zero_of_Z; lia].
Qed.

(** X23: for a thought whose subtree has no negative depth, every emergent
    property derived from its patterns has a strength between 0 and 1, and
    the patterns it names are among the patterns found. *)
Theorem emergent_strength_range (node : FractalThought) :
  Forall (fun t => 0 <= depth t) (flatten node) ->
  Forall (fun e => unit_interval (strength e) /\
                   incl (relatedPatterns e)
                        (map type (identifyRecursivePatterns node)))
    (identifyEmergentProperties node (identifyRecursivePatterns node)).
Proof.
  intros Hdepth.
  apply identifyEmergentProperties_range, identifyRecursivePatterns_sane, Hdepth.
Qed.

Lemma completed_children_nonneg (node : FractalThought) :
  0 <= childCount node - count_children incompleteChild node.
Proof.
  unfold childCount, count_children.
  pose proof (filter_split_length incompleteChild (subThoughts node)) as H.
  pose proof (Zlength'_nonneg
                (List.filter (fun x => negb (incompleteChild x)) (subThoughts node))).
  lia.
Qed.

Lemma calculatePatternStrength_nonneg (node : FractalThought)
    (patterns : list RecursivePattern) (properties : list EmergentProperty) :
  Forall pattern_sane patterns -> patterns <> [] ->
  Forall (fun e => unit_interval (strength e)) properties ->
  nonneg (calculatePatternStrength node patterns properties).
Proof.
  intros Hsane Hne Hprops. unfold calculatePatternStrength. cbv zeta.
  repeat apply nonneg_add; apply nonneg_mul; try (apply nonneg_Fin; lra).
  - apply nonneg_mul; [apply nonneg_mul; apply nonneg_fin|].
    + apply calculateBranchingFactor_nonneg.
    + apply Qlt_le_weak, calculateDepthConsistency_pos.
    + apply nonneg_div; [apply nonneg_of_Z, completed_children_nonneg|].
      apply above_zero_of_Z. lia.
  - apply nonneg_div; [apply nonneg_of_Z, Zlength'_nonneg|].
    apply above_zero_of_Z. lia.
  - apply nonneg_div; [apply maxScale_nonneg; assumption|].
    apply above_zero_of_Z. lia.
  - apply nonneg_div; [|apply above_zero_of_Z; lia].
    apply nonneg_num_sum, List.Forall_forall. intros x Hx.
    apply in_map_iff in Hx as (e & <- & He).
    rewrite List.Forall_forall in Hprops.
    apply unit_interval_nonneg, Hprops, He.
Qed.

(** X24: for a thought that has a pattern (one with sub-thoughts, complete
    or in need of deeper analysis) and no negative depth in its subtree, the
    pattern strength is a finite number that is not negative. *)
Theorem pattern_strength_with_patterns (node : FractalThought) :
  Forall (fun t => 0 <= depth t) (flatten node) ->
  subThoughts node <> [] \/ isComplete node = true \/
    needsDeeperAnalysis node = true ->
  nonneg
    (calculatePatternStrength node (identifyRecursivePatterns node)
       (identifyEmergentProperties node (identifyRecursivePatterns node))).
Proof.
  intros Hdepth Hsome.
  pose proof (identifyRecursivePatterns_sane node Hdepth) as Hsane.
  apply calculatePatternStrength_nonneg; [exact Hsane | |].
  - assert (Hin : exists p, pt_test p node = true /\ In p patternTypes).
    { destruct Hsome as [H|[H|H]].
      - exists (nth 0 patternTypes (mkPatternType "" isLeaf [])).
        split; [|left; reflexivity].
        cbn [nth patternTypes pt_test]. unfold childCount, Zlength'.
        destruct (subThoughts node); [congruence|]. cbn [length].
        apply Z.ltb_lt. lia.
      - exists (nth 1 patternTypes (mkPatternType "" isLeaf [])).
        split; [exact H | right; left; reflexivity].
      - exists (nth 2 patternTypes (mkPatternType "" isLeaf [])).
        split; [exact H | right; right; left; reflexivity]. }
    destruct Hin as (p & Htest & Hp).
    pose proof (own_pattern_found node p Hp Htest) as Hfound.
    intros Hnil. rewrite Hnil in Hfound. destruct Hfound.
  - eapply Forall_impl; [apply identifyEmergentProperties_range, Hsane|].
    cbv beta. intros e [He _]. exact He.
Qed.

Lemma scenario_depths_nonneg :
  Forall (fun t => 0 <= depth t) (flatten Scenario.A).
Proof. repeat (constructor; [cbn; lia|]). constructor. Qed.

Lemma pattern_confidence_range_witness :
  Forall (fun t => 0 <= depth t) (flatten Scenario.A) /\
  Forall (fun p => (3 # 10 <= confidence p <= 1)%Q)
    (identifyRecursivePatterns Scenario.A).
Proof.
  split; [exact scenario_depths_nonneg|].
  exact (pattern_confidence_range Scenario.A scenario_depths_nonneg).
Defined.

Lemma deeper_depths_nonneg :
  Forall (fun t => 0 <= depth t) (flatten Scenario.A_deeper).
Proof. repeat (constructor; [cbn; lia|]). constructor. Qed.

Lemma emergent_strength_range_witness :
  Forall (fun t => 0 <= depth t) (flatten Scenario.A_deeper) /\
  map (fun e => (property e, strength e))
    (identifyEmergentProperties Scenario.A_deeper
       (identifyRecursivePatterns Scenario.A_deeper))
  = [ ("Systematic Exploration", Fin (59 # 200));
      ("Iterative Refinement", Fin (59 # 300)) ] /\
  Forall (fun e => unit_interval (strength e) /\
                   incl (relatedPatterns e)
                        (map type (identifyRecursivePatterns Scenario.A_deeper)))
    (identifyEmergentProperties Scenario.A_deeper
       (identifyRecursivePatterns Scenario.A_deeper)).
Proof.
  split; [exact deeper_depths_nonneg|].
  split; [vm_compute; reflexivity|].
  exact (emergent_strength_range Scenario.A_deeper deeper_depths_nonneg).
Defined.

Lemma pattern_strength_with_patterns_witness :
  Forall (fun t => 0 <= depth t) (flatten Scenario.A) /\
  subThoughts Scenario.A <> [] /\
  nonneg
    (calculatePatternStrength Scenario.A (identifyRecursivePatterns Scenario.A)
       (identifyEmergentProperties Scenario.A
          (identifyRecursivePatterns Scenario.A))).
Proof.
  split; [exact scenario_depths_nonneg|].
  assert (H : subThoughts Scenario.A <> []) by discriminate.
  split; [exact H|].
  exact (pattern_strength_with_patterns Scenario.A scenario_depths_nonneg
           (or_introl H)).
Defined.
